(* ===== verification/_CoqProject ===== *)
-Q . S2P
Prelude.v
GoStd.v
GoChan.v
Types.v
Scheduler.v
EngineLoop.v
Allocator.v
Topo.v
Workflow.v
WorkflowRun.v
Effects.v
MemoryStore.v
Recovery.v
StoreContract.v
Config.v
Cluster.v
AgentCoord.v
Json.v
Marshal.v
JsonText.v
Numbers.v
JsonStruct.v
JsonPrint.v
PyText.v
JsonTyped.v
TestFramework.v
AgentParser.v
GuestAgent.v
AgentRun.v
StepExec.v
ConfigLoad.v
Sql.v
Postgres.v
PostgresSpec.v
PostgresRecover.v
PostgresBench.v
Interfaces.v
TestReports.v
RunWorkflow.v
StepGoroutines.v
Engine.v
Lifecycle.v
GrpcServer.v
EventBus.v
Http.v
RestGateway.v
Startup.v
AgentServer.v
VmManager.v
VmSession.v
VmProcess.v
VmBench.v
VirtioHub.v
AgentLink.v
QmpClient.v
Memory.v
GpuDevice.v
GpuDriver.v
GpuMemory.v
