(* ===== verification/Prelude.v ===== *)
(** * The DVF orchestrator, verified

    DVF runs driver tests inside QEMU virtual machines.  A client submits a
    test run over gRPC or REST; the run is stored and queued; the execution
    engine takes it from the queue when a slot is free, reserves CPUs and
    memory, creates and boots a VM with the device under test, loads the
    driver through the agent inside the guest, runs the steps of the suite in
    the order of their dependencies, stores the results and tears the VM
    down.  This library models that program (Go, under
    [src/go-orchestrator]), the agent inside the guest (Python, under
    [src/python-agent]), the framework of the test binaries (C, under
    [src/c-test-binaries/common]), the simulated accelerator (C, under
    [src/qemu-accelerator-models]) and the memory manager of its kernel
    driver (C, under [src/driver-source/gpgpu_driver]), and proves what they
    are meant to guarantee.

    ** How code is modelled

    A Go function that returns an error gives a [result]; code that can crash
    the process by a panic gives a [go]; a method on shared state is a
    computation [M W A] over a world [W] (Effects).  What a component
    calls is a type class over the world, so its theorems hold for every
    implementation, other goroutines acting between the calls included; the
    implementing component's file gives the instance.  Concurrent code is a
    transition system whose steps end where the code releases a lock, uses a
    channel or returns.  A map that is visited is visited in an order given
    as an argument.  Integers are [Z], reduced to 64 bits where Go's
    arithmetic can wrap; C's words carry their width.  Times are nanoseconds.

    ** Files and what they model

    Foundations.  Prelude: results, machine integers, map visits, generic
    lemmas.  GoStd: [fmt], [strings], [strconv], [path/filepath].  GoChan:
    buffered channels.  Effects: the monad, its [wp], [Total] and [Keeps]
    reasoning, contexts, interfaces.  Json, Marshal, JsonText, JsonStruct,
    JsonPrint, JsonTyped, Numbers: [encoding/json] reading (the scanner as a
    state machine, decoding into structs) and writing, numbers included, with
    the proof that what is written is read back.  PyText: strings of Python.
    Http: [net/http] and [json.Decoder] as used.  Topo: dependency graphs.
    Memory: bytes and words for the C parts.

    Core ([internal/core]).  Types: [types.go].  Scheduler: [scheduler.go].
    Allocator: [allocator.go].  Workflow, WorkflowRun: [workflow.go].
    Recovery, StoreContract: [state_manager.go] and the contract it relies on.
    AgentCoord: [agent_state.go].  StepExec, Interfaces, RunWorkflow, Engine,
    EngineLoop: [execution_engine.go] ([loadTestSuite], [processResults] and
    the commands; the interfaces; [runWorkflow]; [executeTestRun] and
    [SubmitTestRun]; [Start], the worker and [Stop]).  StepGoroutines: worlds
    in which the goroutines a workflow leaves behind go on between the later
    calls.  Lifecycle: the theorems on whole test runs.

    Around it.  MemoryStore: [storage/memory.go].  Sql, Postgres,
    PostgresSpec, PostgresRecover, PostgresBench: [storage/postgres.go], its
    statements with the meaning of SQL, and a server to try it on.  Config,
    ConfigLoad: [config].  Cluster: [cluster].  GrpcServer, AgentServer:
    [api/grpc_server.go], [api/agent_server.go], [storage/store.go].
    RestGateway: [api/rest_gateway.go].  EventBus: [telemetry/event_bus.go],
    [api/telemetry_server.go], [observability/audit.go].  VmManager:
    [vm/manager.go] and [vmManagerAdapter] of [cmd/orchestrator/main.go];
    VmSession, VmProcess, VmBench: the engine over the VM manager.
    VirtioHub: [vm/virtio_serial.go].  QmpClient: [vm/qmp_client.go],
    [vm/qmp_types.go].  Startup: [main] of [cmd/orchestrator/main.go],
    [observability/logger.go], [observability/tracer.go].

    In the guest.  AgentParser, GuestAgent: [python-agent/agent/__main__.py].
    AgentRun, AgentLink: the agent's commands, and the agent at the other end
    of the hub.  TestFramework: [c-test-binaries/common].  TestReports: what a
    test binary reports, followed to the store.

    The accelerator.  GpuDevice: [hw/misc/gp_gpu.c].  GpuDriver:
    [gpgpu_dma.c] and [gpgpu_memory_manager.c] against that device.
    GpuMemory: their theorems.

    ** What is shown

    A test run whose suite identifier names a binary: [executeTestRun] returns
    and refines an abstract life of a run; it gives back every VM, allocation
    and registration it takes; the statuses it writes follow the protocol; no
    test is sent before the driver was loaded on the run's own VM; over the
    real VM manager no VM is left in its tables, and the process of a VM that
    is stopped was waited for or sent SIGTERM and SIGKILL.  All of it counts
    the goroutines of steps that outlive a workflow cut short.  The workflow:
    [NewWorkflow] accepts exactly the graphs without cycles and dangling
    references; steps run after their dependencies passed, a failure skips
    exactly its dependents; the driver with its goroutines returns and never
    blocks for ever.  The queue, the budget and the engine's loop: no run lost
    or dispatched twice, first in first out, never more runs than slots, no
    lost wake-up, exact accounting, and a [Stop] that waits for the runs and
    returns.  Agents and QEMU: a
    command's result goes to its own caller, commands up to the first one to
    shut down are answered once and cross the serial line intact and in order, a QMP response goes to its own
    call as long as no call gave up, and the results of a test binary reach
    the store.  Storage and recovery: the PostgreSQL store refines operations
    on its tables and reads back what it wrote; both stores
    keep the contract under which recovery re-queues only runs in flight, each
    once.  Start-up: [main] waits for a signal or exits with code 1; on a
    database with the schema its queue holds, before the engine starts, exactly
    what recovery found in flight; at shutdown the engine is stopped before the store is closed, and no
    connection stays open, whatever the goroutines do meanwhile.  API,
    configuration and cluster: a submitted run is queued and can be read, the
    gateway's dispatch, readiness and the well-formed answers of the registry; a
    configuration is loaded as written, its variables expanded; eviction hits
    exactly the silent nodes; publishing an event never fails its caller.  The
    accelerator, for requests served one at a time, which the driver's locks do
    not ensure: no access outside of owned memory, page tables apart, an
    address the driver hands out translates to the memory it allocated; and
    its kernel adds vectors.  The theorems on errors pin down behaviour of the code that contradicts its
    intention or its comments.

    ** Fuel and bounds

    [runWorkflow] takes a number of moves, from the steps and their retries,
    in which those that store a result are counted apart, by the results an
    answer holds; RunWorkflow proves that it is enough under every scheduling.
    [climb] takes one turn per path element and two more.  [dial_loop] and
    [commandPump] of the hub loop for ever in the code; their fuel is the
    number of turns observed.  The agent's command loop runs over the lines it
    reads.  Every other recursion is structural.  The JSON round trips hold to
    depth 1000 (Go's limit is 10000).

    ** Assumptions

    Parameters with named laws stand for what is not in the repository: the
    operating system's files, processes and sockets ([Machine],
    [MachineLaws], [SocketLaws], [FileSystem]), the PostgreSQL server and its
    pool ([Database], [DatabaseLaws], [pool_laws]), Redis ([RedisLaws]), the
    kernel's DMA allocator and QEMU's address spaces ([HostMemory]).  A process
    is only known to be gone when [Wait] said so.  What the goroutines of
    [main] do between its statements is a parameter ([others_laws]).  Whether
    an empty slice or map that is stored is nil ([NilSlices]) is one as well:
    it decides between null and an empty list in the database.  Each is
    instantiated by a concrete world in a witness.  [%q] copies bytes above
    ASCII, which Go does for printable text.  [int64] of a float out of range
    is the amd64 instruction's.  A DMA handle and the CPU's pointer to the
    same coherent memory are one number.

    ** Not modelled

    The generated protobuf and gateway code, and [RESTGateway.Register], which
    connects it: the proxy is a parameter.  Log lines other than the audit and
    telemetry ones, spans and metrics, which have no influence on the program;
    what zap and OpenTelemetry do with the configuration they are given.  In
    [main]: the parsing of flags, [loggingInterceptor], which only logs, and a
    server goroutine that fails by itself and ends the process through
    [logger.Fatal].  How long [GracefulStop] takes is gRPC's.  The interleaving
    of the agent's heartbeat thread with its command loop (one turn of it is
    modelled).  The PCIe and ioctl layer of the GPU driver, the FPGA driver,
    which depend on the kernel's interfaces throughout; the individual test
    binaries, which are arguments of the test framework; the local runner and
    the scripts, programs of their own beside the orchestrator or clients of
    it. *)

From stdpp Require Export base tactics strings pretty list gmap fin_maps relations.
From stdpp Require Import options.

(** ** Results of Go calls *)

(** [(T, error)] results: a Go function returns a value or an error, which
    is modelled by its text. *)
Inductive result (A : Type) : Type :=
| Ok (a : A)
| Err (e : string).
Arguments Ok {A} a.
Arguments Err {A} e.

(** A computation that may crash the process by a run-time panic. *)
Inductive go (A : Type) : Type :=
| Done (a : A)
| Panics (why : string).
Arguments Done {A} a.
Arguments Panics {A} why.

Declare Scope dvf_scope.
Delimit Scope dvf_scope with dvf.
Open Scope dvf_scope.

Definition result_bind {A B : Type} (r : result A) (k : A → result B) : result B :=
  match r with Ok a => k a | Err e => Err e end.

Definition go_bind {A B : Type} (r : go A) (k : A → go B) : go B :=
  match r with Done a => k a | Panics w => Panics w end.

Notation "'let!' x ':=' c 'in' k" := (result_bind c (λ x, k))
  (at level 10, x name, k at level 200) : dvf_scope.
Notation "'let?' x ':=' c 'in' k" := (go_bind c (λ x, k))
  (at level 10, x name, k at level 200) : dvf_scope.

Definition is_ok {A : Type} (r : result A) : bool :=
  match r with Ok _ => true | Err _ => false end.

(** ** Machine integers *)

(** Two's complement reduction to [w] bits. *)
Definition wrap (w : Z) (z : Z) : Z :=
  ((z + 2 ^ (w - 1)) `mod` 2 ^ w - 2 ^ (w - 1))%Z.

(** Go's [int] and [int64] (the program targets 64-bit hosts), and [int32]. *)
Definition int64 (z : Z) : Z := wrap 64 z.
Definition int32 (z : Z) : Z := wrap 32 z.

Global Arguments int64 : simpl never.
Global Arguments int32 : simpl never.

Definition max_int64 : Z := (2 ^ 63 - 1)%Z.
Definition min_int64 : Z := (- 2 ^ 63)%Z.

Definition in_int64 (z : Z) : Prop := (min_int64 ≤ z ≤ max_int64)%Z.

Global Instance in_int64_dec z : Decision (in_int64 z) := _.

Lemma int64_id z : in_int64 z → int64 z = z.
Proof.
  unfold in_int64, int64, wrap, min_int64, max_int64. intros H.
  rewrite Z.mod_small; lia.
Qed.

Lemma int64_range z : in_int64 (int64 z).
Proof.
  unfold in_int64, int64, wrap, min_int64, max_int64.
  pose proof (Z.mod_pos_bound (z + 2 ^ 63) (2 ^ 64) ltac:(lia)).
  replace (64 - 1)%Z with 63%Z by lia. lia.
Qed.

Lemma int32_id z : (- 2 ^ 31 ≤ z < 2 ^ 31)%Z → int32 z = z.
Proof. unfold int32, wrap. intros H. rewrite Z.mod_small; lia. Qed.


(** ** Ranging over a Go map

    Go visits the entries of a map in an unspecified order.  Every loop
    [for k, v := range m] of the program takes the order of its visit as an
    argument [ord]; [iteration_of m ord] says that [ord] is a legal visit:
    each key once. *)
Definition iteration_of {V : Type} (m : gmap string V) (ord : list string) : Prop :=
  ord ≡ₚ (map_to_list m).*1.

(** The visited entries. *)
Definition map_range {V : Type} (m : gmap string V) (ord : list string) : list (string * V) :=
  omap (λ k, v ← m !! k; Some (k, v)) ord.

(** A default visit, for executable examples. *)
Definition map_keys {V : Type} (m : gmap string V) : list string := (map_to_list m).*1.

Section map_iteration.
Context {V : Type}.
Implicit Types (m : gmap string V) (ord : list string).

Lemma iteration_of_keys m : iteration_of m (map_keys m).
Proof. unfold iteration_of, map_keys. reflexivity. Qed.

Lemma iteration_of_NoDup m ord : iteration_of m ord → NoDup ord.
Proof. unfold iteration_of. intros ->. apply NoDup_fst_map_to_list. Qed.

Lemma iteration_of_elem m ord k :
  iteration_of m ord → k ∈ ord ↔ is_Some (m !! k).
Proof.
  unfold iteration_of. intros ->. rewrite list_elem_of_fmap. split.
  - intros ([k' v] & -> & H%elem_of_map_to_list). eauto.
  - intros [v Hv]. exists (k, v). by rewrite elem_of_map_to_list.
Qed.

Lemma iteration_of_length m ord : iteration_of m ord → length ord = size m.
Proof.
  unfold iteration_of. intros ->. by rewrite length_fmap, length_map_to_list.
Qed.

Lemma iteration_of_intro m ord :
  NoDup ord → (∀ k, k ∈ ord ↔ is_Some (m !! k)) → iteration_of m ord.
Proof.
  intros Hnd Hiff. apply NoDup_Permutation; [done|apply NoDup_fst_map_to_list|].
  intros k. rewrite Hiff, list_elem_of_fmap. split.
  - intros [v Hv]. exists (k, v). by rewrite elem_of_map_to_list.
  - intros ([k' v] & -> & H%elem_of_map_to_list). eauto.
Qed.

Lemma elem_of_map_range m ord k v :
  iteration_of m ord → (k, v) ∈ map_range m ord ↔ m !! k = Some v.
Proof.
  intros Hit. unfold map_range. rewrite list_elem_of_omap. split.
  - intros (k' & _ & Hk). destruct (m !! k') eqn:E; simplify_option_eq. done.
  - intros Hk. exists k. rewrite Hk. split; [|done].
    rewrite iteration_of_elem by done. eauto.
Qed.

Lemma map_range_permutation m ord :
  iteration_of m ord → map_range m ord ≡ₚ map_to_list m.
Proof.
  intros Hit. unfold map_range.
  rewrite Hit. clear Hit ord.
  assert (H : ∀ l : list (string * V), (∀ p, p ∈ l → m !! p.1 = Some p.2) →
    omap (λ k, v ← m !! k; Some (k, v)) l.*1 = l).
  { induction l as [|[k v] l IH]; intros Hl; [done|]. simpl.
    pose proof (Hl (k, v) ltac:(left)) as Hk. simpl in Hk. rewrite Hk. simpl.
    f_equal. apply IH.
    intros p Hp. apply Hl. by right. }
  rewrite H; [done|]. intros [k v] Hp%elem_of_map_to_list. done.
Qed.

End map_iteration.

(** ** Lookups in updated lists and maps *)

Lemma NoDup_fmap_inj {A B : Type} (f : A → B) (l : list A) x y :
  NoDup (f <$> l) → x ∈ l → y ∈ l → f x = f y → x = y.
Proof.
  induction l as [|z l IH]; [by intros _ ?%not_elem_of_nil|]. csimpl.
  intros [Hz Hnd]%NoDup_cons Hx Hy Hf.
  apply elem_of_cons in Hx as [->|Hx]; apply elem_of_cons in Hy as [->|Hy]; auto;
    destruct Hz; [rewrite Hf|rewrite <- Hf]; by apply list_elem_of_fmap_2.
Qed.

Lemma elem_of_values {V} (m : gmap string V) ord v :
  iteration_of m ord → v ∈ (map_range m ord).*2 ↔ ∃ k, m !! k = Some v.
Proof.
  intros Hit. rewrite list_elem_of_fmap. split.
  - intros ([k v'] & -> & H%elem_of_map_range); eauto.
  - intros [k Hk]. exists (k, v). by rewrite elem_of_map_range.
Qed.

Lemma map_to_list_filter_perm {V : Type} (P : string * V → Prop) `{!∀ x, Decision (P x)} (m : gmap string V) :
  map_to_list (filter P m) ≡ₚ filter P (map_to_list m).
Proof.
  rewrite map_filter_alt. apply map_to_list_to_map.
  eapply sublist_NoDup; [apply (NoDup_fst_map_to_list m)|]. apply fmap_sublist, sublist_filter.
Qed.

Lemma decide_cons_ne {A B : Type} `{EqDecision A} (k x : A) (l : list A) (P Q : B) :
  k ≠ x → (if decide (x ∈ k :: l) then P else Q) = (if decide (x ∈ l) then P else Q).
Proof.
  intros Hne. destruct (decide (x ∈ l)); [rewrite decide_True by (by right)|rewrite decide_False]; try done.
  rewrite elem_of_cons. naive_solver.
Qed.

Lemma map_range_cons {V : Type} (m : gmap string V) k ord :
  map_range m (k :: ord) =
  match m !! k with Some v => (k, v) :: map_range m ord | None => map_range m ord end.
Proof. unfold map_range. simpl. by destruct (m !! k). Qed.

Lemma map_range_ext {V : Type} (m m' : gmap string V) ord :
  (∀ k, k ∈ ord → m' !! k = m !! k) → map_range m' ord = map_range m ord.
Proof.
  unfold map_range. induction ord as [|k ord IH]; intros H; [done|].
  assert (Hk : m' !! k = m !! k) by (apply H; left).
  simpl. rewrite Hk. destruct (m !! k); simpl; [f_equal|]; apply IH; intros k' Hk'; apply H; by right.
Qed.

(** ** Invariants of step relations *)
Lemma rtc_invariant {A : Type} (R : relation A) (P : A → Prop) :
  (∀ x y, P x → R x y → P y) → ∀ x y, rtc R x y → P x → P y.
Proof. intros Hstep x y. induction 1; eauto. Qed.

(** ** Strings *)

Lemma str_app_assoc (a b c : string) : (a +:+ b) +:+ c = a +:+ (b +:+ c).
Proof. induction a as [|x a IH]; [done|]. exact (f_equal (String x) IH). Qed.

Lemma str_app_nil (a : string) : a +:+ "" = a.
Proof. induction a as [|x a IH]; [done|]. exact (f_equal (String x) IH). Qed.

Lemma str_length_app (a b : string) : String.length (a +:+ b) = String.length a + String.length b.
Proof. induction a as [|c a IH]; [done|]. exact (f_equal S IH). Qed.

Lemma str_app_inj_l (p a b : string) : p +:+ a = p +:+ b → a = b.
Proof. induction p as [|x p IH]; [done|]. intros [=]. by apply IH. Qed.

Lemma str_app_inj_r (a b p : string) : a +:+ p = b +:+ p → a = b.
Proof.
  revert b. induction a as [|c a IH]; intros [|d b] E; [done|..].
  1,2: apply (f_equal String.length) in E; rewrite !str_length_app in E; simpl in E; lia.
  injection E as -> E. by rewrite (IH _ E).
Qed.
