(* ===== verification/GoStd.v ===== *)
(** * The parts of Go's standard library the orchestrator uses

    Strings are byte strings.  [fmt_d], [fmt_q] and [fmt_v_strings] are the
    verbs [%d], [%q] and [%v] of a string list; [Fields], [ParseInt],
    [HasPrefix] come from [strings] and [strconv]; [Clean], [Join] and [Dir]
    from [path/filepath] on Unix.  [%q] escapes the ASCII control characters,
    the quote and the backslash and copies every other byte, which is what Go
    does on printable UTF-8 text; [Fields] splits at ASCII white space. *)
From Stdlib Require Import Ascii.
From stdpp Require Import options.
From S2P Require Import Prelude.

Open Scope string_scope.
Open Scope list_scope.
Open Scope nat_scope.

(** [%d] *)
Definition fmt_d (z : Z) : string := pretty z.

Definition dquote : ascii := ascii_of_nat 34.
Definition backslash : ascii := ascii_of_nat 92.

Definition hex_digit (n : nat) : ascii :=
  ascii_of_nat (if decide (n < 10) then 48 + n else 87 + n).

(** One byte of a quoted string. *)
Definition quote_byte (c : ascii) : string :=
  let n := nat_of_ascii c in
  let esc (k : nat) := String backslash (String (ascii_of_nat k) EmptyString) in
  match n with
  | 34 => esc 34
  | 92 => esc 92
  | 7 => esc 97
  | 8 => esc 98
  | 12 => esc 102
  | 10 => esc 110
  | 13 => esc 114
  | 9 => esc 116
  | 11 => esc 118
  | _ =>
    if decide (n < 32 ∨ n = 127) then
      String backslash (String (ascii_of_nat 120)
        (String (hex_digit (n / 16)) (String (hex_digit (n mod 16)) EmptyString)))
    else String c EmptyString
  end.

Fixpoint quote_body (s : string) : string :=
  match s with
  | EmptyString => EmptyString
  | String c s' => quote_byte c +:+ quote_body s'
  end.

(** [%q] *)
Definition fmt_q (s : string) : string :=
  String dquote (quote_body s +:+ String dquote EmptyString).

Fixpoint join_with (sep : string) (l : list string) : string :=
  match l with
  | [] => EmptyString
  | [s] => s
  | s :: l' => s +:+ sep +:+ join_with sep l'
  end.

(** [%v] of a [[]string] *)
Definition fmt_v_strings (l : list string) : string := "[" +:+ join_with " " l +:+ "]".

(** [strings.HasPrefix(s, p)] *)
Definition HasPrefix (s p : string) : bool := String.prefix p s.

(** [s[n:]] of a string at least [n] bytes long, and [s[:n]]. *)
Fixpoint str_drop (n : nat) (s : string) : string :=
  match n, s with
  | O, _ => s
  | S n', String _ s' => str_drop n' s'
  | S _, EmptyString => EmptyString
  end.

Fixpoint str_take (n : nat) (s : string) : string :=
  match n, s with
  | S n', String c s' => String c (str_take n' s')
  | _, _ => EmptyString
  end.

(** Splits [s] at the bytes [sep] recognises, keeping empty pieces. *)
Fixpoint split_on (sep : ascii → bool) (s : string) : list string :=
  match s with
  | EmptyString => [EmptyString]
  | String c s' =>
    if sep c then EmptyString :: split_on sep s'
    else match split_on sep s' with
         | w :: ws => String c w :: ws
         | [] => [String c EmptyString]
         end
  end.

Definition nonempty (s : string) : bool := bool_decide (s ≠ EmptyString).

Definition is_space (c : ascii) : bool :=
  let n := nat_of_ascii c in
  bool_decide (n = 9 ∨ n = 10 ∨ n = 11 ∨ n = 12 ∨ n = 13 ∨ n = 32).

(** [strings.Fields(s)] *)
Definition Fields (s : string) : list string :=
  filter (λ w, nonempty w) (split_on is_space s).

Definition digit_val (c : ascii) : option Z :=
  let n := nat_of_ascii c in
  if decide (48 ≤ n ≤ 57) then Some (Z.of_nat n - 48)%Z else None.

Fixpoint parse_digits (acc : Z) (s : string) : option Z :=
  match s with
  | EmptyString => Some acc
  | String c s' => d ← digit_val c; parse_digits (acc * 10 + d) s'
  end.

(** [strconv.ParseInt(s, 10, 64)] *)
Definition ParseInt (s : string) : result Z :=
  let '(neg, body) :=
    match s with
    | String c s' =>
      if decide (c = "-"%char) then (true, s')
      else if decide (c = "+"%char) then (false, s') else (false, s)
    | EmptyString => (false, EmptyString)
    end in
  if decide (body = EmptyString) then Err ("strconv.ParseInt: parsing " +:+ fmt_q s +:+ ": invalid syntax")
  else match parse_digits 0 body with
  | None => Err ("strconv.ParseInt: parsing " +:+ fmt_q s +:+ ": invalid syntax")
  | Some n =>
    let z := if neg : bool then (- n)%Z else n in
    if decide (in_int64 z) then Ok z
    else Err ("strconv.ParseInt: parsing " +:+ fmt_q s +:+ ": value out of range")
  end.

(** ** File paths *)

Definition is_slash (c : ascii) : bool := bool_decide (c = "/"%char).

(** The elements of a cleaned path, innermost first: empty and [.] elements
    are dropped, [..] removes the element before it, and is dropped at the
    root. *)
Fixpoint clean_elems (rooted : bool) (stack : list string) (elems : list string) : list string :=
  match elems with
  | [] => stack
  | e :: es =>
    clean_elems rooted
      (if decide (e = EmptyString ∨ e = ".") then stack
       else if decide (e = "..") then
         match stack with
         | [] => if rooted then [] else [".."]
         | t :: stack' => if decide (t = "..") then ".." :: stack else stack'
         end
       else e :: stack) es
  end.

(** [filepath.Clean(path)] *)
Definition Clean (path : string) : string :=
  let rooted := HasPrefix path "/" in
  let elems := reverse (clean_elems rooted [] (split_on is_slash path)) in
  let body := join_with "/" elems in
  if rooted : bool then "/" +:+ body
  else if decide (body = EmptyString) then "." else body.

(** [filepath.Join(elems...)] *)
Definition Join (elems : list string) : string :=
  match filter (λ w, nonempty w) elems with
  | [] => EmptyString
  | es => Clean (join_with "/" es)
  end.

(** [filepath.Dir(path)]: everything up to the last slash, cleaned. *)
Definition Dir (path : string) : string :=
  let elems := split_on is_slash path in
  Clean (join_with "/" (take (length elems - 1) elems ++ [EmptyString])).

(** Where a string is cut. *)
Lemma split_on_ne sep s : split_on sep s ≠ [].
Proof. destruct s as [|c s]; [done|]. simpl. destruct (sep c); [done|]. by destruct (split_on sep s). Qed.

Lemma split_on_cut sep a c b : sep c = true → split_on sep (a +:+ String c b) = split_on sep a ++ split_on sep b.
Proof.
  intros Hc. induction a as [|d a IH]; simpl; [by rewrite Hc|]. rewrite IH.
  destruct (sep d); [done|]. by destruct (split_on sep a) eqn:E; [destruct (split_on_ne sep a)|].
Qed.

Lemma split_plain_app sep a b : split_on sep a = [a] → split_on sep b = [b] → split_on sep (a +:+ b) = [a +:+ b].
Proof.
  induction a as [|c a IH]; intros Ha Hb; [done|]. simpl in *. destruct (sep c).
  { destruct (split_on_ne sep a). by injection Ha. }
  destruct (split_on sep a) as [|s ss] eqn:E; [by destruct (split_on_ne sep a)|].
  injection Ha as -> ->. by rewrite IH.
Qed.

Example quote_plain : fmt_q "a b" = String dquote ("a b" +:+ String dquote EmptyString).
Proof. reflexivity. Qed.

Example clean_1 : Clean "/a/./b/../c//" = "/a/c".
Proof. reflexivity. Qed.
Example clean_2 : Clean "../../x/.." = "../..".
Proof. reflexivity. Qed.
Example clean_3 : Clean "" = ".".
Proof. reflexivity. Qed.
Example join_1 : Join ["/tmp/dvf/agent"; "vm-1.sock"] = "/tmp/dvf/agent/vm-1.sock".
Proof. reflexivity. Qed.
Example dir_1 : Dir "/usr/bin/qemu" = "/usr/bin".
Proof. reflexivity. Qed.
Example dir_2 : Dir "qemu" = ".".
Proof. reflexivity. Qed.
Example dir_3 : Dir "/qemu" = "/".
Proof. reflexivity. Qed.
Example parse_1 : ParseInt "-9223372036854775808" = Ok (-9223372036854775808)%Z.
Proof. reflexivity. Qed.
Example fields_1 : Fields "MemTotal:       32768000 kB" = ["MemTotal:"; "32768000"; "kB"].
Proof. reflexivity. Qed.
