(* ===== verification/GoChan.v ===== *)
(** * Go channels

    The buffered channels the orchestrator communicates over: the wake-up
    channel of the scheduler, the command queue and the result channel of a
    guest agent, the response and event channels of the QMP client.  A
    channel is a bounded buffer with a closed flag; an unbuffered channel is
    used by the program only as a signal that is closed and never sent to. *)
From stdpp Require Import options.
From S2P Require Import Prelude.

Record chan (A : Type) : Type := mkChan {
  ch_cap : nat;
  ch_buf : list A;
  ch_closed : bool;
}.
Arguments mkChan {A}.
Arguments ch_cap {A}.
Arguments ch_buf {A}.
Arguments ch_closed {A}.

(** [make(chan A, n)] *)
Definition make_chan {A : Type} (n : nat) : chan A := mkChan n [] false.

(** [c <- x]: sent, not possible yet, or the panic of a closed channel. *)
Inductive send_result (A : Type) : Type :=
| Sent (c : chan A)
| SendBlocks
| SendPanics.
Arguments Sent {A} c.
Arguments SendBlocks {A}.
Arguments SendPanics {A}.

Definition chan_send {A : Type} (c : chan A) (x : A) : send_result A :=
  if ch_closed c then SendPanics
  else if decide (length (ch_buf c) < ch_cap c)
  then Sent (mkChan (ch_cap c) (ch_buf c ++ [x]) false)
  else SendBlocks.

(** [select { case c <- x: default: }] *)
Definition chan_offer {A : Type} (c : chan A) (x : A) : go (chan A) :=
  match chan_send c x with
  | Sent c' => Done c'
  | SendBlocks => Done c
  | SendPanics => Panics "send on closed channel"
  end.

(** [x, ok := <-c]: a value, the closed channel, or nothing yet. *)
Inductive recv_result (A : Type) : Type :=
| Received (x : A) (c : chan A)
| RecvClosed
| RecvBlocks.
Arguments Received {A} x c.
Arguments RecvClosed {A}.
Arguments RecvBlocks {A}.

Definition chan_recv {A : Type} (c : chan A) : recv_result A :=
  match ch_buf c with
  | x :: b => Received x (mkChan (ch_cap c) b (ch_closed c))
  | [] => if ch_closed c then RecvClosed else RecvBlocks
  end.

(** [close(c)] *)
Definition chan_close {A : Type} (c : chan A) : go (chan A) :=
  if ch_closed c then Panics "close of closed channel"
  else Done (mkChan (ch_cap c) (ch_buf c) true).

(** The buffer of a channel never exceeds its capacity. *)
Definition chan_ok {A : Type} (c : chan A) : Prop := length (ch_buf c) ≤ ch_cap c.

Section chan_lemmas.
Context {A : Type}.
Implicit Types (c : chan A) (x : A).

Lemma chan_send_ok c x c' : chan_ok c → chan_send c x = Sent c' → chan_ok c'.
Proof.
  unfold chan_ok, chan_send. intros Hc. repeat case_match; try done.
  intros [= <-]. simpl. rewrite length_app. simpl. lia.
Qed.

Lemma chan_recv_ok c x c' : chan_ok c → chan_recv c = Received x c' → chan_ok c'.
Proof.
  unfold chan_ok, chan_recv. destruct (ch_buf c); [by case_match|].
  simpl. intros ? [= <- <-]. simpl. lia.
Qed.

Lemma chan_offer_open c x :
  ch_closed c = false → ∃ c', chan_offer c x = Done c'.
Proof. unfold chan_offer, chan_send. intros ->. case_decide; eauto. Qed.

Lemma chan_offer_inv c x c' :
  chan_offer c x = Done c' →
  ch_closed c = false ∧ ch_closed c' = false ∧ ch_cap c' = ch_cap c ∧
  (c' = c ∧ ch_cap c ≤ length (ch_buf c) ∨
   ch_buf c' = ch_buf c ++ [x] ∧ length (ch_buf c) < ch_cap c).
Proof.
  unfold chan_offer, chan_send. destruct (ch_closed c) eqn:E; [done|].
  case_decide; intros [= <-]; simpl; split_and!; auto; left; split; [done|lia].
Qed.

(** After an offer the buffer holds a value. *)
Lemma chan_offer_nonempty c x c' :
  0 < ch_cap c → chan_offer c x = Done c' → ch_buf c' ≠ [].
Proof.
  intros Hcap (_ & _ & _ & [[-> ?]|[-> ?]])%chan_offer_inv.
  - destruct (ch_buf c); [simpl in *; lia|done].
  - by destruct (ch_buf c).
Qed.

Lemma chan_offer_ok c x c' : chan_ok c → chan_offer c x = Done c' → chan_ok c'.
Proof.
  unfold chan_ok. intros Hc (_ & _ & Hcap & [[-> ?]|[Hb ?]])%chan_offer_inv; [done|].
  rewrite Hb, Hcap, length_app. simpl. lia.
Qed.

Lemma make_chan_ok n : chan_ok (make_chan (A:=A) n).
Proof. unfold chan_ok, make_chan. simpl. lia. Qed.

End chan_lemmas.

Create HintDb go_chan.
#[export] Hint Resolve chan_send_ok chan_recv_ok chan_offer_ok make_chan_ok : go_chan.
