(* ===== verification/Types.v ===== *)
(** * Domain types

    The types of [core/types.go] and of the guest-agent protocol declared in
    [core/execution_engine.go].  A Go string enumeration is an inductive type
    with one constructor per declared constant and one, [..Unset], for the
    zero value (the empty string), which the program uses as "no filter" and
    "not set".  [time.Time] is a number of nanoseconds since the epoch, a
    [*time.Time] an option. *)
From Stdlib Require Import SpecFloat.
From stdpp Require Import options.
From S2P Require Import Prelude.

(** A [float64]: the values of IEEE 754 binary64 are [spec_float]s. *)
Abbreviation float64 := spec_float.

Inductive TestRunStatus : Set :=
| TestRunStatusPending
| TestRunStatusQueued
| TestRunStatusRunning
| TestRunStatusPassed
| TestRunStatusFailed
| TestRunStatusErrored
| TestRunStatusCancelled
| TestRunStatusTimeout
| TestRunStatusUnset.

Inductive VMStatus : Set :=
| VMStatusCreating
| VMStatusBooting
| VMStatusReady
| VMStatusRunningTest
| VMStatusStopping
| VMStatusStopped
| VMStatusError
| VMStatusDestroyed
| VMStatusUnset.

Inductive AgentStatus : Set :=
| AgentStatusUnknown
| AgentStatusInitializing
| AgentStatusReady
| AgentStatusExecuting
| AgentStatusReporting
| AgentStatusDead
| AgentStatusUnset.

Inductive TestCategory : Set :=
| TestCategoryReadWrite
| TestCategoryInterrupt
| TestCategoryErrorInjection
| TestCategoryStress
| TestCategoryPowerManagement
| TestCategoryConcurrency
| TestCategoryDataIntegrity
| TestCategoryUnset.

Global Instance TestRunStatus_eq_dec : EqDecision TestRunStatus.
Proof. solve_decision. Defined.
Global Instance VMStatus_eq_dec : EqDecision VMStatus.
Proof. solve_decision. Defined.
Global Instance AgentStatus_eq_dec : EqDecision AgentStatus.
Proof. solve_decision. Defined.
Global Instance TestCategory_eq_dec : EqDecision TestCategory.
Proof. solve_decision. Defined.

(** [string(status)] *)
Definition TestRunStatus_string (s : TestRunStatus) : string :=
  match s with
  | TestRunStatusPending => "PENDING"
  | TestRunStatusQueued => "QUEUED"
  | TestRunStatusRunning => "RUNNING"
  | TestRunStatusPassed => "PASSED"
  | TestRunStatusFailed => "FAILED"
  | TestRunStatusErrored => "ERRORED"
  | TestRunStatusCancelled => "CANCELLED"
  | TestRunStatusTimeout => "TIMEOUT"
  | TestRunStatusUnset => ""
  end.

Definition VMStatus_string (s : VMStatus) : string :=
  match s with
  | VMStatusCreating => "CREATING"
  | VMStatusBooting => "BOOTING"
  | VMStatusReady => "READY"
  | VMStatusRunningTest => "RUNNING_TEST"
  | VMStatusStopping => "STOPPING"
  | VMStatusStopped => "STOPPED"
  | VMStatusError => "ERROR"
  | VMStatusDestroyed => "DESTROYED"
  | VMStatusUnset => ""
  end.

Definition AgentStatus_string (s : AgentStatus) : string :=
  match s with
  | AgentStatusUnknown => "UNKNOWN"
  | AgentStatusInitializing => "INITIALIZING"
  | AgentStatusReady => "READY"
  | AgentStatusExecuting => "EXECUTING"
  | AgentStatusReporting => "REPORTING"
  | AgentStatusDead => "DEAD"
  | AgentStatusUnset => ""
  end.

Definition TestCategory_string (c : TestCategory) : string :=
  match c with
  | TestCategoryReadWrite => "read_write"
  | TestCategoryInterrupt => "interrupt_handling"
  | TestCategoryErrorInjection => "error_injection"
  | TestCategoryStress => "stress_performance"
  | TestCategoryPowerManagement => "power_management"
  | TestCategoryConcurrency => "concurrency"
  | TestCategoryDataIntegrity => "data_integrity"
  | TestCategoryUnset => ""
  end.

Record TestRun : Type := mkTestRun {
  tr_ID : string;
  tr_DeviceID : string;
  tr_TestSuiteID : string;
  tr_Status : TestRunStatus;
  tr_VMID : string;
  tr_Priority : Z;
  tr_CreatedAt : Z;
  tr_StartedAt : option Z;
  tr_CompletedAt : option Z;
  tr_DurationMs : Z;
  tr_RequestedBy : string;
  tr_Tags : list string;
  tr_ErrorMessage : string;
}.

Record TestResult : Type := mkTestResult {
  res_ID : string;
  res_TestRunID : string;
  res_TestName : string;
  res_Category : TestCategory;
  res_Status : TestRunStatus;
  res_DurationMs : Z;
  res_Message : string;
  res_Metrics : gmap string float64;
  res_Logs : string;
  res_CompletedAt : Z;
}.

Record VMInstance : Type := mkVMInstance {
  vm_ID : string;
  vm_Status : VMStatus;
  vm_DeviceID : string;
  vm_QEMUDeviceName : string;
  vm_QMPSocketPath : string;
  vm_SerialPorts : list string;
  vm_PID : Z;
  vm_AllocatedCPUs : Z;
  vm_AllocatedMemMB : Z;
  vm_ImagePath : string;
  vm_OverlayPath : string;
  vm_CreatedAt : Z;
  vm_AgentStatus : AgentStatus;
  vm_LastHeartbeat : option Z;
  vm_CurrentTestRunID : string;
}.

Record WorkflowStep : Type := mkWorkflowStep {
  ws_ID : string;
  ws_TestBinary : string;
  ws_Args : list string;
  ws_DependsOn : list string;
  ws_RetryMax : Z;
  ws_TimeoutSec : Z;
}.

Record TestSuite : Type := mkTestSuite {
  ts_ID : string;
  ts_Name : string;
  ts_DeviceID : string;
  ts_Category : TestCategory;
  ts_Description : string;
  ts_BinaryPath : string;
  ts_Steps : list WorkflowStep;
  ts_Timeout : Z;
  ts_Tags : list string;
}.

Record ListTestRunsRequest : Type := mkListTestRunsRequest {
  ltr_DeviceID : string;
  ltr_Status : TestRunStatus;
  ltr_Limit : Z;
  ltr_Offset : Z;
}.

Record ListVMsRequest : Type := mkListVMsRequest {
  lvm_Status : VMStatus;
  lvm_DeviceID : string;
}.

(** The dynamic values the engine puts into a command's parameters. *)
Inductive param : Type :=
| PString (s : string)
| PStrings (l : list string)
| PEnv (env : gmap string string).

Record AgentCommand : Type := mkAgentCommand {
  ac_ID : string;
  ac_Type : string;
  ac_Parameters : gmap string param;
}.

Record AgentResult : Type := mkAgentResult {
  ar_CommandID : string;
  ar_Status : string;
  ar_Output : string;
  ar_Logs : string;
  ar_DurationMs : Z;
}.

(** Field assignments [run.Status = s], [run.VMID = v], [vm.Status = s]. *)
Definition set_tr_Status (s : TestRunStatus) (r : TestRun) : TestRun :=
  mkTestRun (tr_ID r) (tr_DeviceID r) (tr_TestSuiteID r) s (tr_VMID r) (tr_Priority r)
    (tr_CreatedAt r) (tr_StartedAt r) (tr_CompletedAt r) (tr_DurationMs r)
    (tr_RequestedBy r) (tr_Tags r) (tr_ErrorMessage r).

Definition set_tr_VMID (v : string) (r : TestRun) : TestRun :=
  mkTestRun (tr_ID r) (tr_DeviceID r) (tr_TestSuiteID r) (tr_Status r) v (tr_Priority r)
    (tr_CreatedAt r) (tr_StartedAt r) (tr_CompletedAt r) (tr_DurationMs r)
    (tr_RequestedBy r) (tr_Tags r) (tr_ErrorMessage r).

Definition set_vm_Status (s : VMStatus) (v : VMInstance) : VMInstance :=
  mkVMInstance (vm_ID v) s (vm_DeviceID v) (vm_QEMUDeviceName v) (vm_QMPSocketPath v)
    (vm_SerialPorts v) (vm_PID v) (vm_AllocatedCPUs v) (vm_AllocatedMemMB v)
    (vm_ImagePath v) (vm_OverlayPath v) (vm_CreatedAt v) (vm_AgentStatus v)
    (vm_LastHeartbeat v) (vm_CurrentTestRunID v).

Definition set_vm_PID (pid : Z) (v : VMInstance) : VMInstance :=
  mkVMInstance (vm_ID v) (vm_Status v) (vm_DeviceID v) (vm_QEMUDeviceName v)
    (vm_QMPSocketPath v) (vm_SerialPorts v) pid (vm_AllocatedCPUs v) (vm_AllocatedMemMB v)
    (vm_ImagePath v) (vm_OverlayPath v) (vm_CreatedAt v) (vm_AgentStatus v)
    (vm_LastHeartbeat v) (vm_CurrentTestRunID v).

(** The states a run never leaves by itself. *)
Definition terminal (s : TestRunStatus) : bool :=
  match s with
  | TestRunStatusPassed | TestRunStatusFailed | TestRunStatusErrored
  | TestRunStatusCancelled | TestRunStatusTimeout => true
  | _ => false
  end.

(** A run with the given identity and every other field zero. *)
Definition blank_run (id device suite : string) : TestRun :=
  mkTestRun id device suite TestRunStatusPending "" 0 0 None None 0 "" [] "".
