(* ===== verification/Scheduler.v ===== *)
(** * The FIFO scheduler ([core/scheduler.go])

    The queue of pending runs, the count of execution slots in use and the
    one-place channel that wakes the engine's worker.  The operations are
    given twice: whole, as the code has them, and cut into the parts other
    goroutines can interleave with (the critical section under [s.mu], and
    the signal sent after it is left).  [sched_step] interleaves the parts of
    any number of submitting and releasing goroutines with the engine's
    worker, and carries the log of what was submitted and dispatched. *)
From stdpp Require Import options.
From S2P Require Import Prelude GoChan Types.

Record Scheduler : Type := mkScheduler {
  maxConcurrent : Z;
  activeCount : Z;
  queue : list TestRun;
  notify : chan unit;
}.

Definition NewScheduler (maxConcurrent : Z) : Scheduler :=
  mkScheduler (if decide (maxConcurrent ≤ 0)%Z then 1%Z else maxConcurrent) 0 []
    (make_chan 1).

(** The critical section of [Enqueue]. *)
Definition enqueue_locked (run : TestRun) (s : Scheduler) : Scheduler :=
  mkScheduler (maxConcurrent s) (activeCount s) (queue s ++ [run]) (notify s).

(** The non-blocking signal on [notify], which panics on a closed channel. *)
Definition signal (s : Scheduler) : go Scheduler :=
  let? c := chan_offer (notify s) tt in
  Done (mkScheduler (maxConcurrent s) (activeCount s) (queue s) c).

Definition Enqueue (run : TestRun) (s : Scheduler) : go Scheduler :=
  signal (enqueue_locked run s).

(** The guard [s.activeCount < s.maxConcurrent && len(s.queue) > 0]. *)
Definition dispatchable (s : Scheduler) : bool :=
  bool_decide (activeCount s < maxConcurrent s)%Z && bool_decide (0 < length (queue s)).

(** The critical section of [Next]; the whole of [TryNext]. *)
Definition TryNext (s : Scheduler) : option TestRun * Scheduler :=
  if dispatchable s then
    match queue s with
    | run :: q => (Some run, mkScheduler (maxConcurrent s) (activeCount s + 1) q (notify s))
    | [] => (None, s)
    end
  else (None, s).

(** The outcome of a call to [Next] that no other goroutine interrupts. *)
Inductive NextOutcome : Type :=
| NextRun (run : TestRun)
| NextNil
| NextBlocked.

(** The loop of [Next]: each turn that does not return takes a wake-up from
    the channel, so the loop is structural in the wake-ups. *)
Fixpoint next_loop (wakeups : list unit) (s : Scheduler) : NextOutcome * Scheduler :=
  match TryNext s with
  | (Some run, s') => (NextRun run, s')
  | (None, _) =>
    match wakeups with
    | _ :: b =>
      next_loop b (mkScheduler (maxConcurrent s) (activeCount s) (queue s)
        (mkChan (ch_cap (notify s)) b (ch_closed (notify s))))
    | [] => if ch_closed (notify s) then (NextNil, s) else (NextBlocked, s)
    end
  end.

Definition Next (s : Scheduler) : NextOutcome * Scheduler :=
  next_loop (ch_buf (notify s)) s.

(** The critical section of [Release]. *)
Definition release_locked (s : Scheduler) : Scheduler :=
  mkScheduler (maxConcurrent s)
    (if decide (0 < activeCount s)%Z then activeCount s - 1 else activeCount s)%Z
    (queue s) (notify s).

(** [Release] recovers from the panic of a signal on a closed channel. *)
Definition signal_recover (s : Scheduler) : Scheduler :=
  match signal s with Done s' => s' | Panics _ => s end.

Definition Release (s : Scheduler) : Scheduler := signal_recover (release_locked s).

Definition QueueLen (s : Scheduler) : nat := length (queue s).

Definition ActiveCount (s : Scheduler) : Z := activeCount s.

Definition Close (s : Scheduler) : go Scheduler :=
  let? c := chan_close (notify s) in
  Done (mkScheduler (maxConcurrent s) (activeCount s) (queue s) c).

(** ** The scheduler among goroutines *)

(** Where the engine's worker stands in [Next]: about to take the lock, in
    front of [<-s.notify], or returned with nil. *)
Inductive worker_pc : Set :=
| WorkerChecks
| WorkerWaits
| WorkerDone.

Record sched_sys : Type := mkSys {
  sys_sched : Scheduler;
  sys_worker : worker_pc;
  sys_enqueuing : nat;       (* callers of Enqueue past the unlock *)
  sys_releasing : nat;       (* callers of Release past the unlock *)
  sys_executing : nat;       (* goroutines that run a dispatched test run *)
  sys_submitted : list TestRun;
  sys_dispatched : list TestRun;
  sys_crashed : bool;        (* a panic no goroutine recovered *)
}.

Definition sys_init (maxConcurrent : Z) : sched_sys :=
  mkSys (NewScheduler maxConcurrent) WorkerChecks 0 0 0 [] [] false.

Inductive sched_step : sched_sys → sched_sys → Prop :=
| step_enqueue s w ne nr nx sub dis run :
    sched_step (mkSys s w ne nr nx sub dis false)
      (mkSys (enqueue_locked run s) w (S ne) nr nx (sub ++ [run]) dis false)
| step_enqueue_signal s s' w ne nr nx sub dis :
    signal s = Done s' →
    sched_step (mkSys s w (S ne) nr nx sub dis false) (mkSys s' w ne nr nx sub dis false)
| step_enqueue_crash s why w ne nr nx sub dis :
    signal s = Panics why →
    sched_step (mkSys s w (S ne) nr nx sub dis false) (mkSys s w ne nr nx sub dis true)
| step_release s w ne nr nx sub dis :
    sched_step (mkSys s w ne nr (S nx) sub dis false)
      (mkSys (release_locked s) w ne (S nr) nx sub dis false)
| step_release_signal s w ne nr nx sub dis :
    sched_step (mkSys s w ne (S nr) nx sub dis false)
      (mkSys (signal_recover s) w ne nr nx sub dis false)
| step_dispatch s s' run ne nr nx sub dis :
    TryNext s = (Some run, s') →
    sched_step (mkSys s WorkerChecks ne nr nx sub dis false)
      (mkSys s' WorkerChecks ne nr (S nx) sub (dis ++ [run]) false)
| step_wait s s' ne nr nx sub dis :
    TryNext s = (None, s') →
    sched_step (mkSys s WorkerChecks ne nr nx sub dis false)
      (mkSys s' WorkerWaits ne nr nx sub dis false)
| step_wake s c ne nr nx sub dis :
    chan_recv (notify s) = Received tt c →
    sched_step (mkSys s WorkerWaits ne nr nx sub dis false)
      (mkSys (mkScheduler (maxConcurrent s) (activeCount s) (queue s) c)
         WorkerChecks ne nr nx sub dis false)
| step_nil s ne nr nx sub dis :
    chan_recv (notify s) = RecvClosed →
    sched_step (mkSys s WorkerWaits ne nr nx sub dis false)
      (mkSys s WorkerDone ne nr nx sub dis false)
| step_close s s' w ne nr nx sub dis :
    Close s = Done s' →
    sched_step (mkSys s w ne nr nx sub dis false) (mkSys s' w ne nr nx sub dis false).

Definition sched_reachable (maxConcurrent : Z) : sched_sys → Prop :=
  rtc sched_step (sys_init maxConcurrent).

(** ** Lemmas on the operations *)

Lemma dispatchable_spec s :
  dispatchable s = true ↔ (activeCount s < maxConcurrent s)%Z ∧ queue s ≠ [].
Proof.
  unfold dispatchable. rewrite andb_true_iff, !bool_decide_eq_true.
  destruct (queue s); simpl; naive_solver lia.
Qed.

Lemma TryNext_some s run s' :
  TryNext s = (Some run, s') →
  dispatchable s = true ∧ queue s = run :: queue s' ∧
  activeCount s' = (activeCount s + 1)%Z ∧ maxConcurrent s' = maxConcurrent s ∧
  notify s' = notify s.
Proof.
  unfold TryNext. destruct (dispatchable s); [|done].
  destruct (queue s) eqn:E; [done|]. by intros [= <- <-].
Qed.

Lemma TryNext_none s s' : TryNext s = (None, s') → s' = s ∧ dispatchable s = false.
Proof.
  unfold TryNext. destruct (dispatchable s) eqn:Hd; [|naive_solver].
  apply dispatchable_spec in Hd as [_ Hq]. by destruct (queue s).
Qed.

Lemma TryNext_dispatches s run q :
  (activeCount s < maxConcurrent s)%Z → queue s = run :: q →
  TryNext s = (Some run, mkScheduler (maxConcurrent s) (activeCount s + 1) q (notify s)).
Proof.
  intros Hact Hq. unfold TryNext.
  assert (dispatchable s = true) as -> by (apply dispatchable_spec; by rewrite Hq).
  by rewrite Hq.
Qed.

Lemma signal_inv s s' :
  signal s = Done s' →
  maxConcurrent s' = maxConcurrent s ∧ activeCount s' = activeCount s ∧
  queue s' = queue s ∧ chan_offer (notify s) tt = Done (notify s').
Proof. unfold signal, go_bind. case_match; [|done]. by intros [= <-]. Qed.

Lemma signal_recover_fields s :
  maxConcurrent (signal_recover s) = maxConcurrent s ∧
  activeCount (signal_recover s) = activeCount s ∧
  queue (signal_recover s) = queue s.
Proof.
  unfold signal_recover. destruct (signal s) eqn:E; [|done].
  apply signal_inv in E. naive_solver.
Qed.

(** ** The invariant of the interleaved system *)

Record sched_inv (m : Z) (st : sched_sys) : Prop := mkSchedInv {
  inv_max : maxConcurrent (sys_sched st) = maxConcurrent (NewScheduler m);
  inv_active : activeCount (sys_sched st) = Z.of_nat (sys_executing st);
  inv_limit : (activeCount (sys_sched st) ≤ maxConcurrent (sys_sched st))%Z;
  inv_fifo : sys_submitted st = sys_dispatched st ++ queue (sys_sched st);
  inv_cap : ch_cap (notify (sys_sched st)) = 1;
  inv_chan : chan_ok (notify (sys_sched st));
  inv_wakeup : sys_worker st = WorkerWaits → dispatchable (sys_sched st) = true →
    ch_closed (notify (sys_sched st)) = true ∨ ch_buf (notify (sys_sched st)) ≠ [] ∨
    0 < sys_enqueuing st + sys_releasing st;
  inv_done : sys_worker st = WorkerDone → ch_closed (notify (sys_sched st)) = true;
  inv_crash : sys_crashed st = true → ch_closed (notify (sys_sched st)) = true;
}.

Lemma sched_inv_init m : sched_inv m (sys_init m).
Proof.
  split; simpl; try done.
  - unfold NewScheduler; simpl. case_decide; lia.
  - apply make_chan_ok.
Qed.

(** A critical section that leaves the channel alone keeps its invariant. *)
Lemma Close_inv s s' :
  Close s = Done s' →
  maxConcurrent s' = maxConcurrent s ∧ activeCount s' = activeCount s ∧
  queue s' = queue s ∧ ch_closed (notify s') = true ∧
  ch_cap (notify s') = ch_cap (notify s) ∧ ch_buf (notify s') = ch_buf (notify s).
Proof.
  unfold Close, chan_close. destruct (ch_closed (notify s)); [done|]. by intros [= <-].
Qed.

Lemma signal_panics s why : signal s = Panics why → ch_closed (notify s) = true.
Proof.
  unfold signal, chan_offer, chan_send.
  destruct (ch_closed (notify s)); [done|]. simpl. by case_decide.
Qed.

Lemma signal_recover_chan s :
  ch_closed (notify s) = true ∧ signal_recover s = s ∨
  chan_offer (notify s) tt = Done (notify (signal_recover s)).
Proof.
  unfold signal_recover. destruct (signal s) as [s'|why] eqn:E.
  - apply signal_inv in E. naive_solver.
  - apply signal_panics in E. auto.
Qed.

Lemma dispatchable_ext s s' :
  maxConcurrent s' = maxConcurrent s → activeCount s' = activeCount s →
  queue s' = queue s → dispatchable s' = dispatchable s.
Proof. unfold dispatchable. by intros -> -> ->. Qed.

Lemma sched_inv_step m st st' : sched_inv m st → sched_step st st' → sched_inv m st'.
Proof.
  intros [Hmax Hact Hlim Hfifo Hcap Hok Hwake Hdone Hcrash] Hstep.
  inversion Hstep; subst; clear Hstep; simpl in *.
  - (* enqueue *)
    split; simpl; try done; [by rewrite Hfifo, app_assoc|intros; lia].
  - (* signal of an enqueue *)
    apply signal_inv in H as (Em & Ea & Eq & Ech).
    pose proof (chan_offer_inv _ _ _ Ech) as (Eo & Eo' & Ec & _).
    split; simpl; rewrite ?Em, ?Ea, ?Eq, ?Ec; try done; eauto with go_chan;
      try (intros Hw; specialize (Hdone Hw); congruence).
    intros _ _. right; left. eapply chan_offer_nonempty; [|done]. lia.
  - (* crash *)
    apply signal_panics in H. split; simpl; auto.
  - (* release *)
    split; simpl; try done; [destruct (decide (0 < activeCount s)%Z); lia..|intros; lia].
  - (* signal of a release *)
    destruct (signal_recover_fields s) as (Em & Ea & Eq).
    destruct (signal_recover_chan s) as [[Ecl ->]|Ech]; [split; simpl; auto|].
    pose proof (chan_offer_inv _ _ _ Ech) as (Eo & Eo' & Ec & _).
    split; simpl; rewrite ?Em, ?Ea, ?Eq, ?Ec; try done; eauto with go_chan;
      try (intros Hw; specialize (Hdone Hw); congruence).
    intros _ _. right; left. eapply chan_offer_nonempty; [|done]. lia.
  - (* dispatch *)
    apply TryNext_some in H as (Hd & Eq & Ea & Em & En).
    apply dispatchable_spec in Hd as [Hd _].
    split; simpl; rewrite ?En, ?Em, ?Ea; try done; [lia..|].
    by rewrite Hfifo, Eq, cons_middle, app_assoc.
  - (* nothing to dispatch *)
    apply TryNext_none in H as [-> Hd]. split; simpl; try done. congruence.
  - (* wake up *)
    unfold chan_recv in H. destruct (ch_buf (notify s)) as [|[] b] eqn:Eb; [by case_match|].
    injection H as <-. split; simpl; try done.
    unfold chan_ok in *. simpl. rewrite Eb in Hok. simpl in Hok. lia.
  - (* the worker returns *)
    split; simpl; try done. intros _. unfold chan_recv in H. by repeat case_match.
  - (* close *)
    apply Close_inv in H as (Em & Ea & Eq & Ecl & Ec & Eb).
    split; simpl; rewrite ?Em, ?Ea, ?Eq, ?Ecl, ?Ec; auto.
    unfold chan_ok in *. by rewrite Eb, Ec.
Qed.

Lemma sched_inv_reachable m st : sched_reachable m st → sched_inv m st.
Proof.
  intros Hr. eapply rtc_invariant; [|exact Hr|apply sched_inv_init].
  apply sched_inv_step.
Qed.

(** Steps of the worker and of goroutines that finish a signal: nothing is
    submitted, released or closed. *)
Definition sched_quiet (st st' : sched_sys) : Prop :=
  sched_step st st' ∧ sys_submitted st' = sys_submitted st ∧
  sys_executing st ≤ sys_executing st' ∧
  ch_closed (notify (sys_sched st')) = ch_closed (notify (sys_sched st)).

Lemma quiet_dispatch s run q ne nr nx sub dis :
  (activeCount s < maxConcurrent s)%Z → queue s = run :: q →
  ∃ st', sched_quiet (mkSys s WorkerChecks ne nr nx sub dis false) st' ∧
    sys_dispatched st' = dis ++ [run].
Proof.
  intros Ha Hq. pose proof (TryNext_dispatches _ _ _ Ha Hq) as Ht.
  eexists. split; [split; [by eapply step_dispatch|]|]; simpl; [|done].
  split_and!; [done|lia|done].
Qed.

Lemma quiet_wake s run q ne nr nx sub dis :
  (activeCount s < maxConcurrent s)%Z → queue s = run :: q → ch_buf (notify s) ≠ [] →
  ∃ st', rtc sched_quiet (mkSys s WorkerWaits ne nr nx sub dis false) st' ∧
    sys_dispatched st' = dis ++ [run].
Proof.
  intros Ha Hq Hb. destruct (ch_buf (notify s)) as [|[] b] eqn:Eb; [done|].
  set (c := mkChan (ch_cap (notify s)) b (ch_closed (notify s))).
  assert (Hr : chan_recv (notify s) = Received tt c) by (unfold chan_recv; by rewrite Eb).
  destruct (quiet_dispatch (mkScheduler (maxConcurrent s) (activeCount s) (queue s) c)
    run q ne nr nx sub dis) as (st' & Hq' & Hd); [done..|].
  exists st'. split; [|done]. eapply rtc_l; [|by apply rtc_once].
  split; [by apply step_wake|]. simpl. split_and!; [done|lia|done].
Qed.

Lemma quiet_signal s run q ne nr nx sub dis :
  (activeCount s < maxConcurrent s)%Z → queue s = run :: q →
  ch_closed (notify s) = false → ch_cap (notify s) = 1 → 0 < ne + nr →
  ∃ st', rtc sched_quiet (mkSys s WorkerWaits ne nr nx sub dis false) st' ∧
    sys_dispatched st' = dis ++ [run].
Proof.
  intros Ha Hq Hcl Hcap Hpend.
  destruct (chan_offer_open (notify s) tt Hcl) as [c Hc].
  pose proof (chan_offer_inv _ _ _ Hc) as (_ & Ec & _).
  set (s' := mkScheduler (maxConcurrent s) (activeCount s) (queue s) c).
  assert (Hs : signal s = Done s') by (unfold signal; by rewrite Hc).
  assert (Hb : ch_buf (notify s') ≠ []) by (eapply chan_offer_nonempty; [|done]; lia).
  assert (∃ ne' nr', sched_quiet (mkSys s WorkerWaits ne nr nx sub dis false)
    (mkSys s' WorkerWaits ne' nr' nx sub dis false)) as (ne' & nr' & Hstep).
  { destruct ne as [|ne]; [destruct nr as [|nr]; [lia|]|].
    - exists 0, nr. split; [|simpl; split_and!; [done|lia|by rewrite Hcl]].
      pose proof (step_release_signal s WorkerWaits 0 nr nx sub dis) as Hst.
      unfold signal_recover in Hst. by rewrite Hs in Hst.
    - exists ne, nr. split; [|simpl; split_and!; [done|lia|by rewrite Hcl]].
      by apply step_enqueue_signal. }
  destruct (quiet_wake s' run q ne' nr' nx sub dis Ha Hq Hb) as (st' & Hst & Hd).
  exists st'. split; [|done]. by eapply rtc_l.
Qed.

Lemma next_loop_spec w s :
  ch_buf (notify s) = w →
  next_loop w s =
    match TryNext s with
    | (Some run, s') => (NextRun run, s')
    | (None, _) =>
      (if ch_closed (notify s) then NextNil else NextBlocked,
       mkScheduler (maxConcurrent s) (activeCount s) (queue s)
         (mkChan (ch_cap (notify s)) [] (ch_closed (notify s))))
    end.
Proof.
  revert s. induction w as [|[] w IH]; intros s Hw; simpl.
  - destruct (TryNext s) as [[run|] s'] eqn:E; [done|].
    apply TryNext_none in E as [-> _].
    destruct s as [m a q [cap b cl]]; simpl in *; subst. by destruct cl.
  - destruct (TryNext s) as [[run|] s'] eqn:E; [done|].
    apply TryNext_none in E as [-> E].
    set (s2 := mkScheduler _ _ _ _). rewrite (IH s2) by done.
    assert (dispatchable s2 = false) as Hd2 by (by rewrite <- E).
    unfold TryNext. by rewrite Hd2.
Qed.

(** ** Properties *)

(** C8: in every interleaving of submitters, finishing runs and the engine's
    worker, no run is lost and none dispatched twice, and runs of the same
    priority are dispatched in the order of their submission; the slot count
    equals the runs in execution and never exceeds the limit, so [Release]
    never finds it at zero. *)
Theorem scheduler_fifo_and_bounded m st :
  sched_reachable m st →
  sys_submitted st ≡ₚ sys_dispatched st ++ queue (sys_sched st) ∧
  (∀ p, let prio := filter (λ run, tr_Priority run = p) in
     prio (sys_submitted st) = prio (sys_dispatched st) ++ prio (queue (sys_sched st))) ∧
  ActiveCount (sys_sched st) = Z.of_nat (sys_executing st) ∧
  (Z.of_nat (sys_executing st) ≤ Z.max 1 m)%Z.
Proof.
  intros [Hm Ha Hl Hf _ _ _ _ _]%sched_inv_reachable.
  unfold ActiveCount. rewrite Hf. split_and!; [done|intros p; apply filter_app|done|].
  rewrite Ha, Hm in Hl. simpl in Hl. destruct (decide (m ≤ 0)%Z); lia.
Qed.

(** The priority of a run plays no part: of two runs that wait, the one
    submitted first goes first, however urgent the other. *)
Theorem priority_is_ignored : ∃ urgent other st,
  sched_reachable 1 st ∧ (tr_Priority other < tr_Priority urgent)%Z ∧
  sys_submitted st = [other; urgent] ∧ sys_dispatched st = [other] ∧ queue (sys_sched st) = [urgent].
Proof.
  set (other := blank_run "tr-1" "gpgpu" "smoke").
  set (urgent := mkTestRun "tr-2" "gpgpu" "smoke" TestRunStatusPending "" 9 0 None None 0 "" [] "").
  exists urgent, other, (mkSys (mkScheduler 1 1 [urgent] (make_chan 1)) WorkerChecks 2 0 1 [other; urgent] [other] false).
  split; [|by split_and!]. eapply rtc_l; [apply (step_enqueue _ _ _ _ _ _ _ other)|].
  eapply rtc_l; [apply (step_enqueue _ _ _ _ _ _ _ urgent)|].
  eapply rtc_l; [by eapply (step_dispatch _ _ other)|]. apply rtc_refl.
Qed.

(** C30: no wake-up is lost.  While the scheduler is open, a free slot and a
    queued run are enough for the oldest run to be dispatched, without any
    further submission or release: the one-place channel never lets the
    worker sleep over work. *)
Theorem scheduler_no_lost_wakeup m st :
  sched_reachable m st →
  dispatchable (sys_sched st) = true →
  ch_closed (notify (sys_sched st)) = false →
  ∃ run q st', queue (sys_sched st) = run :: q ∧ rtc sched_quiet st st' ∧
    sys_dispatched st' = sys_dispatched st ++ [run].
Proof.
  intros [_ _ _ _ Hcap _ Hwake Hdone Hcrash]%sched_inv_reachable Hd Hcl.
  pose proof Hd as [Ha Hq]%dispatchable_spec.
  destruct st as [s w ne nr nx sub dis cr]; simpl in *.
  destruct cr; [by rewrite Hcrash in Hcl|].
  destruct (queue s) as [|run q] eqn:Eq; [done|]. exists run, q.
  destruct w.
  - destruct (quiet_dispatch s run q ne nr nx sub dis) as (st' & ? & ?); [done..|].
    exists st'. eauto using rtc_once.
  - destruct (Hwake eq_refl Hd) as [?|[?|?]]; [congruence|..].
    + destruct (quiet_wake s run q ne nr nx sub dis) as (st' & ? & ?); eauto.
    + destruct (quiet_signal s run q ne nr nx sub dis) as (st' & ? & ?); eauto.
  - rewrite Hdone in Hcl; done.
Qed.

(** A call to [Next] that nothing interrupts returns what [TryNext]
    returns when it finds a run; otherwise it swallows the pending wake-ups
    and then reports shutdown on a closed scheduler or blocks. *)
Theorem Next_is_TryNext s :
  Next s =
    match TryNext s with
    | (Some run, s') => (NextRun run, s')
    | (None, _) =>
      (if ch_closed (notify s) then NextNil else NextBlocked,
       mkScheduler (maxConcurrent s) (activeCount s) (queue s)
         (mkChan (ch_cap (notify s)) [] (ch_closed (notify s))))
    end.
Proof. by apply next_loop_spec. Qed.

(** After [Close] a finishing run still releases its slot, but a
    submission crashes the process: [Enqueue], unlike [Release], does not
    recover from the send on the closed channel.  The crash is reachable in
    the interleaved system. *)
Theorem Enqueue_after_Close_panics s s' run :
  Close s = Done s' →
  Release s' = release_locked s' ∧
  Enqueue run s' = Panics "send on closed channel".
Proof.
  intros (_ & _ & _ & Hcl & _)%Close_inv.
  unfold Release, Enqueue, signal_recover, signal, chan_offer, chan_send. simpl.
  by rewrite Hcl.
Qed.

Lemma scheduler_fifo_and_bounded_witness :
  ∃ st, sched_reachable 1 st ∧ sys_executing st = 1 ∧ QueueLen (sys_sched st) = 1 ∧
    sys_submitted st ≡ₚ sys_dispatched st ++ queue (sys_sched st).
Proof.
  set (a := blank_run "tr-1" "gpgpu" "smoke"). set (b := blank_run "tr-2" "gpgpu" "smoke").
  eexists (mkSys _ WorkerChecks 2 0 1 [a; b] [a] false).
  assert (Hr : sched_reachable 1 (mkSys (mkScheduler 1 1 [b] (make_chan 1))
    WorkerChecks 2 0 1 [a; b] [a] false)).
  { eapply rtc_l; [apply (step_enqueue _ _ _ _ _ _ _ a)|].
    eapply rtc_l; [apply (step_enqueue _ _ _ _ _ _ _ b)|].
    eapply rtc_l; [by eapply (step_dispatch _ _ a)|]. apply rtc_refl. }
  split_and!; [exact Hr|done..|].
  exact (proj1 (scheduler_fifo_and_bounded _ _ Hr)).
Defined.

Lemma scheduler_no_lost_wakeup_witness :
  ∃ st run q st', sched_reachable 2 st ∧ sys_worker st = WorkerWaits ∧
    queue (sys_sched st) = run :: q ∧ rtc sched_quiet st st' ∧
    sys_dispatched st' = sys_dispatched st ++ [run].
Proof.
  set (a := blank_run "tr-1" "gpgpu" "smoke").
  set (st := mkSys (mkScheduler 2 0 [a] (make_chan 1)) WorkerWaits 1 0 0 [a] [] false).
  assert (Hr : sched_reachable 2 st).
  { eapply rtc_l; [by eapply step_wait|].
    eapply rtc_l; [apply (step_enqueue _ _ _ _ _ _ _ a)|]. apply rtc_refl. }
  destruct (scheduler_no_lost_wakeup 2 st Hr) as (run & q & st' & H); [done..|].
  exists st, run, q, st'. by split.
Defined.

Lemma Enqueue_after_Close_panics_witness :
  ∃ s', Close (NewScheduler 3) = Done s' ∧
    Enqueue (blank_run "tr-1" "gpgpu" "smoke") s' = Panics "send on closed channel".
Proof.
  eexists. split; [reflexivity|].
  eapply (Enqueue_after_Close_panics (NewScheduler 3)). reflexivity.
Defined.
