(* ===== verification/EngineLoop.v ===== *)
(** * The engine's worker ([core/execution_engine.go])

    [Start], the worker goroutine, the goroutines that execute runs, the
    goroutines that submit a deferred run again, and [Stop], as a step
    relation cut at the unlocks, channel operations and operations on the
    wait group.  What happens inside [executeTestRun] is the subject of
    [Engine]; here it is an interval that ends, with or without a deferral.
    The goroutines of steps it may leave running ([StepGoroutines]) touch
    neither the scheduler nor the wait group, and are not part of this system.
    [abs] forgets the engine's part: what is left is the system of
    [Scheduler], whose invariant this development uses. *)
From stdpp Require Import options.
From S2P Require Import Prelude GoChan Types Scheduler.
Open Scope string_scope.
Open Scope nat_scope.
Open Scope list_scope.

(** Where the worker stands: in front of the lock or of [<-s.notify] in
    [Next], with a run before [e.wg.Add(1)], after [Next] returned nil, and
    after [e.wg.Done()]. *)
Inductive loop_pc : Type :=
| AtNext
| AtNotify
| Holding (run : TestRun)
| Returned
| Gone.

(** A goroutine that executes a run: in [executeTestRun], in front of
    [Release], between its unlock and its signal, in front of [e.wg.Done()]. *)
Inductive exec_pc : Set :=
| Executing
| Finished
| Freed
| Signalled.

Global Instance exec_pc_eq_dec : EqDecision exec_pc.
Proof. solve_decision. Defined.

(** The caller of [Stop]. *)
Inductive stop_pc : Set :=
| NotStopping
| Cancelled
| Closing
| Stopped.

Record engine_sys : Type := mkES {
  es_sched : Scheduler;
  es_worker : loop_pc;
  es_execs : list (TestRun * exec_pc);
  es_wg : Z;
  es_waiting : list TestRun;     (* deferred runs that wait to be submitted again *)
  es_enqueuing : nat;            (* callers of Enqueue past the unlock *)
  es_stop : stop_pc;
  es_submitted : list TestRun;
  es_dispatched : list TestRun;
  es_crashed : bool;
}.

(** After [Start]. *)
Definition es_init (maxConcurrent : Z) : engine_sys :=
  mkES (NewScheduler maxConcurrent) AtNext [] 1 [] 0 NotStopping [] [] false.

Inductive engine_step : engine_sys → engine_sys → Prop :=
| e_submit s w ex wg wt ne p sub dis run :
    engine_step (mkES s w ex wg wt ne p sub dis false)
      (mkES (enqueue_locked run s) w ex wg wt (S ne) p (sub ++ [run]) dis false)
| e_resubmit s w ex wg l1 run l2 ne p sub dis :
    engine_step (mkES s w ex wg (l1 ++ run :: l2) ne p sub dis false)
      (mkES (enqueue_locked run s) w ex wg (l1 ++ l2) (S ne) p (sub ++ [run]) dis false)
| e_signal s s' w ex wg wt ne p sub dis :
    signal s = Done s' →
    engine_step (mkES s w ex wg wt (S ne) p sub dis false) (mkES s' w ex wg wt ne p sub dis false)
| e_crash s why w ex wg wt ne p sub dis :
    signal s = Panics why →
    engine_step (mkES s w ex wg wt (S ne) p sub dis false) (mkES s w ex wg wt ne p sub dis true)
| e_take s s' run ex wg wt ne p sub dis :
    TryNext s = (Some run, s') →
    engine_step (mkES s AtNext ex wg wt ne p sub dis false)
      (mkES s' (Holding run) ex wg wt ne p sub (dis ++ [run]) false)
| e_none s s' ex wg wt ne p sub dis :
    TryNext s = (None, s') →
    engine_step (mkES s AtNext ex wg wt ne p sub dis false) (mkES s' AtNotify ex wg wt ne p sub dis false)
| e_wake s c ex wg wt ne p sub dis :
    chan_recv (notify s) = Received tt c →
    engine_step (mkES s AtNotify ex wg wt ne p sub dis false)
      (mkES (mkScheduler (maxConcurrent s) (activeCount s) (queue s) c) AtNext ex wg wt ne p sub dis false)
| e_nil s ex wg wt ne p sub dis :
    chan_recv (notify s) = RecvClosed →
    engine_step (mkES s AtNotify ex wg wt ne p sub dis false) (mkES s Returned ex wg wt ne p sub dis false)
| e_spawn s run ex wg wt ne p sub dis :
    engine_step (mkES s (Holding run) ex wg wt ne p sub dis false)
      (mkES s AtNext (ex ++ [(run, Executing)]) (wg + 1)%Z wt ne p sub dis false)
| e_worker_done s ex wg wt ne p sub dis :
    engine_step (mkES s Returned ex wg wt ne p sub dis false) (mkES s Gone ex (wg - 1)%Z wt ne p sub dis false)
| e_end s w l1 run l2 wg wt ne p sub dis deferred :
    engine_step (mkES s w (l1 ++ (run, Executing) :: l2) wg wt ne p sub dis false)
      (mkES s w (l1 ++ (run, Finished) :: l2) wg (if deferred : bool then wt ++ [run] else wt) ne p sub dis false)
| e_free s w l1 run l2 wg wt ne p sub dis :
    engine_step (mkES s w (l1 ++ (run, Finished) :: l2) wg wt ne p sub dis false)
      (mkES (release_locked s) w (l1 ++ (run, Freed) :: l2) wg wt ne p sub dis false)
| e_free_signal s w l1 run l2 wg wt ne p sub dis :
    engine_step (mkES s w (l1 ++ (run, Freed) :: l2) wg wt ne p sub dis false)
      (mkES (signal_recover s) w (l1 ++ (run, Signalled) :: l2) wg wt ne p sub dis false)
| e_exec_done s w l1 run l2 wg wt ne p sub dis :
    engine_step (mkES s w (l1 ++ (run, Signalled) :: l2) wg wt ne p sub dis false)
      (mkES s w (l1 ++ l2) (wg - 1)%Z wt ne p sub dis false)
| e_cancel s w ex wg wt ne sub dis :
    engine_step (mkES s w ex wg wt ne NotStopping sub dis false) (mkES s w ex wg wt ne Cancelled sub dis false)
| e_close s s' w ex wg wt ne sub dis :
    Close s = Done s' →
    engine_step (mkES s w ex wg wt ne Cancelled sub dis false) (mkES s' w ex wg wt ne Closing sub dis false)
| e_stopped s w ex wt ne sub dis :
    engine_step (mkES s w ex 0 wt ne Closing sub dis false) (mkES s w ex 0 wt ne Stopped sub dis false).

Definition engine_reachable (maxConcurrent : Z) : engine_sys → Prop := rtc engine_step (es_init maxConcurrent).

(** ** The scheduler's system below *)

Definition abs_pc (w : loop_pc) : worker_pc :=
  match w with
  | AtNext | Holding _ => WorkerChecks
  | AtNotify => WorkerWaits
  | Returned | Gone => WorkerDone
  end.

(** A goroutine occupies a slot until its [Release] has passed the unlock. *)
Definition occupies (x : TestRun * exec_pc) : nat :=
  match x.2 with Executing | Finished => 1 | Freed | Signalled => 0 end.

Definition freed (x : TestRun * exec_pc) : nat := match x.2 with Freed => 1 | _ => 0 end.

Definition held (w : loop_pc) : nat := match w with Holding _ => 1 | _ => 0 end.

Definition abs (st : engine_sys) : sched_sys :=
  mkSys (es_sched st) (abs_pc (es_worker st)) (es_enqueuing st) (sum_list_with freed (es_execs st))
    (held (es_worker st) + sum_list_with occupies (es_execs st)) (es_submitted st) (es_dispatched st) (es_crashed st).

(** A step of the engine is one of the scheduler's system, or none of its. *)
Lemma engine_step_abs st st' : engine_step st st' → abs st' = abs st ∨ sched_step (abs st) (abs st').
Proof.
  intros Hs. destruct Hs; unfold abs; simpl; rewrite ?sum_list_with_app; simpl; rewrite ?sum_list_with_app; simpl;
    try (by left; f_equal; lia).
  1,2: right; apply step_enqueue.
  - right. by apply step_enqueue_signal.
  - right. by eapply step_enqueue_crash.
  - right. by apply step_dispatch.
  - right. by apply step_wait.
  - right. by apply step_wake.
  - right. by apply step_nil.
  - right. replace (held w + (sum_list_with occupies l1 + S (sum_list_with occupies l2)))
      with (S (held w + (sum_list_with occupies l1 + sum_list_with occupies l2))) by lia.
    replace (sum_list_with freed l1 + S (sum_list_with freed l2)) with (S (sum_list_with freed l1 + sum_list_with freed l2)) by lia.
    apply step_release.
  - right. replace (sum_list_with freed l1 + S (sum_list_with freed l2)) with (S (sum_list_with freed l1 + sum_list_with freed l2)) by lia.
    apply step_release_signal.
  - right. by apply step_close.
Qed.

Lemma engine_reachable_abs m st : engine_reachable m st → sched_reachable m (abs st).
Proof.
  intros Hr. pattern st. eapply (rtc_invariant engine_step); [|exact Hr|apply rtc_refl].
  intros x y Hx Hxy. destruct (engine_step_abs x y Hxy) as [->|Hs]; [done|]. by eapply rtc_r.
Qed.

(** ** The wait group *)

Definition stopping (p : stop_pc) : bool := match p with Closing | Stopped => true | _ => false end.

Definition at_work (w : loop_pc) : Z := match w with Gone => 0 | _ => 1 end.

Record loop_inv (st : engine_sys) : Prop := mkLoopInv {
  li_wg : es_wg st = (at_work (es_worker st) + Z.of_nat (length (es_execs st)))%Z;
  li_closed : ch_closed (notify (es_sched st)) = stopping (es_stop st);
  li_returned : es_worker st = Returned ∨ es_worker st = Gone → ch_closed (notify (es_sched st)) = true;
  li_stopped : es_stop st = Stopped → es_worker st = Gone ∧ es_execs st = [];
}.

Lemma signal_closed s s' : signal s = Done s' → ch_closed (notify s) = false ∧ ch_closed (notify s') = false.
Proof. intros (_ & _ & _ & E)%signal_inv. apply chan_offer_inv in E as (? & ? & _). done. Qed.

Lemma signal_recover_closed s : ch_closed (notify (signal_recover s)) = ch_closed (notify s).
Proof.
  unfold signal_recover. destruct (signal s) as [s'|] eqn:E; [|done]. by destruct (signal_closed _ _ E) as [-> ->].
Qed.

Lemma recv_open s c : chan_recv (notify s) = Received tt c → ch_closed c = ch_closed (notify s).
Proof. unfold chan_recv. destruct (ch_buf (notify s)) as [|[] b]; [by case_match|]. by intros [= <-]. Qed.

Lemma loop_inv_init m : loop_inv (es_init m).
Proof. split; simpl; try done. by intros [|]. Qed.

Lemma split_nil {A : Type} (l1 : list A) x l2 : l1 ++ x :: l2 ≠ [].
Proof. by destruct l1. Qed.

Lemma loop_inv_step st st' : loop_inv st → engine_step st st' → loop_inv st'.
Proof.
  intros [Hwg Hcl Hret Hst] Hs.
  destruct Hs; simpl in *; split; simpl; rewrite ?length_app in *; simpl in *; rewrite ?length_app in *; simpl in *; try done; try lia;
    try (intros [=] || intros [?|?]; congruence);
    try (intros E; destruct (Hst E); (congruence || by edestruct (@split_nil (TestRun * exec_pc)))).
  - by rewrite (proj2 (signal_closed _ _ H)), <- Hcl, (proj1 (signal_closed _ _ H)).
  - intros Hx. specialize (Hret Hx). destruct (signal_closed _ _ H). congruence.
  - by rewrite (proj2 (proj2 (proj2 (proj2 (TryNext_some _ _ _ H))))).
  - by destruct (TryNext_none _ _ H) as [-> _].
  - by rewrite (recv_open _ _ H).
  - intros _. revert H. unfold chan_recv. by repeat case_match.
  - intros _. apply Hret. by left.
  - by rewrite signal_recover_closed.
  - by rewrite signal_recover_closed.
  - by destruct (Close_inv _ _ H) as (_ & _ & _ & -> & _).
  - by destruct (Close_inv _ _ H) as (_ & _ & _ & -> & _).
  - intros _. destruct w, ex; simpl in *; try lia; done.
Qed.

Lemma loop_inv_reachable m st : engine_reachable m st → loop_inv st.
Proof. intros Hr. eapply (rtc_invariant engine_step); [apply loop_inv_step|exact Hr|apply loop_inv_init]. Qed.

(** The executions in progress. *)
Definition executing (st : engine_sys) : list TestRun := (filter (λ x, x.2 = Executing) (es_execs st)).*1.

Lemma executing_occupies l : length (filter (λ x : TestRun * exec_pc, x.2 = Executing) l) ≤ sum_list_with occupies l.
Proof.
  induction l as [|[run pc] l IH]; [done|]. rewrite filter_cons. simpl. unfold occupies at 1. simpl.
  case_decide as E; simpl; [rewrite E; simpl; lia|lia].
Qed.

(** C18: the wait group counts the worker and the goroutines of the runs, so
    [Stop] returns only when the worker has ended and [executeTestRun] has
    returned for every run it has taken, and no run is taken or executed
    afterwards; at any time at most [maxConcurrent] runs are executed, and
    every run submitted was taken once or waits in the queue.  (What the wait
    group does not count, [Stop] does not wait for: the goroutines that submit
    a deferred run again, and those of the steps of a workflow that was cut
    short, see [steps_outlive_their_run].) *)
Theorem stop_waits_for_runs m st :
  engine_reachable m st →
  es_wg st = (at_work (es_worker st) + Z.of_nat (length (es_execs st)))%Z ∧
  (Z.of_nat (length (executing st)) ≤ maxConcurrent (NewScheduler m))%Z ∧
  es_submitted st ≡ₚ es_dispatched st ++ queue (es_sched st) ∧
  (es_stop st = Stopped → ∀ st', rtc engine_step st st' →
     es_worker st' = Gone ∧ es_execs st' = [] ∧ es_dispatched st' = es_dispatched st).
Proof.
  intros Hr. pose proof (loop_inv_reachable _ _ Hr) as Hi. pose proof (sched_inv_reachable _ _ (engine_reachable_abs _ _ Hr)) as Ha.
  split_and!.
  - apply Hi.
  - pose proof (inv_active _ _ Ha). pose proof (inv_limit _ _ Ha). pose proof (inv_max _ _ Ha). simpl in *.
    unfold executing. rewrite length_fmap. pose proof (executing_occupies (es_execs st)). lia.
  - by rewrite (inv_fifo _ _ Ha : es_submitted st = es_dispatched st ++ queue (es_sched st)).
  - intros Hst st' Hs. assert (es_stop st' = Stopped ∧ loop_inv st' ∧ es_dispatched st' = es_dispatched st) as (Hst' & Hi' & Hd).
    { pattern st'. eapply (rtc_invariant engine_step); [|exact Hs|done]. intros x y (Ex & Hx & Edis) Hxy.
      pose proof (loop_inv_step _ _ Hx Hxy). destruct (li_stopped _ Hx Ex) as [Ew Ee].
      destruct Hxy; simpl in *; subst; try done. }
    destruct (li_stopped _ Hi' Hst') as [? ?]. done.
Qed.

(** ** Shutting down *)

(** Steps other than a submission, new or repeated. *)
Definition quiet_step (st st' : engine_sys) : Prop := engine_step st st' ∧ es_submitted st' = es_submitted st.

(** What is left to do once the channel is closed. *)
Definition pc_work (w : loop_pc) : nat := match w with AtNext => 3 | AtNotify => 2 | Holding _ => 8 | Returned => 1 | Gone => 0 end.

Definition exec_work (x : TestRun * exec_pc) : nat := match x.2 with Executing => 4 | Finished => 3 | Freed => 2 | Signalled => 1 end.

Definition stop_work (p : stop_pc) : nat := match p with Stopped => 0 | _ => 1 end.

Definition work (st : engine_sys) : nat :=
  10 * length (queue (es_sched st)) + 3 * length (ch_buf (notify (es_sched st))) + pc_work (es_worker st) +
  sum_list_with exec_work (es_execs st) + es_enqueuing st + stop_work (es_stop st).

Lemma not_own_suffix {A : Type} (l : list A) x : l ++ [x] ≠ l.
Proof. intros E. apply (f_equal length) in E. rewrite length_app in E. simpl in E. lia. Qed.

Lemma signal_shut s : ch_closed (notify s) = true → signal_recover s = s.
Proof.
  intros Hc. unfold signal_recover. destruct (signal s) as [s'|] eqn:E; [|done]. apply signal_closed in E as [E _]. congruence.
Qed.

Lemma quiet_work st st' : loop_inv st → stopping (es_stop st) = true → quiet_step st st' → work st' < work st ∧ stopping (es_stop st') = true.
Proof.
  intros [Hwg Hcl _ _] Hst [Hs Hsub]. rewrite Hst in Hcl. unfold work.
  destruct Hs; simpl in *; rewrite ?sum_list_with_app in *; simpl in *; rewrite ?sum_list_with_app in *; simpl in *; try done;
    try (by exfalso; eapply not_own_suffix); (split; [|done]); try lia.
  - exfalso. destruct (signal_closed _ _ H). congruence.
  - apply TryNext_some in H as (_ & -> & _ & _ & ->). simpl. lia.
  - apply TryNext_none in H as [-> _]. lia.
  - revert H. unfold chan_recv. destruct (ch_buf (notify s)) as [|[] b] eqn:Eb; [by case_match|]. intros [= <-]. simpl. lia.
  - rewrite signal_shut by done. lia.
Qed.

Lemma quiet_progress st :
  loop_inv st → es_stop st = Closing → es_crashed st = false → ∃ st', quiet_step st st'.
Proof.
  destruct st as [s w ex wg wt ne p sub dis cr]. intros [Hwg Hcl _ _] Hp Hcr. simpl in *. subst p cr. simpl in Hcl.
  destruct ex as [|[run []] ex].
  - destruct w as [| |run| |].
    + destruct (TryNext s) as [[run|] s'] eqn:E; eexists; (split; [|]); [by apply e_take|done|by eapply e_none|done].
    + destruct (ch_buf (notify s)) as [|[] b] eqn:Eb.
      * eexists. split; [apply e_nil; unfold chan_recv; by rewrite Eb, Hcl|done].
      * eexists. split; [eapply e_wake; unfold chan_recv; by rewrite Eb|done].
    + eexists. split; [apply e_spawn|done].
    + eexists. split; [apply e_worker_done|done].
    + simpl in Hwg. subst wg. eexists. split; [apply e_stopped|done].
  - eexists. split; [apply (e_end s w [] run ex _ _ _ _ _ _ false)|done].
  - eexists. split; [apply (e_free s w [] run ex)|done].
  - eexists. split; [apply (e_free_signal s w [] run ex)|done].
  - eexists. split; [apply (e_exec_done s w [] run ex)|done].
Qed.

Lemma quiet_runs st st' n :
  loop_inv st → stopping (es_stop st) = true → nsteps quiet_step n st st' →
  loop_inv st' ∧ stopping (es_stop st') = true ∧ n + work st' ≤ work st.
Proof.
  intros Hi Hst Hn. induction Hn as [|n x y z Hxy Hyz IH]; [done|].
  destruct (quiet_work _ _ Hi Hst Hxy) as [Hw Hy]. destruct (IH (loop_inv_step _ _ Hi (proj1 Hxy)) Hy) as (? & ? & ?).
  split_and!; [done..|lia].
Qed.

(** C19: [Stop] returns.  Once it has closed the scheduler, and while nothing
    is submitted, the engine takes a bounded number of steps, whatever their
    order, and as long as [Stop] has not returned and the program not crashed
    it can take another, so every complete execution ends with the return of
    [Stop]. *)
Theorem stop_returns m st :
  engine_reachable m st → es_stop st = Closing →
  (∀ n st', nsteps quiet_step n st st' → n ≤ work st) ∧
  (∀ st', rtc quiet_step st st' → es_stop st' = Stopped ∨ es_crashed st' = true ∨ ∃ st'', quiet_step st' st'').
Proof.
  intros Hr Hst. pose proof (loop_inv_reachable _ _ Hr) as Hi.
  assert (Hsto : stopping (es_stop st) = true) by by rewrite Hst.
  split.
  - intros n st' Hn. destruct (quiet_runs _ _ _ Hi Hsto Hn) as (_ & _ & ?). lia.
  - intros st' [n Hn]%rtc_nsteps. destruct (quiet_runs _ _ _ Hi Hsto Hn) as (Hi' & Hst' & _).
    destruct (es_stop st') eqn:Ep; try done; [|by left]. destruct (es_crashed st') eqn:Ec; [by right; left|].
    right. right. by apply quiet_progress.
Qed.

(** C40: a run deferred for want of resources does not survive a shutdown: its
    goroutine, which the wait group does not count, submits it to the closed
    scheduler after [Stop] has returned, and this panic, which nothing
    recovers, ends the program. *)
Theorem deferred_run_crashes_shutdown m st run l1 l2 :
  engine_reachable m st → es_stop st = Stopped → es_crashed st = false → es_waiting st = l1 ++ run :: l2 →
  ∃ st', engine_step st st' ∧ run ∈ queue (es_sched st') ∧
    ∀ st'', engine_step st' st'' → es_enqueuing st'' < es_enqueuing st' → es_crashed st'' = true.
Proof.
  destruct st as [s w ex wg wt ne p sub dis cr]. intros Hr Hst Hcr Hw. simpl in *. subst p cr wt.
  pose proof (li_closed _ (loop_inv_reachable _ _ Hr)) as Hc. simpl in Hc.
  eexists. split_and!; [apply e_resubmit| |].
  - simpl. apply elem_of_app. right. by left.
  - intros st'' Hs Hlt. inversion Hs; subst; simpl in *; try done; try lia.
    match goal with H : signal _ = Done _ |- _ => destruct (signal_closed _ _ H) as [E _]; simpl in E; congruence end.
Qed.

(** ** Witnesses *)

Ltac engine_moves rule := eapply rtc_l; [first [eapply rule; reflexivity | apply rule]|]; cbn [app].

Definition bench_run : TestRun := mkTestRun "run-1" "dev0" "smoke" TestRunStatusPending "" 0 0 None None 0 "" [] "".

Definition shut_sched : Scheduler := mkScheduler 1 0 [] (mkChan 1 [] true).

(** One run was submitted, deferred, and the engine was stopped. *)
Definition stopped_bench : engine_sys := mkES shut_sched Gone [] 0 [bench_run] 0 Stopped [bench_run] [bench_run] false.

Lemma stopped_reachable : engine_reachable 1 stopped_bench.
Proof.
  unfold engine_reachable, es_init.
  eapply rtc_l; [apply (e_submit _ _ _ _ _ _ _ _ _ bench_run)|]. engine_moves e_signal. engine_moves e_take. engine_moves e_spawn.
  eapply rtc_l; [apply (e_end _ _ [] bench_run [] _ _ _ _ _ _ true)|].
  eapply rtc_l; [apply (e_free _ _ [] bench_run [])|]. eapply rtc_l; [apply (e_free_signal _ _ [] bench_run [])|].
  eapply rtc_l; [apply (e_exec_done _ _ [] bench_run [])|].
  engine_moves e_cancel. engine_moves e_close. engine_moves e_none. engine_moves e_wake. engine_moves e_none. engine_moves e_nil.
  engine_moves e_worker_done. engine_moves e_stopped. apply rtc_refl.
Qed.

Lemma deferred_run_crashes_shutdown_witness : ∃ st', engine_step stopped_bench st' ∧ bench_run ∈ queue (es_sched st').
Proof.
  destruct (deferred_run_crashes_shutdown 1 stopped_bench bench_run [] [] stopped_reachable eq_refl eq_refl eq_refl) as (st' & Hs & Hq & _).
  eauto.
Defined.

Lemma stop_waits_for_runs_witness : es_dispatched stopped_bench = [bench_run] ∧ es_submitted stopped_bench ≡ₚ [bench_run] ++ [].
Proof. split; [done|]. exact (proj1 (proj2 (proj2 (stop_waits_for_runs 1 stopped_bench stopped_reachable)))). Defined.

(** A run is executed when the engine is stopped. *)
Definition closing_bench : engine_sys :=
  mkES (mkScheduler 1 1 [] (mkChan 1 [tt] true)) AtNext [(bench_run, Executing)] 2 [] 0 Closing [bench_run] [bench_run] false.

Lemma closing_reachable : engine_reachable 1 closing_bench.
Proof.
  unfold engine_reachable, es_init.
  eapply rtc_l; [apply (e_submit _ _ _ _ _ _ _ _ _ bench_run)|]. engine_moves e_signal. engine_moves e_take. engine_moves e_spawn.
  engine_moves e_cancel. engine_moves e_close. apply rtc_refl.
Qed.

Lemma stop_returns_witness : es_stop closing_bench = Closing ∧ ∀ n st', nsteps quiet_step n closing_bench st' → n ≤ 11.
Proof. split; [done|]. exact (proj1 (stop_returns 1 closing_bench closing_reachable eq_refl)). Defined.
