(* ===== verification/Allocator.v ===== *)
(** * The resource allocator ([core/allocator.go])

    The host's CPU and memory budget.  The counters are Go [int]s, so sums
    and differences are reduced to 64 bits as the machine does.  [alloc_op]
    sequences the operations of concurrent goroutines, each atomic under
    [r.mu], against a ghost list of the allocations held. *)
From stdpp Require Import options.
From S2P Require Import Prelude GoStd.
Open Scope string_scope.
Open Scope list_scope.
Open Scope Z_scope.

Record Allocation : Type := mkAllocation {
  CPUs : Z;
  MemMB : Z;
}.

Global Instance Allocation_eq_dec : EqDecision Allocation.
Proof. solve_decision. Defined.

(** [ResourceAllocator] holds one [ResourceBudget] behind its mutex. *)
Record ResourceBudget : Type := mkBudget {
  TotalCPUs : Z;
  TotalMemMB : Z;
  UsedCPUs : Z;
  UsedMemMB : Z;
}.

Definition AvailableCPUs (b : ResourceBudget) : Z := int64 (TotalCPUs b - UsedCPUs b).
Definition AvailableMemMB (b : ResourceBudget) : Z := int64 (TotalMemMB b - UsedMemMB b).

(** The loop of [detectHostMemMB] over the lines of [/proc/meminfo]. *)
Fixpoint scan_meminfo (lines : list string) : Z :=
  match lines with
  | [] => 8192
  | line :: rest =>
    if HasPrefix line "MemTotal:" then
      match Fields line with
      | _ :: f1 :: _ =>
        match ParseInt f1 with
        | Ok kbTotal => Z.quot (Z.quot kbTotal 1024) 2
        | Err _ => 8192
        end
      | _ => 8192
      end
    else scan_meminfo rest
  end.

(** [meminfo] is what the file system answers: [None] when the file cannot
    be opened, otherwise the lines the scanner delivers. *)
Definition detectHostMemMB (meminfo : option (list string)) : Z :=
  match meminfo with
  | None => 8192
  | Some lines => scan_meminfo lines
  end.

(** [numCPU] is [runtime.NumCPU()]. *)
Definition NewResourceAllocator (numCPU : Z) (meminfo : option (list string))
    (totalCPUs totalMemMB : Z) : ResourceBudget :=
  mkBudget (if decide (totalCPUs <= 0) then numCPU else totalCPUs)
    (if decide (totalMemMB <= 0) then detectHostMemMB meminfo else totalMemMB) 0 0.

Definition TryAcquire (a : Allocation) (r : ResourceBudget) : bool * ResourceBudget :=
  if decide (CPUs a < 0 ∨ MemMB a < 0) then (false, r)
  else if decide (int64 (UsedCPUs r + CPUs a) > TotalCPUs r) then (false, r)
  else if decide (int64 (UsedMemMB r + MemMB a) > TotalMemMB r) then (false, r)
  else (true, mkBudget (TotalCPUs r) (TotalMemMB r)
          (int64 (UsedCPUs r + CPUs a)) (int64 (UsedMemMB r + MemMB a))).

Definition Release (a : Allocation) (r : ResourceBudget) : ResourceBudget :=
  let cpus := int64 (UsedCPUs r - CPUs a) in
  let mem := int64 (UsedMemMB r - MemMB a) in
  mkBudget (TotalCPUs r) (TotalMemMB r)
    (if decide (cpus < 0) then 0 else cpus) (if decide (mem < 0) then 0 else mem).

Arguments TryAcquire : simpl never.
Arguments Release : simpl never.

Definition CanFit (a : Allocation) (r : ResourceBudget) : bool :=
  bool_decide (int64 (UsedCPUs r + CPUs a) <= TotalCPUs r) &&
  bool_decide (int64 (UsedMemMB r + MemMB a) <= TotalMemMB r).

Definition Available (r : ResourceBudget) : ResourceBudget := r.

Definition SetTotal (cpus memMB : Z) (r : ResourceBudget) : ResourceBudget :=
  mkBudget (if decide (cpus > 0) then cpus else TotalCPUs r)
    (if decide (memMB > 0) then memMB else TotalMemMB r) (UsedCPUs r) (UsedMemMB r).

(** The method [String]. *)
Definition allocator_string (r : ResourceBudget) : string :=
  let b := Available r in
  "CPU " +:+ fmt_d (UsedCPUs b) +:+ "/" +:+ fmt_d (TotalCPUs b) +:+
  ", MEM " +:+ fmt_d (UsedMemMB b) +:+ "/" +:+ fmt_d (TotalMemMB b) +:+ " MiB".

(** ** The allocator among goroutines *)

(** The operations of the engine's goroutines and of an operator.  Each
    [OpRelease] returns an allocation its goroutine holds. *)
Inductive alloc_op : Type :=
| OpAcquire (a : Allocation)
| OpRelease (a : Allocation)
| OpSetTotal (cpus memMB : Z).

Definition alloc_state : Type := ResourceBudget * list Allocation.

Inductive alloc_step : alloc_op → alloc_state → alloc_state → Prop :=
| alloc_acquire r held a r' :
    TryAcquire a r = (true, r') → alloc_step (OpAcquire a) (r, held) (r', a :: held)
| alloc_refuse r held a r' :
    TryAcquire a r = (false, r') → alloc_step (OpAcquire a) (r, held) (r', held)
| alloc_release r held1 held2 a :
    alloc_step (OpRelease a) (r, held1 ++ a :: held2) (Release a r, held1 ++ held2)
| alloc_set_total r held cpus memMB :
    alloc_step (OpSetTotal cpus memMB) (r, held) (SetTotal cpus memMB r, held).

Inductive alloc_run : list alloc_op → alloc_state → alloc_state → Prop :=
| alloc_run_nil st : alloc_run [] st st
| alloc_run_cons op ops st st' st'' :
    alloc_step op st st' → alloc_run ops st' st'' → alloc_run (op :: ops) st st''.

Definition sum_cpus (l : list Allocation) : Z := foldr Z.add 0 (CPUs <$> l).
Definition sum_mem (l : list Allocation) : Z := foldr Z.add 0 (MemMB <$> l).

(** Requests no larger than half the range of an [int] cannot overflow. *)
Definition modest (a : Allocation) : Prop := CPUs a < 2 ^ 62 ∧ MemMB a < 2 ^ 62.

Definition modest_op (op : alloc_op) : Prop :=
  match op with
  | OpAcquire a => modest a
  | OpRelease _ => True
  | OpSetTotal cpus memMB => cpus < 2 ^ 62 ∧ memMB < 2 ^ 62
  end.

Definition is_set_total (op : alloc_op) : bool :=
  match op with OpSetTotal _ _ => true | _ => false end.

Definition budget_ok (r : ResourceBudget) : Prop :=
  0 <= UsedCPUs r < 2 ^ 62 ∧ 0 <= UsedMemMB r < 2 ^ 62.

(** ** Lemmas *)

Lemma TryAcquire_true a r r' :
  budget_ok r → modest a → TryAcquire a r = (true, r') →
  0 <= CPUs a ∧ 0 <= MemMB a ∧
  UsedCPUs r + CPUs a <= TotalCPUs r ∧ UsedMemMB r + MemMB a <= TotalMemMB r ∧
  r' = mkBudget (TotalCPUs r) (TotalMemMB r) (UsedCPUs r + CPUs a) (UsedMemMB r + MemMB a).
Proof.
  unfold budget_ok, modest, TryAcquire. intros Hb Ha.
  destruct (decide (CPUs a < 0 ∨ MemMB a < 0)); [done|].
  rewrite !int64_id by (unfold in_int64, min_int64, max_int64; lia).
  do 2 (case_decide; [done|]). intros [= <-]. split_and!; [lia..|done].
Qed.

Lemma TryAcquire_false a r r' :
  TryAcquire a r = (false, r') → r' = r.
Proof. unfold TryAcquire. repeat case_decide; congruence. Qed.

Lemma Release_exact a r :
  budget_ok r → 0 <= CPUs a <= UsedCPUs r → 0 <= MemMB a <= UsedMemMB r →
  Release a r =
    mkBudget (TotalCPUs r) (TotalMemMB r) (UsedCPUs r - CPUs a) (UsedMemMB r - MemMB a).
Proof.
  unfold budget_ok, Release. intros Hb Hc Hm.
  rewrite !int64_id by (unfold in_int64, min_int64, max_int64; lia).
  rewrite !decide_False by lia. done.
Qed.

Lemma sum_cpus_cons a l : sum_cpus (a :: l) = CPUs a + sum_cpus l.
Proof. done. Qed.

Lemma sum_mem_cons a l : sum_mem (a :: l) = MemMB a + sum_mem l.
Proof. done. Qed.

Lemma sum_cpus_app l1 l2 : sum_cpus (l1 ++ l2) = sum_cpus l1 + sum_cpus l2.
Proof. unfold sum_cpus. induction l1; csimpl; lia. Qed.

Lemma sum_mem_app l1 l2 : sum_mem (l1 ++ l2) = sum_mem l1 + sum_mem l2.
Proof. unfold sum_mem. induction l1; csimpl; lia. Qed.

Definition nonneg (a : Allocation) : Prop := 0 <= CPUs a ∧ 0 <= MemMB a.

Lemma sum_nonneg l : Forall nonneg l → 0 <= sum_cpus l ∧ 0 <= sum_mem l.
Proof.
  unfold sum_cpus, sum_mem, nonneg. induction 1; csimpl; lia.
Qed.

(** The counters account exactly for the allocations held. *)
Record accounts (st : alloc_state) : Prop := mkAccounts {
  acc_cpus : UsedCPUs st.1 = sum_cpus st.2;
  acc_mem : UsedMemMB st.1 = sum_mem st.2;
  acc_nonneg : Forall nonneg st.2;
  acc_ok : budget_ok st.1;
  acc_total : TotalCPUs st.1 < 2 ^ 62 ∧ TotalMemMB st.1 < 2 ^ 62;
}.

Lemma accounts_acquire r held a r' :
  accounts (r, held) → modest a → TryAcquire a r = (true, r') →
  accounts (r', a :: held) ∧ UsedCPUs r' <= TotalCPUs r' ∧ UsedMemMB r' <= TotalMemMB r'.
Proof.
  intros [Hc Hm Hn Hb Ht] Ha H. simpl in *.
  apply TryAcquire_true in H as (Hca & Hma & Hfc & Hfm & ->); [|done..].
  split; [|simpl; lia].
  split; simpl in *; unfold budget_ok, sum_cpus, sum_mem in *; csimpl; [lia..| | |done].
  - constructor; done.
  - simpl. lia.
Qed.

Lemma accounts_release r held1 held2 a :
  accounts (r, held1 ++ a :: held2) →
  accounts (Release a r, held1 ++ held2) ∧
  UsedCPUs (Release a r) <= UsedCPUs r ∧ UsedMemMB (Release a r) <= UsedMemMB r ∧
  TotalCPUs (Release a r) = TotalCPUs r ∧ TotalMemMB (Release a r) = TotalMemMB r.
Proof.
  intros [Hc Hm Hn Hb Ht]. simpl in Hc, Hm, Hn, Hb, Ht.
  apply Forall_app in Hn as [Hn1 [Ha Hn2]%Forall_cons].
  pose proof (sum_nonneg _ Hn1). pose proof (sum_nonneg _ Hn2).
  rewrite sum_cpus_app, sum_cpus_cons in Hc. rewrite sum_mem_app, sum_mem_cons in Hm.
  unfold nonneg in Ha. rewrite Release_exact by (done || lia).
  split; [|simpl; split_and!; lia].
  split; simpl; rewrite ?sum_cpus_app, ?sum_mem_app; [lia..| | |done].
  - by apply Forall_app.
  - unfold budget_ok in *. simpl. lia.
Qed.

Lemma accounts_step op st st' :
  accounts st → modest_op op → alloc_step op st st' → accounts st'.
Proof.
  intros Hacc Hop Hstep. destruct Hstep as [r held a r' H|r held a r' H|r h1 h2 a|r held c m].
  - by eapply accounts_acquire in H as [? _].
  - by apply TryAcquire_false in H as ->.
  - by apply accounts_release in Hacc as [? _].
  - destruct Hacc as [Hc Hm Hn Hb Ht]. simpl in *. split; simpl in *; try done.
    repeat case_decide; lia.
Qed.

Definition within (r : ResourceBudget) : Prop :=
  UsedCPUs r <= TotalCPUs r ∧ UsedMemMB r <= TotalMemMB r.

Lemma within_step op st st' :
  accounts st → modest_op op → is_set_total op = false → alloc_step op st st' →
  within st.1 → within st'.1.
Proof.
  unfold within. intros Hacc Hop Hns Hstep Hw.
  destruct Hstep as [r held a r' H|r held a r' H|r h1 h2 a|r held c m]; cbn [fst snd] in *.
  - by eapply accounts_acquire in H as [_ ?].
  - by apply TryAcquire_false in H as ->.
  - apply accounts_release in Hacc as [_ ?]. lia.
  - done.
Qed.

Lemma accounts_new numCPU meminfo c m :
  TotalCPUs (NewResourceAllocator numCPU meminfo c m) < 2 ^ 62 →
  TotalMemMB (NewResourceAllocator numCPU meminfo c m) < 2 ^ 62 →
  accounts (NewResourceAllocator numCPU meminfo c m, []).
Proof. intros. split; simpl; [done..| |done]. unfold budget_ok. simpl. lia. Qed.

Lemma accounts_run ops st st' :
  accounts st → Forall modest_op ops → alloc_run ops st st' →
  accounts st' ∧ (Forall (λ op, is_set_total op = false) ops → within st.1 → within st'.1).
Proof.
  intros Hacc Hops Hrun. induction Hrun as [|op ops st st' st'' Hstep Hrun IH]; [done|].
  apply Forall_cons in Hops as [Hop Hops].
  destruct IH as [IH1 IH2]; [by eapply accounts_step|done|].
  split; [done|]. intros [Hns ?]%Forall_cons Hw. eauto using within_step.
Qed.

(** ** Properties *)

(** C12: whatever the interleaving of requests, refusals, releases of held
    allocations and changes of the limits, the counters equal the sum of the
    allocations held, exactly; and while the limits are not changed the host
    is never over-subscribed.  The limits at the start are not negative, and
    they and every amount that is requested or set are below 2^62, so that
    the sums fit into 64 bits (negative requests are among those refused). *)
Theorem allocator_accounts numCPU meminfo c m ops r held :
  0 <= TotalCPUs (NewResourceAllocator numCPU meminfo c m) < 2 ^ 62 →
  0 <= TotalMemMB (NewResourceAllocator numCPU meminfo c m) < 2 ^ 62 →
  Forall modest_op ops →
  alloc_run ops (NewResourceAllocator numCPU meminfo c m, []) (r, held) →
  UsedCPUs r = sum_cpus held ∧ UsedMemMB r = sum_mem held ∧
  (Forall (λ op, is_set_total op = false) ops →
   sum_cpus held <= TotalCPUs r ∧ sum_mem held <= TotalMemMB r).
Proof.
  intros [Hc0 Hc] [Hm0 Hm] Hops Hrun.
  destruct (accounts_run _ _ _ (accounts_new _ _ _ _ Hc Hm) Hops Hrun) as [[E1 E2 _ _ _] Hw].
  simpl in *. split_and!; [done..|]. intros Hns. rewrite <- E1, <- E2. by apply Hw.
Qed.

(** A successful [TryAcquire] followed by the [Release] of the same
    allocation restores the budget, and a refused one changes nothing. *)
Theorem acquire_release_restores a r ok r' :
  budget_ok r → modest a → TryAcquire a r = (ok, r') →
  if ok : bool then Release a r' = r else r' = r.
Proof.
  intros Hb Ha H. destruct ok; [|by apply TryAcquire_false in H].
  apply TryAcquire_true in H as (? & ? & _ & _ & ->); [|done..].
  unfold budget_ok, modest, Release in *. simpl.
  rewrite !int64_id by (unfold in_int64, min_int64, max_int64; lia).
  rewrite !decide_False by lia. destruct r; simpl. f_equal; lia.
Qed.

(** [TryAcquire] grants exactly the non-negative requests that [CanFit]
    accepts; [CanFit] itself also accepts negative ones, which [TryAcquire]
    refuses. *)
Theorem TryAcquire_grants_iff a r :
  (TryAcquire a r).1 =
    bool_decide (0 <= CPUs a ∧ 0 <= MemMB a) && CanFit a r.
Proof.
  unfold TryAcquire, CanFit.
  destruct (decide (CPUs a < 0 ∨ MemMB a < 0)).
  { simpl. rewrite (bool_decide_false (0 <= _ ∧ _)) by lia. done. }
  rewrite (bool_decide_true (0 <= _ ∧ _)) by lia. simpl.
  case_decide; [by rewrite bool_decide_false by lia|].
  rewrite bool_decide_true by lia.
  case_decide; [by rewrite bool_decide_false by lia|].
  by rewrite bool_decide_true by lia.
Qed.

(** C37: without a bound on the request the 64-bit sum wraps: a request for
    almost [2^63] CPUs is granted on a busy host and leaves a negative use
    count. *)
Theorem TryAcquire_overflow r :
  0 < UsedCPUs r <= TotalCPUs r → TotalCPUs r <= max_int64 →
  in_int64 (UsedMemMB r) → UsedMemMB r <= TotalMemMB r →
  ∃ r', TryAcquire (mkAllocation max_int64 0) r = (true, r') ∧ UsedCPUs r' < 0.
Proof.
  intros Hu Ht Hm Hm2. unfold TryAcquire. simpl.
  assert (E : int64 (UsedCPUs r + max_int64) = UsedCPUs r - 1 - 2 ^ 63).
  { unfold int64, wrap, max_int64 in *.
    replace (UsedCPUs r + (2 ^ 63 - 1) + 2 ^ (64 - 1))
      with (UsedCPUs r - 1 + 1 * 2 ^ 64) by lia.
    rewrite Z.mod_add, Z.mod_small by lia. lia. }
  unfold max_int64 in *.
  rewrite E, Z.add_0_r, (int64_id (UsedMemMB r)), !decide_False by (done || lia).
  eexists. split; [done|]. simpl. lia.
Qed.

(** The host's memory budget is half of the [MemTotal] figure of the
    first such line, in MiB; without one, or when it does not parse, 8192. *)
Theorem detectHostMemMB_spec pre line post :
  Forall (λ l, HasPrefix l "MemTotal:" = false) pre →
  HasPrefix line "MemTotal:" = true →
  detectHostMemMB (Some (pre ++ line :: post)) =
    match Fields line with
    | _ :: f1 :: _ => match ParseInt f1 with Ok kb => Z.quot kb 2048 | Err _ => 8192 end
    | _ => 8192
    end.
Proof.
  intros Hpre Hline. simpl. induction Hpre as [|l pre Hl _ IH]; simpl.
  - rewrite Hline. repeat case_match; try done.
    rewrite Z.quot_quot by lia. done.
  - by rewrite Hl.
Qed.

Lemma allocator_accounts_witness :
  ∃ r, alloc_run
    [OpAcquire (mkAllocation 2 1024); OpAcquire (mkAllocation 8 1024);
     OpAcquire (mkAllocation 1 512); OpRelease (mkAllocation 2 1024)]
    (NewResourceAllocator 16 None 4 4096, []) (r, [mkAllocation 1 512]) ∧
    UsedCPUs r = sum_cpus [mkAllocation 1 512].
Proof.
  eexists. assert (Hrun : alloc_run
    [OpAcquire (mkAllocation 2 1024); OpAcquire (mkAllocation 8 1024);
     OpAcquire (mkAllocation 1 512); OpRelease (mkAllocation 2 1024)]
    (NewResourceAllocator 16 None 4 4096, []) (mkBudget 4 4096 1 512, [mkAllocation 1 512])).
  { eapply alloc_run_cons; [by apply alloc_acquire|].
    eapply alloc_run_cons; [by apply alloc_refuse|].
    eapply alloc_run_cons; [by apply alloc_acquire|].
    eapply alloc_run_cons; [apply (alloc_release _ [mkAllocation 1 512] [])|].
    apply alloc_run_nil. }
  split; [exact Hrun|].
  refine (proj1 (allocator_accounts 16 None 4 4096 _ _ _ _ _ _ Hrun)); simpl; [lia..|].
  repeat constructor.
Defined.

Lemma acquire_release_restores_witness :
  Release (mkAllocation 2 1024) (mkBudget 8 8192 3 2048) = mkBudget 8 8192 1 1024.
Proof.
  apply (acquire_release_restores (mkAllocation 2 1024) (mkBudget 8 8192 1 1024) true);
    [unfold budget_ok; simpl; lia|unfold modest; simpl; lia|reflexivity].
Defined.

Lemma TryAcquire_overflow_witness :
  ∃ r', TryAcquire (mkAllocation max_int64 0) (mkBudget 8 8192 1 1024) = (true, r') ∧
    UsedCPUs r' < 0.
Proof.
  apply TryAcquire_overflow; unfold in_int64, min_int64, max_int64; simpl; lia.
Defined.

Lemma detectHostMemMB_spec_witness :
  detectHostMemMB (Some (["MemFree: 10 kB"] ++ "MemTotal:       32768000 kB" :: [])) = 16000.
Proof.
  rewrite (detectHostMemMB_spec ["MemFree: 10 kB"] "MemTotal:       32768000 kB" []);
    [reflexivity|by repeat constructor|reflexivity].
Defined.
