(* ===== verification/Topo.v ===== *)
(** * Dependency graphs

    The graph theory the workflow manager relies on: a graph is given by the
    list of dependencies of each node.  [topo] says that a list puts every
    node after its dependencies; a graph with such an order over its nodes
    has no cycle, and a finite graph in which every node of some set has a
    dependency in the set has one. *)
From stdpp Require Import options.
From S2P Require Import Prelude.

Section topo.
Context (deps : string → list string).

(** [depends d x]: [x] lists [d] among its dependencies. *)
Definition depends (d x : string) : Prop := d ∈ deps x.

Definition acyclic : Prop := ∀ x, ¬ tc depends x x.

(** Every element comes after all of its dependencies. *)
Definition topo (o : list string) : Prop :=
  ∀ l1 x l2, o = l1 ++ x :: l2 → ∀ d, d ∈ deps x → d ∈ l1.

Lemma topo_nil : topo [].
Proof. intros [|??] x l2 H; done. Qed.

Lemma topo_snoc o x : topo o → (∀ d, d ∈ deps x → d ∈ o) → topo (o ++ [x]).
Proof.
  intros Ho Hx l1 y l2 Heq d Hd.
  destruct l2 as [|z l2 _] using rev_ind.
  - apply app_inj_tail in Heq as [-> ->]. by apply Hx.
  - rewrite app_comm_cons, app_assoc in Heq.
    apply app_inj_tail in Heq as [-> ->]. by eapply Ho.
Qed.

(** A dependency, direct or not, comes before. *)
Lemma topo_before o d x :
  topo o → tc depends d x → ∀ l1 l2, o = l1 ++ x :: l2 → d ∈ l1.
Proof.
  intros Ho. induction 1 as [d x Hd|d y x Hd _ IH]; intros l1 l2 Heq.
  - by eapply Ho.
  - pose proof (IH _ _ Heq) as (k1 & k2 & ->)%list_elem_of_split.
    assert (d ∈ k1); [|set_solver].
    eapply (Ho k1 y (k2 ++ x :: l2)); [|done].
    by rewrite Heq, <- app_assoc.
Qed.

Lemma tc_depends_last a b : tc depends a b → ∃ y, depends y b.
Proof. induction 1; eauto. Qed.

Lemma topo_acyclic o :
  topo o → NoDup o → (∀ d x, depends d x → x ∈ o) → acyclic.
Proof.
  intros Ho Hnd Hin x Hx.
  assert (x ∈ o) as (l1 & l2 & ->)%list_elem_of_split.
  { destruct (tc_depends_last _ _ Hx) as [y Hy]. eauto. }
  pose proof (topo_before _ _ _ Ho Hx l1 l2 eq_refl).
  apply NoDup_app in Hnd as (_ & Hdis & _). apply (Hdis x); [done|left].
Qed.

(** ** Cycles in a finite set *)

Context (pred : string → string).

(** [n] steps back from [x]. *)
Fixpoint back (n : nat) (x : string) : string :=
  match n with O => x | S n' => pred (back n' x) end.

Definition walk (n : nat) (x : string) : list string := (λ i, back i x) <$> seq 0 n.

Lemma back_add m n x : back (m + n) x = back m (back n x).
Proof. induction m; simpl; congruence. Qed.

Lemma walk_duplicate l : ¬ NoDup l → ∃ i j (x : string), i < j ∧ l !! i = Some x ∧ l !! j = Some x.
Proof.
  induction l as [|x l IH]; intros Hnd; [destruct Hnd; constructor|].
  destruct (decide (x ∈ l)) as [Hx|Hx].
  - apply list_elem_of_lookup in Hx as [j Hj]. exists 0, (S j), x. split; [lia|done].
  - destruct IH as (i & j & y & Hlt & Hi & Hj).
    { intros Hl. apply Hnd. by constructor. }
    exists (S i), (S j), y. split; [lia|done].
Qed.

Lemma finite_cycle (R : list string) (x : string) :
  x ∈ R → (∀ y, y ∈ R → pred y ∈ R ∧ depends (pred y) y) → ∃ y, tc depends y y.
Proof.
  intros Hx Hpred.
  assert (Hback : ∀ n, back n x ∈ R).
  { induction n; simpl; [done|]. by apply Hpred. }
  assert (Hpath : ∀ n m, 0 < n → tc depends (back (n + m) x) (back m x)).
  { intros n m Hn. destruct n as [|n]; [lia|]. clear Hn. induction n as [|n IH]; simpl.
    - apply tc_once, Hpred, Hback.
    - eapply tc_l; [apply Hpred, (Hback (S (n + m)))|]. exact IH. }
  destruct (walk_duplicate (walk (S (length R)) x)) as (i & j & y & Hlt & Hi & Hj).
  { intros Hnd. pose proof (submseteq_length (walk (S (length R)) x) R) as Hlen.
    unfold walk in Hlen at 2. rewrite length_fmap, length_seq in Hlen.
    enough (S (length R) ≤ length R) by lia. apply Hlen.
    apply NoDup_submseteq; [done|]. intros z Hz.
    unfold walk in Hz. apply list_elem_of_fmap in Hz as (k & -> & _). apply Hback. }
  unfold walk in Hi, Hj. rewrite list_lookup_fmap in Hi, Hj.
  apply fmap_Some in Hi as (i' & [-> _]%lookup_seq & ->).
  apply fmap_Some in Hj as (j' & [-> _]%lookup_seq & Heq). simpl in *.
  exists (back i x). rewrite Heq at 1.
  replace j with ((j - i) + i) by lia. apply Hpath. lia.
Qed.

End topo.
