(* ===== verification/Workflow.v ===== *)
(** * The DAG workflow manager ([core/workflow.go])

    A workflow holds the steps of a suite, their status and a topological
    order.  [NewWorkflow] validates the graph and sorts it by Kahn's
    algorithm; it ranges over Go maps three times, and each visit order is an
    argument ([visits]).  The theorems hold for every legal visit. *)
From stdpp Require Import options.
Set Default Proof Using "Type*".
From S2P Require Import Prelude GoStd Types Topo.
Open Scope string_scope.
Open Scope list_scope.
Open Scope nat_scope.

Inductive StepStatus : Set :=
| StepStatusPending
| StepStatusRunning
| StepStatusPassed
| StepStatusFailed
| StepStatusSkipped.

Global Instance StepStatus_eq_dec : EqDecision StepStatus.
Proof. solve_decision. Defined.

Record step : Type := mkStep {
  st_def : WorkflowStep;
  st_status : StepStatus;
  st_attempts : Z;
}.

Record Workflow : Type := mkWorkflow {
  wf_id : string;
  wf_runID : string;
  wf_steps : gmap string step;
  wf_order : list string;
}.

(** The orders in which [NewWorkflow] visits its maps: the steps for the
    validation of references, the steps for the in-degrees, the in-degrees
    for the initial queue. *)
Record visits : Type := mkVisits {
  visit_refs : list string;
  visit_degrees : list string;
  visit_queue : list string;
}.

(** The loop that indexes the definitions. *)
Fixpoint index_steps (id : string) (i : nat) (defs : list WorkflowStep)
    (steps : gmap string step) : result (gmap string step) :=
  match defs with
  | [] => Ok steps
  | d :: ds =>
    if decide (ws_ID d = "") then
      Err ("workflow " +:+ fmt_q id +:+ ": step at index " +:+ fmt_d (Z.of_nat i) +:+ " has empty ID")
    else match steps !! ws_ID d with
    | Some _ => Err ("workflow " +:+ fmt_q id +:+ ": duplicate step ID " +:+ fmt_q (ws_ID d))
    | None => index_steps id (S i) ds (<[ws_ID d := mkStep d StepStatusPending 0]> steps)
    end
  end.

(** The inner loop of the validation: the first unknown dependency. *)
Fixpoint unknown_dep (steps : gmap string step) (deps : list string) : option string :=
  match deps with
  | [] => None
  | dep :: deps' =>
    match steps !! dep with Some _ => unknown_dep steps deps' | None => Some dep end
  end.

Fixpoint validate_refs (id : string) (steps : gmap string step)
    (entries : list (string * step)) : result unit :=
  match entries with
  | [] => Ok tt
  | (sid, s) :: es =>
    match unknown_dep steps (ws_DependsOn (st_def s)) with
    | Some dep => Err ("workflow " +:+ fmt_q id +:+ ": step " +:+ fmt_q sid +:+
                       " depends on unknown step " +:+ fmt_q dep)
    | None => validate_refs id steps es
    end
  end.

(** [inDegree] and [adj]; a missing entry reads as zero or as no list. *)
Definition add_dep (sid : string) (g : gmap string Z * gmap string (list string))
    (dep : string) : gmap string Z * gmap string (list string) :=
  (<[sid := (default 0 (g.1 !! sid) + 1)%Z]> g.1,
   <[dep := default [] (g.2 !! dep) ++ [sid]]> g.2).

Definition add_step (g : gmap string Z * gmap string (list string)) (e : string * step) :
    gmap string Z * gmap string (list string) :=
  foldl (add_dep e.1) (<[e.1 := default 0%Z (g.1 !! e.1)]> g.1, g.2)
    (ws_DependsOn (st_def e.2)).

Definition degrees (entries : list (string * step)) : gmap string Z * gmap string (list string) :=
  foldl add_step (∅, ∅) entries.

Definition initial_queue (entries : list (string * Z)) : list string :=
  (filter (λ e, e.2 = 0%Z) entries).*1.

(** The body of the innermost loop of Kahn's algorithm. *)
Definition relax (g : gmap string Z * list string) (next : string) : gmap string Z * list string :=
  let d := (default 0 (g.1 !! next) - 1)%Z in
  (<[next := d]> g.1, if decide (d = 0%Z) then g.2 ++ [next] else g.2).

(** The main loop, with the number of turns left; it returns the order and
    what is left of the queue. *)
Fixpoint kahn (fuel : nat) (adj : gmap string (list string)) (inDegree : gmap string Z)
    (queue order : list string) : list string * list string :=
  match fuel, queue with
  | O, _ => (order, queue)
  | S _, [] => (order, [])
  | S fuel', cur :: queue' =>
    let g := foldl relax (inDegree, queue') (default [] (adj !! cur)) in
    kahn fuel' adj g.1 g.2 (order ++ [cur])
  end.

Definition NewWorkflow (v : visits) (id runID : string) (defs : list WorkflowStep) : result Workflow :=
  if decide (length defs = 0) then
    Err ("workflow " +:+ fmt_q id +:+ ": no steps provided")
  else
    let! steps := index_steps id 0 defs ∅ in
    let! _ := validate_refs id steps (map_range steps (visit_refs v)) in
    let g := degrees (map_range steps (visit_degrees v)) in
    let queue := initial_queue (map_range g.1 (visit_queue v)) in
    let order := (kahn (length defs) g.2 g.1 queue []).1 in
    if decide (length order ≠ size steps) then
      Err ("workflow " +:+ fmt_q id +:+ ": cycle detected in step dependency graph")
    else Ok (mkWorkflow id runID steps order).

(** [w.steps[sid]]: a dependency is always a step, a missing one would be a
    nil pointer; [status_of] reads the status where there is a step. *)
Definition status_of (steps : gmap string step) (sid : string) : option StepStatus :=
  st_status <$> steps !! sid.

Definition deps_of (steps : gmap string step) (sid : string) : list string :=
  match steps !! sid with Some s => ws_DependsOn (st_def s) | None => [] end.

Definition depsAllPassed (steps : gmap string step) (deps : list string) : bool :=
  forallb (λ dep, bool_decide (status_of steps dep = Some StepStatusPassed)) deps.

Definition depsAnyFailed (steps : gmap string step) (deps : list string) : bool :=
  existsb (λ dep, bool_decide (status_of steps dep = Some StepStatusFailed ∨
                               status_of steps dep = Some StepStatusSkipped)) deps.

Definition is_ready (steps : gmap string step) (sid : string) : bool :=
  match steps !! sid with
  | Some s => bool_decide (st_status s = StepStatusPending) &&
              depsAllPassed steps (ws_DependsOn (st_def s))
  | None => false
  end.

Definition Ready (w : Workflow) : list string :=
  filter (λ sid, is_ready (wf_steps w) sid) (wf_order w).

Definition set_status (st : StepStatus) (s : step) : step :=
  mkStep (st_def s) st (st_attempts s).

(** The body of the loop of [propagateSkip]. *)
Definition skip_one (steps : gmap string step) (sid : string) : gmap string step :=
  match steps !! sid with
  | Some s =>
    if bool_decide (st_status s = StepStatusPending) &&
       depsAnyFailed steps (ws_DependsOn (st_def s))
    then <[sid := set_status StepStatusSkipped s]> steps
    else steps
  | None => steps
  end.

Definition propagateSkip (order : list string) (steps : gmap string step) : gmap string step :=
  foldl skip_one steps order.

Definition set_steps (steps : gmap string step) (w : Workflow) : Workflow :=
  mkWorkflow (wf_id w) (wf_runID w) steps (wf_order w).

Definition Advance (stepID : string) (status : StepStatus) (w : Workflow) : result Workflow :=
  match wf_steps w !! stepID with
  | None => Err ("workflow " +:+ fmt_q (wf_id w) +:+ ": unknown step " +:+ fmt_q stepID)
  | Some s =>
    let steps := <[stepID := set_status status s]> (wf_steps w) in
    Ok (set_steps (if decide (status = StepStatusFailed)
                   then propagateSkip (wf_order w) steps else steps) w)
  end.

Definition MarkRunning (stepID : string) (w : Workflow) : result Workflow :=
  match wf_steps w !! stepID with
  | None => Err ("workflow " +:+ fmt_q (wf_id w) +:+ ": unknown step " +:+ fmt_q stepID)
  | Some s =>
    Ok (set_steps (<[stepID := mkStep (st_def s) StepStatusRunning (st_attempts s + 1)]>
                     (wf_steps w)) w)
  end.

Definition StepDef (stepID : string) (w : Workflow) : option WorkflowStep :=
  st_def <$> wf_steps w !! stepID.

Definition StepStatus_of (stepID : string) (w : Workflow) : option StepStatus :=
  status_of (wf_steps w) stepID.

Definition Attempts (stepID : string) (w : Workflow) : Z :=
  match wf_steps w !! stepID with Some s => st_attempts s | None => 0%Z end.

(** [IsDone] and [Summary] range over the steps; the visit order has no
    influence on what they return ([IsDone_visit], [Summary_visit]), so they
    are given on the entries of the map. *)
Definition unfinished (s : step) : bool :=
  bool_decide (st_status s = StepStatusPending ∨ st_status s = StepStatusRunning).

Definition IsDone_visit (ord : list string) (w : Workflow) : bool :=
  forallb (λ e, negb (unfinished e.2)) (map_range (wf_steps w) ord).

Definition IsDone (w : Workflow) : bool := IsDone_visit (map_keys (wf_steps w)) w.

Definition IsBlocked (w : Workflow) : bool :=
  if IsDone w then false else bool_decide (length (Ready w) = 0).

Definition count_status (st : StepStatus) (entries : list (string * step)) : nat :=
  length (filter (λ e, st_status e.2 = st) entries).

Definition Summary_visit (ord : list string) (w : Workflow) : nat * nat * nat :=
  let es := map_range (wf_steps w) ord in
  (count_status StepStatusPassed es, count_status StepStatusFailed es,
   count_status StepStatusSkipped es).

Definition Summary (w : Workflow) : nat * nat * nat :=
  Summary_visit (map_keys (wf_steps w)) w.

(** ** Construction: the index *)

(** The steps a list of definitions describes, and the conditions under
    which [NewWorkflow] accepts them. *)
Definition ids (defs : list WorkflowStep) : list string := ws_ID <$> defs.

Definition deps_known (defs : list WorkflowStep) : Prop :=
  ∀ d dep, d ∈ defs → dep ∈ ws_DependsOn d → dep ∈ ids defs.

(** The dependency lists of the definitions. *)
Fixpoint deps_in (defs : list WorkflowStep) (x : string) : list string :=
  match defs with
  | [] => []
  | d :: ds => if decide (ws_ID d = x) then ws_DependsOn d else deps_in ds x
  end.

Record well_formed (defs : list WorkflowStep) : Prop := mkWellFormed {
  wfd_some : defs ≠ [];
  wfd_ids : ("" ∉ ids defs);
  wfd_nodup : NoDup (ids defs);
  wfd_known : deps_known defs;
  wfd_acyclic : acyclic (deps_in defs);
}.

(** Legal visits: each map is visited once per key. *)
Definition legal_visits (defs : list WorkflowStep) (v : visits) : Prop :=
  visit_refs v ≡ₚ ids defs ∧ visit_degrees v ≡ₚ ids defs ∧ visit_queue v ≡ₚ ids defs.

Definition new_step (d : WorkflowStep) : step := mkStep d StepStatusPending 0.

(** The map [index_steps] builds. *)
Fixpoint steps_of (defs : list WorkflowStep) (steps : gmap string step) : gmap string step :=
  match defs with
  | [] => steps
  | d :: ds => steps_of ds (<[ws_ID d := new_step d]> steps)
  end.

Lemma index_steps_ok id i defs steps m :
  index_steps id i defs steps = Ok m ↔
  ("" ∉ ids defs) ∧ NoDup (ids defs) ∧ (∀ x, x ∈ ids defs → steps !! x = None) ∧
  m = steps_of defs steps.
Proof.
  revert i steps. induction defs as [|d ds IH]; intros i steps; simpl.
  - split; [intros [= <-]|naive_solver]. split_and!; [apply not_elem_of_nil|constructor| |done].
    intros x Hx. by apply not_elem_of_nil in Hx.
  - unfold ids in *. csimpl. rewrite not_elem_of_cons, NoDup_cons.
    destruct (decide (ws_ID d = "")) as [He|He]; [split; [done|naive_solver]|].
    destruct (steps !! ws_ID d) as [s|] eqn:Hl.
    { split; [done|]. intros (_ & _ & Hn & _). rewrite Hn in Hl by left. done. }
    rewrite IH. split.
    + intros (H1 & H2 & H3 & ->). split_and!; try done.
      * intros Hin. specialize (H3 _ Hin). by rewrite lookup_insert_eq in H3.
      * intros x [->|Hx]%elem_of_cons; [done|]. specialize (H3 _ Hx).
        rewrite lookup_insert in H3. by case_decide.
    + intros ((? & ?) & (? & ?) & H3 & ->). split_and!; try done.
      intros x Hx. rewrite lookup_insert_ne by (intros <-; done). apply H3. by right.
Qed.

Lemma steps_of_lookup defs steps x :
  NoDup (ids defs) →
  steps_of defs steps !! x =
    match list_find (λ d, ws_ID d = x) defs with
    | Some (_, d) => Some (new_step d)
    | None => steps !! x
    end.
Proof.
  revert steps. induction defs as [|d ds IH]; intros steps Hnd; simpl; [done|].
  unfold ids in Hnd. csimpl in *. apply NoDup_cons in Hnd as [Hd Hnd].
  rewrite IH by done. case_decide as Hx; simpl.
  - destruct (list_find _ ds) as [[j e]|] eqn:Ef; simpl.
    + apply list_find_Some in Ef as (Hj & He & _). exfalso. apply Hd.
      rewrite Hx, <- He. apply list_elem_of_fmap. eauto using list_elem_of_lookup_2.
    + subst. by rewrite lookup_insert_eq.
  - destruct (list_find _ ds) as [[j e]|]; simpl; [done|]. by rewrite lookup_insert_ne.
Qed.

Section indexed.
Context (defs : list WorkflowStep) (Hnd : NoDup (ids defs)).

Lemma indexed_lookup x s :
  steps_of defs ∅ !! x = Some s ↔ ∃ d, d ∈ defs ∧ ws_ID d = x ∧ s = new_step d.
Proof.
  rewrite steps_of_lookup by done. destruct (list_find _ defs) as [[i d]|] eqn:Ef.
  - apply list_find_Some in Ef as (Hi & Hx & _). split.
    + intros [= <-]. exists d. eauto using list_elem_of_lookup_2.
    + intros (d' & [j Hj]%list_elem_of_lookup & Hx' & ->). do 2 f_equal.
      assert (i = j) as <-; [|congruence].
      eapply (NoDup_lookup (ids defs)); [done|..]; unfold ids;
        rewrite list_lookup_fmap; [by rewrite Hi|]. rewrite Hj. simpl. congruence.
  - apply list_find_None in Ef. rewrite lookup_empty. split; [done|].
    intros (d & Hd & Hx & _). rewrite Forall_forall in Ef. by destruct (Ef d Hd).
Qed.

Lemma indexed_dom x : is_Some (steps_of defs ∅ !! x) ↔ x ∈ ids defs.
Proof.
  unfold is_Some, ids. setoid_rewrite indexed_lookup. rewrite list_elem_of_fmap. naive_solver.
Qed.

Lemma indexed_visit ord : ord ≡ₚ ids defs → iteration_of (steps_of defs ∅) ord.
Proof.
  intros Hord. apply iteration_of_intro; [by rewrite Hord|].
  intros k. by rewrite Hord, indexed_dom.
Qed.

Lemma indexed_size : size (steps_of defs ∅) = length defs.
Proof.
  rewrite <- (iteration_of_length _ (ids defs)) by by apply indexed_visit.
  unfold ids. by rewrite length_fmap.
Qed.

Lemma indexed_deps x : deps_of (steps_of defs ∅) x = deps_in defs x.
Proof.
  unfold deps_of. rewrite steps_of_lookup, lookup_empty by done. clear Hnd.
  induction defs as [|d ds IH]; simpl; [done|].
  case_decide; [done|]. destruct (list_find _ ds) as [[i e]|] eqn:Ef; simpl in *; done.
Qed.

End indexed.

(** ** Construction: the validation of references *)

Lemma unknown_dep_None steps deps :
  unknown_dep steps deps = None ↔ ∀ d, d ∈ deps → is_Some (steps !! d).
Proof.
  induction deps as [|d ds IH]; simpl; [set_solver|].
  destruct (steps !! d) as [s|] eqn:E; [rewrite IH|]; split.
  - intros H x [->|?]%elem_of_cons; eauto.
  - intros H x Hx. apply H. by right.
  - done.
  - intros H. destruct (H d) as [s Hs]; [by left|]. congruence.
Qed.

Lemma validate_refs_ok id steps entries :
  validate_refs id steps entries = Ok tt ↔
  ∀ sid s d, (sid, s) ∈ entries → d ∈ ws_DependsOn (st_def s) → is_Some (steps !! d).
Proof.
  induction entries as [|[sid s] es IH]; simpl; [set_solver|].
  destruct (unknown_dep steps (ws_DependsOn (st_def s))) as [d|] eqn:E.
  - split; [done|]. intros H. enough (Some d = None) by done. rewrite <- E.
    apply unknown_dep_None. intros x Hx. eapply (H sid s); [left|done].
  - rewrite IH. pose proof (proj1 (unknown_dep_None _ _) E) as Hd. split.
    + intros H sid' s' d [[= -> ->]|Hin]%elem_of_cons Hx; eauto.
    + intros H sid' s' d Hin Hx. eapply H; [by right|done].
Qed.

Lemma validate_refs_cases id steps entries :
  validate_refs id steps entries = Ok tt ∨ ∃ e, validate_refs id steps entries = Err e.
Proof. induction entries as [|[sid s] es IH]; simpl; [auto|]. case_match; eauto. Qed.

(** ** Construction: the in-degrees *)

(** Occurrences of [x] in [l]. *)
Definition occ (x : string) (l : list string) : nat := length (filter (λ y, y = x) l).

Definition adj_of (adj : gmap string (list string)) (d : string) : list string :=
  default [] (adj !! d).

Lemma occ_cons x y l : occ x (y :: l) = (if decide (y = x) then 1 else 0) + occ x l.
Proof. unfold occ. rewrite filter_cons. by case_decide. Qed.

Lemma occ_app x l1 l2 : occ x (l1 ++ l2) = occ x l1 + occ x l2.
Proof. unfold occ. by rewrite filter_app, length_app. Qed.

Lemma occ_pos x l : 0 < occ x l ↔ x ∈ l.
Proof.
  induction l as [|y l IH]; [rewrite elem_of_nil; unfold occ; simpl; lia|].
  rewrite occ_cons, elem_of_cons. case_decide; naive_solver lia.
Qed.

Lemma foldl_add_dep sid deps g n :
  g.1 !! sid = Some n →
  let g' := foldl (add_dep sid) g deps in
  g'.1 !! sid = Some (n + Z.of_nat (length deps))%Z ∧
  (∀ x, x ≠ sid → g'.1 !! x = g.1 !! x) ∧
  (∀ x d, occ x (adj_of g'.2 d) =
          occ x (adj_of g.2 d) + if decide (x = sid) then occ d deps else 0).
Proof.
  revert g n. induction deps as [|d ds IH]; intros g n Hn; simpl.
  - split_and!; [by rewrite Z.add_0_r|done|]. intros. case_decide; unfold occ; simpl; lia.
  - destruct (IH (add_dep sid g d) (n + 1)%Z) as (H1 & H2 & H3).
    { unfold add_dep. simpl. by rewrite lookup_insert_eq, Hn. }
    split_and!.
    + rewrite H1. f_equal. lia.
    + intros x Hx. rewrite H2 by done. unfold add_dep. simpl. by rewrite lookup_insert_ne.
    + intros x e. rewrite H3. unfold add_dep, adj_of. simpl. rewrite lookup_insert.
      rewrite (occ_cons e d ds). destruct (decide (d = e)) as [->|]; simpl; [|lia].
      rewrite occ_app, occ_cons. destruct (decide (x = sid)) as [->|];
        [rewrite decide_True by done|rewrite decide_False by done]; unfold occ; simpl; lia.
Qed.

Lemma degrees_spec entries :
  NoDup entries.*1 →
  let g := degrees entries in
  (∀ x s, (x, s) ∈ entries →
     g.1 !! x = Some (Z.of_nat (length (ws_DependsOn (st_def s)))) ∧
     ∀ d, occ x (adj_of g.2 d) = occ d (ws_DependsOn (st_def s))) ∧
  (∀ x, x ∉ entries.*1 → g.1 !! x = None ∧ ∀ d, occ x (adj_of g.2 d) = 0).
Proof.
  unfold degrees. induction entries as [|[y t] es IH] using rev_ind; intros Hnd; simpl.
  { split; [intros x s Hx; by apply not_elem_of_nil in Hx|]. intros x _. split; done. }
  rewrite foldl_app. simpl. rewrite fmap_app in Hnd. simpl in Hnd.
  apply NoDup_app in Hnd as (Hnd & Hdis & _). destruct (IH Hnd) as [IH1 IH2]. clear IH.
  set (g := foldl add_step (∅, ∅) es) in *.
  assert (Hy : y ∉ es.*1) by (intros Hy; apply (Hdis y Hy); left).
  destruct (IH2 _ Hy) as [Hgy Hoy].
  destruct (foldl_add_dep y (ws_DependsOn (st_def t))
    (<[y := default 0%Z (g.1 !! y)]> g.1, g.2) 0) as (H1 & H2 & H3).
  { simpl. by rewrite lookup_insert_eq, Hgy. }
  unfold add_step. simpl in *. split.
  - intros x s [Hx|Hx]%elem_of_app.
    + assert (x ≠ y) as Hne by (intros ->; apply Hy, list_elem_of_fmap; by exists (y, s)).
      destruct (IH1 x s Hx) as [Ha Hb]. split.
      * rewrite H2, lookup_insert_ne by done. done.
      * intros d. rewrite H3, decide_False, Hb by done. lia.
    + apply list_elem_of_singleton in Hx as [= -> ->]. split; [by rewrite H1|].
      intros d. rewrite H3, decide_True, Hoy by done. lia.
  - intros x Hx. rewrite fmap_app, not_elem_of_app in Hx. destruct Hx as [Hx Hxy].
    simpl in Hxy. rewrite list_elem_of_singleton in Hxy.
    destruct (IH2 x Hx) as [Ha Hb]. split.
    + rewrite H2, lookup_insert_ne by done. done.
    + intros d. rewrite H3, decide_False, Hb by done. lia.
Qed.

(** ** Construction: Kahn's algorithm *)

Lemma foldl_relax D q L :
  (∀ x, x ∈ L → ∃ n, D !! x = Some n ∧ (Z.of_nat (occ x L) ≤ n)%Z) →
  let g := foldl relax (D, q) L in
  (∀ x n, D !! x = Some n → g.1 !! x = Some (n - Z.of_nat (occ x L))%Z) ∧
  ∃ news, g.2 = q ++ news ∧ NoDup news ∧
    ∀ x, x ∈ news ↔ x ∈ L ∧ D !! x = Some (Z.of_nat (occ x L)).
Proof.
  revert D q. induction L as [|a L IH]; intros D q HL; simpl.
  { split; [intros x n ->; f_equal; unfold occ; simpl; lia|].
    exists []. rewrite app_nil_r. split_and!; [done|constructor|]. set_solver. }
  destruct (HL a) as (n & Hn & Hle); [left|]. rewrite occ_cons, decide_True in Hle by done.
  unfold relax at 2 4. simpl. rewrite Hn. simpl.
  set (q1 := if decide (n - 1 = 0)%Z then q ++ [a] else q).
  destruct (IH (<[a:=(n - 1)%Z]> D) q1) as (H1 & news & H2 & H3 & H4).
  { intros x Hx. rewrite lookup_insert. destruct (decide (a = x)) as [<-|Hne].
    - exists (n - 1)%Z. split; [done|lia].
    - destruct (HL x) as (m & Hm & Hmle); [by right|]. exists m. split; [done|].
      rewrite occ_cons, decide_False in Hmle by done. lia. }
  split.
  - intros x m Hm. rewrite occ_cons. destruct (decide (a = x)) as [<-|Hne].
    + rewrite (H1 a (n - 1)%Z) by by rewrite lookup_insert_eq. f_equal. simplify_eq. lia.
    + rewrite (H1 x m) by by rewrite lookup_insert_ne. f_equal.
  - assert (Ha : a ∈ L ↔ 0 < occ a L) by (by rewrite occ_pos).
    assert (Hnews : ∀ x, x ∈ (if decide (n - 1 = 0)%Z then [a] else []) ++ news ↔
      x ∈ a :: L ∧ D !! x = Some (Z.of_nat (occ x (a :: L)))).
    { intros x. rewrite elem_of_app, H4, elem_of_cons, occ_cons, lookup_insert.
      destruct (decide (a = x)) as [<-|Hne].
      - rewrite Hn. destruct (decide (n - 1 = 0)%Z);
          rewrite ?elem_of_nil, ?list_elem_of_singleton, !(inj_iff Some); naive_solver lia.
      - assert (x ∉ (if decide (n - 1 = 0)%Z then [a] else [])) by (case_decide; set_solver).
        naive_solver. }
    exists ((if decide (n - 1 = 0)%Z then [a] else []) ++ news). split_and!; [|..|done].
    + rewrite H2. unfold q1. case_decide; simpl; [by rewrite <- app_assoc|done].
    + case_decide as Hd; simpl; [|done]. constructor; [|done].
      rewrite H4. intros [HaL _]. apply Ha in HaL. lia.
Qed.

Section kahn.
Context (nodes : list string) (deps : string → list string)
  (adj : gmap string (list string)).
Context (Hnodes : NoDup nodes)
  (Hclosed : ∀ x d, x ∈ nodes → d ∈ deps x → d ∈ nodes)
  (Hadj : ∀ x d, x ∈ nodes → occ x (adj_of adj d) = occ d (deps x))
  (Hadj_out : ∀ x d, x ∉ nodes → occ x (adj_of adj d) = 0).

(** The dependencies of [x] not yet in the order. *)
Definition missing (o : list string) (x : string) : nat :=
  length (filter (λ d, d ∉ o) (deps x)).

Record kahn_inv (D : gmap string Z) (q o : list string) : Prop := mkKahnInv {
  ki_deg : ∀ x, x ∈ nodes → D !! x = Some (Z.of_nat (missing o x));
  ki_nodup : NoDup (o ++ q);
  ki_in : ∀ x, x ∈ o ++ q ↔ x ∈ nodes ∧ missing o x = 0;
  ki_topo : topo deps o;
}.

Lemma missing_snoc o cur x :
  cur ∉ o → missing (o ++ [cur]) x + occ cur (deps x) = missing o x.
Proof.
  intros Hcur. unfold missing, occ. induction (deps x) as [|d l IH]; simpl; [done|].
  rewrite !filter_cons. destruct (decide (d = cur)) as [->|Hne].
  - rewrite (decide_False (P := cur ∉ o ++ [cur])) by set_solver.
    rewrite (decide_True (P := cur ∉ o)) by done. simpl. lia.
  - destruct (decide (d ∉ o)).
    + rewrite decide_True by set_solver. simpl. lia.
    + rewrite decide_False by set_solver. lia.
Qed.

Lemma missing_zero o x : missing o x = 0 ↔ ∀ d, d ∈ deps x → d ∈ o.
Proof.
  unfold missing. rewrite length_zero_iff_nil. split.
  - intros Hf d Hd. destruct (decide (d ∈ o)); [done|].
    assert (d ∈ filter (λ d, d ∉ o) (deps x)) as H by by apply list_elem_of_filter.
    rewrite Hf in H. by apply not_elem_of_nil in H.
  - intros H. destruct (filter _ (deps x)) as [|d l] eqn:E; [done|].
    assert (d ∈ filter (λ d, d ∉ o) (deps x)) as [? ?]%list_elem_of_filter
      by (rewrite E; left). exfalso. eauto.
Qed.

Lemma kahn_inv_step D cur q o :
  kahn_inv D (cur :: q) o →
  let g := foldl relax (D, q) (adj_of adj cur) in kahn_inv g.1 g.2 (o ++ [cur]).
Proof.
  intros [Hdeg Hnd Hin Htopo]. simpl.
  assert (Hcur : cur ∈ nodes ∧ missing o cur = 0) by (apply Hin; set_solver).
  destruct Hcur as [Hcn Hc0].
  assert (Hco : cur ∉ o).
  { apply NoDup_app in Hnd as (_ & Hd & _). intros H. apply (Hd _ H). left. }
  assert (HL : ∀ x, x ∈ adj_of adj cur → x ∈ nodes).
  { intros x Hx. destruct (decide (x ∈ nodes)); [done|].
    apply occ_pos in Hx. rewrite Hadj_out in Hx by done. lia. }
  destruct (foldl_relax D q (adj_of adj cur)) as (H1 & news & H2 & H3 & H4).
  { intros x Hx. eexists. split; [by apply Hdeg, HL|].
    rewrite Hadj by auto. pose proof (missing_snoc o cur x Hco). lia. }
  assert (Hnews : ∀ x, x ∈ news ↔ x ∈ nodes ∧ missing (o ++ [cur]) x = 0 ∧ missing o x ≠ 0).
  { intros x. rewrite H4. destruct (decide (x ∈ nodes)) as [Hx|Hx]; [|naive_solver].
    rewrite Hdeg, (inj_iff Some), <- occ_pos, Hadj by done.
    pose proof (missing_snoc o cur x Hco). naive_solver lia. }
  assert (Hdec : ∀ x, x ∈ nodes → missing (o ++ [cur]) x ≤ missing o x).
  { intros x _. pose proof (missing_snoc o cur x Hco). lia. }
  rewrite H2. split.
  - intros x Hx. rewrite (H1 x _ (Hdeg x Hx)), Hadj by done. f_equal.
    pose proof (missing_snoc o cur x Hco). lia.
  - rewrite <- app_assoc. simpl. rewrite app_comm_cons, app_assoc. apply NoDup_app.
    split_and!; [done| |done]. intros x Hx Hn. apply Hnews in Hn as (_ & _ & Hn).
    apply Hin in Hx as [_ Hx]. done.
  - intros x. rewrite <- app_assoc. simpl. rewrite app_comm_cons, app_assoc, elem_of_app.
    rewrite Hin, Hnews. split; [|destruct (decide (missing o x = 0)); naive_solver].
    intros [[Hx Hm]|?]; [|naive_solver]. specialize (Hdec x Hx). split; [done|lia].
  - apply topo_snoc; [done|]. by apply missing_zero.
Qed.

Lemma kahn_terminates fuel D q o :
  kahn_inv D q o → length nodes ≤ fuel + length o →
  (kahn fuel adj D q o).2 = [] ∧ ∃ D', kahn_inv D' [] (kahn fuel adj D q o).1.
Proof.
  revert D q o. induction fuel as [|fuel IH]; intros D q o Hinv Hfuel; simpl.
  - assert (length (o ++ q) ≤ length nodes) as Hlen.
    { apply submseteq_length, NoDup_submseteq; [apply Hinv|].
      intros x Hx. by apply (ki_in _ _ _ Hinv) in Hx as [? _]. }
    rewrite length_app in Hlen. destruct q; [|simpl in *; lia]. eauto.
  - destruct q as [|cur q]; [simpl; eauto|].
    apply IH; [by apply kahn_inv_step|]. rewrite length_app. simpl. lia.
Qed.

(** The algorithm orders every node exactly when the graph has no cycle. *)
Lemma kahn_complete D o :
  kahn_inv D [] o → length o = length nodes →
  o ≡ₚ nodes ∧ topo deps o.
Proof.
  intros [_ Hnd Hin Htopo] Hlen. rewrite app_nil_r in Hnd. split; [|done].
  apply submseteq_length_Permutation; [|lia].
  apply NoDup_submseteq; [done|]. intros x Hx.
  by apply Hin; rewrite app_nil_r.
Qed.

Lemma kahn_cycle D o :
  kahn_inv D [] o → length o ≠ length nodes → ∃ x, tc (depends deps) x x.
Proof.
  intros [_ Hnd Hin Htopo] Hlen. rewrite app_nil_r in Hnd, Hin.
  set (R := filter (λ x, x ∉ o) nodes).
  set (pred := λ x, default x (head (filter (λ d, d ∉ o) (deps x)))).
  assert (Hpred : ∀ y, y ∈ R → pred y ∈ R ∧ depends deps (pred y) y).
  { intros y [Hyo Hy]%list_elem_of_filter. unfold pred.
    destruct (filter (λ d, d ∉ o) (deps y)) as [|d l] eqn:Ef; simpl.
    - exfalso. apply Hyo, Hin. split; [done|]. unfold missing. by rewrite Ef.
    - assert (d ∈ filter (λ d, d ∉ o) (deps y)) as [Hdo Hd]%list_elem_of_filter
        by (rewrite Ef; left).
      split; [|done]. apply list_elem_of_filter. eauto. }
  destruct R as [|x R'] eqn:ER.
  - exfalso. apply Hlen. apply Permutation_length, NoDup_Permutation; [done..|].
    intros x. split; [by intros [? _]%Hin|]. intros Hx.
    destruct (decide (x ∈ o)); [done|].
    assert (x ∈ R) as Hr by (apply list_elem_of_filter; done).
    rewrite ER in Hr. by apply not_elem_of_nil in Hr.
  - eapply (finite_cycle deps pred (x :: R') x); [left|done].
Qed.

End kahn.

(** ** Construction: the result *)

Section construction.
Context (defs : list WorkflowStep) (v : visits) (Hv : legal_visits defs v)
  (Hnd : NoDup (ids defs)) (Hknown : deps_known defs).

Let steps := steps_of defs ∅.
Let g := degrees (map_range steps (visit_degrees v)).
Let queue := initial_queue (map_range g.1 (visit_queue v)).

Lemma deps_in_elem x d : x ∈ ids defs → d ∈ deps_in defs x → d ∈ ids defs.
Proof.
  intros Hx Hd. rewrite <- indexed_deps in Hd by done. unfold deps_of in Hd.
  apply indexed_dom in Hx as [s Hs]; [|done]. rewrite Hs in Hd.
  apply indexed_lookup in Hs as (e & He & _ & ->); [|done]. by eapply Hknown.
Qed.

Lemma new_degrees x :
  x ∈ ids defs →
  g.1 !! x = Some (Z.of_nat (length (deps_in defs x))) ∧
  ∀ d, occ x (adj_of g.2 d) = occ d (deps_in defs x).
Proof.
  intros Hx. destruct Hv as (_ & Hvd & _).
  pose proof (indexed_visit _ Hnd _ Hvd : iteration_of steps _) as Hit.
  apply indexed_dom in Hx as [s Hs]; [|done].
  destruct (degrees_spec (map_range steps (visit_degrees v))) as [Hdeg _].
  { rewrite (map_range_permutation _ _ Hit). apply NoDup_fst_map_to_list. }
  rewrite <- indexed_deps by done. unfold deps_of. rewrite Hs.
  by apply Hdeg, elem_of_map_range.
Qed.

Lemma new_degrees_out x :
  x ∉ ids defs → g.1 !! x = None ∧ ∀ d, occ x (adj_of g.2 d) = 0.
Proof.
  intros Hx. destruct Hv as (_ & Hvd & _).
  pose proof (indexed_visit _ Hnd _ Hvd : iteration_of steps _) as Hit.
  destruct (degrees_spec (map_range steps (visit_degrees v))) as [_ Hdeg].
  { rewrite (map_range_permutation _ _ Hit). apply NoDup_fst_map_to_list. }
  apply Hdeg. intros Hin. apply Hx. apply (indexed_dom defs Hnd).
  apply list_elem_of_fmap in Hin as ([k s] & -> & Hk).
  apply elem_of_map_range in Hk; [|done]. eauto.
Qed.

Lemma new_kahn_inv : kahn_inv (ids defs) (deps_in defs) g.1 queue [].
Proof.
  destruct Hv as (_ & _ & Hvq).
  assert (Hit : iteration_of g.1 (visit_queue v)).
  { apply iteration_of_intro; [by rewrite Hvq|]. intros k. rewrite Hvq. split.
    - intros Hk. destruct (new_degrees k Hk) as [-> _]. eauto.
    - intros [n Hn]. destruct (decide (k ∈ ids defs)); [done|].
      destruct (new_degrees_out k) as [Hk _]; [done|]. congruence. }
  assert (Hm : ∀ x, missing (deps_in defs) [] x = length (deps_in defs x)).
  { intros x. unfold missing. f_equal. induction (deps_in defs x) as [|d l IH]; [done|].
    rewrite filter_cons, decide_True, IH by apply not_elem_of_nil. done. }
  assert (Hq : ∀ x, x ∈ queue ↔ g.1 !! x = Some 0%Z).
  { intros x. unfold queue, initial_queue. rewrite list_elem_of_fmap. split.
    - intros ([k n] & -> & [Hn Hk]%list_elem_of_filter). simpl in *. subst n.
      by apply elem_of_map_range in Hk.
    - intros Hx. exists (x, 0%Z). split; [done|]. apply list_elem_of_filter.
      by rewrite elem_of_map_range. }
  split; simpl.
  - intros x Hx. rewrite Hm. by apply new_degrees.
  - unfold queue, initial_queue.
    assert (Hs : ∀ l : list (string * Z), NoDup l.*1 → NoDup (filter (λ e, e.2 = 0%Z) l).*1).
    { induction l as [|[k n] l IH]; csimpl; [done|]. intros [Hk Hl]%NoDup_cons.
      rewrite filter_cons. case_decide; csimpl; [|by apply IH].
      constructor; [|by apply IH]. intros Hin. apply Hk.
      apply list_elem_of_fmap in Hin as (e & -> & [_ He]%list_elem_of_filter).
      apply list_elem_of_fmap. eauto. }
    apply Hs. rewrite (map_range_permutation _ _ Hit). apply NoDup_fst_map_to_list.
  - intros x. rewrite Hq, Hm. destruct (decide (x ∈ ids defs)) as [Hx|Hx].
    + destruct (new_degrees x Hx) as [-> _]. rewrite (inj_iff Some). naive_solver lia.
    + destruct (new_degrees_out x Hx) as [-> _]. naive_solver.
  - apply topo_nil.
Qed.

Lemma new_order :
  let order := (kahn (length defs) g.2 g.1 queue []).1 in
  (length order = length defs ∧ order ≡ₚ ids defs ∧ topo (deps_in defs) order ∧
   acyclic (deps_in defs)) ∨
  (length order ≠ length defs ∧ ¬ acyclic (deps_in defs)).
Proof.
  assert (Hlen : length (ids defs) = length defs) by (unfold ids; by rewrite length_fmap).
  pose proof (λ x d Hx, proj2 (new_degrees x Hx) d) as Ha.
  pose proof (λ x d Hx, proj2 (new_degrees_out x Hx) d) as Ho.
  destruct (kahn_terminates (ids defs) (deps_in defs) g.2 Hnd deps_in_elem Ha Ho
    (length defs) g.1 queue [] new_kahn_inv) as (_ & D & Hinv); [simpl; lia|].
  simpl. set (order := (kahn _ _ _ _ _).1) in *.
  destruct (decide (length order = length defs)) as [He|He].
  - left. destruct (kahn_complete _ _ _ Hnd deps_in_elem Ha Ho _ _ Hinv) as [Hp Ht]; [lia|].
    split_and!; [done..|]. apply (topo_acyclic _ order); [done|by rewrite Hp|].
    intros d x Hd. rewrite Hp. unfold depends in Hd.
    destruct (decide (x ∈ ids defs)); [done|].
    rewrite <- indexed_deps in Hd by done. unfold deps_of in Hd.
    destruct (steps_of defs ∅ !! x) eqn:E; [|by apply not_elem_of_nil in Hd].
    apply (indexed_dom defs Hnd). eauto.
  - right. split; [done|]. intros Hac.
    destruct (kahn_cycle _ _ _ Hnd deps_in_elem Ha Ho _ _ Hinv) as [x Hx]; [lia|].
    by eapply Hac.
Qed.

End construction.

Lemma NewWorkflow_cases v id runID defs :
  legal_visits defs v →
  (well_formed defs ∧ ∃ order,
     NewWorkflow v id runID defs = Ok (mkWorkflow id runID (steps_of defs ∅) order) ∧
     order ≡ₚ ids defs ∧ topo (deps_in defs) order) ∨
  (¬ well_formed defs ∧ ∃ e, NewWorkflow v id runID defs = Err e).
Proof.
  intros Hv. unfold NewWorkflow. destruct (decide (length defs = 0)) as [H0|H0].
  { right. split; [|eauto]. intros [H _ _ _ _]. by destruct defs. }
  destruct (index_steps id 0 defs ∅) as [steps|e] eqn:Ei; simpl; last first.
  { right. split; [|eauto]. intros [_ Hi Hn _ _].
    enough (index_steps id 0 defs ∅ = Ok (steps_of defs ∅)) by congruence.
    apply index_steps_ok. split_and!; done. }
  apply index_steps_ok in Ei as (Hi & Hn & _ & ->).
  assert (Hrefs : validate_refs id (steps_of defs ∅)
    (map_range (steps_of defs ∅) (visit_refs v)) = Ok tt ↔ deps_known defs).
  { pose proof (indexed_visit _ Hn _ (proj1 Hv)) as Hit.
    rewrite validate_refs_ok. unfold deps_known. split.
    - intros H d dep Hd Hdep. apply (indexed_dom defs Hn).
      apply (H (ws_ID d) (new_step d)); [|done]. apply elem_of_map_range; [done|].
      apply indexed_lookup; eauto.
    - intros H sid s dep Hs Hdep. apply elem_of_map_range in Hs; [|done].
      apply indexed_lookup in Hs as (d & Hd & _ & ->); [|done].
      apply (indexed_dom defs Hn). by eapply H. }
  destruct (validate_refs_cases id (steps_of defs ∅)
    (map_range (steps_of defs ∅) (visit_refs v))) as [Er|[e Er]]; rewrite Er; simpl; last first.
  { right. split; [|eauto]. intros [_ _ _ Hk _]. apply Hrefs in Hk. congruence. }
  pose proof (proj1 Hrefs Er) as Hk. rewrite indexed_size by done.
  destruct (new_order defs v Hv Hn Hk) as [(Hl & Hp & Ht & Ha)|[Hl Ha]].
  - left. rewrite decide_False by naive_solver. split; [|eauto].
    split; try done. by intros ->.
  - right. rewrite decide_True by done. split; [|eauto]. by intros [_ _ _ _ ?].
Qed.

(** ** Properties *)

(** C7: in whatever order Go visits the maps, [NewWorkflow] accepts exactly
    the non-empty lists of steps with distinct non-empty identifiers, known
    dependencies and no dependency cycle. *)
Theorem NewWorkflow_accepts_iff v id runID defs :
  legal_visits defs v →
  is_ok (NewWorkflow v id runID defs) = true ↔ well_formed defs.
Proof.
  intros Hv. destruct (NewWorkflow_cases v id runID defs Hv)
    as [(Hw & o & -> & _)|(Hw & e & ->)]; simpl; naive_solver.
Qed.

(** An accepted workflow lists every step exactly once, after all of its
    direct and indirect dependencies, and each step starts pending, never
    attempted, with its definition. *)
Theorem NewWorkflow_topological v id runID defs w :
  legal_visits defs v → NewWorkflow v id runID defs = Ok w →
  wf_order w ≡ₚ ids defs ∧
  (∀ l1 x l2 d, wf_order w = l1 ++ x :: l2 → tc (depends (deps_in defs)) d x → d ∈ l1) ∧
  (∀ d, d ∈ defs → wf_steps w !! ws_ID d = Some (mkStep d StepStatusPending 0)).
Proof.
  intros Hv Hw. destruct (NewWorkflow_cases v id runID defs Hv)
    as [(Hwf & o & E & Hp & Ht)|(_ & e & E)]; rewrite E in Hw; [|done].
  injection Hw as <-. simpl. split_and!; [done| |].
  - intros l1 x l2 d Ho Hd. by eapply topo_before.
  - intros d Hd. apply indexed_lookup; [by apply wfd_nodup|]. eauto.
Qed.

(** Steps that are well formed but for a dependency cycle are refused
    with the cycle error, whatever the visit order. *)
Theorem NewWorkflow_cycle_error v id runID defs :
  legal_visits defs v → defs ≠ [] → ("" ∉ ids defs) → NoDup (ids defs) →
  deps_known defs → (∃ x, tc (depends (deps_in defs)) x x) →
  NewWorkflow v id runID defs =
    Err ("workflow " +:+ fmt_q id +:+ ": cycle detected in step dependency graph").
Proof.
  intros Hv Hne Hi Hn Hk [x Hx]. unfold NewWorkflow.
  rewrite decide_False by by destruct defs.
  assert (index_steps id 0 defs ∅ = Ok (steps_of defs ∅)) as ->.
  { apply index_steps_ok. split_and!; done. }
  simpl. destruct (validate_refs id (steps_of defs ∅)
    (map_range (steps_of defs ∅) (visit_refs v))) as [[]|e] eqn:Er; simpl; last first.
  { enough (validate_refs id (steps_of defs ∅)
      (map_range (steps_of defs ∅) (visit_refs v)) = Ok tt) by congruence.
    apply validate_refs_ok. intros sid s dep Hs Hdep.
    pose proof (indexed_visit _ Hn _ (proj1 Hv)) as Hit.
    apply elem_of_map_range in Hs; [|done].
    apply indexed_lookup in Hs as (d & Hd & _ & ->); [|done].
    apply (indexed_dom defs Hn). by eapply Hk. }
  rewrite indexed_size by done.
  destruct (new_order defs v Hv Hn Hk) as [(_ & _ & _ & Ha)|[Hl _]].
  - by destruct (Ha x).
  - by rewrite decide_True.
Qed.

(** A suite with a diamond of dependencies, and one with a cycle. *)
Definition mk_def (id : string) (deps : list string) : WorkflowStep :=
  mkWorkflowStep id ("/mnt/share/dvf_tests/" +:+ id) [] deps 0 30.

Definition diamond : list WorkflowStep :=
  [mk_def "report" ["left"; "right"]; mk_def "left" ["probe"];
   mk_def "right" ["probe"]; mk_def "probe" []].

Definition same_visits (defs : list WorkflowStep) : visits :=
  mkVisits (ids defs) (ids defs) (ids defs).

Lemma same_visits_legal defs : legal_visits defs (same_visits defs).
Proof. unfold legal_visits, same_visits. by simpl. Qed.

Example diamond_order :
  match NewWorkflow (same_visits diamond) "smoke" "tr-1" diamond with
  | Ok w => wf_order w | Err _ => [] end = ["probe"; "left"; "right"; "report"].
Proof. vm_compute. reflexivity. Qed.

Lemma NewWorkflow_accepts_iff_witness :
  legal_visits diamond (same_visits diamond) ∧ well_formed diamond.
Proof.
  split; [apply same_visits_legal|].
  apply (NewWorkflow_accepts_iff (same_visits diamond) "smoke" "tr-1" diamond).
  - apply same_visits_legal.
  - vm_compute. reflexivity.
Defined.

Lemma NewWorkflow_topological_witness :
  ∃ w, NewWorkflow (same_visits diamond) "smoke" "tr-1" diamond = Ok w ∧
    wf_order w ≡ₚ ids diamond.
Proof.
  destruct (NewWorkflow (same_visits diamond) "smoke" "tr-1" diamond) as [w|e] eqn:E.
  - exists w. split; [done|].
    exact (proj1 (NewWorkflow_topological _ _ _ _ _ (same_visits_legal diamond) E)).
  - exfalso. vm_compute in E. discriminate E.
Defined.

Definition loop2 : list WorkflowStep := [mk_def "a" ["b"]; mk_def "b" ["a"]].

Lemma NewWorkflow_cycle_error_witness :
  NewWorkflow (same_visits loop2) "smoke" "tr-1" loop2 =
    Err ("workflow " +:+ fmt_q "smoke" +:+ ": cycle detected in step dependency graph").
Proof.
  apply NewWorkflow_cycle_error.
  - apply same_visits_legal.
  - discriminate.
  - apply (bool_decide_unpack _). vm_compute. exact I.
  - apply (bool_decide_unpack _). vm_compute. exact I.
  - intros d dep Hd Hdep. unfold loop2 in Hd.
    repeat (apply elem_of_cons in Hd as [->|Hd]; [simpl in Hdep; set_solver|]).
    by apply not_elem_of_nil in Hd.
  - exists "a". apply (tc_l _ "a" "b" "a"); [|apply tc_once]; left.
Defined.
