(* ===== verification/WorkflowRun.v ===== *)
(** * Driving a workflow ([core/workflow.go], the operations)

    The invariant of a workflow under execution and what [Ready],
    [MarkRunning], [Advance] and [propagateSkip] do to it.  The driver
    ([runWorkflow]) marks running only steps that are ready and advances only
    steps that are running, to passed or failed. *)
From stdpp Require Import options.
From S2P Require Import Prelude GoStd Types Topo Workflow.
Set Default Proof Using "Type*".
Open Scope string_scope.
Open Scope list_scope.
Open Scope nat_scope.

Definition bad (st : option StepStatus) : Prop :=
  st = Some StepStatusFailed ∨ st = Some StepStatusSkipped.

(** The static part: the order is a topological enumeration of the steps. *)
Record wf_shape (order : list string) (steps : gmap string step) : Prop := mkShape {
  sh_nodup : NoDup order;
  sh_dom : ∀ x, x ∈ order ↔ is_Some (steps !! x);
  sh_topo : topo (deps_of steps) order;
}.

(** The dynamic part. *)
Record wf_inv (w : Workflow) : Prop := mkWfInv {
  inv_shape : wf_shape (wf_order w) (wf_steps w);
  (* no pending step waits for one that failed or was skipped *)
  inv_settled : ∀ x d, status_of (wf_steps w) x = Some StepStatusPending →
    d ∈ deps_of (wf_steps w) x → ¬ bad (status_of (wf_steps w) d);
  (* a step only starts when its dependencies have passed *)
  inv_started : ∀ x d st, status_of (wf_steps w) x = Some st →
    st = StepStatusRunning ∨ st = StepStatusPassed ∨ st = StepStatusFailed →
    d ∈ deps_of (wf_steps w) x → status_of (wf_steps w) d = Some StepStatusPassed;
  (* a step is only skipped for a reason *)
  inv_skipped : ∀ x, status_of (wf_steps w) x = Some StepStatusSkipped →
    ∃ d, d ∈ deps_of (wf_steps w) x ∧ bad (status_of (wf_steps w) d);
}.

(** A step that waits, directly or through pending steps, for one that
    failed or was skipped. *)
Inductive doomed (steps : gmap string step) (x : string) : Prop :=
| doomed_now d :
    d ∈ deps_of steps x → bad (status_of steps d) → doomed steps x
| doomed_later d :
    d ∈ deps_of steps x → status_of steps d = Some StepStatusPending →
    doomed steps d → doomed steps x.

(** One step of the driver. *)
Inductive wf_step : Workflow → Workflow → Prop :=
| wf_mark w w' x : x ∈ Ready w → MarkRunning x w = Ok w' → wf_step w w'
| wf_advance w w' x st :
    status_of (wf_steps w) x = Some StepStatusRunning →
    st = StepStatusPassed ∨ st = StepStatusFailed →
    Advance x st w = Ok w' → wf_step w w'.

(** ** Reading the state *)

Lemma deps_of_insert steps x s s' y :
  steps !! x = Some s → st_def s' = st_def s →
  deps_of (<[x := s']> steps) y = deps_of steps y.
Proof.
  intros Hx Hd. unfold deps_of. rewrite lookup_insert. case_decide; [subst|done].
  by rewrite Hx, Hd.
Qed.

Lemma status_of_insert steps x s y :
  status_of (<[x := s]> steps) y = if decide (x = y) then Some (st_status s) else status_of steps y.
Proof. unfold status_of. rewrite lookup_insert. by case_decide. Qed.

Lemma depsAllPassed_spec steps deps :
  depsAllPassed steps deps = true ↔
  ∀ d, d ∈ deps → status_of steps d = Some StepStatusPassed.
Proof.
  unfold depsAllPassed. rewrite forallb_forall. split.
  - intros H d Hd. apply list_elem_of_In, H, bool_decide_eq_true in Hd. done.
  - intros H d Hd%list_elem_of_In. apply bool_decide_eq_true. auto.
Qed.

Lemma depsAnyFailed_spec steps deps :
  depsAnyFailed steps deps = true ↔ ∃ d, d ∈ deps ∧ bad (status_of steps d).
Proof.
  unfold depsAnyFailed. rewrite existsb_exists. split.
  - intros (d & Hd%list_elem_of_In & H%bool_decide_eq_true). eauto.
  - intros (d & Hd & H). exists d. by rewrite <- list_elem_of_In, bool_decide_eq_true.
Qed.

Lemma status_of_Some steps x st :
  status_of steps x = Some st ↔ ∃ s, steps !! x = Some s ∧ st_status s = st.
Proof. unfold status_of. rewrite fmap_Some. naive_solver. Qed.

Lemma deps_of_Some steps x s :
  steps !! x = Some s → deps_of steps x = ws_DependsOn (st_def s).
Proof. unfold deps_of. by intros ->. Qed.

Lemma is_ready_spec steps x :
  is_ready steps x = true ↔
  status_of steps x = Some StepStatusPending ∧
  ∀ d, d ∈ deps_of steps x → status_of steps d = Some StepStatusPassed.
Proof.
  unfold is_ready. destruct (steps !! x) as [s|] eqn:E.
  - rewrite andb_true_iff, bool_decide_eq_true, depsAllPassed_spec.
    rewrite (deps_of_Some _ _ _ E). unfold status_of at 2. rewrite E. simpl.
    by rewrite (inj_iff Some).
  - unfold status_of at 1. rewrite E. split; [done|]. by intros [? _].
Qed.

Lemma elem_of_Ready w x :
  x ∈ Ready w ↔ x ∈ wf_order w ∧ status_of (wf_steps w) x = Some StepStatusPending ∧
    ∀ d, d ∈ deps_of (wf_steps w) x → status_of (wf_steps w) d = Some StepStatusPassed.
Proof.
  unfold Ready. rewrite list_elem_of_filter, Is_true_true, is_ready_spec. tauto.
Qed.

Lemma shape_dep_before order steps l1 x l2 d :
  wf_shape order steps → order = l1 ++ x :: l2 → d ∈ deps_of steps x → d ∈ l1.
Proof. intros Hsh Ho Hd. by eapply (sh_topo _ _ Hsh). Qed.

Lemma shape_dep order steps x d :
  wf_shape order steps → d ∈ deps_of steps x → d ∈ order ∧ is_Some (steps !! d).
Proof.
  intros Hsh Hd. assert (x ∈ order) as (l1 & l2 & Ho)%list_elem_of_split.
  { apply (sh_dom _ _ Hsh). unfold deps_of in Hd.
    destruct (steps !! x); [eauto|by apply not_elem_of_nil in Hd]. }
  assert (d ∈ order) as Hin.
  { rewrite Ho. apply elem_of_app. left. by eapply shape_dep_before. }
  split; [done|]. by apply (sh_dom _ _ Hsh).
Qed.

(** Changing statuses keeps the shape. *)
Lemma shape_ext order steps steps' :
  wf_shape order steps →
  (∀ x, st_def <$> steps' !! x = st_def <$> steps !! x) → wf_shape order steps'.
Proof.
  intros [Hnd Hdom Htopo] Hext.
  assert (Hdeps : ∀ x, deps_of steps' x = deps_of steps x).
  { intros x. unfold deps_of. specialize (Hext x).
    destruct (steps' !! x), (steps !! x); simplify_eq/=; congruence. }
  split; [done| |].
  - intros x. rewrite Hdom. specialize (Hext x).
    rewrite <- !not_eq_None_Some. destruct (steps' !! x), (steps !! x); naive_solver.
  - intros l1 x l2 Ho d Hd. rewrite Hdeps in Hd. by eapply Htopo.
Qed.

(** ** Propagation of skips *)

(** What the pass has done to step [x] once the steps [pre] are visited. *)
Definition skip_image (steps : gmap string step) (pre : list string) (x : string) (s s' : step) : Prop :=
  s' = s ∧ ¬ (x ∈ pre ∧ st_status s = StepStatusPending ∧ doomed steps x) ∨
  s' = set_status StepStatusSkipped s ∧ x ∈ pre ∧ st_status s = StepStatusPending ∧
    doomed steps x.

Definition skip_done (steps : gmap string step) (pre : list string) (m : gmap string step) : Prop :=
  ∀ x, match steps !! x with
       | Some s => ∃ s', m !! x = Some s' ∧ skip_image steps pre x s s'
       | None => m !! x = None
       end.

Lemma skip_done_lookup steps pre m x s' :
  skip_done steps pre m → m !! x = Some s' →
  ∃ s, steps !! x = Some s ∧ skip_image steps pre x s s'.
Proof.
  intros Hm Hx. specialize (Hm x). destruct (steps !! x) as [s|]; [|congruence].
  destruct Hm as (s'' & ? & ?). simplify_eq. eauto.
Qed.

Lemma skip_done_deps steps pre m x :
  skip_done steps pre m → deps_of m x = deps_of steps x.
Proof.
  intros Hm. specialize (Hm x). unfold deps_of. destruct (steps !! x) as [s|].
  - destruct Hm as (s' & -> & [[-> _]|[-> _]]); done.
  - by rewrite Hm.
Qed.

(** Once the dependencies of [x] are visited, the test the pass makes on
    them decides whether [x] is doomed. *)
Lemma skip_test steps pre m x :
  skip_done steps pre m → (∀ d, d ∈ deps_of steps x → d ∈ pre) →
  depsAnyFailed m (deps_of steps x) = true ↔ doomed steps x.
Proof.
  intros Hm Hpre. rewrite depsAnyFailed_spec. split.
  - intros (d & Hd & Hbad).
    assert (∃ t, status_of m d = Some t) as (t & Ht) by (destruct Hbad; eauto).
    pose proof Ht as (s' & Hs' & _)%status_of_Some.
    destruct (skip_done_lookup _ _ _ _ _ Hm Hs') as (s & Hs & [[-> _]|(_ & _ & Hp & Hdm)]).
    + eapply doomed_now; [done|]. unfold status_of in *. by rewrite Hs, <- Hs'.
    + eapply doomed_later; [done| |done]. unfold status_of. by rewrite Hs, <- Hp.
  - intros [d Hd Hbad|d Hd Hpend Hdm]; exists d; (split; [done|]).
    + assert (∃ t, status_of steps d = Some t) as (t & Ht) by (destruct Hbad; eauto).
      pose proof Ht as (s & Hs & Hst)%status_of_Some. pose proof (Hm d) as Hmd.
      rewrite Hs in Hmd. destruct Hmd as (s' & Hs' & [[-> _]|(_ & _ & Hp & _)]).
      * unfold status_of in *. by rewrite Hs', <- Hs.
      * unfold bad in Hbad. rewrite Ht, <- Hst, Hp in Hbad. by destruct Hbad.
    + pose proof Hpend as (s & Hs & Hst)%status_of_Some. pose proof (Hm d) as Hmd.
      rewrite Hs in Hmd. destruct Hmd as (s' & Hs' & [[-> Hn]|(-> & _)]).
      * exfalso. apply Hn. auto.
      * right. unfold status_of. by rewrite Hs'.
Qed.

Lemma skip_one_done steps pre m x :
  skip_done steps pre m → x ∉ pre → (∀ d, d ∈ deps_of steps x → d ∈ pre) →
  skip_done steps (pre ++ [x]) (skip_one m x).
Proof.
  intros Hm Hx Hpre. pose proof (skip_test _ _ _ _ Hm Hpre) as Htest.
  assert (Hother : ∀ y s s', y ≠ x → skip_image steps pre y s s' →
    skip_image steps (pre ++ [x]) y s s').
  { intros y s s' Hne. unfold skip_image. rewrite elem_of_app, list_elem_of_singleton. tauto. }
  pose proof (Hm x) as Hmx. unfold skip_one.
  destruct (steps !! x) as [s|] eqn:Es; last first.
  { rewrite Hmx. intros y. specialize (Hm y). destruct (decide (y = x)) as [->|Hne].
    - by rewrite Es in *.
    - destruct (steps !! y); [|done]. destruct Hm as (s' & ? & ?). eauto. }
  destruct Hmx as (s' & Hs' & [[-> _]|(_ & Hin & _)]); [|done]. rewrite Hs'.
  rewrite <- (deps_of_Some _ _ _ Es).
  destruct (bool_decide (st_status s = StepStatusPending) &&
    depsAnyFailed m (deps_of steps x)) eqn:Eb.
  - apply andb_true_iff in Eb as [Ep%bool_decide_eq_true Ed%Htest].
    intros y. rewrite lookup_insert. destruct (decide (x = y)) as [<-|Hne].
    + rewrite Es. eexists. split; [done|]. right. set_solver.
    + specialize (Hm y). destruct (steps !! y); [|done]. destruct Hm as (t & ? & ?). eauto.
  - intros y. destruct (decide (x = y)) as [<-|Hne].
    + rewrite Es. exists s. split; [done|]. left. split; [done|]. intros (_ & Hp & Hd%Htest).
      rewrite Hd, bool_decide_true in Eb by done. done.
    + specialize (Hm y). destruct (steps !! y); [|done]. destruct Hm as (t & ? & ?). eauto.
Qed.

Lemma propagateSkip_done order steps :
  wf_shape order steps → skip_done steps order (propagateSkip order steps).
Proof.
  intros Hsh. unfold propagateSkip.
  enough (H : ∀ pre suf, order = pre ++ suf → skip_done steps pre (foldl skip_one steps pre)).
  { apply (H order []). by rewrite app_nil_r. }
  induction pre as [|x pre IH] using rev_ind; intros suf Ho; simpl.
  - intros x. destruct (steps !! x) as [s|]; [|done]. exists s. split; [done|].
    left. split; [done|]. set_solver.
  - rewrite foldl_app. simpl. rewrite <- app_assoc in Ho. simpl in Ho.
    apply skip_one_done; [by eapply IH| |].
    + pose proof (sh_nodup _ _ Hsh) as Hnd. rewrite Ho in Hnd.
      apply NoDup_app in Hnd as (_ & Hdis & _). intros Hx. apply (Hdis x Hx). left.
    + intros d Hd. by eapply shape_dep_before.
Qed.

Section propagated.
Context (order : list string) (steps : gmap string step) (Hsh : wf_shape order steps).
Let m := propagateSkip order steps.

Lemma propagated_status x st :
  status_of m x = Some st →
  (status_of steps x = Some st ∧ ¬ (st = StepStatusPending ∧ doomed steps x)) ∨
  (st = StepStatusSkipped ∧ status_of steps x = Some StepStatusPending ∧ doomed steps x).
Proof.
  intros (s' & Hs' & <-)%status_of_Some.
  destruct (skip_done_lookup _ _ _ _ _ (propagateSkip_done _ _ Hsh) Hs')
    as (s & Hs & [[-> Hn]|(-> & _ & Hp & Hd)]).
  - left. split; [unfold status_of; by rewrite Hs|]. intros [Hp Hd]. apply Hn.
    split_and!; [|done..]. apply (sh_dom _ _ Hsh). eauto.
  - right. split_and!; [done| |done]. unfold status_of. by rewrite Hs, <- Hp.
Qed.

Lemma propagated_keeps x st :
  status_of steps x = Some st → st ≠ StepStatusPending → status_of m x = Some st.
Proof.
  intros (s & Hs & <-)%status_of_Some Hne.
  pose proof (propagateSkip_done _ _ Hsh x) as Hx. rewrite Hs in Hx.
  destruct Hx as (s' & Hs' & [[-> _]|(_ & _ & Hp & _)]); [|done].
  unfold status_of. subst m. by rewrite Hs'.
Qed.

Lemma propagated_skips x :
  status_of steps x = Some StepStatusPending → doomed steps x →
  status_of m x = Some StepStatusSkipped.
Proof.
  intros (s & Hs & Hp)%status_of_Some Hd.
  pose proof (propagateSkip_done _ _ Hsh x) as Hx. rewrite Hs in Hx.
  destruct Hx as (s' & Hs' & [[-> Hn]|(-> & _)]).
  - destruct Hn. split_and!; [|done..]. apply (sh_dom _ _ Hsh). eauto.
  - unfold status_of. subst m. by rewrite Hs'.
Qed.

Lemma propagated_deps x : deps_of m x = deps_of steps x.
Proof. apply (skip_done_deps _ order), propagateSkip_done; done. Qed.

Lemma propagated_shape : wf_shape order m.
Proof.
  eapply shape_ext; [exact Hsh|]. intros x.
  pose proof (propagateSkip_done _ _ Hsh x) as Hx. fold m in Hx.
  destruct (steps !! x) as [s|]; [|by rewrite Hx].
  destruct Hx as (s' & -> & [[-> _]|(-> & _)]); done.
Qed.

End propagated.

(** ** The operations keep the invariant *)

Lemma wf_inv_new v id runID defs w :
  legal_visits defs v → NewWorkflow v id runID defs = Ok w → wf_inv w.
Proof.
  intros Hv Hw. destruct (NewWorkflow_cases v id runID defs Hv)
    as [(Hwf & o & E & Hp & Ht)|(_ & e & E)]; rewrite E in Hw; [|done].
  injection Hw as <-. pose proof (wfd_nodup _ Hwf) as Hnd.
  assert (Hst : ∀ x st, status_of (steps_of defs ∅) x = Some st → st = StepStatusPending).
  { intros x st (s & Hs & <-)%status_of_Some.
    apply indexed_lookup in Hs as (d & _ & _ & ->); done. }
  split; simpl.
  - split; [by rewrite Hp|intros x; by rewrite Hp, indexed_dom|].
    intros l1 x l2 Ho d Hd. rewrite indexed_deps in Hd by done. by eapply Ht.
  - intros x d _ _ [Hb|Hb]; apply Hst in Hb; done.
  - intros x d st Hs%Hst. naive_solver.
  - intros x Hs%Hst. done.
Qed.

Lemma MarkRunning_inv w w' x :
  wf_inv w → x ∈ Ready w → MarkRunning x w = Ok w' → wf_inv w'.
Proof.
  intros [Hsh Hset Hsta Hski] (_ & Hpend & Hdeps)%elem_of_Ready Hm.
  unfold MarkRunning in Hm. destruct (wf_steps w !! x) as [s|] eqn:Es; [|done].
  injection Hm as <-. unfold set_steps. simpl.
  set (s' := mkStep (st_def s) StepStatusRunning (st_attempts s + 1)).
  assert (Hd : ∀ y, deps_of (<[x := s']> (wf_steps w)) y = deps_of (wf_steps w) y)
    by (intros y; by apply (deps_of_insert _ _ s)).
  split; simpl.
  - eapply shape_ext; [exact Hsh|]. intros y. rewrite lookup_insert.
    destruct (decide (x = y)) as [<-|]; [by rewrite Es|done].
  - intros y d. rewrite Hd, !status_of_insert. unfold bad. intros Hy Hin.
    destruct (decide (x = y)); [done|]. specialize (Hset y d Hy Hin). unfold bad in Hset.
    destruct (decide (x = d)); naive_solver.
  - intros y d st. rewrite Hd, !status_of_insert. intros Hy Hst Hin.
    assert (status_of (wf_steps w) d = Some StepStatusPassed) as Hp.
    { destruct (decide (x = y)) as [<-|]; [by apply Hdeps|by eapply Hsta]. }
    rewrite decide_False; [done|]. intros ->. congruence.
  - intros y. rewrite Hd, status_of_insert. destruct (decide (x = y)); [done|]. intros Hy.
    destruct (Hski y Hy) as (d & Hin & Hb). exists d. split; [done|].
    rewrite status_of_insert. rewrite decide_False; [done|]. intros ->.
    destruct Hb; congruence.
Qed.

Lemma Advance_inv w w' x st :
  wf_inv w → status_of (wf_steps w) x = Some StepStatusRunning →
  st = StepStatusPassed ∨ st = StepStatusFailed →
  Advance x st w = Ok w' → wf_inv w'.
Proof.
  intros [Hsh Hset Hsta Hski] Hrun Hst Ha. unfold Advance in Ha.
  destruct (wf_steps w !! x) as [s|] eqn:Es; [|done].
  set (steps1 := <[x := set_status st s]> (wf_steps w)) in *.
  assert (Hd : ∀ y, deps_of steps1 y = deps_of (wf_steps w) y)
    by (intros y; by apply (deps_of_insert _ _ s)).
  assert (Hsh1 : wf_shape (wf_order w) steps1).
  { eapply shape_ext; [exact Hsh|]. intros y. unfold steps1. rewrite lookup_insert.
    destruct (decide (x = y)) as [<-|]; [by rewrite Es|done]. }
  assert (Hs1 : ∀ y, status_of steps1 y = if decide (x = y) then Some st else status_of (wf_steps w) y)
    by (intros y; apply status_of_insert).
  (* the dependencies of started steps have passed and x is none of them *)
  assert (Hsta1 : ∀ y d t, status_of steps1 y = Some t →
    t = StepStatusRunning ∨ t = StepStatusPassed ∨ t = StepStatusFailed →
    d ∈ deps_of (wf_steps w) y → status_of steps1 d = Some StepStatusPassed).
  { intros y d t. rewrite !Hs1. intros Hy Ht Hin.
    assert (status_of (wf_steps w) d = Some StepStatusPassed) as Hp.
    { destruct (decide (x = y)) as [<-|]; [eapply (Hsta x); eauto|by eapply Hsta]. }
    rewrite decide_False; [done|]. intros ->. congruence. }
  assert (Hski1 : ∀ y, status_of steps1 y = Some StepStatusSkipped →
    ∃ d, d ∈ deps_of steps1 y ∧ bad (status_of steps1 d)).
  { intros y. rewrite Hd, Hs1. destruct (decide (x = y)); [naive_solver|]. intros Hy.
    destruct (Hski y Hy) as (d & Hin & Hb). exists d. split; [done|].
    rewrite Hs1, decide_False; [done|]. intros ->. destruct Hb; congruence. }
  destruct (decide (st = StepStatusFailed)) as [->|Hne]; injection Ha as <-.
  - split; simpl.
    + by apply propagated_shape.
    + intros y d Hy. rewrite propagated_deps by done. intros Hin Hb.
      apply propagated_status in Hy as [[Hy Hn]|[? _]]; [|done..].
      apply Hn. split; [done|].
      destruct Hb as [Hb|Hb]; apply propagated_status in Hb as [[Hb _]|(? & Hp & Hdm)]; try done.
      * eapply doomed_now; [done|]. by left.
      * eapply doomed_now; [done|]. by right.
      * by eapply doomed_later.
    + intros y d t Hy Ht. rewrite propagated_deps, Hd by done. intros Hin.
      apply propagated_status in Hy as [[Hy _]|[-> _]]; [|naive_solver|done].
      apply propagated_keeps; [done|by eapply Hsta1|done].
    + intros y Hy. setoid_rewrite propagated_deps; [|done].
      apply propagated_status in Hy as [[Hy _]|(_ & Hp & Hdm)]; [| |done].
      * destruct (Hski1 y Hy) as (d & Hin & Hb). exists d. split; [done|].
        destruct Hb as [Hb|Hb]; [left|right]; by apply propagated_keeps.
      * destruct Hdm as [d Hin Hb|d Hin Hpd Hdd]; exists d; (split; [done|]).
        -- destruct Hb as [Hb|Hb]; [left|right]; by apply propagated_keeps.
        -- right. by apply propagated_skips.
  - destruct Hst as [->|?]; [|done]. split; simpl; [done| | |done].
    + intros y d. rewrite Hd, !Hs1. unfold bad. intros Hy Hin.
      destruct (decide (x = y)); [done|]. specialize (Hset y d Hy Hin). unfold bad in Hset.
      destruct (decide (x = d)); naive_solver.
    + intros y d t Hy Ht. rewrite Hd. by eapply Hsta1.
Qed.

Lemma wf_inv_step w w' : wf_inv w → wf_step w w' → wf_inv w'.
Proof.
  intros Hw Hstep. destruct Hstep; [by eapply MarkRunning_inv|by eapply Advance_inv].
Qed.

(** ** Completion *)

Lemma IsDone_visit_spec ord w :
  iteration_of (wf_steps w) ord →
  IsDone_visit ord w = true ↔
  ∀ x st, status_of (wf_steps w) x = Some st →
    st ≠ StepStatusPending ∧ st ≠ StepStatusRunning.
Proof.
  intros Hit. unfold IsDone_visit. rewrite forallb_forall. split.
  - intros H x st (s & Hs & <-)%status_of_Some.
    assert ((x, s) ∈ map_range (wf_steps w) ord) as Hin by by apply elem_of_map_range.
    apply list_elem_of_In, H in Hin. simpl in Hin. unfold unfinished in Hin.
    apply negb_true_iff, bool_decide_eq_false in Hin. tauto.
  - intros H [x s] Hin%list_elem_of_In%elem_of_map_range; [|done]. simpl.
    apply negb_true_iff, bool_decide_eq_false.
    specialize (H x (st_status s)). unfold status_of in H. rewrite Hin in H.
    specialize (H eq_refl). tauto.
Qed.

Lemma IsDone_spec w :
  IsDone w = true ↔ ∀ x st, status_of (wf_steps w) x = Some st →
    st ≠ StepStatusPending ∧ st ≠ StepStatusRunning.
Proof. apply IsDone_visit_spec, iteration_of_keys. Qed.

(** The first pending step of the order, if any. *)
Lemma first_pending (steps : gmap string step) (l : list string) :
  (∃ l1 x l2, l = l1 ++ x :: l2 ∧ status_of steps x = Some StepStatusPending ∧
     ∀ y, y ∈ l1 → status_of steps y ≠ Some StepStatusPending) ∨
  (∀ y, y ∈ l → status_of steps y ≠ Some StepStatusPending).
Proof.
  induction l as [|x l IH]; [right; set_solver|].
  destruct (decide (status_of steps x = Some StepStatusPending)) as [Hx|Hx].
  - left. exists [], x, l. split_and!; [done..|]. set_solver.
  - destruct IH as [(l1 & y & l2 & -> & Hy & Hl1)|IH].
    + left. exists (x :: l1), y, l2. split_and!; [done..|]. set_solver.
    + right. set_solver.
Qed.

Lemma progress w :
  wf_inv w → IsDone w = false →
  (∃ x, status_of (wf_steps w) x = Some StepStatusRunning) ∨ Ready w ≠ [].
Proof.
  intros [Hsh Hset Hsta Hski] Hdone.
  set (steps := wf_steps w) in *.
  destruct (list_find (λ x, status_of steps x = Some StepStatusRunning) (wf_order w))
    as [[i x]|] eqn:Ef.
  { apply list_find_Some in Ef as (_ & Hx & _). left. eauto. }
  apply list_find_None in Ef. rewrite Forall_forall in Ef.
  destruct (first_pending steps (wf_order w)) as [(l1 & x & l2 & Ho & Hx & Hl1)|Hnone].
  - right. enough (x ∈ Ready w) as H by (intros E; rewrite E in H; by apply not_elem_of_nil in H).
    apply elem_of_Ready. fold steps. split_and!; [rewrite Ho; set_solver|done|].
    intros d Hd. pose proof (shape_dep_before _ _ _ _ _ _ Hsh Ho Hd) as Hdl.
    assert (Hdo : d ∈ wf_order w) by (rewrite Ho; set_solver).
    pose proof (proj1 (sh_dom _ _ Hsh d) Hdo) as [s Hs].
    pose proof (Hset x d Hx Hd) as Hnb. specialize (Hl1 d Hdl). specialize (Ef d Hdo).
    unfold bad in Hnb. fold steps in Hnb, Hs. unfold status_of in *. rewrite Hs in *.
    simpl in *. destruct (st_status s); naive_solver.
  - exfalso. enough (IsDone w = true) by congruence. apply IsDone_spec.
    intros x st Hx. pose proof Hx as (s & Hs & _)%status_of_Some.
    assert (x ∈ wf_order w) as Ho by (apply (sh_dom _ _ Hsh); eauto).
    specialize (Hnone x Ho). specialize (Ef x Ho). fold steps in Hx.
    split; intros ->; done.
Qed.

Lemma length_filter_partition (l : list (string * step)) :
  (∀ e, e ∈ l → st_status e.2 ≠ StepStatusPending ∧ st_status e.2 ≠ StepStatusRunning) →
  count_status StepStatusPassed l + count_status StepStatusFailed l +
    count_status StepStatusSkipped l = length l.
Proof.
  unfold count_status. induction l as [|[x s] l IH]; intros Hl; [done|].
  rewrite !filter_cons. simpl.
  specialize (IH (λ e He, Hl e (list_elem_of_further _ _ _ He))).
  specialize (Hl (x, s) (list_elem_of_here _ _)). simpl in Hl.
  destruct (st_status s); simpl; try lia; naive_solver.
Qed.

(** ** Termination *)

(** What is left to do for a step, and for a workflow. *)
Definition weight (st : option StepStatus) : nat :=
  match st with
  | Some StepStatusPending => 2
  | Some StepStatusRunning => 1
  | _ => 0
  end.

Definition work_left (w : Workflow) : nat :=
  sum_list ((λ x, weight (status_of (wf_steps w) x)) <$> wf_order w).

Lemma sum_list_lt (f g : string → nat) (l : list string) x :
  (∀ y, y ∈ l → f y ≤ g y) → x ∈ l → f x < g x → sum_list (f <$> l) < sum_list (g <$> l).
Proof.
  intros Hle Hx Hlt. induction l as [|y l IH]; [by apply not_elem_of_nil in Hx|]. csimpl.
  assert (sum_list (f <$> l) ≤ sum_list (g <$> l)) as Hl.
  { clear IH Hx. induction l as [|z l IH]; csimpl; [done|].
    pose proof (Hle z). assert (sum_list (f <$> l) ≤ sum_list (g <$> l)) by (apply IH; set_solver).
    specialize (Hle z). set_solver by lia. }
  apply elem_of_cons in Hx as [->|Hx]; [lia|].
  pose proof (Hle y ltac:(left)). enough (sum_list (f <$> l) < sum_list (g <$> l)) by lia.
  apply IH; [set_solver|done].
Qed.

Lemma wf_step_order w w' : wf_step w w' → wf_order w' = wf_order w.
Proof.
  destruct 1 as [w w' x _ H|w w' x st _ _ H]; [unfold MarkRunning in H|unfold Advance in H];
    destruct (wf_steps w !! x); by simplify_eq.
Qed.

Lemma wf_step_work w w' : wf_inv w → wf_step w w' → work_left w' < work_left w.
Proof.
  intros Hinv Hstep. unfold work_left. rewrite (wf_step_order _ _ Hstep).
  pose proof (inv_shape _ Hinv) as Hsh.
  destruct Hstep as [w w' x Hx H|w w' x st Hx Hst H].
  - apply elem_of_Ready in Hx as (Ho & Hp & _). unfold MarkRunning in H.
    destruct (wf_steps w !! x) as [s|] eqn:Es; [|done]. injection H as <-.
    apply (sum_list_lt _ _ _ x); [|done|]; simpl.
    + intros y _. rewrite status_of_insert. destruct (decide (x = y)) as [<-|]; [|done].
      rewrite Hp. simpl. lia.
    + rewrite status_of_insert, decide_True, Hp by done. simpl. lia.
  - assert (Ho : x ∈ wf_order w).
    { apply (sh_dom _ _ Hsh). apply status_of_Some in Hx as (s & -> & _). eauto. }
    unfold Advance in H. destruct (wf_steps w !! x) as [s|] eqn:Es; [|done].
    set (steps1 := <[x := set_status st s]> (wf_steps w)) in *.
    assert (Hsh1 : wf_shape (wf_order w) steps1).
    { eapply shape_ext; [exact Hsh|]. intros y. unfold steps1. rewrite lookup_insert.
      destruct (decide (x = y)) as [<-|]; [by rewrite Es|done]. }
    assert (Hw0 : weight (Some st) = 0) by (destruct Hst as [->| ->]; done).
    assert (Hle : ∀ y, weight (status_of steps1 y) ≤ weight (status_of (wf_steps w) y)).
    { intros y. unfold steps1. rewrite status_of_insert.
      destruct (decide (x = y)) as [<-|]; [|done]. simpl st_status. rewrite Hw0. lia. }
    assert (Hlt : weight (status_of steps1 x) < weight (status_of (wf_steps w) x)).
    { unfold steps1. rewrite status_of_insert, decide_True by done. simpl st_status.
      rewrite Hw0, Hx. simpl. lia. }
    assert (Hsk : ∀ y, weight (status_of (propagateSkip (wf_order w) steps1) y) ≤
      weight (status_of steps1 y)).
    { intros y. destruct (status_of (propagateSkip (wf_order w) steps1) y) as [t|] eqn:Et;
        [|simpl; lia].
      apply propagated_status in Et as [[-> _]|(-> & _)]; [done|simpl; lia|done]. }
    destruct (decide (st = StepStatusFailed)); injection H as <-; simpl;
      apply (sum_list_lt _ _ _ x); simpl; try done.
    + intros y _. etrans; [apply Hsk|apply Hle].
    + eapply Nat.le_lt_trans; [apply Hsk|done].
Qed.

Lemma wf_inv_steps w w' : wf_inv w → rtc wf_step w w' → wf_inv w'.
Proof. intros Hw Hr. eapply rtc_invariant; [apply wf_inv_step|done..]. Qed.

Lemma wf_steps_bounded n w w' :
  wf_inv w → nsteps wf_step n w w' → n + work_left w' ≤ work_left w.
Proof.
  intros Hinv Hn. induction Hn as [w|n w w1 w2 Hs Hn IH]; [lia|].
  pose proof (wf_step_work _ _ Hinv Hs). specialize (IH (wf_inv_step _ _ Hinv Hs)). lia.
Qed.

Lemma started_deps w x d :
  wf_inv w → tc (depends (deps_of (wf_steps w))) d x →
  ∀ st, status_of (wf_steps w) x = Some st →
  st = StepStatusRunning ∨ st = StepStatusPassed ∨ st = StepStatusFailed →
  status_of (wf_steps w) d = Some StepStatusPassed.
Proof.
  intros Hinv. induction 1 as [d x Hd|d y x Hd Htc IH]; intros st Hx Hst.
  - by eapply (inv_started _ Hinv).
  - eapply (inv_started _ Hinv y); [by eapply IH|auto|done].
Qed.

(** Dependents of a step that is running are pending or already skipped. *)
Lemma waiting_status w x y :
  wf_inv w → status_of (wf_steps w) x = Some StepStatusRunning →
  tc (depends (deps_of (wf_steps w))) x y →
  status_of (wf_steps w) y = Some StepStatusPending ∨
  status_of (wf_steps w) y = Some StepStatusSkipped.
Proof.
  intros Hinv Hx Htc.
  assert (is_Some (wf_steps w !! y)) as [s Hs].
  { destruct (tc_depends_last _ _ _ Htc) as [z Hz]. unfold depends, deps_of in Hz.
    destruct (wf_steps w !! y); [eauto|by apply not_elem_of_nil in Hz]. }
  pose proof (started_deps w y x Hinv Htc (st_status s)) as H.
  assert (Hy : status_of (wf_steps w) y = Some (st_status s)) by (unfold status_of; by rewrite Hs).
  rewrite Hy in *. destruct (st_status s) eqn:E; auto; exfalso;
    (rewrite H in Hx; [congruence|done|tauto]).
Qed.

Lemma failure_dooms w x s y :
  wf_inv w → status_of (wf_steps w) x = Some StepStatusRunning → wf_steps w !! x = Some s →
  tc (depends (deps_of (wf_steps w))) x y →
  doomed (<[x := set_status StepStatusFailed s]> (wf_steps w)) y.
Proof.
  intros Hinv Hx Hs.
  assert (Hd : ∀ z, deps_of (<[x := set_status StepStatusFailed s]> (wf_steps w)) z =
    deps_of (wf_steps w) z) by (intros z; by apply (deps_of_insert _ _ s)).
  apply tc_ind_r.
  - intros z Hz. apply (doomed_now _ _ x); [by rewrite Hd|].
    rewrite status_of_insert, decide_True by done. by left.
  - intros z z' Htc Hz' IH.
    assert (Hne : x ≠ z) by (intros <-; destruct (waiting_status w x x Hinv Hx Htc); congruence).
    destruct (waiting_status w x z Hinv Hx Htc) as [Hz|Hz];
      [apply (doomed_later _ _ z)|apply (doomed_now _ _ z)]; rewrite ?Hd; try done;
      rewrite status_of_insert, decide_False by done; [done|by right].
Qed.

Lemma doomed_by_failure w x s y :
  wf_inv w → wf_steps w !! x = Some s →
  doomed (<[x := set_status StepStatusFailed s]> (wf_steps w)) y →
  status_of (wf_steps w) y = Some StepStatusPending →
  tc (depends (deps_of (wf_steps w))) x y.
Proof.
  intros Hinv Hs Hdm. set (steps1 := <[x := _]> (wf_steps w)) in *.
  assert (Hd : ∀ z, deps_of steps1 z = deps_of (wf_steps w) z)
    by (intros z; by apply (deps_of_insert _ _ s)).
  assert (Hst : ∀ z, z ≠ x → status_of steps1 z = status_of (wf_steps w) z)
    by (intros z Hz; unfold steps1; by rewrite status_of_insert, decide_False by done).
  assert (Hx : status_of steps1 x = Some StepStatusFailed)
    by (unfold steps1; by rewrite status_of_insert, decide_True by done).
  induction Hdm as [y d Hin Hb|y d Hin Hp Hdm IH]; intros Hy; rewrite Hd in Hin;
    destruct (decide (d = x)) as [->|Hne]; try (by constructor).
  - rewrite Hst in Hb by done. by destruct (inv_settled _ Hinv y d).
  - rewrite Hst in Hp by done. eapply tc_r; [by apply IH|done].
Qed.

Lemma failed_dependents w x w' y :
  wf_inv w → status_of (wf_steps w) x = Some StepStatusRunning →
  Advance x StepStatusFailed w = Ok w' → is_Some (wf_steps w !! y) →
  (tc (depends (deps_of (wf_steps w))) x y →
     status_of (wf_steps w') y = Some StepStatusSkipped) ∧
  (y ≠ x → ¬ tc (depends (deps_of (wf_steps w))) x y →
     status_of (wf_steps w') y = status_of (wf_steps w) y).
Proof.
  intros Hinv Hx H [sy Hsy]. unfold Advance in H.
  destruct (wf_steps w !! x) as [s|] eqn:Es; [|done]. rewrite decide_True in H by done.
  injection H as <-. simpl. set (steps1 := <[x := _]> (wf_steps w)).
  assert (Hsh1 : wf_shape (wf_order w) steps1).
  { eapply shape_ext; [apply Hinv|]. intros z. unfold steps1. rewrite lookup_insert.
    destruct (decide (x = z)) as [<-|]; [by rewrite Es|done]. }
  assert (Hst : ∀ z, x ≠ z → status_of steps1 z = status_of (wf_steps w) z)
    by (intros z Hz; unfold steps1; by rewrite status_of_insert, decide_False by done).
  split.
  - intros Htc. pose proof (failure_dooms w x s y Hinv Hx Es Htc) as Hdm. fold steps1 in Hdm.
    assert (x ≠ y) by (intros <-; destruct (waiting_status w x x Hinv Hx Htc); congruence).
    destruct (waiting_status w x y Hinv Hx Htc) as [Hy|Hy]; rewrite <- Hst in Hy by done.
    + by apply propagated_skips.
    + by apply propagated_keeps.
  - intros Hne Hntc.
    assert (Hy : status_of (wf_steps w) y = Some (st_status sy)) by (unfold status_of; by rewrite Hsy).
    pose proof (propagateSkip_done _ _ Hsh1 y) as Hm.
    unfold steps1 in Hm at 1. rewrite lookup_insert_ne, Hsy in Hm by done.
    destruct Hm as (s' & Hs' & [[-> _]|(_ & _ & Hp & Hdm)]).
    + unfold status_of at 1. rewrite Hs'. by rewrite Hy.
    + exfalso. apply Hntc. eapply doomed_by_failure; [done..|]. rewrite Hy. by f_equal.
Qed.

Lemma work_left_new v id runID defs w :
  legal_visits defs v → NewWorkflow v id runID defs = Ok w →
  work_left w ≤ 2 * length defs.
Proof.
  intros Hv Hw. destruct (NewWorkflow_cases v id runID defs Hv)
    as [(Hwf & o & E & Hp & Ht)|(_ & e & E)]; rewrite E in Hw; [|done].
  injection Hw as <-. unfold work_left. simpl.
  replace (length defs) with (length o) by (rewrite Hp; unfold ids; by rewrite length_fmap).
  generalize (steps_of defs ∅). intros m. clear. induction o as [|x o IH]; csimpl; [lia|].
  assert (weight (status_of m x) ≤ 2) by (destruct (status_of m x) as [[]|]; simpl; lia). lia.
Qed.

Lemma Summary_visit_any w ord :
  iteration_of (wf_steps w) ord → Summary_visit ord w = Summary w.
Proof.
  intros Hit. unfold Summary, Summary_visit, count_status.
  assert (Hp : map_range (wf_steps w) ord ≡ₚ map_range (wf_steps w) (map_keys (wf_steps w))).
  { rewrite (map_range_permutation _ _ Hit). symmetry.
    apply map_range_permutation, iteration_of_keys. }
  by rewrite Hp.
Qed.

Lemma Summary_sum w ord :
  iteration_of (wf_steps w) ord → IsDone w = true →
  let '(p, f, s) := Summary_visit ord w in p + f + s = size (wf_steps w).
Proof.
  intros Hit Hd. unfold Summary_visit. rewrite length_filter_partition.
  { by rewrite (map_range_permutation _ _ Hit), length_map_to_list. }
  intros [x s] Hin%elem_of_map_range; [|done]. simpl.
  apply (proj1 (IsDone_spec w) Hd x). unfold status_of. by rewrite Hin.
Qed.

Lemma count_status_pos w st x :
  status_of (wf_steps w) x = Some st →
  0 < count_status st (map_range (wf_steps w) (map_keys (wf_steps w))).
Proof.
  intros (s & Hs & Hst)%status_of_Some. unfold count_status.
  assert (Hin : (x, s) ∈ filter (λ e : string * step, st_status e.2 = st)
    (map_range (wf_steps w) (map_keys (wf_steps w)))).
  { apply list_elem_of_filter. split; [done|]. by apply elem_of_map_range; [apply iteration_of_keys|]. }
  destruct (filter _ _); [by apply not_elem_of_nil in Hin|simpl; lia].
Qed.

(** ** Properties *)

(** A workflow the driver can reach from the definitions [defs]. *)
Definition wf_reachable (v : visits) (id runID : string) (defs : list WorkflowStep) (w : Workflow) : Prop :=
  ∃ w0, NewWorkflow v id runID defs = Ok w0 ∧ rtc wf_step w0 w.

Lemma wf_reachable_inv v id runID defs w :
  legal_visits defs v → wf_reachable v id runID defs w → wf_inv w.
Proof. intros Hv (w0 & Hw0 & Hr). by eapply wf_inv_steps; [eapply wf_inv_new|]. Qed.

(** C9: in every workflow the driver can reach, a step that has started has
    all its direct and indirect dependencies passed, a pending step never
    waits for a failed or skipped one, and a skipped step has a failed or
    skipped dependency. *)
Theorem workflow_dependencies_respected v id runID defs w :
  legal_visits defs v → wf_reachable v id runID defs w →
  (∀ x d st, status_of (wf_steps w) x = Some st →
     st = StepStatusRunning ∨ st = StepStatusPassed ∨ st = StepStatusFailed →
     tc (depends (deps_of (wf_steps w))) d x →
     status_of (wf_steps w) d = Some StepStatusPassed) ∧
  (∀ x d, status_of (wf_steps w) x = Some StepStatusPending →
     d ∈ deps_of (wf_steps w) x → ¬ bad (status_of (wf_steps w) d)) ∧
  (∀ x, status_of (wf_steps w) x = Some StepStatusSkipped →
     ∃ d, d ∈ deps_of (wf_steps w) x ∧ bad (status_of (wf_steps w) d)).
Proof.
  intros Hv Hr. pose proof (wf_reachable_inv _ _ _ _ _ Hv Hr) as Hinv.
  split_and!; [|apply Hinv..]. intros x d st Hx Hst Htc. by eapply started_deps.
Qed.

(** C31: when a running step fails, [Advance] skips every step that depends on
    it directly or indirectly, and nothing else: a step that does not depend
    on it keeps its status. *)
Theorem Advance_failure_skips_exactly v id runID defs w x w' :
  legal_visits defs v → wf_reachable v id runID defs w →
  status_of (wf_steps w) x = Some StepStatusRunning →
  Advance x StepStatusFailed w = Ok w' →
  ∀ y, is_Some (wf_steps w !! y) →
    (tc (depends (deps_of (wf_steps w))) x y →
       status_of (wf_steps w') y = Some StepStatusSkipped) ∧
    (y ≠ x → ¬ tc (depends (deps_of (wf_steps w))) x y →
       status_of (wf_steps w') y = status_of (wf_steps w) y).
Proof.
  intros Hv Hr Hx H y Hy. pose proof (wf_reachable_inv _ _ _ _ _ Hv Hr) as Hinv.
  by eapply failed_dependents.
Qed.

(** The driver never gets stuck: while some step is pending or running,
    either a step is running or [Ready] has a step to start. *)
Theorem workflow_progress v id runID defs w :
  legal_visits defs v → wf_reachable v id runID defs w → IsDone w = false →
  (∃ x, status_of (wf_steps w) x = Some StepStatusRunning) ∨ Ready w ≠ [].
Proof. intros Hv Hr. apply progress. by eapply wf_reachable_inv. Qed.

(** The driver terminates: from a new workflow it makes at most two
    moves per step (one to start it and one to settle it). *)
Theorem workflow_terminates v id runID defs w0 w n :
  legal_visits defs v → NewWorkflow v id runID defs = Ok w0 → nsteps wf_step n w0 w →
  n ≤ 2 * length defs.
Proof.
  intros Hv Hw0 Hn. pose proof (wf_inv_new _ _ _ _ _ Hv Hw0) as Hinv.
  pose proof (wf_steps_bounded _ _ _ Hinv Hn).
  pose proof (work_left_new _ _ _ _ _ Hv Hw0). lia.
Qed.

(** [IsBlocked] is documented as "no step is running and none is ready";
    in the workflows the driver can reach it means the opposite: whenever it
    holds, some step is running. *)
Theorem IsBlocked_means_running v id runID defs w :
  legal_visits defs v → wf_reachable v id runID defs w → IsBlocked w = true →
  ∃ x, status_of (wf_steps w) x = Some StepStatusRunning.
Proof.
  intros Hv Hr Hb. unfold IsBlocked in Hb. destruct (IsDone w) eqn:Hnd; [done|].
  apply bool_decide_eq_true, nil_length_inv in Hb.
  destruct (progress w); [by eapply wf_reachable_inv|done..].
Qed.

(** Once the workflow is done, [Summary] counts every step exactly once,
    and it gives the same counts whatever order the steps are visited in. *)
Theorem Summary_complete w ord :
  iteration_of (wf_steps w) ord → IsDone w = true →
  Summary_visit ord w = Summary w ∧
  (let '(p, f, s) := Summary_visit ord w in p + f + s = size (wf_steps w)).
Proof. intros Hit Hd. split; [by apply Summary_visit_any|by apply Summary_sum]. Qed.

(** ** Witnesses: the diamond workflow with its first steps taken *)

Definition wf_get (r : result Workflow) : Workflow :=
  match r with Ok w => w | Err _ => mkWorkflow "" "" ∅ [] end.

Definition diamond_new : Workflow := wf_get (NewWorkflow (same_visits diamond) "wf" "run" diamond).
Definition diamond_running : Workflow := wf_get (MarkRunning "probe" diamond_new).
Definition diamond_failed : Workflow := wf_get (Advance "probe" StepStatusFailed diamond_running).

Ltac wf_eval := first [done | apply bool_decide_unpack; by vm_compute | by vm_compute | by left | by right].

Lemma diamond_new_ok : NewWorkflow (same_visits diamond) "wf" "run" diamond = Ok diamond_new.
Proof. by vm_compute. Qed.

Lemma diamond_mark : wf_step diamond_new diamond_running.
Proof. apply (wf_mark _ _ "probe"); wf_eval. Qed.

Lemma diamond_fail : wf_step diamond_running diamond_failed.
Proof. apply (wf_advance _ _ "probe" StepStatusFailed); wf_eval. Qed.

Lemma diamond_reach_running : wf_reachable (same_visits diamond) "wf" "run" diamond diamond_running.
Proof. exists diamond_new. split; [apply diamond_new_ok|by eapply rtc_l, rtc_refl; apply diamond_mark]. Qed.

Lemma workflow_dependencies_respected_witness :
  ¬ bad (status_of (wf_steps diamond_running) "probe").
Proof.
  destruct (workflow_dependencies_respected (same_visits diamond) "wf" "run" diamond diamond_running
    (same_visits_legal _) diamond_reach_running) as (_ & H & _).
  apply (H "left" "probe"); wf_eval.
Defined.

Lemma Advance_failure_skips_exactly_witness :
  status_of (wf_steps diamond_failed) "report" = Some StepStatusSkipped.
Proof.
  refine (proj1 (Advance_failure_skips_exactly (same_visits diamond) "wf" "run" diamond
    diamond_running "probe" diamond_failed (same_visits_legal _) diamond_reach_running _ _ "report" _) _).
  - by vm_compute.
  - by vm_compute.
  - vm_compute. eauto.
  - apply (tc_l _ _ "left"); [|constructor]; unfold depends; wf_eval.
Defined.

Lemma workflow_progress_witness :
  (∃ x, status_of (wf_steps diamond_running) x = Some StepStatusRunning) ∨ Ready diamond_running ≠ [].
Proof.
  apply (workflow_progress (same_visits diamond) "wf" "run" diamond diamond_running
    (same_visits_legal _) diamond_reach_running). by vm_compute.
Defined.

Lemma workflow_terminates_witness : 2 ≤ 2 * length diamond.
Proof.
  apply (workflow_terminates (same_visits diamond) "wf" "run" diamond diamond_new diamond_failed 2
    (same_visits_legal _) diamond_new_ok).
  eapply nsteps_l; [apply diamond_mark|apply nsteps_once, diamond_fail].
Defined.

Lemma IsBlocked_means_running_witness :
  ∃ x, status_of (wf_steps diamond_running) x = Some StepStatusRunning.
Proof.
  apply (IsBlocked_means_running (same_visits diamond) "wf" "run" diamond diamond_running
    (same_visits_legal _) diamond_reach_running). by vm_compute.
Defined.

Lemma Summary_complete_witness : Summary diamond_failed = (0, 1, 3).
Proof.
  destruct (Summary_complete diamond_failed (map_keys (wf_steps diamond_failed))
    (iteration_of_keys _)) as [<- _]; by vm_compute.
Defined.
