(* ===== verification/Effects.v ===== *)
(** * Effects, contexts and the interfaces between components

    A Go method that works on shared state and may panic is a computation
    [M W A] over a world [W].  The interfaces the components see of one
    another ([EngineStore], [VMManagerInterface],
    [AgentCoordinatorInterface] of [core/execution_engine.go],
    [RecoveryStore] of [core/state_manager.go]) are type classes over the
    world: the theorems of a client hold for every world that implements
    them, so also for one in which other goroutines act between the calls. *)
From stdpp Require Import options.
From S2P Require Import Prelude Types.

(** ** Computations *)

Definition M (W A : Type) : Type := W → go (A * W).

Global Instance M_ret W : MRet (M W) := λ A a w, Done (a, w).
Global Instance M_bind W : MBind (M W) := λ A B k c w,
  match c w with
  | Done (a, w') => k a w'
  | Panics why => Panics why
  end.

Definition panic {W A : Type} (why : string) : M W A := λ _, Panics why.

(** [for _, x := range l { body x }], for a body that neither breaks nor
    returns. *)
Fixpoint for_each {W A : Type} (l : list A) (body : A → M W unit) : M W unit :=
  match l with
  | [] => mret tt
  | x :: l' => _ ← body x; for_each l' body
  end.

(** What holds of the outcome of a computation that does not panic, and
    whether it panics. *)
Definition wp {W A : Type} (c : M W A) (Q : A → W → Prop) (w : W) : Prop :=
  match c w with
  | Done (a, w') => Q a w'
  | Panics _ => True
  end.

Definition returns {W A : Type} (c : M W A) (w : W) (a : A) (w' : W) : Prop :=
  c w = Done (a, w').

Lemma for_each_fmap {W A B : Type} (f : A → B) (l : list A) (body : B → M W unit) :
  for_each (f <$> l) body = for_each l (λ x, body (f x)).
Proof. induction l as [|x l IH]; [done|]. cbn [fmap list_fmap for_each]. by rewrite IH. Qed.

Lemma M_bind_done {W A B : Type} (c : M W A) (k : A → M W B) w a w' :
  c w = Done (a, w') → (c ≫= k) w = k a w'.
Proof. unfold mbind, M_bind. by intros ->. Qed.

Lemma M_bind_ext {W A B : Type} (c c' : M W A) (k k' : A → M W B) w :
  c w = c' w → (∀ a w, k a w = k' a w) → (c ≫= k) w = (c' ≫= k') w.
Proof. unfold mbind, M_bind. intros -> Hk. by destruct (c' w) as [[a w']|]. Qed.

Section wp.
Context {W : Type}.

Lemma wp_ret {A} (a : A) (Q : A → W → Prop) w : Q a w → wp (mret a) Q w.
Proof. done. Qed.

Lemma wp_bind {A B} (c : M W A) (k : A → M W B) (Q : B → W → Prop) w :
  wp c (λ a, wp (k a) Q) w → wp (c ≫= k) Q w.
Proof. unfold wp, mbind, M_bind. by destruct (c w) as [[a w']|]. Qed.

Lemma wp_mono {A} (c : M W A) (P Q : A → W → Prop) w :
  wp c P w → (∀ a w', P a w' → Q a w') → wp c Q w.
Proof. unfold wp. destruct (c w) as [[a w']|]; auto. Qed.

Lemma wp_intro {A} (c : M W A) (Q : A → W → Prop) w :
  (∀ a w', c w = Done (a, w') → Q a w') → wp c Q w.
Proof. unfold wp. destruct (c w) as [[a w']|]; auto. Qed.

Lemma wp_true {A} (c : M W A) w : wp c (λ _ _, True) w.
Proof. unfold wp. by destruct (c w) as [[a w']|]. Qed.

Lemma wp_panic {A} why (Q : A → W → Prop) w : wp (panic why) Q w.
Proof. done. Qed.

Lemma wp_returns {A} (c : M W A) (Q : A → W → Prop) w a w' :
  wp c Q w → returns c w a w' → Q a w'.
Proof. unfold wp, returns. intros H E. by rewrite E in H. Qed.

Lemma wp_for_each {A} (l : list A) (body : A → M W unit) (I : W → Prop) w :
  (∀ x w, x ∈ l → I w → wp (body x) (λ _, I) w) → I w → wp (for_each l body) (λ _, I) w.
Proof.
  intros Hbody. revert w. induction l as [|x l IH]; intros w Hw; [done|]. simpl.
  apply wp_bind. eapply wp_mono; [apply Hbody; [left|done]|].
  intros [] w' Hw'. apply IH; [|done]. intros y w'' Hy. apply Hbody. by right.
Qed.

End wp.

Global Opaque wp.

(** A computation that returns, in every world. *)
Class Total {W A : Type} (c : M W A) : Prop := total : ∀ w, ∃ a w', c w = Done (a, w').
Arguments total {W A} c {_} w : rename.

Section total.
Context {W : Type}.

Global Instance total_ret {A} (a : A) : Total (W:=W) (mret a).
Proof. intros w. by exists a, w. Qed.

Global Instance total_bind {A B} (c : M W A) (k : A → M W B) :
  Total c → (∀ a, Total (k a)) → Total (c ≫= k).
Proof.
  intros Hc Hk w. destruct (Hc w) as (a & w1 & E). destruct (Hk a w1) as (b & w2 & E2).
  exists b, w2. by rewrite (M_bind_done _ _ _ _ _ E).
Qed.

Global Instance total_for_each {A} (l : list A) (body : A → M W unit) :
  (∀ x, Total (body x)) → Total (for_each l body).
Proof. intros Hb. induction l as [|x l IH]; simpl; apply _. Qed.

(** A computation that returns, and what holds when it does. *)
Lemma total_wp {A} (c : M W A) (Q : A → W → Prop) w :
  Total c → wp c Q w → ∃ a w', c w = Done (a, w') ∧ Q a w'.
Proof.
  intros Hc HQ. destruct (Hc w) as (a & w' & E). exists a, w'. split; [done|].
  by apply (wp_returns c Q w a w').
Qed.

End total.

(** Totality of code by its structure: branches are split, and the calls are
    left to the instances. *)
Ltac solve_total :=
  repeat first
    [ apply _
    | apply total_bind; [|intros ?]
    | case_decide
    | case_match ];
  try apply _.

(** A computation that leaves what [f] sees of the world as it is. *)
Class Keeps {W B A : Type} (f : W → B) (c : M W A) : Prop :=
  keeps : ∀ w a w', c w = Done (a, w') → f w' = f w.
Arguments keeps {W B A} f c {_} w a w' _ : rename.

Section keeps.
Context {W B : Type} (f : W → B).

Global Instance keeps_ret {A} (a : A) : Keeps f (mret a).
Proof. intros w a' w' [= _ ->]. done. Qed.

Global Instance keeps_panic {A} why : Keeps f (panic (A:=A) why).
Proof. done. Qed.

Global Instance keeps_bind {A C} (c : M W A) (k : A → M W C) :
  Keeps f c → (∀ a, Keeps f (k a)) → Keeps f (c ≫= k).
Proof.
  intros Hc Hk w b w' E. unfold mbind, M_bind in E. destruct (c w) as [[a w1]|] eqn:E1; [|done].
  rewrite (keeps f (k a) _ _ _ E). by apply (keeps f c w a).
Qed.

Global Instance keeps_for_each {A} (l : list A) (body : A → M W unit) :
  (∀ x, Keeps f (body x)) → Keeps f (for_each l body).
Proof. intros Hb. induction l as [|x l IH]; simpl; apply _. Qed.

Lemma keeps_wp {A} (c : M W A) w : Keeps f c → wp c (λ _ w', f w' = f w) w.
Proof. intros Hc. apply wp_intro. intros a w' E. by apply (keeps f c w a). Qed.

End keeps.

(** By the structure of the code, as [solve_total]. *)
Ltac solve_keeps :=
  repeat first
    [ apply _
    | apply keeps_bind; [|intros ?]
    | case_decide
    | case_match ];
  try apply _.

(** ** Contexts *)

(** The root of a context: [context.Background()], the engine's own
    cancellable context, or that of a remote call. *)
Inductive ctx_root : Set :=
| RootBackground
| RootEngine
| RootRPC.

(** A context: its root and the deadline [context.WithTimeout] gave it. *)
Record ctx : Set := mkCtx {
  ctx_from : ctx_root;
  ctx_deadline : option Z;
}.

Definition Background : ctx := mkCtx RootBackground None.
Definition EngineCtx : ctx := mkCtx RootEngine None.

(** [context.WithTimeout(parent, d)] at time [now]: the earlier of the two
    deadlines. *)
Definition WithTimeout (parent : ctx) (now d : Z) : ctx :=
  mkCtx (ctx_from parent)
    (Some (match ctx_deadline parent with
           | Some t => Z.min t (now + d)
           | None => (now + d)%Z
           end)).

(** [time.Duration(n) * time.Second] *)
Definition seconds (n : Z) : Z := int64 (n * 1000000000).

(** The clock and the cancellation of contexts, as an operation sees them. *)
Class Runtime (W : Type) := {
  rt_Now : M W Z;
  rt_cancelled : ctx_root → W → bool;
  rt_clock : W → Z;
  rt_Sleep : Z → M W unit;
  (* go func() { time.Sleep(2s); e.SubmitTestRun(run) }() *)
  rt_ResubmitLater : TestRun → M W unit;
}.

(** [ctx.Err()] *)
Definition ctx_Err {W} `{Runtime W} (c : ctx) (w : W) : option string :=
  if rt_cancelled (ctx_from c) w then Some "context canceled"
  else match ctx_deadline c with
       | Some t => if decide (t ≤ rt_clock w)%Z then Some "context deadline exceeded" else None
       | None => None
       end.

(** ** Interfaces *)

(** [core/execution_engine.go], [EngineStore] *)
Class EngineStore (W : Type) := {
  UpdateTestRunStatus : ctx → string → TestRunStatus → string → M W (result unit);
  GetTestResults : ctx → string → M W (result (list TestResult));
  SaveTestResult : ctx → TestResult → M W (result unit);
}.

(** [core/state_manager.go], [RecoveryStore] *)
Class RecoveryStore (W : Type) := {
  rec_ListRunningTestRuns : ctx → M W (result (list TestRun));
  rec_UpdateTestRunStatus : ctx → string → TestRunStatus → string → M W (result unit);
  rec_ListOrphanedVMs : ctx → M W (result (list VMInstance));
  rec_UpdateVMStatus : ctx → string → VMStatus → M W (result unit);
}.

(** [core/execution_engine.go], [AgentCoordinatorInterface] *)
Class AgentCoordinatorInterface (W : Type) := {
  RegisterVM : string → M W unit;
  UnregisterVM : string → M W unit;
  WaitForAgent : ctx → string → M W (result unit);
  SendCommand : ctx → string → AgentCommand → M W (result AgentResult);
}.

(** ** Components that do not panic *)

Class SafeStore (W : Type) `{!EngineStore W} : Prop := {
  #[global] safe_update c id st msg :: Total (UpdateTestRunStatus c id st msg);
  #[global] safe_results c id :: Total (GetTestResults c id);
  #[global] safe_save c res :: Total (SaveTestResult c res);
}.

Class SafeRuntime (W : Type) `{!Runtime W} : Prop := {
  #[global] safe_now :: Total rt_Now;
  #[global] safe_sleep d :: Total (rt_Sleep d);
  #[global] safe_resubmit run :: Total (rt_ResubmitLater run);
}.

Class SafeAgents (W : Type) `{!AgentCoordinatorInterface W} : Prop := {
  #[global] safe_register id :: Total (RegisterVM id);
  #[global] safe_unregister id :: Total (UnregisterVM id);
  #[global] safe_wait c id :: Total (WaitForAgent c id);
  #[global] safe_send c id cmd :: Total (SendCommand c id cmd);
}.
