(* ===== verification/MemoryStore.v ===== *)
(** * The in-memory store ([storage/memory.go])

    The three maps and the identifier counter of [MemoryStore], with one
    definition per method.  Every method holds [m.mu] from its first line to
    its last, so a method is one atomic function of the store.  The methods
    store copies and hand out copies, so no pointer is shared with a caller.
    [now] is the value of [time.Now().UTC()], [ord] the order in which the
    method visits a map. *)
From stdpp Require Import options.
From S2P Require Import Prelude GoStd Types.
Open Scope string_scope.
Open Scope list_scope.
Open Scope Z_scope.

Record MemoryStore : Type := mkStore {
  testRuns : gmap string TestRun;
  testResults : gmap string (list TestResult);
  vms : gmap string VMInstance;
  counter : Z;
}.

Definition NewMemoryStore : MemoryStore := mkStore ∅ ∅ ∅ 0.

Definition set_runs (r : gmap string TestRun) (m : MemoryStore) : MemoryStore :=
  mkStore r (testResults m) (vms m) (counter m).
Definition set_results (r : gmap string (list TestResult)) (m : MemoryStore) : MemoryStore :=
  mkStore (testRuns m) r (vms m) (counter m).
Definition set_vms (v : gmap string VMInstance) (m : MemoryStore) : MemoryStore :=
  mkStore (testRuns m) (testResults m) v (counter m).
Definition set_counter (c : Z) (m : MemoryStore) : MemoryStore :=
  mkStore (testRuns m) (testResults m) (vms m) c.

(** The identifier [fmt.Sprintf("%s-%d", prefix, n)]. *)
Definition sprint_id (prefix : string) (n : Z) : string := prefix +:+ "-" +:+ fmt_d n.

Definition nextID (prefix : string) (m : MemoryStore) : string * MemoryStore :=
  let c := int64 (counter m + 1) in (sprint_id prefix c, set_counter c m).

(** ** Test runs *)

Definition CreateTestRun (now : Z) (run : TestRun) (m : MemoryStore) : TestRun * MemoryStore :=
  let '(id, m1) := nextID "tr" m in
  let run' := mkTestRun id (tr_DeviceID run) (tr_TestSuiteID run)
    (if decide (tr_Status run = TestRunStatusUnset) then TestRunStatusPending else tr_Status run)
    (tr_VMID run) (tr_Priority run) now (tr_StartedAt run) (tr_CompletedAt run)
    (tr_DurationMs run) (tr_RequestedBy run) (tr_Tags run) (tr_ErrorMessage run) in
  (run', set_runs (<[id := run']> (testRuns m1)) m1).

Definition run_not_found (id : string) : string := "test run " +:+ fmt_q id +:+ " not found".
Definition vm_not_found (id : string) : string := "vm " +:+ fmt_q id +:+ " not found".

Definition GetTestRun (id : string) (m : MemoryStore) : result TestRun :=
  match testRuns m !! id with
  | None => Err (run_not_found id)
  | Some run => Ok run
  end.

(** [t.Sub(u)] saturates, [d.Milliseconds()] truncates. *)
Definition time_Sub (t u : Z) : Z := Z.max min_int64 (Z.min max_int64 (t - u)).
Definition Milliseconds (d : Z) : Z := Z.quot d 1000000.

(** The assignments of [UpdateTestRunStatus] to a run it found. *)
Definition update_run (now : Z) (status : TestRunStatus) (errMsg : string) (run : TestRun) : TestRun :=
  let msg := if decide (errMsg ≠ "") then errMsg else tr_ErrorMessage run in
  let base started completed duration :=
    mkTestRun (tr_ID run) (tr_DeviceID run) (tr_TestSuiteID run) status (tr_VMID run)
      (tr_Priority run) (tr_CreatedAt run) started completed duration
      (tr_RequestedBy run) (tr_Tags run) msg in
  match status with
  | TestRunStatusRunning => base (Some now) (tr_CompletedAt run) (tr_DurationMs run)
  | TestRunStatusPassed | TestRunStatusFailed | TestRunStatusErrored
  | TestRunStatusCancelled | TestRunStatusTimeout =>
    base (tr_StartedAt run) (Some now)
      (match tr_StartedAt run with
       | Some s => Milliseconds (time_Sub now s)
       | None => tr_DurationMs run
       end)
  | _ => base (tr_StartedAt run) (tr_CompletedAt run) (tr_DurationMs run)
  end.

Definition UpdateTestRunStatus (now : Z) (id : string) (status : TestRunStatus) (errMsg : string)
    (m : MemoryStore) : result unit * MemoryStore :=
  match testRuns m !! id with
  | None => (Err (run_not_found id), m)
  | Some run => (Ok tt, set_runs (<[id := update_run now status errMsg run]> (testRuns m)) m)
  end.

Definition run_matches (req : ListTestRunsRequest) (run : TestRun) : bool :=
  negb (bool_decide (ltr_DeviceID req ≠ "") && bool_decide (tr_DeviceID run ≠ ltr_DeviceID req)) &&
  negb (bool_decide (ltr_Status req ≠ TestRunStatusUnset) &&
        bool_decide (tr_Status run ≠ ltr_Status req)).

(** [results[off:]] and [results[:lim]] under the guards of the method. *)
Definition paginate {A : Type} (offset limit : Z) (l : list A) : list A :=
  let l1 := if bool_decide (0 < offset) && bool_decide (offset < Z.of_nat (length l))
            then drop (Z.to_nat offset) l else l in
  if bool_decide (0 < limit) && bool_decide (limit < Z.of_nat (length l1))
  then take (Z.to_nat limit) l1 else l1.

Definition ListTestRuns (ord : list string) (req : ListTestRunsRequest) (m : MemoryStore) : list TestRun :=
  paginate (ltr_Offset req) (ltr_Limit req)
    (filter (λ r, run_matches req r = true) (map_range (testRuns m) ord).*2).

Definition in_flight (run : TestRun) : bool :=
  match tr_Status run with
  | TestRunStatusRunning | TestRunStatusQueued | TestRunStatusPending => true
  | _ => false
  end.

Definition ListRunningTestRuns (ord : list string) (m : MemoryStore) : list TestRun :=
  filter (λ r, in_flight r = true) (map_range (testRuns m) ord).*2.

(** ** Results *)

(** [SaveTestResult]; the identifier is written back into the caller's
    result, which is returned. *)
Definition SaveTestResult (r : TestResult) (m : MemoryStore) : TestResult * MemoryStore :=
  let '(id, m1) := if decide (res_ID r = "") then nextID "tres" m else (res_ID r, m) in
  let r' := mkTestResult id (res_TestRunID r) (res_TestName r) (res_Category r) (res_Status r)
    (res_DurationMs r) (res_Message r) (res_Metrics r) (res_Logs r) (res_CompletedAt r) in
  let old := default [] (testResults m1 !! res_TestRunID r) in
  (r', set_results (<[res_TestRunID r := old ++ [r']]> (testResults m1)) m1).

Definition GetTestResults (testRunID : string) (m : MemoryStore) : list TestResult :=
  default [] (testResults m !! testRunID).

(** ** VMs *)

Definition set_vm_ID (id : string) (v : VMInstance) : VMInstance :=
  mkVMInstance id (vm_Status v) (vm_DeviceID v) (vm_QEMUDeviceName v) (vm_QMPSocketPath v)
    (vm_SerialPorts v) (vm_PID v) (vm_AllocatedCPUs v) (vm_AllocatedMemMB v)
    (vm_ImagePath v) (vm_OverlayPath v) (vm_CreatedAt v) (vm_AgentStatus v)
    (vm_LastHeartbeat v) (vm_CurrentTestRunID v).

Definition SaveVM (v : VMInstance) (m : MemoryStore) : VMInstance * MemoryStore :=
  let '(id, m1) := if decide (vm_ID v = "") then nextID "vm" m else (vm_ID v, m) in
  let v' := set_vm_ID id v in
  (v', set_vms (<[id := v']> (vms m1)) m1).

Definition GetVM (id : string) (m : MemoryStore) : result VMInstance :=
  match vms m !! id with
  | None => Err (vm_not_found id)
  | Some v => Ok v
  end.

Definition UpdateVMStatus (id : string) (status : VMStatus) (m : MemoryStore) : result unit * MemoryStore :=
  match vms m !! id with
  | None => (Err (vm_not_found id), m)
  | Some v => (Ok tt, set_vms (<[id := set_vm_Status status v]> (vms m)) m)
  end.

Definition vm_matches (req : ListVMsRequest) (v : VMInstance) : bool :=
  negb (bool_decide (lvm_Status req ≠ VMStatusUnset) && bool_decide (vm_Status v ≠ lvm_Status req)) &&
  negb (bool_decide (lvm_DeviceID req ≠ "") && bool_decide (vm_DeviceID v ≠ lvm_DeviceID req)).

Definition ListVMs (ord : list string) (req : ListVMsRequest) (m : MemoryStore) : list VMInstance :=
  filter (λ v, vm_matches req v = true) (map_range (vms m) ord).*2.

Definition transient (v : VMInstance) : bool :=
  match vm_Status v with
  | VMStatusCreating | VMStatusBooting | VMStatusRunningTest => true
  | _ => false
  end.

Definition ListOrphanedVMs (ord : list string) (m : MemoryStore) : list VMInstance :=
  filter (λ v, transient v = true) (map_range (vms m) ord).*2.

Definition DeleteVM (id : string) (m : MemoryStore) : result unit * MemoryStore :=
  match vms m !! id with
  | None => (Err (vm_not_found id), m)
  | Some _ => (Ok tt, set_vms (delete id (vms m)) m)
  end.

Definition Ping (m : MemoryStore) : result unit := Ok tt.

(** ** Histories of the store *)

(** The calls that change the store. *)
Inductive store_op : Type :=
| OpCreate (now : Z) (run : TestRun)
| OpUpdateStatus (now : Z) (id : string) (status : TestRunStatus) (errMsg : string)
| OpSaveResult (r : TestResult)
| OpSaveVM (v : VMInstance)
| OpUpdateVM (id : string) (status : VMStatus)
| OpDeleteVM (id : string).

Definition store_step (m : MemoryStore) (op : store_op) : MemoryStore :=
  match op with
  | OpCreate now run => (CreateTestRun now run m).2
  | OpUpdateStatus now id status errMsg => (UpdateTestRunStatus now id status errMsg m).2
  | OpSaveResult r => (SaveTestResult r m).2
  | OpSaveVM v => (SaveVM v m).2
  | OpUpdateVM id status => (UpdateVMStatus id status m).2
  | OpDeleteVM id => (DeleteVM id m).2
  end.

Definition store_run (ops : list store_op) : MemoryStore :=
  foldl store_step NewMemoryStore ops.

(** After [n] calls: keys and identifiers agree, and the identifiers of the
    runs come from the counter. *)
Record store_inv (n : Z) (m : MemoryStore) : Prop := mkStoreInv {
  si_counter : 0 ≤ counter m ≤ n;
  si_runs : ∀ id run, testRuns m !! id = Some run →
    tr_ID run = id ∧ tr_Status run ≠ TestRunStatusUnset ∧
    ∃ k, 1 ≤ k ≤ counter m ∧ id = sprint_id "tr" k;
  si_results : ∀ id rs, testResults m !! id = Some rs →
    Forall (λ r, res_TestRunID r = id ∧ res_ID r ≠ "") rs;
  si_vms : ∀ id v, vms m !! id = Some v → vm_ID v = id ∧ id ≠ "";
}.

(** No call of the program writes the empty status. *)
Definition op_ok (op : store_op) : Prop :=
  match op with
  | OpUpdateStatus _ _ status _ => status ≠ TestRunStatusUnset
  | _ => True
  end.

Lemma sprint_id_inj p a b : sprint_id p a = sprint_id p b → a = b.
Proof.
  unfold sprint_id, fmt_d. intros H%str_app_inj_l%str_app_inj_l. by apply (inj pretty).
Qed.

Lemma sprint_id_ne (p : string) n : p ≠ "" → sprint_id p n ≠ "".
Proof. unfold sprint_id. by destruct p. Qed.

Lemma nextID_spec prefix n m :
  store_inv n m → n < max_int64 →
  nextID prefix m = (sprint_id prefix (counter m + 1), set_counter (counter m + 1) m).
Proof.
  intros [Hc _ _ _] Hn. unfold nextID. rewrite int64_id; [done|].
  unfold in_int64, max_int64, min_int64 in *. lia.
Qed.

Lemma store_inv_mono n m c :
  store_inv n m → counter m ≤ c ≤ n + 1 → store_inv (n + 1) (set_counter c m).
Proof.
  intros [Hc Hr Hs Hv] H. split; simpl; [lia| |done..].
  intros id run Hid. destruct (Hr id run Hid) as (? & ? & k & ? & ?).
  split_and!; [done..|]. exists k. split; [lia|done].
Qed.

Lemma store_inv_weaken n m : store_inv n m → store_inv (n + 1) m.
Proof.
  intros H. pose proof (si_counter _ _ H). destruct m as [a b c d].
  apply (store_inv_mono n (mkStore a b c d) d); [done|simpl in *; lia].
Qed.

Lemma update_run_ID now st msg run : tr_ID (update_run now st msg run) = tr_ID run.
Proof. by destruct st. Qed.

Lemma update_run_Status now st msg run : tr_Status (update_run now st msg run) = st.
Proof. by destruct st. Qed.

Lemma create_inv n m now run :
  store_inv n m → n < max_int64 → store_inv (n + 1) (CreateTestRun now run m).2.
Proof.
  intros Hm Hn. unfold CreateTestRun. rewrite (nextID_spec _ n) by done. simpl.
  pose proof (si_counter _ _ Hm).
  destruct (store_inv_mono n m (counter m + 1) Hm ltac:(lia)) as [Hc Hr Hs Hv].
  split; simpl in *; [done| |done..]. intros id r [[<- <-]|[_ Hid]]%lookup_insert_Some; [|eauto].
  simpl. split_and!; [done|by case_decide|]. exists (counter m + 1). split; [lia|done].
Qed.

Lemma save_result_inv n m r :
  store_inv n m → n < max_int64 → store_inv (n + 1) (SaveTestResult r m).2.
Proof.
  intros Hm Hn. unfold SaveTestResult. rewrite (nextID_spec _ n) by done.
  pose proof (si_counter _ _ Hm).
  assert (H1 : store_inv (n + 1) (set_counter (counter m + 1) m)) by (apply store_inv_mono; [done|lia]).
  pose proof (store_inv_weaken _ _ Hm) as H2.
  destruct (decide (res_ID r = "")) as [He|He]; simpl; [destruct H1 as [Hc Hr Hs Hv]|destruct H2 as [Hc Hr Hs Hv]];
    (split; simpl in *; [done..| |done]);
    (intros id rs [[<- <-]|[_ Hid]]%lookup_insert_Some; [|by apply Hs]);
    (apply Forall_app; split; [|apply Forall_singleton; simpl; split; [done|]]).
  1,3: (destruct (testResults m !! res_TestRunID r) eqn:E; simpl; [by eapply Hs|constructor]).
  - by apply sprint_id_ne.
  - done.
Qed.

Lemma save_vm_inv n m v :
  store_inv n m → n < max_int64 → store_inv (n + 1) (SaveVM v m).2.
Proof.
  intros Hm Hn. unfold SaveVM. rewrite (nextID_spec _ n) by done.
  pose proof (si_counter _ _ Hm).
  assert (H1 : store_inv (n + 1) (set_counter (counter m + 1) m)) by (apply store_inv_mono; [done|lia]).
  pose proof (store_inv_weaken _ _ Hm) as H2.
  destruct (decide (vm_ID v = "")) as [He|He]; simpl; [destruct H1 as [Hc Hr Hs Hv]|destruct H2 as [Hc Hr Hs Hv]];
    (split; simpl in *; [done..|]);
    (intros id v' [[<- <-]|[_ Hid]]%lookup_insert_Some; [|by apply Hv]); simpl; split; try done.
Qed.

Lemma store_step_inv n m op :
  store_inv n m → n < max_int64 → op_ok op → store_inv (n + 1) (store_step m op).
Proof.
  intros Hm Hn Hop. destruct op as [now run|now id st msg|r|v|id st|id]; simpl.
  - by apply create_inv.
  - unfold UpdateTestRunStatus. pose proof (store_inv_weaken _ _ Hm) as [Hc Hr Hs Hv].
    destruct (testRuns m !! id) as [run|] eqn:E; simpl; [|done]. split; simpl; [done| |done..].
    intros id' r [[<- <-]|[_ Hid]]%lookup_insert_Some; [|by apply Hr].
    destruct (Hr _ _ E) as (? & ? & ?). rewrite update_run_ID, update_run_Status. done.
  - by apply save_result_inv.
  - by apply save_vm_inv.
  - unfold UpdateVMStatus. pose proof (store_inv_weaken _ _ Hm) as [Hc Hr Hs Hv].
    destruct (vms m !! id) as [v|] eqn:E; simpl; [|done]. split; simpl; [done..|].
    intros id' v' [[<- <-]|[_ Hid]]%lookup_insert_Some; [by apply (Hv id v)|by apply Hv].
  - unfold DeleteVM. pose proof (store_inv_weaken _ _ Hm) as [Hc Hr Hs Hv].
    destruct (vms m !! id) as [v|] eqn:E; simpl; [|done]. split; simpl; [done..|].
    intros id' v' [_ Hid]%lookup_delete_Some. by apply Hv.
Qed.

Lemma store_run_inv ops :
  Forall op_ok ops → Z.of_nat (length ops) ≤ max_int64 → store_inv (Z.of_nat (length ops)) (store_run ops).
Proof.
  unfold store_run. induction ops as [|op ops IH] using rev_ind; intros Hok Hn.
  - by split; simpl; [lia|intros ? ? ?; simplify_map_eq..].
  - rewrite Forall_app, Forall_singleton in Hok. destruct Hok as [Hok Hop]. rewrite foldl_snoc.
    rewrite length_app in *. cbn [length] in *.
    replace (Z.of_nat (length ops + 1)) with (Z.of_nat (length ops) + 1) by lia.
    apply store_step_inv; [apply IH; [done|lia]|lia|done].
Qed.

(** ** The log of results *)

Definition strip_id (r : TestResult) : TestResult :=
  mkTestResult "" (res_TestRunID r) (res_TestName r) (res_Category r) (res_Status r)
    (res_DurationMs r) (res_Message r) (res_Metrics r) (res_Logs r) (res_CompletedAt r).

(** What a call adds to the results of the run [id]. *)
Definition op_saves (id : string) (op : store_op) : list TestResult :=
  match op with
  | OpSaveResult r => if decide (res_TestRunID r = id) then [strip_id r] else []
  | _ => []
  end.

Lemma save_results_eq id r m :
  GetTestResults id (SaveTestResult r m).2 =
  GetTestResults id m ++
    (if decide (res_TestRunID r = id) then [(SaveTestResult r m).1] else []).
Proof.
  unfold GetTestResults, SaveTestResult.
  destruct (decide (res_ID r = "")); simpl; rewrite lookup_insert;
    destruct (decide (res_TestRunID r = id)) as [<-|]; simpl; rewrite ?app_nil_r; done.
Qed.

Lemma step_results id m op :
  strip_id <$> GetTestResults id (store_step m op) =
  (strip_id <$> GetTestResults id m) ++ op_saves id op.
Proof.
  destruct op as [now run|now i st msg|r|v|i st|i]; simpl; rewrite ?app_nil_r.
  - done.
  - unfold UpdateTestRunStatus. by destruct (testRuns m !! i).
  - rewrite save_results_eq, fmap_app. f_equal. destruct (decide (res_TestRunID r = id)); [|done].
    unfold SaveTestResult. by destruct (decide (res_ID r = "")).
  - unfold SaveVM. by destruct (decide (vm_ID v = "")).
  - unfold UpdateVMStatus. by destruct (vms m !! i).
  - unfold DeleteVM. by destruct (vms m !! i).
Qed.

(** ** Listing *)

Lemma values_keyed_NoDup {V} (key : V → string) (P : V → Prop) `{!∀ v, Decision (P v)}
    (m : gmap string V) ord :
  iteration_of m ord → (∀ k v, m !! k = Some v → key v = k) →
  NoDup (key <$> filter P (map_range m ord).*2).
Proof.
  intros Hit Hkey. apply (sublist_NoDup _ (key <$> (map_range m ord).*2)); [|apply fmap_sublist, sublist_filter].
  assert (key <$> (map_range m ord).*2 = ord) as ->; [|by eapply iteration_of_NoDup].
  assert (Hsome : ∀ k, k ∈ ord → is_Some (m !! k)) by (intros k; by rewrite (iteration_of_elem m)).
  clear Hit. unfold map_range. induction ord as [|k ord IH]; [done|]. simpl.
  destruct (Hsome k ltac:(left)) as [v Hv]. rewrite Hv. simpl. rewrite (Hkey _ _ Hv). f_equal.
  apply IH. intros k' Hk'. apply Hsome. by right.
Qed.

Lemma paginate_window {A} (offset limit : Z) (l : list A) :
  0 ≤ offset < Z.of_nat (length l) → 0 < limit →
  paginate offset limit l = take (Z.to_nat limit) (drop (Z.to_nat offset) l).
Proof.
  intros Ho Hl. unfold paginate.
  assert ((if bool_decide (0 < offset) && bool_decide (offset < Z.of_nat (length l))
           then drop (Z.to_nat offset) l else l) = drop (Z.to_nat offset) l) as ->.
  { destruct (decide (offset = 0)) as [->|]; [done|].
    rewrite !bool_decide_true by lia. done. }
  rewrite (bool_decide_true _ Hl). simpl. case_bool_decide as Hlt; [done|].
  rewrite take_ge; [done|lia].
Qed.

Lemma paginate_beyond {A} (offset limit : Z) (l : list A) :
  Z.of_nat (length l) ≤ offset → paginate offset limit l = paginate 0 limit l.
Proof.
  intros Ho. unfold paginate. rewrite (bool_decide_false (offset < _)) by lia.
  by rewrite andb_false_r.
Qed.

Lemma listed_runs n m ord :
  store_inv n m → iteration_of (testRuns m) ord →
  (∀ run, run ∈ ListRunningTestRuns ord m ↔
     testRuns m !! tr_ID run = Some run ∧ in_flight run = true) ∧
  NoDup (tr_ID <$> ListRunningTestRuns ord m).
Proof.
  intros Hinv Hit. split.
  - intros run. unfold ListRunningTestRuns. rewrite list_elem_of_filter, elem_of_values by done.
    split; [|naive_solver]. intros (Hf & id & Hid).
    by destruct (si_runs _ _ Hinv _ _ Hid) as [-> _].
  - apply (values_keyed_NoDup _ _ _ _ Hit). intros id run Hid. by apply (si_runs _ _ Hinv).
Qed.

Lemma listed_vms n m ord :
  store_inv n m → iteration_of (vms m) ord →
  (∀ v, v ∈ ListOrphanedVMs ord m ↔ vms m !! vm_ID v = Some v ∧ transient v = true) ∧
  NoDup (vm_ID <$> ListOrphanedVMs ord m).
Proof.
  intros Hinv Hit. split.
  - intros v. unfold ListOrphanedVMs. rewrite list_elem_of_filter, elem_of_values by done.
    split; [|naive_solver]. intros (Hf & id & Hid).
    by destruct (si_vms _ _ Hinv _ _ Hid) as [-> _].
  - apply (values_keyed_NoDup _ _ _ _ Hit). intros id v Hid. by apply (si_vms _ _ Hinv).
Qed.

(** The identifier of the next run is free. *)
Lemma next_run_free n m : store_inv n m → testRuns m !! sprint_id "tr" (counter m + 1) = None.
Proof.
  intros Hinv. destruct (testRuns m !! sprint_id "tr" (counter m + 1)) as [r|] eqn:E; [|done].
  destruct (si_runs _ _ Hinv _ _ E) as (_ & _ & k & Hk & Heq%sprint_id_inj). lia.
Qed.

(** ** Properties *)

(** Whatever calls came before (fewer than 2^63 of them), [CreateTestRun]
    gives the run an identifier no stored run has, stores exactly the run it
    returns, with status PENDING when the caller set none, and leaves every
    other run and every result as it was. *)
Theorem CreateTestRun_fresh ops now run :
  Forall op_ok ops → Z.of_nat (length ops) < max_int64 →
  let m := store_run ops in
  let '(run', m') := CreateTestRun now run m in
  testRuns m !! tr_ID run' = None ∧
  GetTestRun (tr_ID run') m' = Ok run' ∧
  tr_Status run' ≠ TestRunStatusUnset ∧ tr_CreatedAt run' = now ∧
  (∀ id, id ≠ tr_ID run' → GetTestRun id m' = GetTestRun id m) ∧
  (∀ id, GetTestResults id m' = GetTestResults id m).
Proof.
  intros Hok Hn m. pose proof (store_run_inv ops Hok ltac:(lia)) as Hinv. fold m in Hinv.
  unfold CreateTestRun. rewrite (nextID_spec _ (Z.of_nat (length ops))) by done. simpl.
  split_and!; [by eapply next_run_free|unfold GetTestRun; simpl; by rewrite lookup_insert_eq|by case_decide|done| |done].
  intros id Hne. unfold GetTestRun. simpl. by rewrite lookup_insert_ne by done.
Qed.

(** The results of a run are an append-only log: after any calls,
    [GetTestResults] gives the results saved for that run, all of them, in
    the order they were saved, each with an identifier. *)
Theorem GetTestResults_is_log ops id :
  Forall op_ok ops → Z.of_nat (length ops) < max_int64 →
  strip_id <$> GetTestResults id (store_run ops) = ops ≫= op_saves id ∧
  Forall (λ r, res_TestRunID r = id ∧ res_ID r ≠ "") (GetTestResults id (store_run ops)).
Proof.
  intros Hok Hn. split.
  - clear Hok Hn. unfold store_run. induction ops as [|op ops IH] using rev_ind; [done|].
    rewrite foldl_snoc, step_results, IH, bind_app. simpl. by rewrite app_nil_r.
  - pose proof (store_run_inv ops Hok ltac:(lia)) as Hinv. unfold GetTestResults.
    destruct (testResults (store_run ops) !! id) eqn:E; [by eapply si_results|constructor].
Qed.

(** [UpdateTestRunStatus] sets the status and the times the status calls
    for, keeps the identity of the run and everything else in the store, and
    on an unknown identifier returns the error and changes nothing. *)
Theorem UpdateTestRunStatus_spec now id st msg m :
  match testRuns m !! id with
  | None => UpdateTestRunStatus now id st msg m =
      (Err ("test run " +:+ fmt_q id +:+ " not found"), m)
  | Some run => ∃ run' m', UpdateTestRunStatus now id st msg m = (Ok tt, m') ∧
      GetTestRun id m' = Ok run' ∧ tr_Status run' = st ∧ tr_ID run' = tr_ID run ∧
      (st = TestRunStatusRunning → tr_StartedAt run' = Some now) ∧
      (terminal st = true → tr_CompletedAt run' = Some now) ∧
      (terminal st = true → ∀ t, tr_StartedAt run = Some t → in_int64 (now - t) →
         tr_DurationMs run' = Z.quot (now - t) 1000000) ∧
      tr_ErrorMessage run' = (if decide (msg = "") then tr_ErrorMessage run else msg) ∧
      (∀ id', id' ≠ id → GetTestRun id' m' = GetTestRun id' m) ∧
      testResults m' = testResults m ∧ vms m' = vms m
  end.
Proof.
  unfold UpdateTestRunStatus. destruct (testRuns m !! id) as [run|] eqn:E; [|done].
  eexists (update_run now st msg run), _. split_and!; [done|..].
  - unfold GetTestRun. simpl. by rewrite lookup_insert_eq.
  - apply update_run_Status.
  - apply update_run_ID.
  - by intros ->.
  - by destruct st.
  - intros Ht t Hs Hr. assert (time_Sub now t = now - t) as Hsub.
    { unfold time_Sub, in_int64 in *. lia. }
    destruct st; try done; simpl; rewrite Hs; unfold Milliseconds; by rewrite Hsub.
  - destruct st; simpl; repeat case_decide; done.
  - intros id' Hne. unfold GetTestRun. simpl. by rewrite lookup_insert_ne by done.
  - done.
  - done.
Qed.

(** [ListTestRuns] lists only stored runs that match the request, each
    at most once; with an offset below the number of matching runs and a
    positive limit it returns exactly the window the request names, and it
    ignores an offset that is not below that number: the page past the last
    one is the first page again. *)
Theorem ListTestRuns_page ord req m :
  iteration_of (testRuns m) ord → 0 ≤ ltr_Offset req → 0 < ltr_Limit req →
  ∃ matching,
    (∀ run, run ∈ matching ↔
       (∃ id, testRuns m !! id = Some run) ∧ run_matches req run = true) ∧
    Z.of_nat (length matching) ≤ Z.of_nat (size (testRuns m)) ∧
    (ltr_Offset req < Z.of_nat (length matching) →
       ListTestRuns ord req m =
         take (Z.to_nat (ltr_Limit req)) (drop (Z.to_nat (ltr_Offset req)) matching)) ∧
    (Z.of_nat (length matching) ≤ ltr_Offset req →
       ListTestRuns ord req m = take (Z.to_nat (ltr_Limit req)) matching).
Proof.
  intros Hit Ho Hl. unfold ListTestRuns.
  set (l := filter _ _). exists l. split_and!.
  - intros run. unfold l. rewrite list_elem_of_filter, elem_of_values by done. tauto.
  - apply inj_le. unfold l. etrans; [apply length_filter|].
    by rewrite length_fmap, (map_range_permutation _ _ Hit), length_map_to_list.
  - intros Hlt. apply paginate_window; lia.
  - intros Hge. rewrite paginate_beyond by lia. destruct l as [|r l'] eqn:E.
    + unfold paginate. repeat case_match; by rewrite ?drop_nil, ?take_nil.
    + rewrite paginate_window by (simpl; lia). done.
Qed.

(** Two runs, and two visits of the map that holds them. *)
Definition two_runs : MemoryStore :=
  store_run [OpCreate 0 (blank_run "" "dev0" "smoke"); OpCreate 0 (blank_run "" "dev1" "smoke")].

Definition page_request (offset : Z) : ListTestRunsRequest :=
  mkListTestRunsRequest "" TestRunStatusUnset 1 offset.

(** Pages are not stable: the order in which [ListTestRuns] sees the runs
    is that of a Go map, so two calls that ask for the first and the second
    page of a store nobody changed can both return the same run and never the
    other one. *)
Theorem ListTestRuns_pages_unstable :
  ∃ m ord1 ord2 run lost,
    iteration_of (testRuns m) ord1 ∧ iteration_of (testRuns m) ord2 ∧
    GetTestRun (tr_ID lost) m = Ok lost ∧ lost ≠ run ∧
    ListTestRuns ord1 (page_request 0) m = [run] ∧
    ListTestRuns ord2 (page_request 1) m = [run].
Proof.
  exists two_runs, ["tr-1"; "tr-2"], ["tr-2"; "tr-1"].
  exists (default (blank_run "" "" "") (testRuns two_runs !! "tr-1")).
  exists (default (blank_run "" "" "") (testRuns two_runs !! "tr-2")).
  assert (Hdom : ∀ k, is_Some (testRuns two_runs !! k) ↔ k = "tr-1" ∨ k = "tr-2").
  { intros k. unfold two_runs, store_run. cbn. rewrite !lookup_insert_is_Some, lookup_empty.
    split; [intros [?|[_ [?|[_ [? ?]]]]]; by auto|].
    intros [->| ->]; [right; split; [done|by left]|by left]. }
  split_and!; try by vm_compute.
  all: (apply iteration_of_intro; [by refine (bool_decide_unpack _ _); vm_compute|]).
  all: (intros k; rewrite Hdom; set_solver).
Qed.

(** [ListRunningTestRuns] and [ListOrphanedVMs], which crash recovery
    relies on, miss nothing: whatever order they visit the maps in they list
    exactly the stored runs in flight and the stored VMs in a transient
    state, each once. *)
Theorem recovery_lists_complete ops ordr ordv :
  Forall op_ok ops → Z.of_nat (length ops) < max_int64 →
  let m := store_run ops in
  iteration_of (testRuns m) ordr → iteration_of (vms m) ordv →
  (∀ run, run ∈ ListRunningTestRuns ordr m ↔
     GetTestRun (tr_ID run) m = Ok run ∧ in_flight run = true) ∧
  NoDup (tr_ID <$> ListRunningTestRuns ordr m) ∧
  (∀ v, v ∈ ListOrphanedVMs ordv m ↔ GetVM (vm_ID v) m = Ok v ∧ transient v = true) ∧
  NoDup (vm_ID <$> ListOrphanedVMs ordv m).
Proof.
  intros Hok Hn m Hr Hv. pose proof (store_run_inv ops Hok ltac:(lia)) as Hinv. fold m in Hinv.
  destruct (listed_runs _ _ _ Hinv Hr) as [Hruns Hnr].
  destruct (listed_vms _ _ _ Hinv Hv) as [Hvms Hnv].
  unfold GetTestRun, GetVM. split_and!; [intros run; rewrite Hruns|done|intros v; rewrite Hvms|done];
    case_match; naive_solver.
Qed.

(** ** Witnesses *)

Definition sample_result : TestResult :=
  mkTestResult "" "tr-1" "vecadd" TestCategoryUnset TestRunStatusPassed 5 "" ∅ "" 0.

Definition sample_vm : VMInstance :=
  mkVMInstance "vm-9" VMStatusBooting "dev0" "" "" [] 0 1 512 "" "" 0 AgentStatusUnset None "".

Definition sample_ops : list store_op :=
  [OpCreate 0 (blank_run "" "dev0" "smoke"); OpSaveResult sample_result; OpSaveVM sample_vm].

Lemma sample_ops_ok : Forall op_ok sample_ops.
Proof. repeat constructor. Qed.

Lemma CreateTestRun_fresh_witness : testRuns (store_run sample_ops) !! "tr-3" = None.
Proof.
  pose proof (CreateTestRun_fresh sample_ops 7 (blank_run "" "dev0" "smoke") sample_ops_ok
    ltac:(by vm_compute)) as (H & _). exact H.
Defined.

Lemma GetTestResults_is_log_witness :
  strip_id <$> GetTestResults "tr-1" (store_run sample_ops) = [sample_result].
Proof.
  destruct (GetTestResults_is_log sample_ops "tr-1" sample_ops_ok ltac:(by vm_compute)) as [-> _].
  by vm_compute.
Defined.

Lemma ListTestRuns_page_witness :
  ListTestRuns (map_keys (testRuns two_runs)) (page_request 2) two_runs =
  ListTestRuns (map_keys (testRuns two_runs)) (page_request 0) two_runs.
Proof.
  destruct (ListTestRuns_page (map_keys (testRuns two_runs)) (page_request 2) two_runs
    (iteration_of_keys _) ltac:(by vm_compute) ltac:(by vm_compute)) as (matching & _ & _).
  by vm_compute.
Defined.

Lemma recovery_lists_complete_witness :
  NoDup (tr_ID <$> ListRunningTestRuns ["tr-1"] (store_run sample_ops)).
Proof.
  destruct (recovery_lists_complete sample_ops ["tr-1"] ["vm-9"] sample_ops_ok ltac:(by vm_compute))
    as (_ & H & _); [by vm_compute..|exact H].
Defined.
