(* ===== verification/Recovery.v ===== *)
(** * Crash recovery ([core/state_manager.go])

    [RecoverState] against any store that implements [RecoveryStore], and its
    effect on the in-memory store: which runs are queued again, what becomes
    of the rows of the runs and VMs, and what a second call does. *)
From stdpp Require Import options.
From S2P Require Import Prelude GoStd GoChan Types Scheduler Effects MemoryStore.
Open Scope string_scope.
Open Scope list_scope.
Open Scope Z_scope.

(** [os.FindProcess], which cannot fail on Unix, followed by
    [proc.Signal(syscall.SIGKILL)]. *)
Class Processes (W : Type) := {
  os_SIGKILL : Z → M W (result unit);
}.

Section recover.
Context {W : Type} `{!RecoveryStore W} `{!Processes W}.

(** The state recovery works on: the outside world and the scheduler. *)
Abbreviation R := (M (W * Scheduler)).

Definition on_world {A : Type} (c : M W A) : R A := λ '(w, s),
  match c w with Done (a, w') => Done (a, (w', s)) | Panics why => Panics why end.

Definition on_scheduler (f : Scheduler → go Scheduler) : R unit := λ '(w, s),
  match f s with Done s' => Done (tt, (w, s')) | Panics why => Panics why end.

Definition restart_message : string := "orchestrator restarted — re-queued for retry".

(** The two branches of the switch on the status of a run; the answer counts
    recovered and requeued runs. *)
Definition recover_run (c : ctx) (run : TestRun) : R (nat * nat) :=
  match tr_Status run with
  | TestRunStatusRunning | TestRunStatusQueued =>
    r ← on_world (rec_UpdateTestRunStatus c (tr_ID run) TestRunStatusErrored restart_message);
    match r with
    | Err _ => mret (0, 0)%nat
    | Ok _ =>
      _ ← on_scheduler (Enqueue (set_tr_VMID "" (set_tr_Status TestRunStatusPending run)));
      mret (1, 0)%nat
    end
  | TestRunStatusPending =>
    _ ← on_scheduler (Enqueue run);
    mret (0, 1)%nat
  | _ => mret (0, 0)%nat
  end.

Fixpoint recover_runs (c : ctx) (runs : list TestRun) (recovered requeued : nat) : R (nat * nat) :=
  match runs with
  | [] => mret (recovered, requeued)
  | run :: runs' =>
    n ← recover_run c run;
    recover_runs c runs' (recovered + n.1) (requeued + n.2)
  end.

(** The body of the loop over the orphaned VMs: whether the VM was cleaned. *)
Definition recover_vm (c : ctx) (v : VMInstance) : R nat :=
  _ ← (if decide (0 < vm_PID v)
       then k ← on_world (os_SIGKILL (vm_PID v)); mret tt
       else mret tt);
  r ← on_world (rec_UpdateVMStatus c (vm_ID v) VMStatusError);
  match r with
  | Err _ => mret 0%nat
  | Ok _ => mret 1%nat
  end.

Fixpoint recover_vms (c : ctx) (vs : list VMInstance) (cleaned : nat) : R nat :=
  match vs with
  | [] => mret cleaned
  | v :: vs' =>
    n ← recover_vm c v;
    recover_vms c vs' (cleaned + n)
  end.

(** The result carries the three counts of the last log line. *)
Definition RecoverState (c : ctx) : R (result (nat * nat * nat)) :=
  r ← on_world (rec_ListRunningTestRuns c);
  match r with
  | Err e => mret (Err ("listing running test runs for recovery: " +:+ e))
  | Ok runs =>
    n ← recover_runs c runs 0 0;
    o ← on_world (rec_ListOrphanedVMs c);
    match o with
    | Err e => mret (Err ("listing orphaned VMs for recovery: " +:+ e))
    | Ok orphans =>
      k ← recover_vms c orphans 0;
      mret (Ok (n.1, n.2, k))
    end
  end.

End recover.

(** ** Recovery of the in-memory store *)

(** A world with the in-memory store, a clock and the log of the processes
    that were sent SIGKILL. *)
Record mem_world : Type := mkMemWorld {
  mw_store : MemoryStore;
  mw_now : Z;
  mw_killed : list Z;
}.

(** How the store's methods visit their maps. *)
Record map_visits : Type := mkMapVisits {
  visit_runs : gmap string TestRun → list string;
  visit_vms : gmap string VMInstance → list string;
}.

Definition visits_ok (v : map_visits) : Prop :=
  (∀ m, iteration_of m (visit_runs v m)) ∧ (∀ m, iteration_of m (visit_vms v m)).

Definition on_store {A : Type} (f : MemoryStore → A * MemoryStore) : M mem_world A := λ w,
  let '(a, m) := f (mw_store w) in Done (a, mkMemWorld m (mw_now w) (mw_killed w)).

Definition mem_recovery (v : map_visits) : RecoveryStore mem_world := {|
  rec_ListRunningTestRuns _ := on_store (λ m, (Ok (ListRunningTestRuns (visit_runs v (testRuns m)) m), m));
  rec_UpdateTestRunStatus _ id st msg := λ w,
    on_store (MemoryStore.UpdateTestRunStatus (mw_now w) id st msg) w;
  rec_ListOrphanedVMs _ := on_store (λ m, (Ok (ListOrphanedVMs (visit_vms v (vms m)) m), m));
  rec_UpdateVMStatus _ id st := on_store (UpdateVMStatus id st);
|}.

(** Signals are delivered or refused as [alive] says. *)
Definition mem_processes (alive : Z → result unit) : Processes mem_world := {|
  os_SIGKILL pid := λ w, Done (alive pid, mkMemWorld (mw_store w) (mw_now w) (mw_killed w ++ [pid]));
|}.

(** What recovery makes of a run it lists, and of a stored run. *)
Definition requeued_run (run : TestRun) : TestRun :=
  match tr_Status run with
  | TestRunStatusPending => run
  | _ => set_tr_VMID "" (set_tr_Status TestRunStatusPending run)
  end.

Definition mid_execution (run : TestRun) : bool :=
  match tr_Status run with
  | TestRunStatusRunning | TestRunStatusQueued => true
  | _ => false
  end.

Definition recovered_row (now : Z) (run : TestRun) : TestRun :=
  if mid_execution run then update_run now TestRunStatusErrored restart_message run else run.

Definition recovered_vm (v : VMInstance) : VMInstance :=
  if transient v then set_vm_Status VMStatusError v else v.

(** ** Proofs *)

(** The schedulers that differ in their wake-up channel only. *)
Record sched_queued (s : Scheduler) (added : list TestRun) (s' : Scheduler) : Prop := mkQueued {
  sq_queue : queue s' = queue s ++ added;
  sq_active : activeCount s' = activeCount s;
  sq_max : maxConcurrent s' = maxConcurrent s;
  sq_open : ch_closed (notify s') = false;
}.

Lemma Enqueue_open s run :
  ch_closed (notify s) = false → ∃ s', Enqueue run s = Done s' ∧ sched_queued s [run] s'.
Proof.
  intros Ho. destruct (chan_offer_open (notify s) tt Ho) as [c Hc].
  unfold Enqueue, signal. simpl. rewrite Hc. simpl. eexists. split; [done|].
  apply chan_offer_inv in Hc as (_ & ? & _). by split.
Qed.

Lemma sched_queued_refl s : ch_closed (notify s) = false → sched_queued s [] s.
Proof. intros Ho. split; [by rewrite app_nil_r|done..]. Qed.

Lemma sched_queued_trans s1 l1 s2 l2 s3 :
  sched_queued s1 l1 s2 → sched_queued s2 l2 s3 → sched_queued s1 (l1 ++ l2) s3.
Proof. intros [Hq1 Ha1 Hm1 _] [Hq2 Ha2 Hm2 ?]. split; [by rewrite Hq2, Hq1, app_assoc|congruence|congruence|done]. Qed.

Section mem_recover.
Context (v : map_visits) (alive : Z → result unit) (c : ctx).
Local Existing Instance mem_recovery.
Local Instance mem_rec : RecoveryStore mem_world := mem_recovery v.
Local Instance mem_proc : Processes mem_world := mem_processes alive.
Implicit Types (m : MemoryStore) (s : Scheduler).

Lemma recover_run_mem m now k s run :
  ch_closed (notify s) = false → testRuns m !! tr_ID run = Some run → in_flight run = true →
  ∃ n s', recover_run c run (mkMemWorld m now k, s) =
      Done (n, (mkMemWorld (set_runs (<[tr_ID run := recovered_row now run]> (testRuns m)) m) now k, s')) ∧
    sched_queued s [requeued_run run] s'.
Proof.
  intros Ho Hrun Hf. unfold recover_run, recovered_row, requeued_run, mid_execution, in_flight in *.
  assert (Hsame : set_runs (<[tr_ID run := run]> (testRuns m)) m = m).
  { rewrite insert_id by done. by destruct m. }
  destruct (tr_Status run); try done.
  - destruct (Enqueue_open s run Ho) as (s' & He & Hq). exists (0, 1)%nat, s'.
    unfold mbind, M_bind, on_scheduler. rewrite He, Hsame. done.
  - destruct (Enqueue_open s (set_tr_VMID "" (set_tr_Status TestRunStatusPending run)) Ho)
      as (s' & He & Hq). exists (1, 0)%nat, s'. split; [|done].
    unfold mbind, M_bind, on_world, on_scheduler. cbn -[Enqueue]. unfold on_store. cbn -[Enqueue].
    unfold MemoryStore.UpdateTestRunStatus. rewrite Hrun. cbn -[Enqueue]. by rewrite He.
  - destruct (Enqueue_open s (set_tr_VMID "" (set_tr_Status TestRunStatusPending run)) Ho)
      as (s' & He & Hq). exists (1, 0)%nat, s'. split; [|done].
    unfold mbind, M_bind, on_world, on_scheduler. cbn -[Enqueue]. unfold on_store. cbn -[Enqueue].
    unfold MemoryStore.UpdateTestRunStatus. rewrite Hrun. cbn -[Enqueue]. by rewrite He.
Qed.

(** The loop over the runs, for runs that are stored and in flight. *)
Lemma recover_runs_mem runs m now k s a b :
  ch_closed (notify s) = false → NoDup (tr_ID <$> runs) →
  (∀ r, r ∈ runs → testRuns m !! tr_ID r = Some r ∧ in_flight r = true) →
  ∃ n runs' s', recover_runs c runs a b (mkMemWorld m now k, s) =
      Done (n, (mkMemWorld (set_runs runs' m) now k, s')) ∧
    sched_queued s (requeued_run <$> runs) s' ∧
    ∀ id, runs' !! id = if decide (id ∈ tr_ID <$> runs)
                        then recovered_row now <$> (testRuns m !! id) else testRuns m !! id.
Proof.
  revert m s a b. induction runs as [|r runs IH]; intros m s a b Ho Hnd Hin.
  - exists (a, b), (testRuns m), s. split_and!; [by destruct m|by apply sched_queued_refl|].
    intros id. by rewrite decide_False by apply not_elem_of_nil.
  - destruct (Hin r ltac:(left)) as [Hr Hf].
    destruct (recover_run_mem m now k s r Ho Hr Hf) as (n & s1 & He & Hq).
    rewrite fmap_cons, NoDup_cons in Hnd. destruct Hnd as [Hni Hnd].
    destruct (IH (set_runs (<[tr_ID r := recovered_row now r]> (testRuns m)) m) s1 (a + n.1)%nat (b + n.2)%nat)
      as (n' & runs' & s2 & He' & Hq' & Hl).
    { apply Hq. }
    { done. }
    { intros r' Hr'. simpl. destruct (Hin r' ltac:(by right)) as [H1 H2].
      rewrite lookup_insert_ne; [done|]. intros Heq. apply Hni. rewrite Heq.
      by apply list_elem_of_fmap_2. }
    exists n', runs', s2. split_and!.
    + simpl. unfold mbind at 1, M_bind at 1. rewrite He. cbv beta iota. by rewrite He'.
    + apply (sched_queued_trans _ [requeued_run r] s1); done.
    + intros id. rewrite Hl. simpl. rewrite lookup_insert.
      destruct (decide (tr_ID r = id)) as [<-|Hne].
      * rewrite decide_False, decide_True by (done || left). by rewrite Hr.
      * by rewrite decide_cons_ne by done.
Qed.

Lemma recover_vm_mem m now k s vm :
  vms m !! vm_ID vm = Some vm → transient vm = true →
  recover_vm c vm (mkMemWorld m now k, s) =
    Done (1%nat, (mkMemWorld (set_vms (<[vm_ID vm := recovered_vm vm]> (vms m)) m) now
      (k ++ (if decide (0 < vm_PID vm) then [vm_PID vm] else [])), s)).
Proof.
  intros Hv Ht. unfold recover_vm, recovered_vm, mbind, M_bind, on_world. rewrite Ht.
  destruct (decide (0 < vm_PID vm)); cbn; unfold on_store; cbn;
    unfold UpdateVMStatus; rewrite Hv; cbn; by rewrite ?app_nil_r.
Qed.

Lemma recover_vms_mem vs m now k s n :
  NoDup (vm_ID <$> vs) →
  (∀ x, x ∈ vs → vms m !! vm_ID x = Some x ∧ transient x = true) →
  ∃ vms', recover_vms c vs n (mkMemWorld m now k, s) =
      Done ((n + length vs)%nat, (mkMemWorld (set_vms vms' m) now
        (k ++ filter (λ pid, 0 < pid) (vm_PID <$> vs)), s)) ∧
    ∀ id, vms' !! id = if decide (id ∈ vm_ID <$> vs)
                       then recovered_vm <$> (vms m !! id) else vms m !! id.
Proof.
  revert m k n. induction vs as [|x vs IH]; intros m k n Hnd Hin.
  - exists (vms m). split; [rewrite app_nil_r, Nat.add_0_r; by destruct m|].
    intros id. by rewrite decide_False by apply not_elem_of_nil.
  - destruct (Hin x ltac:(left)) as [Hx Ht].
    rewrite fmap_cons, NoDup_cons in Hnd. destruct Hnd as [Hni Hnd].
    destruct (IH (set_vms (<[vm_ID x := recovered_vm x]> (vms m)) m)
      (k ++ (if decide (0 < vm_PID x) then [vm_PID x] else [])) (n + 1)%nat Hnd)
      as (vms' & He & Hl).
    { intros y Hy. simpl. destruct (Hin y ltac:(by right)) as [H1 H2].
      rewrite lookup_insert_ne; [done|]. intros Heq. apply Hni. rewrite Heq.
      by apply list_elem_of_fmap_2. }
    exists vms'. split.
    + simpl. unfold mbind at 1, M_bind at 1. rewrite (recover_vm_mem _ _ _ _ _ Hx Ht), He.
      rewrite filter_cons, <- app_assoc, <- Nat.add_assoc. by destruct (decide (0 < vm_PID x)).
    + intros id. rewrite Hl. simpl. rewrite lookup_insert.
      destruct (decide (vm_ID x = id)) as [<-|Hne].
      * rewrite decide_False, decide_True by (done || left). by rewrite Hx.
      * by rewrite decide_cons_ne by done.
Qed.

End mem_recover.

(** [RecoverState] on the in-memory store. *)
Definition RecoverMemory (v : map_visits) (alive : Z → result unit) (c : ctx) :
    M (mem_world * Scheduler) (result (nat * nat * nat)) :=
  @RecoverState mem_world (mem_recovery v) (mem_processes alive) c.

Definition recovered_store (now : Z) (m : MemoryStore) : MemoryStore :=
  mkStore (recovered_row now <$> testRuns m) (testResults m) (recovered_vm <$> vms m) (counter m).

Definition listed (v : map_visits) (m : MemoryStore) : list TestRun :=
  ListRunningTestRuns (visit_runs v (testRuns m)) m.

Definition orphans (v : map_visits) (m : MemoryStore) : list VMInstance :=
  ListOrphanedVMs (visit_vms v (vms m)) m.

Lemma recovered_row_out now r : in_flight r = false → recovered_row now r = r.
Proof. unfold in_flight, recovered_row, mid_execution. by destruct (tr_Status r). Qed.

Lemma recover_memory v alive c n m now k s :
  visits_ok v → store_inv n m → ch_closed (notify s) = false →
  ∃ counts s', RecoverMemory v alive c (mkMemWorld m now k, s) =
      Done (Ok counts, (mkMemWorld (recovered_store now m) now
        (k ++ filter (λ pid, 0 < pid) (vm_PID <$> orphans v m)), s')) ∧
    sched_queued s (requeued_run <$> listed v m) s'.
Proof.
  intros [Hvr Hvv] Hinv Ho.
  destruct (listed_runs n m _ Hinv (Hvr _)) as [Hruns Hnr]. fold (listed v m) in Hruns, Hnr.
  destruct (listed_vms n m _ Hinv (Hvv _)) as [Hvms Hnv]. fold (orphans v m) in Hvms, Hnv.
  destruct (recover_runs_mem v c (listed v m) m now k s 0 0 Ho Hnr) as (cnt & runs' & s' & He & Hq & Hl).
  { intros r. apply Hruns. }
  destruct (recover_vms_mem v alive c (orphans v m) (set_runs runs' m) now k s' 0 Hnv) as (vms' & He' & Hl').
  { intros x. apply Hvms. }
  assert (runs' = recovered_row now <$> testRuns m) as ->.
  { apply map_eq. intros id. rewrite Hl, lookup_fmap. case_decide as Hid; [done|].
    destruct (testRuns m !! id) as [r|] eqn:Er; [|done]. simpl. f_equal. symmetry.
    apply recovered_row_out. apply not_true_is_false. intros Hf. apply Hid.
    destruct (si_runs _ _ Hinv _ _ Er) as [<- _]. by apply list_elem_of_fmap_2, Hruns. }
  assert (vms' = recovered_vm <$> vms m) as ->.
  { apply map_eq. intros id. rewrite Hl', lookup_fmap. case_decide as Hid; [done|]. simpl.
    destruct (vms m !! id) as [x|] eqn:Ex; [|done]. simpl. f_equal. symmetry.
    unfold recovered_vm. destruct (transient x) eqn:Ht; [|done]. exfalso. apply Hid.
    destruct (si_vms _ _ Hinv _ _ Ex) as [<- _]. by apply list_elem_of_fmap_2, Hvms. }
  exists (cnt.1, cnt.2, length (orphans v m)), s'. split; [|done].
  unfold RecoverMemory, RecoverState.
  erewrite M_bind_done by done. cbv beta iota. erewrite M_bind_done by exact He.
  erewrite M_bind_done by done. cbv beta iota. by erewrite M_bind_done by exact He'.
Qed.

Lemma recovered_store_inv n now m : store_inv n m → store_inv n (recovered_store now m).
Proof.
  intros [Hc Hr Hs Hv]. split; simpl; [done| |done|].
  - intros id run Hid. rewrite lookup_fmap in Hid.
    destruct (testRuns m !! id) as [r|] eqn:E; [|done]. injection Hid as <-.
    destruct (Hr id r E) as (? & ? & ?). unfold recovered_row. by destruct (mid_execution r).
  - intros id x Hid. rewrite lookup_fmap in Hid.
    destruct (vms m !! id) as [y|] eqn:E; [|done]. injection Hid as <-.
    destruct (Hv id y E) as [? ?]. unfold recovered_vm. by destruct (transient y).
Qed.

(** ** Properties *)

(** On a store that any calls produced and a scheduler that is open,
    [RecoverState] succeeds; it queues exactly the runs in flight, each once,
    with the interrupted ones reset to PENDING and detached from their VM; it
    marks the interrupted rows ERRORED and the orphaned VMs ERROR and changes
    no other row; and it sends SIGKILL to exactly the orphans with a known
    process id. *)
Theorem RecoverState_memory v alive c ops now k s :
  visits_ok v → Forall op_ok ops → Z.of_nat (length ops) < max_int64 →
  ch_closed (notify s) = false →
  let m := store_run ops in
  ∃ counts s' m' killed, RecoverMemory v alive c (mkMemWorld m now k, s) =
      Done (Ok counts, (mkMemWorld m' now (k ++ killed), s')) ∧
    queue s' = queue s ++ (requeued_run <$> listed v m) ∧
    (∀ run, run ∈ listed v m ↔ GetTestRun (tr_ID run) m = Ok run ∧ in_flight run = true) ∧
    NoDup (tr_ID <$> listed v m) ∧
    testRuns m' = recovered_row now <$> testRuns m ∧
    vms m' = recovered_vm <$> vms m ∧ testResults m' = testResults m ∧
    (∀ pid, pid ∈ killed ↔ 0 < pid ∧ ∃ id x, vms m !! id = Some x ∧ transient x = true ∧ vm_PID x = pid).
Proof.
  intros Hv Hok Hn Ho m. pose proof (store_run_inv ops Hok ltac:(lia)) as Hinv. fold m in Hinv.
  destruct (recover_memory v alive c _ m now k s Hv Hinv Ho) as (counts & s' & He & Hq).
  destruct (listed_runs _ m _ Hinv (proj1 Hv _)) as [Hruns Hnr].
  destruct (listed_vms _ m _ Hinv (proj2 Hv _)) as [Hvms _].
  eexists counts, s', _, _. split_and!; [exact He|apply Hq| |done|done..|].
  - intros run. unfold listed. rewrite Hruns. unfold GetTestRun. case_match; naive_solver.
  - intros pid. rewrite list_elem_of_filter, list_elem_of_fmap. split.
    + intros (? & x & -> & Hx%Hvms). naive_solver.
    + intros (? & id & x & Hx & Ht & <-). split; [done|]. exists x. split; [done|].
      apply Hvms. by destruct (si_vms _ _ Hinv _ _ Hx) as [-> _].
Qed.

(** Recovery is documented as idempotent, and it is not: calling it twice
    queues every run that was PENDING twice, so such a run is executed
    twice. *)
Theorem RecoverState_twice_duplicates v alive c ops now now' k s run :
  visits_ok v → Forall op_ok ops → Z.of_nat (length ops) < max_int64 →
  ch_closed (notify s) = false →
  GetTestRun (tr_ID run) (store_run ops) = Ok run → tr_Status run = TestRunStatusPending →
  ∃ c1 w1 s1 c2 w2 s2,
    RecoverMemory v alive c (mkMemWorld (store_run ops) now k, s) = Done (c1, (w1, s1)) ∧
    RecoverMemory v alive c (mkMemWorld (mw_store w1) now' (mw_killed w1), s1) = Done (c2, (w2, s2)) ∧
    ∃ l1 l2 l3, queue s2 = l1 ++ run :: l2 ++ run :: l3.
Proof.
  intros Hv Hok Hn Ho Hget Hp. pose proof (store_run_inv ops Hok ltac:(lia)) as Hinv.
  set (m := store_run ops) in *.
  destruct (recover_memory v alive c _ m now k s Hv Hinv Ho) as (n1 & s1 & He1 & Hq1).
  pose proof (recovered_store_inv _ now _ Hinv) as Hinv'.
  destruct (recover_memory v alive c _ (recovered_store now m) now'
    (k ++ filter (λ pid, 0 < pid) (vm_PID <$> orphans v m)) s1 Hv Hinv' (sq_open _ _ _ Hq1))
    as (n2 & s2 & He2 & Hq2).
  eexists _, _, _, _, _, _. split; [exact He1|]. split; [exact He2|].
  rewrite (sq_queue _ _ _ Hq2), (sq_queue _ _ _ Hq1).
  assert (Hrun : testRuns m !! tr_ID run = Some run).
  { unfold GetTestRun in Hget. destruct (testRuns m !! tr_ID run); [congruence|done]. }
  assert (Hr : requeued_run run = run) by (unfold requeued_run; by rewrite Hp).
  assert (Hf : in_flight run = true) by (unfold in_flight; by rewrite Hp).
  assert (run ∈ requeued_run <$> listed v m) as (a1 & a2 & ->)%list_elem_of_split.
  { rewrite <- Hr. by apply list_elem_of_fmap_2, (listed_runs _ _ _ Hinv (proj1 Hv _)). }
  assert (run ∈ requeued_run <$> listed v (recovered_store now m)) as (b1 & b2 & ->)%list_elem_of_split.
  { rewrite <- Hr. apply list_elem_of_fmap_2, (listed_runs _ _ _ Hinv' (proj1 Hv _)).
    split; [|done]. simpl. rewrite lookup_fmap, Hrun. simpl. unfold recovered_row, mid_execution.
    by rewrite Hp. }
  exists (queue s ++ a1), (a2 ++ b1), b2. by list_simplifier.
Qed.

(** ** Witnesses *)

Definition key_visits : map_visits := mkMapVisits map_keys map_keys.

Lemma key_visits_ok : visits_ok key_visits.
Proof. split; intros m; apply iteration_of_keys. Qed.

Definition crash_ops : list store_op :=
  [OpCreate 0 (blank_run "" "dev0" "smoke"); OpCreate 1 (blank_run "" "dev1" "smoke");
   OpUpdateStatus 2 "tr-2" TestRunStatusRunning ""; OpSaveVM sample_vm].

Lemma crash_ops_ok : Forall op_ok crash_ops.
Proof. repeat constructor. done. Qed.

Lemma RecoverState_memory_witness :
  ∃ counts s' m' killed,
    RecoverMemory key_visits (λ _, Ok tt) Background (mkMemWorld (store_run crash_ops) 9 [], NewScheduler 2) =
      Done (Ok counts, (mkMemWorld m' 9 killed, s')) ∧ length (queue s') = 2%nat.
Proof.
  destruct (RecoverState_memory key_visits (λ _, Ok tt) Background crash_ops 9 [] (NewScheduler 2)
    key_visits_ok crash_ops_ok ltac:(by vm_compute) eq_refl) as (n & s' & m' & k & He & Hq & _).
  exists n, s', m', k. split; [exact He|]. rewrite Hq. by vm_compute.
Defined.

Lemma RecoverState_twice_duplicates_witness :
  ∃ run c1 w1 s1 c2 w2 s2,
    RecoverMemory key_visits (λ _, Ok tt) Background (mkMemWorld (store_run crash_ops) 9 [], NewScheduler 2)
      = Done (c1, (w1, s1)) ∧
    RecoverMemory key_visits (λ _, Ok tt) Background (mkMemWorld (mw_store w1) 9 (mw_killed w1), s1)
      = Done (c2, (w2, s2)) ∧
    ∃ l1 l2 l3, queue s2 = l1 ++ run :: l2 ++ run :: l3.
Proof.
  exists (default (blank_run "" "" "") (testRuns (store_run crash_ops) !! "tr-1")).
  apply (RecoverState_twice_duplicates key_visits (λ _, Ok tt) Background crash_ops 9 9 [] (NewScheduler 2)
    _ key_visits_ok crash_ops_ok ltac:(by vm_compute) eq_refl); by vm_compute.
Defined.
