(* ===== verification/StoreContract.v ===== *)
(** * What recovery relies on

    The part of [storage.Store] that [RecoverState] uses, as an interface: an
    invariant of the store, the runs and the VMs it holds, and what each call
    does to them, whether it succeeds or fails.  [RecoverState] is proved
    against it, so that what is shown holds for the in-memory store, whose
    instance is here, and for the PostgreSQL store. *)
From stdpp Require Import options.
Set Default Proof Using "Type*".
From S2P Require Import Prelude GoStd GoChan Types Scheduler Effects MemoryStore Recovery.
Open Scope string_scope.
Open Scope list_scope.
Open Scope Z_scope.

Class RecoverableStore (W : Type) := {
  rs_ok : W → Prop;
  rs_runs : W → gmap string TestRun;
  rs_vms : W → gmap string VMInstance;
}.

(** The run [id] has the new status, and is otherwise the same run. *)
Definition touched (id : string) (st : TestRunStatus) (m m' : gmap string TestRun) : Prop :=
  ∃ run run', m !! id = Some run ∧ m' = <[id := run']> m ∧ tr_Status run' = st ∧ tr_ID run' = tr_ID run ∧
    tr_DeviceID run' = tr_DeviceID run ∧ tr_TestSuiteID run' = tr_TestSuiteID run.

Definition vm_touched (id : string) (st : VMStatus) (m m' : gmap string VMInstance) : Prop :=
  ∃ v, m !! id = Some v ∧ m' = <[id := set_vm_Status st v]> m.

Class RecoverableLaws (W : Type) `{!RecoveryStore W, !Processes W, !RecoverableStore W} : Prop := {
  #[global] total_list_runs c :: Total (rec_ListRunningTestRuns c);
  #[global] total_update_run c id st msg :: Total (rec_UpdateTestRunStatus c id st msg);
  #[global] total_list_vms c :: Total (rec_ListOrphanedVMs c);
  #[global] total_update_vm c id st :: Total (rec_UpdateVMStatus c id st);
  #[global] total_kill pid :: Total (os_SIGKILL pid);
  run_keys w id run : rs_ok w → rs_runs w !! id = Some run → tr_ID run = id;
  list_runs_law c w r w' :
    rs_ok w → rec_ListRunningTestRuns c w = Done (r, w') →
    rs_ok w' ∧ rs_runs w' = rs_runs w ∧ rs_vms w' = rs_vms w ∧
    match r with
    | Ok l => NoDup (tr_ID <$> l) ∧ ∀ run, run ∈ l ↔ rs_runs w !! tr_ID run = Some run ∧ in_flight run = true
    | Err _ => True
    end;
  update_run_law c id st msg w r w' :
    rs_ok w → st ≠ TestRunStatusUnset → rec_UpdateTestRunStatus c id st msg w = Done (r, w') →
    rs_ok w' ∧ rs_vms w' = rs_vms w ∧
    match r with
    | Ok _ => touched id st (rs_runs w) (rs_runs w')
    | Err _ => rs_runs w' = rs_runs w ∨ touched id st (rs_runs w) (rs_runs w')
    end;
  list_vms_law c w r w' :
    rs_ok w → rec_ListOrphanedVMs c w = Done (r, w') →
    rs_ok w' ∧ rs_runs w' = rs_runs w ∧ rs_vms w' = rs_vms w ∧
    match r with
    | Ok l => NoDup (vm_ID <$> l) ∧ ∀ v, v ∈ l ↔ rs_vms w !! vm_ID v = Some v ∧ transient v = true
    | Err _ => True
    end;
  update_vm_law c id st w r w' :
    rs_ok w → rec_UpdateVMStatus c id st w = Done (r, w') →
    rs_ok w' ∧ rs_runs w' = rs_runs w ∧
    match r with
    | Ok _ => vm_touched id st (rs_vms w) (rs_vms w')
    | Err _ => rs_vms w' = rs_vms w ∨ vm_touched id st (rs_vms w) (rs_vms w')
    end;
  kill_law pid w r w' :
    rs_ok w → os_SIGKILL pid w = Done (r, w') → rs_ok w' ∧ rs_runs w' = rs_runs w ∧ rs_vms w' = rs_vms w;
}.

Section recover.
Context {W : Type} `{!RecoveryStore W, !Processes W, !RecoverableStore W, !RecoverableLaws W}.
Implicit Types (w : W) (s : Scheduler).

(** The row of a run in flight afterwards: as it was, unless the run was in
    the middle of an execution; and if such a run is queued again, or the
    answer to its update was lost, it is ERRORED. *)
Definition row_after (again : list TestRun) (run : TestRun) (row : option TestRun) : Prop :=
  row = Some run ∧ (mid_execution run = true → run ∉ again) ∨
  mid_execution run = true ∧ ∃ run', row = Some run' ∧ tr_Status run' = TestRunStatusErrored ∧ tr_ID run' = tr_ID run ∧
    tr_DeviceID run' = tr_DeviceID run ∧ tr_TestSuiteID run' = tr_TestSuiteID run.

(** One run: what is queued for it, and what becomes of its row. *)
Record run_recovered (run : TestRun) (again : list TestRun) (w : W) (s : Scheduler) (w' : W) (s' : Scheduler) : Prop := mkRecovered {
  rr_ok : rs_ok w';
  rr_vms : rs_vms w' = rs_vms w;
  rr_queue : sched_queued s (requeued_run <$> again) s';
  rr_again : again = [run] ∨ again = [] ∧ mid_execution run = true;
  rr_rows : rs_runs w' = rs_runs w ∧ (again = [] ∨ mid_execution run = false) ∨
    mid_execution run = true ∧ touched (tr_ID run) TestRunStatusErrored (rs_runs w) (rs_runs w');
}.

Lemma recover_run_law c run w s :
  rs_ok w → ch_closed (notify s) = false → in_flight run = true →
  ∃ n again w' s', recover_run c run (w, s) = Done (n, (w', s')) ∧ (n.1 + n.2)%nat = length again ∧
    run_recovered run again w s w' s'.
Proof.
  intros Hw Ho Hf. unfold recover_run. destruct (mid_execution run) eqn:Hm.
  - destruct (total_update_run c (tr_ID run) TestRunStatusErrored restart_message w) as (r & w' & E).
    destruct (update_run_law _ _ TestRunStatusErrored _ _ _ _ Hw ltac:(done) E) as (Hok & Hvms & Hr).
    destruct (Enqueue_open s (set_tr_VMID "" (set_tr_Status TestRunStatusPending run)) Ho) as (s' & He & Hq).
    assert (Hreq : requeued_run run = set_tr_VMID "" (set_tr_Status TestRunStatusPending run))
      by (unfold requeued_run, mid_execution in *; by destruct (tr_Status run)).
    exists (if is_ok r then (1, 0) else (0, 0))%nat, (if is_ok r then [run] else []), w', (if is_ok r then s' else s).
    assert (Hrun : ∀ k, k = (r ← on_world (rec_UpdateTestRunStatus c (tr_ID run) TestRunStatusErrored restart_message);
      match r with
      | Err _ => mret (0, 0)%nat
      | Ok _ => _ ← on_scheduler (Enqueue (set_tr_VMID "" (set_tr_Status TestRunStatusPending run))); mret (1, 0)%nat
      end) → k (w, s) = Done ((if is_ok r then (1, 0) else (0, 0))%nat, (w', if is_ok r then s' else s))).
    { intros k ->. erewrite M_bind_done by (unfold on_world; by rewrite E). destruct r; [|done]. cbv beta iota.
      by erewrite M_bind_done by (unfold on_scheduler; by rewrite He). }
    split; [unfold mid_execution in Hm; by destruct (tr_Status run); try done; apply Hrun|]. split; [by destruct r|].
    destruct r as [u|e]; split; try done; simpl; [by rewrite Hreq|by left|by right|by apply sched_queued_refl|by right|].
    destruct Hr as [Hr|Hr]; [left; eauto|by right].
  - assert (Est : tr_Status run = TestRunStatusPending) by (unfold in_flight, mid_execution in *; by destruct (tr_Status run)).
    rewrite Est. destruct (Enqueue_open s run Ho) as (s' & He & Hq). exists (0, 1)%nat, [run], w, s'.
    split; [by erewrite M_bind_done by (unfold on_scheduler; by rewrite He)|]. split; [done|].
    split; try done; [|by left|left; eauto]. unfold requeued_run. simpl. by rewrite Est.
Qed.

Lemma run_recovered_row run again w s w' s' :
  run_recovered run again w s w' s' → rs_runs w !! tr_ID run = Some run →
  row_after again run (rs_runs w' !! tr_ID run) ∧ ∀ id, id ≠ tr_ID run → rs_runs w' !! id = rs_runs w !! id.
Proof.
  intros [_ _ _ _ Hrows] Hrun. destruct Hrows as [[-> Ha]|[Hm (r & r' & Hr & -> & Hst & Hsame)]].
  - split; [|done]. left. split; [done|]. intros Hm. destruct Ha as [->|Ha]; [by apply not_elem_of_nil|congruence].
  - split; [right; split; [done|]|intros id Hne; by rewrite lookup_insert_ne]. exists r'. rewrite lookup_insert_eq.
    assert (r = run) as -> by congruence. naive_solver.
Qed.

(** A run that comes later in the list is another run. *)
Lemma row_after_mono again again' run row :
  row_after again run row → (∀ r, r ∈ again' → tr_ID r ≠ tr_ID run) → row_after (again ++ again') run row ∧ row_after (again' ++ again) run row.
Proof.
  intros [[-> Hn]|Hr] Ha; [|by split; right]. split; left; (split; [done|]); intros Hm [Hi|Hi]%elem_of_app;
    first [by apply (Hn Hm) | by apply (Ha run)].
Qed.

Lemma recover_runs_law c runs w s a b :
  rs_ok w → ch_closed (notify s) = false → NoDup (tr_ID <$> runs) →
  (∀ r, r ∈ runs → rs_runs w !! tr_ID r = Some r ∧ in_flight r = true) →
  ∃ n again w' s', recover_runs c runs a b (w, s) = Done (n, (w', s')) ∧ (n.1 + n.2 = a + b + length again)%nat ∧
    rs_ok w' ∧ rs_vms w' = rs_vms w ∧ sched_queued s (requeued_run <$> again) s' ∧ again `sublist_of` runs ∧
    (∀ r, r ∈ runs → mid_execution r = false → r ∈ again) ∧ (∀ r, r ∈ runs → row_after again r (rs_runs w' !! tr_ID r)) ∧
    (∀ id, id ∉ tr_ID <$> runs → rs_runs w' !! id = rs_runs w !! id).
Proof.
  revert w s a b. induction runs as [|r runs IH]; intros w s a b Hw Ho Hnd Hin.
  - exists (a, b), [], w, s. split_and!; [done|simpl; lia|done|done|by apply sched_queued_refl|done| | |done];
      intros r Hr; by apply not_elem_of_nil in Hr.
  - destruct (Hin r ltac:(left)) as [Hr Hf]. destruct (recover_run_law c r w s Hw Ho Hf) as (n & ag & w1 & s1 & E & Hn & Hrec).
    destruct (run_recovered_row _ _ _ _ _ _ Hrec Hr) as [Hrow Hothers]. destruct Hrec as [Hok1 Hv1 Hq1 Hag _].
    rewrite fmap_cons, NoDup_cons in Hnd. destruct Hnd as [Hni Hnd].
    assert (Hne : ∀ r', r' ∈ runs → tr_ID r' ≠ tr_ID r) by (intros r' Hr' He; apply Hni; rewrite <- He; by apply list_elem_of_fmap_2).
    destruct (IH w1 s1 (a + n.1)%nat (b + n.2)%nat Hok1 (sq_open _ _ _ Hq1) Hnd) as
      (n' & ag' & w' & s' & E' & Hn' & Hok' & Hv' & Hq' & Hsub & Hpend & Hrows & Hout).
    { intros r' Hr'. rewrite Hothers by (by apply Hne). by apply Hin; right. }
    assert (Hag1 : ag `sublist_of` [r]) by (destruct Hag as [->|[-> _]]; [done|apply sublist_nil_l]).
    assert (Hagr : ∀ x, x ∈ ag → x = r) by (destruct Hag as [->|[-> _]]; set_solver).
    exists n', (ag ++ ag'), w', s'. split_and!; try done.
    + cbn [recover_runs]. erewrite M_bind_done by exact E. exact E'.
    + rewrite length_app. lia.
    + by rewrite Hv'.
    + rewrite fmap_app. by eapply sched_queued_trans.
    + change (r :: runs) with ([r] ++ runs). by apply sublist_app.
    + intros r' [->|Hr']%elem_of_cons Hm; apply elem_of_app; [left|right; by apply Hpend].
      destruct Hag as [->|[_ Hc]]; [left|congruence].
    + intros r' [->|Hr']%elem_of_cons.
      * rewrite Hout by done. apply (row_after_mono ag ag'); [done|]. intros x Hx. apply Hne. by eapply elem_of_sublist.
      * apply (row_after_mono ag' ag); [by apply Hrows|]. intros x ->%Hagr. by apply not_eq_sym, Hne.
    + intros id Hid. rewrite fmap_cons, not_elem_of_cons in Hid. destruct Hid as [Hid1 Hid2]. by rewrite Hout, Hothers.
Qed.

(** The orphaned VMs: those that were in a transient state may be ERROR now, the rest is as it was. *)
Definition vms_after (m m' : gmap string VMInstance) : Prop :=
  ∀ id, m' !! id = m !! id ∨ ∃ v, m !! id = Some v ∧ transient v = true ∧ m' !! id = Some (set_vm_Status VMStatusError v).

Lemma recover_vm_law c v w s :
  rs_ok w → rs_vms w !! vm_ID v = Some v → transient v = true →
  ∃ n w', recover_vm c v (w, s) = Done (n, (w', s)) ∧ rs_ok w' ∧ rs_runs w' = rs_runs w ∧
    (∀ id, id ≠ vm_ID v → rs_vms w' !! id = rs_vms w !! id) ∧
    (rs_vms w' !! vm_ID v = Some v ∨ rs_vms w' !! vm_ID v = Some (set_vm_Status VMStatusError v)).
Proof.
  intros Hw Hv Ht. unfold recover_vm.
  assert (∃ w1, (if decide (0 < vm_PID v) then k ← on_world (os_SIGKILL (vm_PID v)); mret tt else mret tt) (w, s) = Done (tt, (w1, s)) ∧
    rs_ok w1 ∧ rs_runs w1 = rs_runs w ∧ rs_vms w1 = rs_vms w) as (w1 & E1 & Hok1 & Hr1 & Hv1).
  { case_decide; [|by exists w]. destruct (total_kill (vm_PID v) w) as (r & w1 & E). exists w1.
    split; [by erewrite M_bind_done by (unfold on_world; by rewrite E)|by eapply kill_law]. }
  erewrite M_bind_done by exact E1. destruct (total_update_vm c (vm_ID v) VMStatusError w1) as (r & w' & E).
  destruct (update_vm_law _ _ _ _ _ _ Hok1 E) as (Hok & Hr' & Hvms).
  exists (if is_ok r then 1 else 0)%nat, w'. split; [erewrite M_bind_done by (unfold on_world; by rewrite E); by destruct r|].
  split_and!; [done|congruence|..].
  - intros id Hne. rewrite <- Hv1. destruct r as [u|e]; [|destruct Hvms as [->|Hvms]; [done|]];
      destruct Hvms as (x & _ & ->); by rewrite lookup_insert_ne.
  - rewrite Hv1 in Hvms. destruct r as [u|e]; [right|destruct Hvms as [->|Hvms]; [by left|right]];
      destruct Hvms as (x & Hx & ->); rewrite lookup_insert_eq; congruence.
Qed.

Lemma recover_vms_law c vs w s n :
  rs_ok w → NoDup (vm_ID <$> vs) → (∀ v, v ∈ vs → rs_vms w !! vm_ID v = Some v ∧ transient v = true) →
  ∃ k w', recover_vms c vs n (w, s) = Done (k, (w', s)) ∧ rs_ok w' ∧ rs_runs w' = rs_runs w ∧ vms_after (rs_vms w) (rs_vms w').
Proof.
  revert w n. induction vs as [|v vs IH]; intros w n Hw Hnd Hin; [exists n, w; split_and!; try done; intros id; by left|].
  destruct (Hin v ltac:(left)) as [Hv Ht]. destruct (recover_vm_law c v w s Hw Hv Ht) as (k & w1 & E & Hok & Hr & Hout & Hrow).
  rewrite fmap_cons, NoDup_cons in Hnd. destruct Hnd as [Hni Hnd].
  destruct (IH w1 (n + k)%nat Hok Hnd) as (k' & w' & E' & Hok' & Hr' & Hafter).
  { intros x Hx. rewrite Hout; [by apply Hin; right|]. intros He. apply Hni. rewrite <- He. by apply list_elem_of_fmap_2. }
  exists k', w'. split_and!; [cbn [recover_vms]; erewrite M_bind_done by exact E; exact E'|done|congruence|].
  intros id. destruct (decide (id = vm_ID v)) as [->|Hne].
  - destruct (Hafter (vm_ID v)) as [->|(x & Hx & Htx & ->)]; [destruct Hrow as [->| ->]; [by left|right; eauto]|].
    destruct Hrow as [Hrow|Hrow]; rewrite Hrow in Hx; injection Hx as <-; [right; eauto|]. by rewrite Hv in *.
  - rewrite <- (Hout id Hne). apply Hafter.
Qed.

(** What recovery has done when it answers [r], with the runs it queued again. *)
Definition recovered (w : W) (s : Scheduler) (r : result (nat * nat * nat)) (again : list TestRun) (w' : W) (s' : Scheduler) : Prop :=
  rs_ok w' ∧
  queue s' = queue s ++ (requeued_run <$> again) ∧ NoDup (tr_ID <$> again) ∧
  (∀ run, run ∈ again → rs_runs w !! tr_ID run = Some run ∧ in_flight run = true) ∧
  (∀ id run, rs_runs w !! id = Some run → row_after again run (rs_runs w' !! id)) ∧
  (∀ id, rs_runs w !! id = None → rs_runs w' !! id = None) ∧ vms_after (rs_vms w) (rs_vms w') ∧
  match r with
  | Ok (recovered, requeued, _) => (recovered + requeued = length again)%nat ∧
      ∀ id run, rs_runs w !! id = Some run → tr_Status run = TestRunStatusPending → run ∈ again
  | Err _ => True
  end ∧
  ch_closed (notify s') = false.

Lemma RecoverState_law c w s :
  rs_ok w → ch_closed (notify s) = false → ∃ r again w' s', RecoverState c (w, s) = Done (r, (w', s')) ∧ recovered w s r again w' s'.
Proof.
  unfold recovered.
  intros Hw Ho. destruct (total_list_runs c w) as (r & w1 & E1). destruct (list_runs_law _ _ _ _ Hw E1) as (Hok1 & Hr1 & Hv1 & Hl).
  unfold RecoverState. erewrite M_bind_done by (unfold on_world; by rewrite E1). destruct r as [runs|e].
  2: { eexists _, [], w1, s. split; [done|]. rewrite app_nil_r, Hr1, Hv1. split_and!; try done; [apply NoDup_nil_2| | |by left].
       - intros run Hr. by apply not_elem_of_nil in Hr.
       - intros id run Hr. left. split; [done|]. intros _. apply not_elem_of_nil. }
  destruct Hl as [Hnd Hin]. destruct (recover_runs_law c runs w1 s 0 0 Hok1 Ho Hnd) as
    (n & again & w2 & s2 & E2 & Hn & Hok2 & Hv2 & Hq & Hsub & Hpend & Hrows & Hout); [intros x Hx; rewrite Hr1; by apply Hin|].
  erewrite M_bind_done by exact E2. destruct (total_list_vms c w2) as (o & w3 & E3).
  destruct (list_vms_law _ _ _ _ Hok2 E3) as (Hok3 & Hr3 & Hv3 & Hvl). erewrite M_bind_done by (unfold on_world; by rewrite E3).
  assert (Hag : ∀ run, run ∈ again → rs_runs w !! tr_ID run = Some run ∧ in_flight run = true)
    by (intros run Hr; apply Hin; by eapply elem_of_sublist).
  assert (Hruns : ∀ id run, rs_runs w !! id = Some run → row_after again run (rs_runs w2 !! id)).
  { intros id run Hr. pose proof (run_keys _ _ _ Hw Hr) as <-. destruct (in_flight run) eqn:Hf; [by apply Hrows, Hin|].
    left. rewrite Hout, Hr1; [split; [done|]; intros _ [_ Ha]%Hag; congruence|].
    intros (x & Hx & [Hxr Hxf]%Hin)%list_elem_of_fmap. rewrite <- Hx in Hxr. congruence. }
  assert (Hnone : ∀ id, rs_runs w !! id = None → rs_runs w2 !! id = None).
  { intros id Hi. rewrite Hout, Hr1; [done|]. intros (x & -> & [Hx _]%Hin)%list_elem_of_fmap. congruence. }
  assert (Hndag : NoDup (tr_ID <$> again)) by (eapply sublist_NoDup; [exact Hnd|by apply fmap_sublist]).
  destruct o as [vs|e].
  - destruct Hvl as [Hndv Hinv]. destruct (recover_vms_law c vs w3 s2 0 Hok3 Hndv) as (k & w4 & E4 & Hok4 & Hr4 & Hafter);
      [intros x Hx; rewrite Hv3; by apply Hinv|].
    erewrite M_bind_done by exact E4. exists (Ok (n.1, n.2, k)), again, w4, s2. rewrite Hr4, Hr3, Hv3, Hv2, Hv1 in *.
    split_and!; try done; [apply Hq| |apply Hq]. intros id run Hr Hst. apply Hpend; [apply Hin|unfold mid_execution; by rewrite Hst].
    rewrite (run_keys _ _ _ Hw Hr). split; [done|]. unfold in_flight. by rewrite Hst.
  - eexists _, again, w3, s2. split; [done|]. rewrite Hr3, Hv3, Hv2, Hv1. split_and!; try done; [apply Hq|by left|apply Hq].
Qed.

(** C14: for any store that keeps the contract, also one that fails on some
    calls, [RecoverState] returns; the runs it queues again are runs of the
    store that were in flight, each once, the interrupted ones reset to
    PENDING and detached from their VM; a run that is queued again from the
    middle of an execution is ERRORED in the store, one that is not keeps its
    row or is ERRORED, and every other row stays as it was; only VMs in a
    transient state are marked; and when it succeeds, its counts are those of
    the runs it queued, and every PENDING run is among them. *)
Theorem recovery_sound c w s :
  rs_ok w → ch_closed (notify s) = false →
  ∃ r again w' s', RecoverState c (w, s) = Done (r, (w', s')) ∧ rs_ok w' ∧
    queue s' = queue s ++ (requeued_run <$> again) ∧ NoDup (tr_ID <$> again) ∧
    (∀ run, run ∈ again → rs_runs w !! tr_ID run = Some run ∧ in_flight run = true) ∧
    (∀ id run, rs_runs w !! id = Some run → row_after again run (rs_runs w' !! id)) ∧
    (∀ id, rs_runs w !! id = None → rs_runs w' !! id = None) ∧ vms_after (rs_vms w) (rs_vms w') ∧
    match r with
    | Ok (recovered, requeued, _) => (recovered + requeued = length again)%nat ∧
        ∀ id run, rs_runs w !! id = Some run → tr_Status run = TestRunStatusPending → run ∈ again
    | Err _ => True
    end.
Proof.
  intros Hw Ho. destruct (RecoverState_law c w s Hw Ho) as (r & again & w' & s' & E & Hok & Hq & Hnd & Hag & Hrows & Hnone & Hvms & Hr & _).
  exists r, again, w', s'. by split_and!.
Qed.

End recover.

(** ** The in-memory store *)

Global Instance mem_recoverable : RecoverableStore mem_world := {|
  rs_ok w := ∃ n, store_inv n (mw_store w);
  rs_runs w := testRuns (mw_store w);
  rs_vms w := vms (mw_store w);
|}.

Lemma update_run_inv n m now id st msg :
  store_inv n m → st ≠ TestRunStatusUnset → store_inv n (MemoryStore.UpdateTestRunStatus now id st msg m).2.
Proof.
  intros [Hc Hr Hs Hv] Hst. unfold MemoryStore.UpdateTestRunStatus. destruct (testRuns m !! id) as [run|] eqn:E; [|done].
  split; simpl; [done| |done..]. intros id' r [[<- <-]|[_ Hid]]%lookup_insert_Some; [|by apply Hr].
  destruct (Hr _ _ E) as (? & ? & ?). by rewrite update_run_ID, update_run_Status.
Qed.

Lemma update_vm_inv n m id st : store_inv n m → store_inv n (UpdateVMStatus id st m).2.
Proof.
  intros [Hc Hr Hs Hv]. unfold UpdateVMStatus. destruct (vms m !! id) as [v|] eqn:E; [|done].
  split; simpl; [done..|]. intros id' x [[<- <-]|[_ Hid]]%lookup_insert_Some; [by apply (Hv id v)|by apply Hv].
Qed.

(** The in-memory store keeps the contract. *)
Lemma memory_keeps_contract v alive :
  visits_ok v → @RecoverableLaws mem_world (mem_recovery v) (mem_processes alive) mem_recoverable.
Proof.
  intros [Hvr Hvv]. split.
  - intros c w. simpl. eauto.
  - intros c id st msg w. simpl. unfold on_store. destruct (MemoryStore.UpdateTestRunStatus _ _ _ _ _). eauto.
  - intros c w. simpl. eauto.
  - intros c id st w. simpl. unfold on_store. destruct (UpdateVMStatus _ _ _). eauto.
  - intros pid w. simpl. eauto.
  - intros w id run [n Hn] Hr. by destruct (si_runs _ _ Hn _ _ Hr).
  - intros c w r w' [n Hn] [= <- <-]. simpl. destruct (listed_runs n _ _ Hn (Hvr _)) as [Hin Hnd]. eauto 10.
  - intros c id st msg w r w' [n Hn] Hst. simpl. unfold on_store. pose proof (update_run_inv n _ (mw_now w) id st msg Hn Hst) as Hinv.
    unfold MemoryStore.UpdateTestRunStatus in *. destruct (testRuns (mw_store w) !! id) as [run|] eqn:E; intros [= <- <-]; simpl in *;
      (split; [eauto|]); (split; [done|]); [|by left]. exists run, (update_run (mw_now w) st msg run).
    rewrite update_run_ID, update_run_Status. split_and!; [done..| |]; by destruct st.
  - intros c w r w' [n Hn] [= <- <-]. simpl. destruct (listed_vms n _ _ Hn (Hvv _)) as [Hin Hnd]. eauto 10.
  - intros c id st w r w' [n Hn]. simpl. unfold on_store. pose proof (update_vm_inv n _ id st Hn) as Hinv.
    unfold UpdateVMStatus in *. destruct (vms (mw_store w) !! id) as [x|] eqn:E; intros [= <- <-]; simpl in *;
      (split; [eauto|]); (split; [done|]); [|by left]. by exists x.
  - intros pid w r w' Hn [= <- <-]. done.
Qed.

Lemma recovery_sound_witness :
  ∃ r again w' s', RecoverMemory key_visits (λ _, Ok tt) Background (mkMemWorld (store_run crash_ops) 9 [], NewScheduler 2)
      = Done (r, (w', s')) ∧ queue s' = requeued_run <$> again.
Proof.
  destruct (@recovery_sound mem_world _ _ _ (memory_keeps_contract key_visits (λ _, Ok tt) key_visits_ok) Background
    (mkMemWorld (store_run crash_ops) 9 []) (NewScheduler 2)) as (r & again & w' & s' & E & _ & Hq & _).
  - exists (Z.of_nat (length crash_ops)). apply store_run_inv; [apply crash_ops_ok|by vm_compute].
  - done.
  - exists r, again, w', s'. split; [exact E|exact Hq].
Defined.
