(* ===== verification/Config.v ===== *)
(** * Configuration ([config/types.go], [config/loader.go])

    The configuration structures, their validation, the lookup of a device
    and the PostgreSQL connection string. *)
From stdpp Require Import options.
From S2P Require Import Prelude GoStd.
Open Scope string_scope.
Open Scope list_scope.
Open Scope Z_scope.

Record ServerConfig : Type := mkServerConfig {
  srv_GRPCPort : Z;
  srv_RESTPort : Z;
  srv_Host : string;
}.

Record QEMUConfig : Type := mkQEMUConfig {
  qemu_BinaryPath : string;
  qemu_DataDir : string;
  qemu_KernelPath : string;
  qemu_RootFSPath : string;
  qemu_ShareDir : string;
  qemu_GuestMount : string;
  qemu_DefaultMemoryMB : Z;
  qemu_DefaultCPUs : Z;
  qemu_VMImageDir : string;
  qemu_SocketDir : string;
  qemu_SerialSocketDir : string;
}.

Record PostgresConfig : Type := mkPostgresConfig {
  pg_Host : string;
  pg_Port : Z;
  pg_User : string;
  pg_Password : string;
  pg_Database : string;
  pg_MaxConnections : Z;
  pg_SSLMode : string;
}.

Record VMDefaultsConfig : Type := mkVMDefaultsConfig {
  vmd_BootTimeoutSeconds : Z;
  vmd_HeartbeatIntervalSeconds : Z;
  vmd_HeartbeatTimeoutSeconds : Z;
  vmd_TestTimeoutSeconds : Z;
  vmd_MaxConcurrentVMs : Z;
}.

Record ClusterConfig : Type := mkClusterConfig {
  cl_NodeID : string;
  cl_NodeRole : string;
  cl_HeartbeatIntervalSec : Z;
  cl_NodeHeartbeatTTLSec : Z;
  cl_HostCPUs : Z;
  cl_HostMemMB : Z;
}.

Record FPGAConfig : Type := mkFPGAConfig {
  fpga_VFIOGroupPath : string;
  fpga_IOMMUEnabled : bool;
  fpga_PCIAddresses : list string;
}.

Record RedisConfig : Type := mkRedisConfig {
  redis_Host : string;
  redis_Port : Z;
  redis_Password : string;
  redis_DB : Z;
  redis_PoolSize : Z;
}.

Record ObjectStoreConfig : Type := mkObjectStoreConfig {
  os_Endpoint : string;
  os_AccessKey : string;
  os_SecretKey : string;
  os_Bucket : string;
  os_UseSSL : bool;
}.

Record StorageConfig : Type := mkStorageConfig {
  st_Postgres : PostgresConfig;
  st_Redis : RedisConfig;
  st_ObjectStore : ObjectStoreConfig;
}.

Record TelemetryConfig : Type := mkTelemetryConfig {
  tel_MetricsPort : Z;
  tel_TraceEndpoint : string;
  tel_LogLevel : string;
  tel_LogFormat : string;
}.

Record GlobalConfig : Type := mkGlobalConfig {
  cfg_Server : ServerConfig;
  cfg_QEMU : QEMUConfig;
  cfg_FPGA : FPGAConfig;
  cfg_Storage : StorageConfig;
  cfg_Telemetry : TelemetryConfig;
  cfg_VMDefaults : VMDefaultsConfig;
  cfg_Cluster : ClusterConfig;
}.

Record BARDef : Type := mkBARDef {
  bar_Type : string;
  bar_SizeBytes : Z;
  bar_Description : string;
}.

Record DeviceEntry : Type := mkDeviceEntry {
  de_ID : string;
  de_Name : string;
  de_VendorID : string;
  de_DeviceID : string;
  de_PCIClass : string;
  de_QEMUDeviceName : string;
  de_DriverModule : string;
  de_DriverPath : string;
  de_DeviceNode : string;
  de_Description : string;
  de_TargetModes : list string;
  de_Capabilities : list string;
  de_BARLayout : gmap string BARDef;
  de_TestSuites : list string;
  de_VishwaEnv : gmap string string;
  de_VishwaLoader : string;
  de_VishwaLibDir : string;
  de_VishwaTestDir : string;
}.

Record DeviceRegistry : Type := mkDeviceRegistry {
  reg_Devices : list DeviceEntry;
}.

(** The zero value of the configuration. *)
Definition global_zero : GlobalConfig :=
  mkGlobalConfig (mkServerConfig 0 0 "") (mkQEMUConfig "" "" "" "" "" "" 0 0 "" "" "") (mkFPGAConfig "" false [])
    (mkStorageConfig (mkPostgresConfig "" 0 "" "" "" 0 "") (mkRedisConfig "" 0 "" 0 0) (mkObjectStoreConfig "" "" "" "" false))
    (mkTelemetryConfig 0 "" "" "") (mkVMDefaultsConfig 0 0 0 0 0) (mkClusterConfig "" "" 0 0 0 0).

(** [DSN]: defaults for the port and the TLS mode, and no escaping. *)
Definition DSN (c : PostgresConfig) : string :=
  let sslMode := if decide (pg_SSLMode c = "") then "disable" else pg_SSLMode c in
  let port := if decide (pg_Port c = 0) then 5432 else pg_Port c in
  "postgres://" +:+ pg_User c +:+ ":" +:+ pg_Password c +:+ "@" +:+ pg_Host c +:+ ":" +:+
    fmt_d port +:+ "/" +:+ pg_Database c +:+ "?sslmode=" +:+ sslMode.

(** [GlobalConfig.validate], which also fills in a default. *)
Definition validate_global (c : GlobalConfig) : result GlobalConfig :=
  if decide (srv_GRPCPort (cfg_Server c) = 0) then Err "server.grpc_port is required"
  else if decide (srv_RESTPort (cfg_Server c) = 0) then Err "server.rest_port is required"
  else if decide (qemu_BinaryPath (cfg_QEMU c) = "") then Err "qemu.binary_path is required"
  else
    let d := cfg_VMDefaults c in
    Ok (mkGlobalConfig (cfg_Server c) (cfg_QEMU c) (cfg_FPGA c) (cfg_Storage c) (cfg_Telemetry c)
      (if decide (vmd_MaxConcurrentVMs d = 0)
       then mkVMDefaultsConfig (vmd_BootTimeoutSeconds d) (vmd_HeartbeatIntervalSeconds d)
              (vmd_HeartbeatTimeoutSeconds d) (vmd_TestTimeoutSeconds d) 5
       else d)
      (cfg_Cluster c)).

(** The loop of [DeviceRegistry.validate] from index [i] on. *)
Fixpoint validate_devices (i : Z) (seen : gset string) (ds : list DeviceEntry) : result unit :=
  match ds with
  | [] => Ok tt
  | d :: ds' =>
    if decide (de_ID d = "") then Err ("device[" +:+ fmt_d i +:+ "].id is required")
    else if decide (de_ID d ∈ seen) then Err ("duplicate device id: " +:+ de_ID d)
    else if decide (de_QEMUDeviceName d = "") then
      Err ("device[" +:+ fmt_d i +:+ "] (" +:+ de_ID d +:+ "): qemu_device_name is required")
    else if decide (de_DriverModule d = "") then
      Err ("device[" +:+ fmt_d i +:+ "] (" +:+ de_ID d +:+ "): driver_module is required")
    else validate_devices (i + 1) ({[de_ID d]} ∪ seen) ds'
  end.

Definition validate_registry (r : DeviceRegistry) : result unit :=
  if decide (length (reg_Devices r) = 0%nat)
  then Err "device registry is empty — at least one device is required"
  else validate_devices 0 ∅ (reg_Devices r).

Fixpoint find_device (id : string) (ds : list DeviceEntry) : result DeviceEntry :=
  match ds with
  | [] => Err ("device " +:+ fmt_q id +:+ " not found in registry")
  | d :: ds' => if decide (de_ID d = id) then Ok d else find_device id ds'
  end.

Definition FindDevice (r : DeviceRegistry) (id : string) : result DeviceEntry :=
  find_device id (reg_Devices r).

(** ** Lemmas *)

(** What validation asks of one device. *)
Definition device_ok (d : DeviceEntry) : Prop :=
  de_ID d ≠ "" ∧ de_QEMUDeviceName d ≠ "" ∧ de_DriverModule d ≠ "".

Lemma validate_devices_ok i seen ds :
  validate_devices i seen ds = Ok tt ↔
  Forall device_ok ds ∧ NoDup (de_ID <$> ds) ∧ (∀ d, d ∈ ds → de_ID d ∉ seen).
Proof.
  revert i seen. induction ds as [|d ds IH]; intros i seen; csimpl.
  { split; [|done]. intros _. split_and!; [constructor|constructor|]. set_solver. }
  rewrite Forall_cons, NoDup_cons. unfold device_ok at 1.
  repeat (case_decide; [naive_solver set_solver|]).
  rewrite IH, list_elem_of_fmap. split.
  - intros (Hf & Hnd & Hseen). split_and!; try done.
    + intros (d' & Heq & Hd'). apply (Hseen d' Hd'). set_solver.
    + intros d' [->|Hd']%elem_of_cons; [done|]. specialize (Hseen d' Hd'). set_solver.
  - intros ([_ Hf] & [Hni Hnd] & Hseen). split_and!; [done..|].
    intros d' Hd'. apply not_elem_of_union. split.
    + rewrite not_elem_of_singleton. intros Heq. apply Hni. eauto.
    + apply Hseen. by right.
Qed.

Lemma find_device_spec id ds d :
  NoDup (de_ID <$> ds) → find_device id ds = Ok d ↔ d ∈ ds ∧ de_ID d = id.
Proof.
  induction ds as [|d' ds IH]; csimpl; intros Hnd; [set_solver|].
  apply NoDup_cons in Hnd as [Hni Hnd]. case_decide as Hid.
  - split; [intros [= <-]; split; [left|done]|]. intros [[->|Hd]%elem_of_cons Heq]; [done|].
    exfalso. apply Hni. rewrite Hid, <- Heq. by apply list_elem_of_fmap_2.
  - rewrite IH by done. rewrite elem_of_cons. naive_solver.
Qed.

(** ** Properties *)

(** The registry is accepted exactly when it has a device, every device
    has an identifier, a QEMU device name and a driver module, and no two
    devices share an identifier; in an accepted registry [FindDevice] finds
    the one device with the identifier, and fails exactly for identifiers no
    device has. *)
Theorem registry_validated_lookup r :
  (validate_registry r = Ok tt ↔
     reg_Devices r ≠ [] ∧ Forall device_ok (reg_Devices r) ∧ NoDup (de_ID <$> reg_Devices r)) ∧
  (validate_registry r = Ok tt → ∀ id,
     (∀ d, FindDevice r id = Ok d ↔ d ∈ reg_Devices r ∧ de_ID d = id) ∧
     (FindDevice r id = Err ("device " +:+ fmt_q id +:+ " not found in registry") ↔
        id ∉ de_ID <$> reg_Devices r)).
Proof.
  assert (Hok : validate_registry r = Ok tt ↔
    reg_Devices r ≠ [] ∧ Forall device_ok (reg_Devices r) ∧ NoDup (de_ID <$> reg_Devices r)).
  { unfold validate_registry. case_decide as Hl.
    - apply nil_length_inv in Hl. rewrite Hl. naive_solver.
    - rewrite validate_devices_ok. assert (reg_Devices r ≠ []) by (by intros E; rewrite E in Hl).
      set_solver. }
  split; [done|]. intros (_ & _ & Hnd)%Hok id. unfold FindDevice. split.
  - intros d. by apply find_device_spec.
  - clear Hnd Hok. induction (reg_Devices r) as [|d ds IH]; csimpl; [set_solver|].
    rewrite not_elem_of_cons. case_decide as Hd; [naive_solver|]. rewrite IH. naive_solver.
Qed.

(** [validate_global] accepts exactly the configurations with both ports
    and a QEMU binary; an accepted one has a concurrency limit that is not
    zero, and validating it again changes nothing. *)
Theorem validate_global_spec c :
  (is_ok (validate_global c) = true ↔
     srv_GRPCPort (cfg_Server c) ≠ 0 ∧ srv_RESTPort (cfg_Server c) ≠ 0 ∧
     qemu_BinaryPath (cfg_QEMU c) ≠ "") ∧
  (∀ c', validate_global c = Ok c' →
     vmd_MaxConcurrentVMs (cfg_VMDefaults c') ≠ 0 ∧ validate_global c' = Ok c').
Proof.
  unfold validate_global. repeat (case_decide; [naive_solver|]). split; [done|].
  intros c' [= <-]. simpl. repeat (case_decide; try done).
Qed.

(** The connection string does not escape its parts: two configurations
    that differ in password and host give the same string, so the string does
    not determine what it was built from. *)
Theorem DSN_ambiguous : ∃ c c',
  pg_Password c ≠ pg_Password c' ∧ pg_Host c ≠ pg_Host c' ∧ DSN c = DSN c'.
Proof.
  exists (mkPostgresConfig "db" 0 "dvf" "p@w" "dvf" 0 ""),
         (mkPostgresConfig "w@db" 0 "dvf" "p" "dvf" 0 "").
  split_and!; by vm_compute.
Qed.
