(* ===== verification/Cluster.v ===== *)
(** * The cluster's node registry ([cluster/node.go], [cluster/registry.go])

    Every method holds [r.mu] throughout, so a method is one atomic function
    of the registry; [now] is the value of [time.Now().UTC()] and [ord] the
    order of a visit of the map of nodes.  The [*Node] pointers never leave
    the registry: the methods hand out copies. *)
From stdpp Require Import options.
From S2P Require Import Prelude.
Open Scope string_scope.
Open Scope list_scope.
Open Scope Z_scope.

Inductive NodeRole : Set :=
| NodeRoleLeader
| NodeRoleWorker
| NodeRoleOther (role : string).

Inductive NodeStatus : Set :=
| NodeStatusHealthy
| NodeStatusDegraded
| NodeStatusOffline
| NodeStatusUnset.

Global Instance NodeStatus_eq_dec : EqDecision NodeStatus.
Proof. solve_decision. Defined.

Record Node : Type := mkNode {
  nd_ID : string;
  nd_Hostname : string;
  nd_GRPCAddr : string;
  nd_Role : NodeRole;
  nd_TotalCPUs : Z;
  nd_TotalMemMB : Z;
  nd_UsedCPUs : Z;
  nd_UsedMemMB : Z;
  nd_LastSeen : Z;
  nd_Status : NodeStatus;
  nd_Version : string;
}.

Record HeartbeatRequest : Type := mkHeartbeatRequest {
  hb_NodeID : string;
  hb_Hostname : string;
  hb_GRPCAddr : string;
  hb_Role : NodeRole;
  hb_TotalCPUs : Z;
  hb_TotalMemMB : Z;
  hb_UsedCPUs : Z;
  hb_UsedMemMB : Z;
  hb_Version : string;
}.

Record NodeRegistry : Type := mkNodeRegistry {
  nodes : gmap string Node;
  heartbeatTTL : Z;
}.

Definition NewNodeRegistry (ttl : Z) : NodeRegistry :=
  mkNodeRegistry ∅ (if decide (ttl ≤ 0) then 30 * 1000000000 else ttl).

(** [Register]: every field but the identifier is overwritten. *)
Definition Register (now : Z) (req : HeartbeatRequest) (r : NodeRegistry) : NodeRegistry :=
  let id := match nodes r !! hb_NodeID req with
            | Some existing => nd_ID existing
            | None => hb_NodeID req
            end in
  mkNodeRegistry
    (<[hb_NodeID req :=
        mkNode id (hb_Hostname req) (hb_GRPCAddr req) (hb_Role req)
          (hb_TotalCPUs req) (hb_TotalMemMB req) (hb_UsedCPUs req) (hb_UsedMemMB req)
          now NodeStatusHealthy (hb_Version req)]> (nodes r))
    (heartbeatTTL r).

Definition set_seen (now : Z) (st : NodeStatus) (n : Node) : Node :=
  mkNode (nd_ID n) (nd_Hostname n) (nd_GRPCAddr n) (nd_Role n) (nd_TotalCPUs n)
    (nd_TotalMemMB n) (nd_UsedCPUs n) (nd_UsedMemMB n) now st (nd_Version n).

Definition Heartbeat (now : Z) (nodeID : string) (r : NodeRegistry) : bool * NodeRegistry :=
  match nodes r !! nodeID with
  | None => (false, r)
  | Some n =>
    (true, mkNodeRegistry (<[nodeID := set_seen now NodeStatusHealthy n]> (nodes r)) (heartbeatTTL r))
  end.

Definition List_nodes (ord : list string) (r : NodeRegistry) : list Node :=
  (map_range (nodes r) ord).*2.

Definition ListHealthy (ord : list string) (r : NodeRegistry) : list Node :=
  filter (λ n, nd_Status n ≠ NodeStatusOffline) (map_range (nodes r) ord).*2.

Definition Get (nodeID : string) (r : NodeRegistry) : option Node := nodes r !! nodeID.

(** [now.Sub(n.LastSeen)], which saturates. *)
Definition age (now : Z) (n : Node) : Z :=
  Z.max min_int64 (Z.min max_int64 (now - nd_LastSeen n)).

Definition stale (now ttl : Z) (n : Node) : bool :=
  bool_decide (nd_Status n ≠ NodeStatusOffline) && bool_decide (ttl < age now n).

(** The loop of [Evict] over the nodes in the order of the visit. *)
Fixpoint evict_loop (now ttl : Z) (ord : list string) (ns : gmap string Node) (evicted : Z) :
    Z * gmap string Node :=
  match ord with
  | [] => (evicted, ns)
  | k :: ord' =>
    match ns !! k with
    | Some n =>
      if stale now ttl n
      then evict_loop now ttl ord'
             (<[k := set_seen (nd_LastSeen n) NodeStatusOffline n]> ns) (evicted + 1)
      else evict_loop now ttl ord' ns evicted
    | None => evict_loop now ttl ord' ns evicted
    end
  end.

Definition Evict (ord : list string) (now : Z) (r : NodeRegistry) : Z * NodeRegistry :=
  let '(n, ns) := evict_loop now (heartbeatTTL r) ord (nodes r) 0 in
  (n, mkNodeRegistry ns (heartbeatTTL r)).

(** What the visit of one node adds to the three counts of [Count]. *)
Definition count_node (acc : Z * Z * Z) (n : Node) : Z * Z * Z :=
  let '(healthy, degraded, offline) := acc in
  match nd_Status n with
  | NodeStatusHealthy => (healthy + 1, degraded, offline)
  | NodeStatusDegraded => (healthy, degraded + 1, offline)
  | NodeStatusOffline => (healthy, degraded, offline + 1)
  | NodeStatusUnset => acc
  end.

Definition Count (ord : list string) (r : NodeRegistry) : Z * Z * Z :=
  foldl count_node (0, 0, 0) (map_range (nodes r) ord).*2.

(** ** Histories *)

(** The calls that change the registry, each at its time; an eviction also
    carries its visit of the map. *)
Inductive cluster_op : Type :=
| OpRegister (now : Z) (req : HeartbeatRequest)
| OpHeartbeat (now : Z) (nodeID : string)
| OpEvict (now : Z) (visit : gmap string Node → list string).

Definition op_time (op : cluster_op) : Z :=
  match op with OpRegister t _ | OpHeartbeat t _ | OpEvict t _ => t end.

Definition cluster_step (r : NodeRegistry) (op : cluster_op) : NodeRegistry :=
  match op with
  | OpRegister now req => Register now req r
  | OpHeartbeat now id => (Heartbeat now id r).2
  | OpEvict now visit => (Evict (visit (nodes r)) now r).2
  end.

Definition cluster_run (ttl : Z) (ops : list cluster_op) : NodeRegistry :=
  foldl cluster_step (NewNodeRegistry ttl) ops.

Definition visits_legal (op : cluster_op) : Prop :=
  match op with
  | OpEvict _ visit => ∀ m, iteration_of m (visit m)
  | _ => True
  end.

(** When the registry last heard from the node [id]: a heartbeat from a node
    that never registered does not count. *)
Definition contact (id : string) (acc : option Z) (op : cluster_op) : option Z :=
  match op with
  | OpRegister t req => if decide (hb_NodeID req = id) then Some t else acc
  | OpHeartbeat t id' =>
    if decide (id' = id) then match acc with Some _ => Some t | None => None end else acc
  | OpEvict _ _ => acc
  end.

Definition last_contact (id : string) (ops : list cluster_op) : option Z :=
  foldl (contact id) None ops.

(** The clock does not go back, from [t] on. *)
Fixpoint times_ok (t : Z) (ops : list cluster_op) : Prop :=
  match ops with
  | [] => True
  | op :: ops' => t ≤ op_time op ∧ times_ok (op_time op) ops'
  end.

(** ** Lemmas *)

Definition evicted_node (now ttl : Z) (n : Node) : Node :=
  if stale now ttl n then set_seen (nd_LastSeen n) NodeStatusOffline n else n.

Lemma evict_loop_spec now ttl ord ns e :
  NoDup ord →
  evict_loop now ttl ord ns e =
    (e + Z.of_nat (length (filter (λ kn, stale now ttl kn.2 = true) (map_range ns ord))),
     (evict_loop now ttl ord ns e).2) ∧
  ∀ k, (evict_loop now ttl ord ns e).2 !! k =
    if decide (k ∈ ord) then evicted_node now ttl <$> (ns !! k) else ns !! k.
Proof.
  revert ns e. induction ord as [|k ord IH]; intros ns e Hnd.
  { split; [simpl; f_equal; lia|]. intros k. by rewrite decide_False by apply not_elem_of_nil. }
  apply NoDup_cons in Hnd as [Hni Hnd]. rewrite map_range_cons. cbn [evict_loop].
  destruct (ns !! k) as [n|] eqn:Hk; [destruct (stale now ttl n) eqn:Hs|].
  - set (ns' := <[k := _]> ns). destruct (IH ns' (e + 1) Hnd) as [He Hl]. split.
    + rewrite He, filter_cons, (map_range_ext ns ns'); [cbn [snd]; rewrite decide_True by done; simpl; f_equal; lia|].
      intros x Hx. unfold ns'. apply lookup_insert_ne. by intros ->.
    + intros x. rewrite Hl. unfold ns'. rewrite lookup_insert.
      destruct (decide (k = x)) as [<-|Hne]; [|by rewrite decide_cons_ne].
      rewrite decide_False, decide_True, Hk by (done || left). simpl. unfold evicted_node. by rewrite Hs.
  - destruct (IH ns e Hnd) as [He Hl]. split.
    + rewrite He, filter_cons. simpl. by rewrite decide_False by (by rewrite Hs).
    + intros x. rewrite Hl. destruct (decide (k = x)) as [<-|Hne]; [|by rewrite decide_cons_ne].
      rewrite decide_False, decide_True, Hk by (done || left). simpl. unfold evicted_node. by rewrite Hs.
  - destruct (IH ns e Hnd) as [He Hl]. split; [by rewrite He|].
    intros x. rewrite Hl. destruct (decide (k = x)) as [<-|Hne]; [|by rewrite decide_cons_ne].
    by rewrite decide_False, decide_True, Hk by (done || left).
Qed.

Lemma evict_all now ttl ord ns :
  iteration_of ns ord → (evict_loop now ttl ord ns 0).2 = evicted_node now ttl <$> ns.
Proof.
  intros Hit. apply map_eq. intros k.
  destruct (evict_loop_spec now ttl ord ns 0 (iteration_of_NoDup _ _ Hit)) as [_ ->].
  rewrite lookup_fmap. case_decide as Hk; [done|].
  rewrite (iteration_of_elem ns) in Hk by done.
  apply eq_None_not_Some in Hk. by rewrite Hk.
Qed.

Lemma step_evict_nodes now visit r :
  (∀ m, iteration_of m (visit m)) →
  cluster_step r (OpEvict now visit) =
    mkNodeRegistry (evicted_node now (heartbeatTTL r) <$> nodes r) (heartbeatTTL r).
Proof.
  intros Hv. simpl. unfold Evict.
  pose proof (evict_all now (heartbeatTTL r) (visit (nodes r)) (nodes r) (Hv _)) as H.
  destruct (evict_loop _ _ _ _ _) as [k ns]. simpl in *. by rewrite H.
Qed.

(** The registry at time [t]: the nodes are those that registered, seen when
    they were last heard from; a node is offline only for a reason. *)
Record cluster_inv (ttl t : Z) (seen : string → option Z) (r : NodeRegistry) : Prop := mkClusterInv {
  ci_ttl : heartbeatTTL r = ttl;
  ci_seen : ∀ id, nd_LastSeen <$> (nodes r !! id) = seen id;
  ci_node : ∀ id n, nodes r !! id = Some n →
    nd_ID n = id ∧ nd_LastSeen n ≤ t ∧
    (nd_Status n = NodeStatusHealthy ∨
     nd_Status n = NodeStatusOffline ∧ ttl < t - nd_LastSeen n);
}.

Lemma stale_spec now ttl n :
  0 < ttl < max_int64 → nd_LastSeen n ≤ now →
  stale now ttl n = true ↔ nd_Status n ≠ NodeStatusOffline ∧ ttl < now - nd_LastSeen n.
Proof.
  intros Ht Hl. unfold stale. rewrite andb_true_iff, !bool_decide_eq_true.
  unfold age, min_int64. split; intros [? ?]; split; try done; lia.
Qed.

Lemma cluster_inv_step ttl t seen r op :
  0 < ttl < max_int64 → cluster_inv ttl t seen r → t ≤ op_time op → visits_legal op →
  cluster_inv ttl (op_time op) (λ id, contact id (seen id) op) (cluster_step r op).
Proof.
  intros Httl [Ht Hs Hn] Hle Hv.
  assert (Hn' : ∀ id n, nodes r !! id = Some n →
    nd_ID n = id ∧ nd_LastSeen n ≤ op_time op ∧
    (nd_Status n = NodeStatusHealthy ∨
     nd_Status n = NodeStatusOffline ∧ ttl < op_time op - nd_LastSeen n)).
  { intros id n Hid. destruct (Hn id n Hid) as (? & ? & [?|[? ?]]); (split_and!; [done|lia|]);
      [by left|right; split; [done|lia]]. }
  destruct op as [now req|now id|now visit]; simpl in *.
  - split; simpl; [done| |].
    + intros id. rewrite lookup_insert. by destruct (decide (hb_NodeID req = id)).
    + intros id n [[<- <-]|[_ Hid]]%lookup_insert_Some; [|by apply Hn']. simpl.
      split_and!; [|lia|by left]. destruct (nodes r !! hb_NodeID req) eqn:E; [|done].
      by apply (Hn _ _ E).
  - unfold Heartbeat. destruct (nodes r !! id) as [n|] eqn:E; simpl.
    + split; simpl; [done| |].
      * intros id'. rewrite lookup_insert. destruct (decide (id = id')) as [<-|]; [|done].
        rewrite <- Hs, E. done.
      * intros id' n' [[<- <-]|[_ Hid]]%lookup_insert_Some; [|by apply Hn']. simpl.
        split_and!; [by apply (Hn _ _ E)|lia|by left].
    + split; [done| |done]. intros id'. destruct (decide (id = id')) as [<-|]; [|done].
      rewrite <- Hs, E. done.
  - change (Evict (visit (nodes r)) now r).2 with (cluster_step r (OpEvict now visit)).
    rewrite step_evict_nodes, Ht by done.
    split; simpl; [done| |].
    + intros id. rewrite <- Hs, lookup_fmap. destruct (nodes r !! id) as [n|]; [|done]. simpl.
      unfold evicted_node. by destruct (stale now ttl n).
    + intros id n Hid. rewrite lookup_fmap in Hid. destruct (nodes r !! id) as [n0|] eqn:E0; [|done].
      injection Hid as <-. destruct (Hn' id n0 E0) as (? & ? & Hst).
      unfold evicted_node. destruct (stale now ttl n0) eqn:Hsl; [|done]. simpl.
      apply stale_spec in Hsl as [_ Hsl]; [|done..]. split_and!; [done..|]. by right.
Qed.

Lemma cluster_inv_from ttl seen r ops t0 :
  0 < ttl < max_int64 → cluster_inv ttl t0 seen r → times_ok t0 ops → Forall visits_legal ops →
  ∃ t, (t = t0 ∨ ∃ op, op ∈ ops ∧ t = op_time op) ∧
    cluster_inv ttl t (λ id, foldl (contact id) (seen id) ops) (foldl cluster_step r ops).
Proof.
  intros Httl. revert t0 seen r. induction ops as [|op ops IH]; intros t0 seen r Hinv Htimes Hv.
  { exists t0. split; [by left|done]. }
  destruct Htimes as [Ht Htimes]. apply Forall_cons in Hv as [Hop Hv].
  destruct (IH (op_time op) _ _ (cluster_inv_step _ _ _ _ _ Httl Hinv Ht Hop) Htimes Hv)
    as (t & Hor & Hi).
  exists t. split; [right|done].
  destruct Hor as [->|(op' & Hin & ->)]; [exists op|exists op']; (split; [|done]); [left|by right].
Qed.

Lemma cluster_inv_run ttl ops t0 :
  0 < ttl < max_int64 → times_ok t0 ops → Forall visits_legal ops →
  ∃ t, (t = t0 ∨ ∃ op, op ∈ ops ∧ t = op_time op) ∧
    cluster_inv ttl t (λ id, last_contact id ops) (cluster_run ttl ops).
Proof.
  intros Httl. apply (cluster_inv_from ttl (λ _, None)); [done|].
  split; simpl; [by rewrite decide_False by lia|intros id; by rewrite lookup_empty|].
  intros id n. by rewrite lookup_empty.
Qed.

Lemma times_ok_snoc t0 ops op :
  times_ok t0 (ops ++ [op]) →
  times_ok t0 ops ∧ ∀ t, t = t0 ∨ (∃ op', op' ∈ ops ∧ t = op_time op') → t ≤ op_time op.
Proof.
  revert t0. induction ops as [|op' ops IH]; intros t0; simpl.
  - intros [H _]. split; [done|]. intros t [->|(op' & Hin & _)]; [done|]. by apply not_elem_of_nil in Hin.
  - intros [H1 H2]. destruct (IH _ H2) as [H3 H4]. split; [done|].
    intros t [->|(op'' & [->|Hin]%elem_of_cons & ->)]; [|by apply H4; left|by apply H4; eauto].
    specialize (H4 (op_time op') ltac:(by left)). lia.
Qed.

Lemma evicted_status now ttl t n :
  0 < ttl < max_int64 → nd_LastSeen n ≤ t → t ≤ now →
  nd_Status n = NodeStatusHealthy ∨ nd_Status n = NodeStatusOffline ∧ ttl < t - nd_LastSeen n →
  nd_Status (evicted_node now ttl n) =
    if decide (ttl < now - nd_LastSeen n) then NodeStatusOffline else NodeStatusHealthy.
Proof.
  intros Httl Hl Hle Hst. unfold evicted_node. pose proof (stale_spec now ttl n Httl ltac:(lia)) as Hs.
  destruct (stale now ttl n); simpl.
  - rewrite decide_True; [done|]. by apply Hs.
  - case_decide as Hd; [|destruct Hst as [?|[_ ?]]; [done|lia]].
    destruct Hst as [Hh|[? _]]; [|done]. exfalso.
    assert (false = true) by (apply Hs; split; [congruence|done]). done.
Qed.

Lemma count_healthy (l : list Node) :
  (∀ n, n ∈ l → nd_Status n = NodeStatusHealthy ∨ nd_Status n = NodeStatusOffline) →
  ∃ h o, foldl count_node (0, 0, 0) l = (h, 0, o) ∧ h + o = Z.of_nat (length l) ∧
    h = Z.of_nat (length (filter (λ n, nd_Status n ≠ NodeStatusOffline) l)).
Proof.
  induction l as [|n l IH] using rev_ind; intros Hl; [by exists 0, 0|].
  destruct IH as (h & o & He & Hlen & Hh); [set_solver|].
  rewrite foldl_snoc, He, filter_app, !length_app, filter_cons, filter_nil. simpl.
  destruct (Hl n ltac:(set_solver)) as [Hn|Hn]; rewrite Hn; simpl.
  - exists (h + 1), o. split_and!; [done|lia|lia].
  - exists h, (o + 1). split_and!; [done|lia|lia].
Qed.

(** ** Properties *)

(** C34: whatever registrations, heartbeats and evictions came before, an
    eviction pass at time [now] leaves offline exactly the nodes the registry
    has not heard from for longer than the TTL, and healthy all others; every
    node that ever registered is kept, and no node is ever degraded. *)
Theorem eviction_exact ttl ops now visit t0 :
  0 < ttl < max_int64 → times_ok t0 (ops ++ [OpEvict now visit]) →
  Forall visits_legal (ops ++ [OpEvict now visit]) →
  let r := cluster_run ttl (ops ++ [OpEvict now visit]) in
  ∀ id, match last_contact id ops with
        | None => Get id r = None
        | Some t => ∃ n, Get id r = Some n ∧ nd_ID n = id ∧ nd_LastSeen n = t ∧
            nd_Status n = if decide (ttl < now - t) then NodeStatusOffline else NodeStatusHealthy
        end.
Proof.
  intros Httl [Hops Hle]%times_ok_snoc Hv r id.
  apply Forall_app in Hv as [Hv Hv1]. rewrite Forall_singleton in Hv1.
  destruct (cluster_inv_run ttl ops t0 Httl Hops Hv) as (t & Hor & [Ht Hs Hn]).
  specialize (Hle t Hor). specialize (Hs id). simpl in Hle.
  unfold r, cluster_run. rewrite foldl_snoc. fold (cluster_run ttl ops).
  rewrite step_evict_nodes, Ht by done. unfold Get. simpl. rewrite lookup_fmap.
  destruct (nodes (cluster_run ttl ops) !! id) as [n|] eqn:En; simpl in Hs; rewrite <- Hs; [|done].
  destruct (Hn id n En) as (Hid & Hl & Hst). exists (evicted_node now ttl n).
  split_and!; [done|..|by eapply evicted_status];
    unfold evicted_node; by destruct (stale now ttl n).
Qed.

(** The number [Evict] returns is the number of nodes it took offline,
    and neither it nor the resulting registry depends on the order in which
    the map of nodes is visited. *)
Theorem Evict_count ord ord' now r :
  iteration_of (nodes r) ord → iteration_of (nodes r) ord' →
  Evict ord now r = Evict ord' now r ∧
  (Evict ord now r).1 = Z.of_nat (size (filter (λ kn, stale now (heartbeatTTL r) kn.2 = true) (nodes r))).
Proof.
  intros H1 H2.
  assert (Hev : ∀ o, iteration_of (nodes r) o → Evict o now r =
    (Z.of_nat (size (filter (λ kn, stale now (heartbeatTTL r) kn.2 = true) (nodes r))),
     mkNodeRegistry (evicted_node now (heartbeatTTL r) <$> nodes r) (heartbeatTTL r))).
  { intros o Ho. unfold Evict.
    destruct (evict_loop_spec now (heartbeatTTL r) o (nodes r) 0 (iteration_of_NoDup _ _ Ho)) as [-> _].
    rewrite evict_all by done. f_equal. rewrite Z.add_0_l. f_equal.
    rewrite (map_range_permutation _ _ Ho), <- length_map_to_list.
    by rewrite map_to_list_filter_perm. }
  by rewrite (Hev ord), (Hev ord').
Qed.

(** In every registry a history produces, [Count] counts each node once,
    as healthy or as offline, and never as degraded. *)
Theorem Count_total ttl ops t0 ord :
  0 < ttl < max_int64 → times_ok t0 ops → Forall visits_legal ops →
  let r := cluster_run ttl ops in
  iteration_of (nodes r) ord →
  ∃ h o, Count ord r = (h, 0, o) ∧ h + o = Z.of_nat (size (nodes r)) ∧
    h = Z.of_nat (length (ListHealthy ord r)).
Proof.
  intros Httl Htimes Hv r Hit.
  destruct (cluster_inv_run ttl ops t0 Httl Htimes Hv) as (t & _ & Hinv). fold r in Hinv.
  assert (size (nodes r) = length (map_range (nodes r) ord).*2) as ->.
  { by rewrite length_fmap, (map_range_permutation _ _ Hit), length_map_to_list. }
  apply count_healthy. intros n (k & Hk)%elem_of_values; [|done].
  destruct (ci_node _ _ _ _ Hinv k n Hk) as (_ & _ & [?|[? _]]); auto.
Qed.

(** ** Witnesses *)

Definition worker_beat : HeartbeatRequest :=
  mkHeartbeatRequest "n1" "host" "host:50051" NodeRoleWorker 8 16384 0 0 "v1".

Definition beats : list cluster_op :=
  [OpRegister 0 worker_beat; OpHeartbeat 50 "n1"].

Lemma eviction_exact_witness :
  Get "n1" (cluster_run 100 (beats ++ [OpEvict 151 map_keys])) ≠ None.
Proof.
  pose proof (eviction_exact 100 beats 151 map_keys 0 ltac:(by vm_compute)
    ltac:(by vm_compute) ltac:(repeat constructor; intros m; apply iteration_of_keys) "n1")
    as (n & Hn & _).
  rewrite Hn. done.
Defined.

Lemma Evict_count_witness :
  (Evict (map_keys (nodes (cluster_run 100 beats))) 151 (cluster_run 100 beats)).1 = 1.
Proof.
  destruct (Evict_count (map_keys (nodes (cluster_run 100 beats))) (map_keys (nodes (cluster_run 100 beats)))
    151 (cluster_run 100 beats) (iteration_of_keys _) (iteration_of_keys _)) as [_ H].
  by rewrite H.
Defined.

Lemma Count_total_witness :
  ∃ h o, Count (map_keys (nodes (cluster_run 100 beats))) (cluster_run 100 beats) = (h, 0, o) ∧ h + o = 1.
Proof.
  destruct (Count_total 100 beats 0 (map_keys (nodes (cluster_run 100 beats)))
    ltac:(by vm_compute) ltac:(by vm_compute) ltac:(repeat constructor) (iteration_of_keys _))
    as (h & o & Hc & Hs & _).
  exists h, o. split; [exact Hc|]. rewrite Hs. by vm_compute.
Defined.
