(* ===== verification/AgentCoord.v ===== *)
(** * The agent coordinator ([core/agent_state.go])

    Per-VM command queues and result waiters.  The methods hold the locks
    only for map accesses and then work on the [*agentState] and the channel
    they found, so the model keeps a heap: [agents] maps a VM to the address
    of its state, and a waiter is the address of a result channel.  A method
    is cut where it lets go of a lock or waits on a channel; [coord_step]
    interleaves the parts of any number of calls. *)
From stdpp Require Import options.
From S2P Require Import Prelude GoStd GoChan Types.
Open Scope string_scope.
Open Scope list_scope.
Open Scope nat_scope.

Record agentState : Type := mkAgentState {
  as_vmID : string;
  as_agentID : string;
  as_ready : chan unit;
  as_readyOnce : bool;                 (* whether [readyOnce] has fired *)
  as_commands : chan AgentCommand;
  as_resultWaiters : gmap string nat;  (* command ID to address of the channel *)
}.

Record AgentCoordinator : Type := mkCoord {
  agents : gmap string nat;
  states : gmap nat agentState;
  results : gmap nat (chan AgentResult);
  next_addr : nat;
}.

Definition NewAgentCoordinator : AgentCoordinator := mkCoord ∅ ∅ ∅ 0.

Definition set_commands (c : chan AgentCommand) (s : agentState) : agentState :=
  mkAgentState (as_vmID s) (as_agentID s) (as_ready s) (as_readyOnce s) c (as_resultWaiters s).

Definition set_waiters (ws : gmap string nat) (s : agentState) : agentState :=
  mkAgentState (as_vmID s) (as_agentID s) (as_ready s) (as_readyOnce s) (as_commands s) ws.

Definition set_state (a : nat) (s : agentState) (c : AgentCoordinator) : AgentCoordinator :=
  mkCoord (agents c) (<[a := s]> (states c)) (results c) (next_addr c).

Definition set_result_chan (ch : nat) (q : chan AgentResult) (c : AgentCoordinator) : AgentCoordinator :=
  mkCoord (agents c) (states c) (<[ch := q]> (results c)) (next_addr c).

(** ** The methods and their parts *)

Definition RegisterVM (vmID : string) (c : AgentCoordinator) : AgentCoordinator :=
  let a := next_addr c in
  mkCoord (<[vmID := a]> (agents c))
    (<[a := mkAgentState vmID "" (make_chan 0) false (make_chan 16) ∅]> (states c))
    (results c) (S a).

Definition nil_dereference : string := "invalid memory address or nil pointer dereference".

Definition UnregisterVM (vmID : string) (c : AgentCoordinator) : go AgentCoordinator :=
  match agents c !! vmID with
  | None => Done c
  | Some a =>
    match states c !! a with
    | None => Panics nil_dereference
    | Some s =>
      let? q := chan_close (as_commands s) in
      Done (mkCoord (delete vmID (agents c)) (<[a := set_commands q s]> (states c))
        (results c) (next_addr c))
    end
  end.

(** The lookup under [ac.mu] every other method starts with. *)
Definition lookup_agent (vmID : string) (c : AgentCoordinator) : result nat :=
  match agents c !! vmID with
  | None => Err ("no agent state for VM " +:+ vmID)
  | Some a => Ok a
  end.

(** [NotifyAgentReady] past the lookup. *)
Definition notify_ready (a : nat) (agentID : string) (c : AgentCoordinator) : go AgentCoordinator :=
  match states c !! a with
  | None => Panics nil_dereference
  | Some s =>
    if as_readyOnce s
    then Done (set_state a (mkAgentState (as_vmID s) agentID (as_ready s) true
                 (as_commands s) (as_resultWaiters s)) c)
    else
      let? q := chan_close (as_ready s) in
      Done (set_state a (mkAgentState (as_vmID s) agentID q true
              (as_commands s) (as_resultWaiters s)) c)
  end.

Definition NotifyAgentReady (vmID agentID : string) (c : AgentCoordinator) :
    go (result unit * AgentCoordinator) :=
  match lookup_agent vmID c with
  | Err e => Done (Err e, c)
  | Ok a => let? c' := notify_ready a agentID c in Done (Ok tt, c')
  end.

(** The select of [WaitForAgent]: whether [<-state.ready] can proceed. *)
Definition agent_ready (a : nat) (c : AgentCoordinator) : bool :=
  match states c !! a with
  | Some s => ch_closed (as_ready s)
  | None => false
  end.

Definition wait_error (vmID ctxErr : string) : string :=
  "waiting for agent in VM " +:+ vmID +:+ ": " +:+ ctxErr.

(** [SendCommand]: the waiter channel is made and put into the map. *)
Definition add_waiter (a : nat) (cmdID : string) (c : AgentCoordinator) : go (nat * AgentCoordinator) :=
  match states c !! a with
  | None => Panics nil_dereference
  | Some s =>
    let ch := next_addr c in
    Done (ch, mkCoord (agents c)
      (<[a := set_waiters (<[cmdID := ch]> (as_resultWaiters s)) s]> (states c))
      (<[ch := make_chan 1]> (results c)) (S ch))
  end.

(** The deferred function of [SendCommand]. *)
Definition delete_waiter (a : nat) (cmdID : string) (c : AgentCoordinator) : AgentCoordinator :=
  match states c !! a with
  | None => c
  | Some s => set_state a (set_waiters (delete cmdID (as_resultWaiters s)) s) c
  end.

(** [state.commands <- cmd] *)
Definition push_command (a : nat) (cmd : AgentCommand) (c : AgentCoordinator) : send_result AgentCommand :=
  match states c !! a with
  | None => SendPanics
  | Some s => chan_send (as_commands s) cmd
  end.

(** [result := <-resultCh] *)
Definition pop_result (ch : nat) (c : AgentCoordinator) : recv_result AgentResult :=
  match results c !! ch with
  | None => RecvBlocks
  | Some q => chan_recv q
  end.

(** [cmd, ok := <-state.commands] *)
Definition pop_command (a : nat) (c : AgentCoordinator) : recv_result AgentCommand :=
  match states c !! a with
  | None => RecvBlocks
  | Some s => chan_recv (as_commands s)
  end.

(** [DeliverResult]: the lookup of the waiter under [state.mu]. *)
Definition find_waiter (vmID : string) (a : nat) (cmdID : string) (c : AgentCoordinator) : result nat :=
  match states c !! a ≫= λ s, as_resultWaiters s !! cmdID with
  | None => Err ("no waiter for command " +:+ cmdID +:+ " in VM " +:+ vmID)
  | Some ch => Ok ch
  end.

(** [waiter <- result] *)
Definition push_result (ch : nat) (r : AgentResult) (c : AgentCoordinator) : send_result AgentResult :=
  match results c !! ch with
  | None => SendBlocks
  | Some q => chan_send q r
  end.

Definition deliver_timeout (cmdID : string) : string :=
  "timeout delivering result for command " +:+ cmdID.

(** ** Calls among goroutines *)

(** Where a call stands. *)
Inductive send_pc : Type :=
| SendLookup
| SendAddWaiter (a : nat)
| SendPush (a ch : nat)
| SendWait (a ch : nat)
| SendCleanup (a : nat) (res : result AgentResult)
| SendReturned (res : result AgentResult).

Inductive get_pc : Type :=
| GetLookup
| GetWait (a : nat)
| GetReturned (res : result AgentCommand).

Inductive deliver_pc : Type :=
| DeliverLookup
| DeliverFind (a : nat)
| DeliverPush (ch : nat)
| DeliverReturned (res : result unit).

Inductive wait_pc : Type :=
| WaitLookup
| WaitSelect (a : nat)
| WaitReturned (res : result unit).

Inductive call : Type :=
| CallSendCommand (vmID : string) (cmd : AgentCommand) (pc : send_pc)
| CallGetNextCommand (vmID : string) (pc : get_pc)
| CallDeliverResult (vmID : string) (r : AgentResult) (pc : deliver_pc)
| CallWaitForAgent (vmID : string) (pc : wait_pc).

(** What a step adds to the history. *)
Inductive coord_event : Type :=
| EvNone
| EvWaiter (ch : nat) (vmID cmdID : string)   (* a result channel was made *)
| EvSent (a : nat) (cmd : AgentCommand)
| EvTaken (a : nat) (cmd : AgentCommand)
| EvDelivered (vmID : string) (r : AgentResult).

(** One step of a call.  A context can be done at any time, with any error;
    the five seconds of [DeliverResult] can be over at any time. *)
Inductive call_step : call → AgentCoordinator → coord_event → call → AgentCoordinator → Prop :=
| send_lookup_ok vm cmd c a :
    lookup_agent vm c = Ok a →
    call_step (CallSendCommand vm cmd SendLookup) c EvNone (CallSendCommand vm cmd (SendAddWaiter a)) c
| send_lookup_err vm cmd c e :
    lookup_agent vm c = Err e →
    call_step (CallSendCommand vm cmd SendLookup) c EvNone (CallSendCommand vm cmd (SendReturned (Err e))) c
| send_add_waiter vm cmd c a ch c' :
    add_waiter a (ac_ID cmd) c = Done (ch, c') →
    call_step (CallSendCommand vm cmd (SendAddWaiter a)) c (EvWaiter ch vm (ac_ID cmd))
      (CallSendCommand vm cmd (SendPush a ch)) c'
| send_push vm cmd c a ch s q :
    states c !! a = Some s → push_command a cmd c = Sent q →
    call_step (CallSendCommand vm cmd (SendPush a ch)) c (EvSent a cmd)
      (CallSendCommand vm cmd (SendWait a ch)) (set_state a (set_commands q s) c)
| send_push_done vm cmd c a ch e :
    call_step (CallSendCommand vm cmd (SendPush a ch)) c EvNone
      (CallSendCommand vm cmd (SendCleanup a (Err e))) c
| send_receive vm cmd c a ch r q :
    pop_result ch c = Received r q →
    call_step (CallSendCommand vm cmd (SendWait a ch)) c EvNone
      (CallSendCommand vm cmd (SendCleanup a (Ok r))) (set_result_chan ch q c)
| send_wait_done vm cmd c a ch e :
    call_step (CallSendCommand vm cmd (SendWait a ch)) c EvNone
      (CallSendCommand vm cmd (SendCleanup a (Err e))) c
| send_cleanup vm cmd c a res :
    call_step (CallSendCommand vm cmd (SendCleanup a res)) c EvNone
      (CallSendCommand vm cmd (SendReturned res)) (delete_waiter a (ac_ID cmd) c)
| get_lookup_ok vm c a :
    lookup_agent vm c = Ok a →
    call_step (CallGetNextCommand vm GetLookup) c EvNone (CallGetNextCommand vm (GetWait a)) c
| get_lookup_err vm c e :
    lookup_agent vm c = Err e →
    call_step (CallGetNextCommand vm GetLookup) c EvNone (CallGetNextCommand vm (GetReturned (Err e))) c
| get_receive vm c a s cmd q :
    states c !! a = Some s → pop_command a c = Received cmd q →
    call_step (CallGetNextCommand vm (GetWait a)) c (EvTaken a cmd)
      (CallGetNextCommand vm (GetReturned (Ok cmd))) (set_state a (set_commands q s) c)
| get_closed vm c a :
    pop_command a c = RecvClosed →
    call_step (CallGetNextCommand vm (GetWait a)) c EvNone
      (CallGetNextCommand vm (GetReturned (Err ("command channel closed for VM " +:+ vm)))) c
| get_done vm c a e :
    call_step (CallGetNextCommand vm (GetWait a)) c EvNone
      (CallGetNextCommand vm (GetReturned (Err e))) c
| deliver_lookup_ok vm r c a :
    lookup_agent vm c = Ok a →
    call_step (CallDeliverResult vm r DeliverLookup) c EvNone (CallDeliverResult vm r (DeliverFind a)) c
| deliver_lookup_err vm r c e :
    lookup_agent vm c = Err e →
    call_step (CallDeliverResult vm r DeliverLookup) c EvNone
      (CallDeliverResult vm r (DeliverReturned (Err e))) c
| deliver_find_ok vm r c a ch :
    find_waiter vm a (ar_CommandID r) c = Ok ch →
    call_step (CallDeliverResult vm r (DeliverFind a)) c EvNone (CallDeliverResult vm r (DeliverPush ch)) c
| deliver_find_err vm r c a e :
    find_waiter vm a (ar_CommandID r) c = Err e →
    call_step (CallDeliverResult vm r (DeliverFind a)) c EvNone
      (CallDeliverResult vm r (DeliverReturned (Err e))) c
| deliver_push vm r c ch q :
    push_result ch r c = Sent q →
    call_step (CallDeliverResult vm r (DeliverPush ch)) c (EvDelivered vm r)
      (CallDeliverResult vm r (DeliverReturned (Ok tt))) (set_result_chan ch q c)
| deliver_late vm r c ch :
    call_step (CallDeliverResult vm r (DeliverPush ch)) c EvNone
      (CallDeliverResult vm r (DeliverReturned (Err (deliver_timeout (ar_CommandID r))))) c
| wait_lookup_ok vm c a :
    lookup_agent vm c = Ok a →
    call_step (CallWaitForAgent vm WaitLookup) c EvNone (CallWaitForAgent vm (WaitSelect a)) c
| wait_lookup_err vm c e :
    lookup_agent vm c = Err e →
    call_step (CallWaitForAgent vm WaitLookup) c EvNone (CallWaitForAgent vm (WaitReturned (Err e))) c
| wait_ready vm c a :
    agent_ready a c = true →
    call_step (CallWaitForAgent vm (WaitSelect a)) c EvNone (CallWaitForAgent vm (WaitReturned (Ok tt))) c
| wait_done vm c a e :
    call_step (CallWaitForAgent vm (WaitSelect a)) c EvNone
      (CallWaitForAgent vm (WaitReturned (Err (wait_error vm e)))) c.

(** The panic of a call: the send on a command channel that was closed. *)
Definition call_panics (k : call) (c : AgentCoordinator) : Prop :=
  match k with
  | CallSendCommand _ cmd (SendPush a _) => push_command a cmd c = SendPanics
  | _ => False
  end.

(** The calls in progress, by goroutine, with the history. *)
Record coord_sys : Type := mkCoordSys {
  cs_coord : AgentCoordinator;
  cs_calls : gmap nat call;
  cs_trace : list coord_event;
}.

Definition initial (k : call) : Prop :=
  match k with
  | CallSendCommand _ _ SendLookup | CallGetNextCommand _ GetLookup
  | CallDeliverResult _ _ DeliverLookup | CallWaitForAgent _ WaitLookup => True
  | _ => False
  end.

(** The lookup of [NotifyAgentReady] may have been made at any earlier time,
    so it acts on any state that was ever registered. *)
Inductive coord_step : coord_sys → coord_sys → Prop :=
| step_call c ks tr g k k' e c' :
    ks !! g = Some k → call_step k c e k' c' →
    coord_step (mkCoordSys c ks tr) (mkCoordSys c' (<[g := k']> ks) (tr ++ [e]))
| step_start c ks tr g k :
    ks !! g = None → initial k →
    coord_step (mkCoordSys c ks tr) (mkCoordSys c (<[g := k]> ks) tr)
| step_register c ks tr vm :
    coord_step (mkCoordSys c ks tr) (mkCoordSys (RegisterVM vm c) ks tr)
| step_unregister c ks tr vm c' :
    UnregisterVM vm c = Done c' →
    coord_step (mkCoordSys c ks tr) (mkCoordSys c' ks tr)
| step_notify c ks tr a id c' :
    notify_ready a id c = Done c' →
    coord_step (mkCoordSys c ks tr) (mkCoordSys c' ks tr).

Definition coord_reachable : coord_sys → Prop :=
  rtc coord_step (mkCoordSys NewAgentCoordinator ∅ []).

(** ** Invariant *)

Definition sent_to (a : nat) (tr : list coord_event) : list AgentCommand :=
  omap (λ e, match e with EvSent a' cmd => if decide (a' = a) then Some cmd else None | _ => None end) tr.

Definition taken_from (a : nat) (tr : list coord_event) : list AgentCommand :=
  omap (λ e, match e with EvTaken a' cmd => if decide (a' = a) then Some cmd else None | _ => None end) tr.

(** The state at [a] is one of the VM [vm]. *)
Definition state_of (c : AgentCoordinator) (a : nat) (vm : string) : Prop :=
  ∃ s, states c !! a = Some s ∧ as_vmID s = vm.

Record state_ok (tr : list coord_event) (next a : nat) (s : agentState) : Prop := mkStateOk {
  so_addr : a < next;
  so_waiters : ∀ k ch, as_resultWaiters s !! k = Some ch → EvWaiter ch (as_vmID s) k ∈ tr;
  so_fifo : taken_from a tr ++ ch_buf (as_commands s) = sent_to a tr;
  so_cap : ch_cap (as_commands s) = 16;
  so_ready : ch_closed (as_ready s) = as_readyOnce s;
}.

Record result_ok (tr : list coord_event) (next ch : nat) (q : chan AgentResult) : Prop := mkResultOk {
  ro_addr : ch < next;
  ro_cap : ch_cap q = 1;
  ro_open : ch_closed q = false;
  ro_buf : ∀ r, r ∈ ch_buf q → ∃ vm, EvWaiter ch vm (ar_CommandID r) ∈ tr ∧ EvDelivered vm r ∈ tr;
}.

Record heap_inv (tr : list coord_event) (c : AgentCoordinator) : Prop := mkHeapInv {
  hi_agents : ∀ vm a, agents c !! vm = Some a →
    ∃ s, states c !! a = Some s ∧ as_vmID s = vm ∧ ch_closed (as_commands s) = false;
  hi_states : ∀ a s, states c !! a = Some s → state_ok tr (next_addr c) a s;
  hi_results : ∀ ch q, results c !! ch = Some q → result_ok tr (next_addr c) ch q;
  hi_waiters : ∀ ch vm k, EvWaiter ch vm k ∈ tr → ch < next_addr c;
  hi_unique : ∀ ch vm k vm' k', EvWaiter ch vm k ∈ tr → EvWaiter ch vm' k' ∈ tr → vm = vm' ∧ k = k';
  hi_logs : ∀ a cmd, EvSent a cmd ∈ tr ∨ EvTaken a cmd ∈ tr → a < next_addr c;
}.

(** A result a call holds is one that was delivered for its VM and command. *)
Definition res_ok (tr : list coord_event) (vm : string) (cmd : AgentCommand) (res : result AgentResult) : Prop :=
  ∀ r, res = Ok r → ar_CommandID r = ac_ID cmd ∧ EvDelivered vm r ∈ tr.

Definition call_ok (tr : list coord_event) (c : AgentCoordinator) (k : call) : Prop :=
  match k with
  | CallSendCommand vm cmd pc =>
    match pc with
    | SendLookup => True
    | SendAddWaiter a => state_of c a vm
    | SendPush a ch | SendWait a ch => state_of c a vm ∧ EvWaiter ch vm (ac_ID cmd) ∈ tr
    | SendCleanup _ res | SendReturned res => res_ok tr vm cmd res
    end
  | CallDeliverResult vm r pc =>
    match pc with
    | DeliverFind a => state_of c a vm
    | DeliverPush ch => EvWaiter ch vm (ar_CommandID r) ∈ tr
    | _ => True
    end
  | CallGetNextCommand vm (GetWait a) => state_of c a vm
  | CallWaitForAgent vm (WaitSelect a) => state_of c a vm
  | _ => True
  end.

Definition coord_inv (y : coord_sys) : Prop :=
  heap_inv (cs_trace y) (cs_coord y) ∧
  ∀ g k, cs_calls y !! g = Some k → call_ok (cs_trace y) (cs_coord y) k.

(** The states are kept, with their VM. *)
Definition keeps (c c' : AgentCoordinator) : Prop :=
  ∀ a vm, state_of c a vm → state_of c' a vm.

Lemma call_ok_mono tr c tr' c' k :
  keeps c c' → (∀ e, e ∈ tr → e ∈ tr') → call_ok tr c k → call_ok tr' c' k.
Proof.
  intros Hk Htr. destruct k as [vm cmd []|vm []|vm r []|vm []]; simpl; unfold res_ok; naive_solver.
Qed.

Lemma keeps_set_state a s s' c :
  states c !! a = Some s → as_vmID s' = as_vmID s → keeps c (set_state a s' c).
Proof.
  intros Hs Hv a' vm (s0 & Hs0 & <-). unfold state_of. simpl. rewrite lookup_insert.
  destruct (decide (a = a')) as [<-|]; [|by eauto]. exists s'. split; [done|]. congruence.
Qed.

(** The logs of an address another event is about. *)
Definition about (a : nat) (e : coord_event) : Prop :=
  match e with EvSent a' _ | EvTaken a' _ => a' = a | _ => False end.

Lemma logs_other a tr e :
  ¬ about a e → sent_to a (tr ++ [e]) = sent_to a tr ∧ taken_from a (tr ++ [e]) = taken_from a tr.
Proof.
  intros Hne. unfold sent_to, taken_from. rewrite !omap_app. simpl.
  destruct e; simpl in *; rewrite ?decide_False by done; by rewrite !app_nil_r.
Qed.

Lemma state_ok_mono tr n a s tr' n' :
  state_ok tr n a s → n ≤ n' → (∀ e, e ∈ tr → e ∈ tr') →
  sent_to a tr' = sent_to a tr → taken_from a tr' = taken_from a tr → state_ok tr' n' a s.
Proof.
  intros [Ha Hw Hf Hc Hr] Hn Htr Hs Ht. split; [lia|eauto|by rewrite Hs, Ht|done..].
Qed.

Lemma result_ok_mono tr n ch q tr' n' :
  result_ok tr n ch q → n ≤ n' → (∀ e, e ∈ tr → e ∈ tr') → result_ok tr' n' ch q.
Proof. intros [Ha Hc Ho Hb] Hn Htr. split; [lia|done..|naive_solver]. Qed.

(** Events that make no channel and concern at most the state at [a]. *)
Definition plain (a : nat) (e : coord_event) : Prop :=
  match e with
  | EvWaiter _ _ _ => False
  | EvSent a' _ | EvTaken a' _ => a' = a
  | _ => True
  end.

Lemma elem_of_snoc_old (tr : list coord_event) e x : x ∈ tr → x ∈ tr ++ [e].
Proof. set_solver. Qed.

Local Hint Resolve elem_of_snoc_old : core.

(** The one lemma behind every step that keeps the addresses: the state at
    [a] becomes [s'], the channel at [ch], if any, becomes [q']. *)
Lemma heap_inv_update tr c a s s' e :
  heap_inv tr c → states c !! a = Some s → as_vmID s' = as_vmID s →
  (ch_closed (as_commands s) = false → ch_closed (as_commands s') = false) →
  plain a e → state_ok (tr ++ [e]) (next_addr c) a s' →
  heap_inv (tr ++ [e]) (set_state a s' c).
Proof.
  intros [Hag Hst Hre Hwa Hun Hlo] Hs Hv Hcl Hpl Hok.
  assert (Hw : ∀ ch vm k, EvWaiter ch vm k ∈ tr ++ [e] → EvWaiter ch vm k ∈ tr).
  { intros ch vm k [?|Heq%list_elem_of_singleton]%elem_of_app; [done|]. by rewrite <- Heq in Hpl. }
  split; simpl.
  - intros vm a' Hvm. destruct (Hag vm a' Hvm) as (s0 & Hs0 & ? & ?). rewrite lookup_insert.
    destruct (decide (a = a')) as [<-|]; [|by eauto]. exists s'. simplify_eq. auto.
  - intros a' s0 [[<- <-]|[Hne Hs0]]%lookup_insert_Some; [done|].
    destruct (logs_other a' tr e) as [He1 He2]; [destruct e; simpl in *; congruence|].
    eapply state_ok_mono; [by apply Hst|lia|auto|done..].
  - intros ch q Hq. eapply result_ok_mono; [by apply Hre|lia|auto].
  - eauto.
  - eauto.
  - intros a' cmd [H|H]; apply elem_of_app in H as [H|<-%list_elem_of_singleton];
      try (by eapply Hlo; eauto); simpl in Hpl; subst; by destruct (Hst _ _ Hs).
Qed.

Lemma heap_inv_result tr c ch q' e :
  heap_inv tr c → plain 0 e → (∀ a, ¬ about a e) →
  result_ok (tr ++ [e]) (next_addr c) ch q' →
  heap_inv (tr ++ [e]) (set_result_chan ch q' c).
Proof.
  intros [Hag Hst Hre Hwa Hun Hlo] Hpl Hab Hok.
  assert (Hw : ∀ ch vm k, EvWaiter ch vm k ∈ tr ++ [e] → EvWaiter ch vm k ∈ tr).
  { intros ch' vm k [?|Heq%list_elem_of_singleton]%elem_of_app; [done|]. by rewrite <- Heq in Hpl. }
  split; simpl.
  - done.
  - intros a s Hs. destruct (logs_other a tr e (Hab a)) as [He1 He2].
    eapply state_ok_mono; [by apply Hst|lia|auto|done..].
  - intros ch' q [[<- <-]|[_ Hq]]%lookup_insert_Some; [done|].
    eapply result_ok_mono; [by apply Hre|lia|auto].
  - eauto.
  - eauto.
  - intros a cmd [H|H]; apply elem_of_app in H as [H|<-%list_elem_of_singleton];
      try (by eapply Hlo; eauto); by destruct (Hab a).
Qed.

Lemma heap_inv_none tr c : heap_inv tr c → heap_inv (tr ++ [EvNone]) c.
Proof.
  intros [Hag Hst Hre Hwa Hun Hlo].
  assert (Hold : ∀ e, e ≠ EvNone → e ∈ tr ++ [EvNone] → e ∈ tr) by set_solver.
  split.
  - done.
  - intros a s Hs. destruct (logs_other a tr EvNone) as [He1 He2]; [by intros []|].
    eapply state_ok_mono; [by apply Hst|lia|auto|done..].
  - intros ch q Hq. eapply result_ok_mono; [by apply Hre|lia|auto].
  - intros ch vm k Hin. eapply Hwa, Hold; [|done]. done.
  - intros ch vm k vm' k' H1 H2. eapply Hun; apply Hold; done.
  - intros a cmd [H|H]; (apply Hold in H; [|done]); eauto.
Qed.

Lemma fresh_logs tr c a : heap_inv tr c → next_addr c ≤ a → sent_to a tr = [] ∧ taken_from a tr = [].
Proof.
  intros Hinv Ha.
  assert (H : ∀ e, e ∈ tr → ¬ about a e).
  { intros e He Hab. destruct e as [| |a' cmd|a' cmd|]; try done; simpl in Hab; subst;
      pose proof (hi_logs _ _ Hinv a cmd ltac:(auto)); lia. }
  clear Hinv. induction tr as [|e tr IH] using rev_ind; [done|].
  destruct (logs_other a tr e) as [-> ->]; [apply H; set_solver|].
  apply IH. intros e' He'. apply H. set_solver.
Qed.

Lemma add_waiter_inv tr c a vm k ch c' :
  heap_inv tr c → state_of c a vm → add_waiter a k c = Done (ch, c') →
  heap_inv (tr ++ [EvWaiter ch vm k]) c' ∧ keeps c c'.
Proof.
  intros Hinv (s & Hs & Hvm) H. unfold add_waiter in H. rewrite Hs in H. injection H as <- <-.
  pose proof Hinv as [Hag Hst Hre Hwa Hun Hlo].
  set (s' := set_waiters _ s). set (e := EvWaiter _ vm k).
  assert (Hold : ∀ x vm' k', EvWaiter x vm' k' ∈ tr ++ [e] →
    EvWaiter x vm' k' ∈ tr ∨ x = next_addr c ∧ vm' = vm ∧ k' = k).
  { intros x vm' k' [?|Heq%list_elem_of_singleton]%elem_of_app; [by left|].
    injection Heq as -> -> ->. by right. }
  split; [split; simpl|].
  - intros vm' a' Hvm'. destruct (Hag vm' a' Hvm') as (s0 & Hs0 & ? & ?). rewrite lookup_insert.
    destruct (decide (a = a')) as [<-|]; [|by eauto]. exists s'. simplify_eq. auto.
  - intros a' s0 H0. destruct (logs_other a' tr e) as [He1 He2]; [by intros []|].
    apply lookup_insert_Some in H0 as [[<- <-]|[Hne Hs0]].
    + destruct (Hst _ _ Hs) as [Ha Hw Hf Hc Hr].
      split; simpl; [lia| |by rewrite He1, He2|done..].
      intros k' ch [[<- <-]|[_ Hk]]%lookup_insert_Some; [|by auto]. rewrite Hvm. set_solver.
    + eapply state_ok_mono; [by apply Hst|lia|auto|done..].
  - intros ch q [[<- <-]|[_ Hq]]%lookup_insert_Some.
    + split; simpl; [lia|done..|]. intros r Hr. by apply not_elem_of_nil in Hr.
    + eapply result_ok_mono; [by apply Hre|lia|auto].
  - intros x vm' k' [Hx|[-> _]]%Hold; [apply Hwa in Hx|]; lia.
  - intros x vm1 k1 vm2 k2 [H1|(-> & -> & ->)]%Hold [H2|(H2 & -> & ->)]%Hold; subst; try done.
    + by eapply Hun.
    + apply Hwa in H1. lia.
    + apply Hwa in H2. lia.
  - intros a' cmd [H|H]; apply elem_of_app in H as [H|Heq%list_elem_of_singleton]; try done;
      pose proof (Hlo a' cmd ltac:(auto)); lia.
  - intros a' vm' (s0 & Hs0 & <-). unfold state_of. simpl. rewrite lookup_insert.
    destruct (decide (a = a')) as [<-|]; [|by eauto]. exists s'. by simplify_eq.
Qed.

Lemma register_inv tr c vm :
  heap_inv tr c → heap_inv tr (RegisterVM vm c) ∧ keeps c (RegisterVM vm c).
Proof.
  intros Hinv. pose proof Hinv as [Hag Hst Hre Hwa Hun Hlo].
  destruct (fresh_logs tr c (next_addr c) Hinv) as [Hf1 Hf2]; [lia|].
  assert (Hne : ∀ a s, states c !! a = Some s → next_addr c ≠ a).
  { intros a s Hs. destruct (Hst a s Hs). lia. }
  split; [split; simpl|].
  - intros vm' a [[<- <-]|[_ Hvm']]%lookup_insert_Some.
    + rewrite lookup_insert_eq. eauto.
    + destruct (Hag vm' a Hvm') as (s & Hs & ? & ?). rewrite lookup_insert_ne by eauto. eauto.
  - intros a s [[<- <-]|[_ Hs]]%lookup_insert_Some.
    + split; simpl; [lia|done|by rewrite Hf1, Hf2|done..].
    + eapply state_ok_mono; [by apply Hst|lia|auto|done..].
  - intros ch q Hq. eapply result_ok_mono; [by apply Hre|lia|auto].
  - intros ch vm' k Hin%Hwa. lia.
  - done.
  - intros a cmd H%Hlo. lia.
  - intros a vm' (s & Hs & <-). unfold state_of. simpl. rewrite lookup_insert_ne by eauto. eauto.
Qed.

Lemma unregister_inv tr c vm c' :
  heap_inv tr c → UnregisterVM vm c = Done c' → heap_inv tr c' ∧ keeps c c'.
Proof.
  intros Hinv H. pose proof Hinv as [Hag Hst Hre Hwa Hun Hlo]. unfold UnregisterVM in H.
  destruct (agents c !! vm) as [a|] eqn:Ea; [|injection H as <-; split; [done|by intros ?]].
  destruct (states c !! a) as [s|] eqn:Es; [|done].
  unfold chan_close in H. destruct (ch_closed (as_commands s)) eqn:Ec; [done|]. injection H as <-.
  assert (Hinj : ∀ vm', vm' ≠ vm → agents c !! vm' ≠ Some a).
  { intros vm' Hne Ha. destruct (Hag _ _ Ha) as (s1 & Hs1 & ? & _).
    destruct (Hag _ _ Ea) as (s2 & Hs2 & ? & _). congruence. }
  split; [split; simpl; try done|].
  - intros vm' a' [Hne Ha']%lookup_delete_Some.
    rewrite lookup_insert_ne by (intros <-; by eapply Hinj). by apply Hag.
  - intros a' s' [[<- <-]|[_ Hs']]%lookup_insert_Some; [|by apply Hst].
    destruct (Hst _ _ Es) as [? ? ? ? ?]. by split.
  - intros a' vm' (s0 & Hs0 & <-). unfold state_of. simpl. rewrite lookup_insert.
    destruct (decide (a = a')) as [<-|]; [|by eauto]. eexists. split; [done|]. by simplify_eq.
Qed.

Lemma notify_inv tr c a id c' :
  heap_inv tr c → notify_ready a id c = Done c' → heap_inv tr c' ∧ keeps c c'.
Proof.
  intros Hinv H. pose proof Hinv as [Hag Hst Hre Hwa Hun Hlo]. unfold notify_ready in H.
  destruct (states c !! a) as [s|] eqn:Es; [|done].
  assert (∃ s', c' = set_state a s' c ∧ as_vmID s' = as_vmID s ∧ as_commands s' = as_commands s ∧
    as_resultWaiters s' = as_resultWaiters s ∧ ch_closed (as_ready s') = as_readyOnce s')
    as (s' & -> & Hv & Hc & Hw & Hr).
  { destruct (Hst _ _ Es) as [_ _ _ _ Hr]. destruct (as_readyOnce s); [injection H as <-; by eexists|].
    unfold chan_close in H. destruct (ch_closed (as_ready s)); [done|]. injection H as <-. by eexists. }
  split; [|by eapply keeps_set_state]. split; simpl; try done.
  - intros vm a' Ha. destruct (Hag vm a' Ha) as (s0 & Hs0 & ? & ?). rewrite lookup_insert.
    destruct (decide (a = a')) as [<-|]; [|by eauto]. exists s'. simplify_eq. by rewrite Hc.
  - intros a' s0 [[<- <-]|[_ Hs']]%lookup_insert_Some; [|by apply Hst].
    destruct (Hst _ _ Es) as [? ? ? ? ?]. split; rewrite ?Hv, ?Hc, ?Hw; done.
Qed.

Lemma lookup_agent_state tr c vm a : heap_inv tr c → lookup_agent vm c = Ok a → state_of c a vm.
Proof.
  intros Hinv H. unfold lookup_agent in H. destruct (agents c !! vm) eqn:E; [|done].
  injection H as <-. destruct (hi_agents _ _ Hinv _ _ E) as (s & ? & ? & _). by exists s.
Qed.

Lemma keeps_refl c : keeps c c.
Proof. by intros a vm. Qed.

Lemma push_command_inv tr c a s cmd q :
  heap_inv tr c → states c !! a = Some s → push_command a cmd c = Sent q →
  heap_inv (tr ++ [EvSent a cmd]) (set_state a (set_commands q s) c).
Proof.
  intros Hinv Hs H. unfold push_command, chan_send in H. rewrite Hs in H.
  destruct (ch_closed (as_commands s)) eqn:Ec; [done|]. case_decide; [|done]. injection H as <-.
  apply (heap_inv_update _ _ _ s); [done..|].
  destruct (hi_states _ _ Hinv _ _ Hs) as [Ha Hw Hf Hc Hr]. split; simpl; [lia|by auto| |done..].
  unfold taken_from, sent_to in *. rewrite !omap_app. simpl.
  rewrite decide_True by done. simpl. by rewrite app_nil_r, app_assoc, Hf.
Qed.

Lemma pop_command_inv tr c a s cmd q :
  heap_inv tr c → states c !! a = Some s → pop_command a c = Received cmd q →
  heap_inv (tr ++ [EvTaken a cmd]) (set_state a (set_commands q s) c).
Proof.
  intros Hinv Hs H. unfold pop_command, chan_recv in H. rewrite Hs in H.
  destruct (ch_buf (as_commands s)) as [|x b] eqn:Eb; [by case_match|]. injection H as -> <-.
  apply (heap_inv_update _ _ _ s); [done..|].
  destruct (hi_states _ _ Hinv _ _ Hs) as [Ha Hw Hf Hc Hr]. split; simpl; [lia|by auto| |done..].
  unfold taken_from, sent_to in *. rewrite !omap_app. simpl.
  rewrite decide_True by done. simpl. rewrite app_nil_r, <- app_assoc. simpl. by rewrite Eb in Hf.
Qed.

Lemma pop_result_inv tr c ch r q :
  heap_inv tr c → pop_result ch c = Received r q →
  heap_inv (tr ++ [EvNone]) (set_result_chan ch q c) ∧
  ∃ vm, EvWaiter ch vm (ar_CommandID r) ∈ tr ∧ EvDelivered vm r ∈ tr.
Proof.
  intros Hinv H. unfold pop_result, chan_recv in H. destruct (results c !! ch) as [q0|] eqn:Eq; [|done].
  destruct (hi_results _ _ Hinv _ _ Eq) as [Ha Hc Ho Hb].
  destruct (ch_buf q0) as [|x b] eqn:Eb; [by case_match|]. injection H as -> <-.
  split; [|apply Hb; left]. apply heap_inv_result; [done|done|by intros a []|].
  split; simpl; [done..|]. intros r' Hr'. destruct (Hb r' ltac:(by right)) as (vm & ? & ?).
  exists vm. auto.
Qed.

Lemma push_result_inv tr c vm ch r q :
  heap_inv tr c → EvWaiter ch vm (ar_CommandID r) ∈ tr → push_result ch r c = Sent q →
  heap_inv (tr ++ [EvDelivered vm r]) (set_result_chan ch q c).
Proof.
  intros Hinv Hw H. unfold push_result, chan_send in H. destruct (results c !! ch) as [q0|] eqn:Eq; [|done].
  destruct (hi_results _ _ Hinv _ _ Eq) as [Ha Hc Ho Hb]. rewrite Ho in H.
  case_decide; [|done]. injection H as <-. apply heap_inv_result; [done|done|by intros a []|].
  split; simpl; [done..|]. intros r' [Hr'|Hr'%list_elem_of_singleton]%elem_of_app.
  - destruct (Hb r' Hr') as (vm' & ? & ?). exists vm'. auto.
  - subst. exists vm. set_solver.
Qed.

Lemma delete_waiter_inv tr c a k :
  heap_inv tr c → heap_inv (tr ++ [EvNone]) (delete_waiter a k c) ∧ keeps c (delete_waiter a k c).
Proof.
  intros Hinv. unfold delete_waiter. destruct (states c !! a) as [s|] eqn:Es;
    [|split; [by apply heap_inv_none|apply keeps_refl]].
  split; [|by eapply keeps_set_state]. apply (heap_inv_update _ _ _ s); [done..|].
  destruct (logs_other a tr EvNone) as [He1 He2]; [by intros []|].
  destruct (hi_states _ _ Hinv _ _ Es) as [Ha Hw Hf Hc Hr].
  split; simpl; [lia| |by rewrite He1, He2|done..]. intros k' ch [_ Hk]%lookup_delete_Some. auto.
Qed.

Local Hint Resolve heap_inv_none keeps_refl lookup_agent_state : core.

Lemma call_step_inv tr c k e k' c' :
  heap_inv tr c → call_ok tr c k → call_step k c e k' c' →
  heap_inv (tr ++ [e]) c' ∧ keeps c c' ∧ call_ok (tr ++ [e]) c' k'.
Proof.
  intros Hinv Hok Hstep. destruct Hstep; simpl in *; try (by eauto).
  - split_and!; [by eauto..|]. intros r; congruence.
  - destruct (add_waiter_inv _ _ _ _ _ _ _ Hinv Hok H) as [? Hk].
    split_and!; [done|done|by apply Hk|set_solver].
  - destruct Hok as [Hst Hw]. assert (Hk : keeps c (set_state a (set_commands q s) c))
      by (by eapply keeps_set_state).
    split_and!; [by eapply push_command_inv|done|by apply Hk|auto].
  - split_and!; [by eauto..|]. intros r; congruence.
  - destruct (pop_result_inv _ _ _ _ _ Hinv H) as [Hi (vm' & Hw & Hd)]. destruct Hok as [_ Hw'].
    split_and!; [done|by intros ? ?|]. intros r' [= <-].
    destruct (hi_unique _ _ Hinv _ _ _ _ _ Hw Hw') as [-> ?]. auto.
  - split_and!; [by eauto..|]. intros r; congruence.
  - destruct (delete_waiter_inv tr c a (ac_ID cmd) Hinv). split_and!; [done..|].
    intros r Hr. destruct (Hok r Hr). auto.
  - split_and!; [by eapply pop_command_inv|by eapply keeps_set_state|done].
  - split_and!; [by eauto..|]. unfold find_waiter in H. destruct Hok as (s & Hs & <-).
    rewrite Hs in H. simpl in H. destruct (as_resultWaiters s !! ar_CommandID r) eqn:E; [|done].
    injection H as <-. by apply elem_of_snoc_old, (hi_states _ _ Hinv _ _ Hs).
  - split_and!; [by eapply push_result_inv|by intros ? ?|done].
Qed.

Lemma coord_inv_step y y' : coord_inv y → coord_step y y' → coord_inv y'.
Proof.
  intros [Hheap Hcalls] Hstep. destruct Hstep; unfold coord_inv in *; simpl in *.
  - destruct (call_step_inv _ _ _ _ _ _ Hheap (Hcalls _ _ H) H0) as (Hi & Hk & Hok).
    split; [done|]. intros g' k0 [[<- <-]|[_ Hg]]%lookup_insert_Some; [done|].
    apply (call_ok_mono tr c); [done|by auto|by eapply Hcalls].
  - split; [done|]. intros g' k0 [[<- <-]|[_ Hg]]%lookup_insert_Some; [|by eapply Hcalls].
    by destruct k as [? ? []|? []|? ? []|? []].
  - destruct (register_inv _ _ vm Hheap) as [Hi Hk]. split; [done|].
    intros g k Hg. apply (call_ok_mono tr c); [done..|by eapply Hcalls].
  - destruct (unregister_inv _ _ _ _ Hheap H) as [Hi Hk]. split; [done|].
    intros g k Hg. apply (call_ok_mono tr c); [done..|by eapply Hcalls].
  - destruct (notify_inv _ _ _ _ _ Hheap H) as [Hi Hk]. split; [done|].
    intros g k Hg. apply (call_ok_mono tr c); [done..|by eapply Hcalls].
Qed.

Lemma coord_inv_reachable y : coord_reachable y → coord_inv y.
Proof.
  intros Hr. eapply rtc_invariant; [apply coord_inv_step|exact Hr|].
  split; [split; simpl; try set_solver|]; intros *; simpl; by rewrite lookup_empty.
Qed.

(** ** Properties *)

(** C20: however the calls interleave, a [SendCommand] that returns a result
    returns one that was delivered for the same VM and that names its own
    command: results are never handed to the wrong caller, even when several
    commands are in flight. *)
Theorem SendCommand_own_result y g vm cmd r :
  coord_reachable y →
  cs_calls y !! g = Some (CallSendCommand vm cmd (SendReturned (Ok r))) →
  ar_CommandID r = ac_ID cmd ∧ EvDelivered vm r ∈ cs_trace y.
Proof. intros [_ Hcalls]%coord_inv_reachable Hg. by apply (Hcalls g _ Hg r). Qed.

(** The commands of a registration reach the agent in the order they were
    sent, each at most once: what was taken, followed by what is queued, is
    what was sent. *)
Theorem commands_fifo y a s :
  coord_reachable y → states (cs_coord y) !! a = Some s →
  taken_from a (cs_trace y) ++ ch_buf (as_commands s) = sent_to a (cs_trace y).
Proof.
  intros [Hheap _]%coord_inv_reachable Hs. by apply (hi_states _ _ Hheap a s Hs).
Qed.

(** Tearing a VM down and an agent announcing itself are always safe: in
    every reachable state [UnregisterVM] and [NotifyAgentReady] return
    without a panic, however often a VM was registered, torn down or
    announced before. *)
Theorem unregister_notify_safe y vm id :
  coord_reachable y →
  (∃ c', UnregisterVM vm (cs_coord y) = Done c' ∧ agents c' !! vm = None) ∧
  (∃ r c', NotifyAgentReady vm id (cs_coord y) = Done (r, c') ∧
     (r = Ok tt ↔ is_Some (agents (cs_coord y) !! vm)) ∧
     ∀ a, agents (cs_coord y) !! vm = Some a → agent_ready a c' = true).
Proof.
  intros [Hheap _]%coord_inv_reachable. split.
  - unfold UnregisterVM. destruct (agents (cs_coord y) !! vm) as [a|] eqn:Ea; [|eauto].
    destruct (hi_agents _ _ Hheap _ _ Ea) as (s & -> & _ & Hc). unfold chan_close. rewrite Hc. simpl.
    eexists. split; [done|]. simpl. apply lookup_delete_eq.
  - unfold NotifyAgentReady, lookup_agent.
    destruct (agents (cs_coord y) !! vm) as [a|] eqn:Ea.
    2: { eexists _, _. split_and!; [done| |done]. split; [done|by intros [? ?]]. }
    destruct (hi_agents _ _ Hheap _ _ Ea) as (s & Hs & _). unfold notify_ready. rewrite Hs.
    destruct (hi_states _ _ Hheap _ _ Hs) as [_ _ _ _ Hr].
    destruct (as_readyOnce s); [|unfold chan_close; rewrite Hr]; simpl;
      (eexists _, _; split_and!; [done|by split; eauto|]);
      intros a' [= <-]; unfold agent_ready; simpl; by rewrite lookup_insert_eq.
Qed.

(** The command and result of the examples. *)
Definition demo_command : AgentCommand := mkAgentCommand "cmd-1" "start_test" ∅.
Definition demo_result : AgentResult := mkAgentResult "cmd-1" "passed" "" "" 3.

(** A call that has looked its VM up and added its waiter. *)
Lemma demo_pushing : ∃ c tr,
  coord_reachable (mkCoordSys c {[0 := CallSendCommand "vm" demo_command (SendPush 0 1)]} tr) ∧
  c = mkCoord {["vm" := 0]}
    {[0 := mkAgentState "vm" "" (make_chan 0) false (make_chan 16) {["cmd-1" := 1]}]}
    {[1 := make_chan 1]} 2.
Proof.
  eexists _, _. split; [|reflexivity]. unfold coord_reachable.
  eapply rtc_l; [apply (step_register _ _ _ "vm")|].
  eapply rtc_l; [apply (step_start _ _ _ 0 (CallSendCommand "vm" demo_command SendLookup)); done|].
  eapply rtc_l; [eapply (step_call _ _ _ 0); [done|by apply (send_lookup_ok _ _ _ 0)]|].
  eapply rtc_l; [eapply (step_call _ _ _ 0); [done|by eapply (send_add_waiter _ _ _ 0 1)]|].
  apply rtc_refl.
Qed.

(** [UnregisterVM] closes the command channel while a [SendCommand] that
    already looked the VM up may still be about to send on it: such a state
    is reachable, and the send panics there. *)
Theorem SendCommand_unregister_race :
  ∃ y g k, coord_reachable y ∧ cs_calls y !! g = Some k ∧ call_panics k (cs_coord y).
Proof.
  destruct demo_pushing as (c & tr & Hr & ->).
  eexists (mkCoordSys _ _ _), 0, _. split; [|split].
  - eapply rtc_r; [exact Hr|]. eapply (step_unregister _ _ _ "vm"). done.
  - done.
  - done.
Qed.

(** ** Witnesses *)

(** The handshake of one command, from the send to the return. *)
Lemma demo_returned : ∃ y,
  coord_reachable y ∧
  cs_calls y !! 0 = Some (CallSendCommand "vm" demo_command (SendReturned (Ok demo_result))).
Proof.
  destruct demo_pushing as (c & tr & Hr & ->). eexists. split.
  - unfold coord_reachable. etransitivity; [exact Hr|].
    eapply rtc_l; [eapply (step_call _ _ _ 0); [done|by eapply (send_push _ _ _ 0 1)]|].
    eapply rtc_l; [apply (step_start _ _ _ 1 (CallDeliverResult "vm" demo_result DeliverLookup)); done|].
    eapply rtc_l; [eapply (step_call _ _ _ 1); [done|by eapply (deliver_lookup_ok _ _ _ 0)]|].
    eapply rtc_l; [eapply (step_call _ _ _ 1); [done|by eapply (deliver_find_ok _ _ _ 0 1)]|].
    eapply rtc_l; [eapply (step_call _ _ _ 1); [done|by eapply deliver_push]|].
    eapply rtc_l; [eapply (step_call _ _ _ 0); [done|by eapply send_receive]|].
    eapply rtc_l; [eapply (step_call _ _ _ 0); [done|by eapply send_cleanup]|].
    apply rtc_refl.
  - done.
Qed.

Lemma SendCommand_own_result_witness :
  ∃ y, ar_CommandID demo_result = ac_ID demo_command ∧ EvDelivered "vm" demo_result ∈ cs_trace y.
Proof.
  destruct demo_returned as (y & Hr & Hg). exists y.
  exact (SendCommand_own_result y 0 "vm" demo_command demo_result Hr Hg).
Defined.

Lemma commands_fifo_witness :
  ∃ tr, taken_from 0 tr ++ [] = sent_to 0 tr.
Proof.
  destruct demo_pushing as (c & tr & Hr & ->). exists tr.
  exact (commands_fifo _ 0 (mkAgentState "vm" "" (make_chan 0) false (make_chan 16) {["cmd-1" := 1]})
    Hr eq_refl).
Defined.

Lemma unregister_notify_safe_witness :
  ∃ c c', UnregisterVM "vm" c = Done c' ∧ agents c' !! "vm" = None ∧ agents c !! "vm" = Some 0.
Proof.
  destruct demo_pushing as (c & tr & Hr & ->).
  destruct (unregister_notify_safe _ "vm" "agent" Hr) as [(c' & H1 & H2) _].
  eexists _, c'. split_and!; [exact H1|exact H2|done].
Defined.
