(* ===== verification/Json.v ===== *)
(** * Go's [encoding/json], as the orchestrator uses it

    [json.Unmarshal] checks the whole text with a scanner, a state machine
    over the bytes with a stack of open containers, and then decodes it into
    the target.  [scan] is that machine, which also builds the tree it
    accepts; being structural in the text it needs no fuel.  Its error texts
    are those of the scanner.  The decoders follow the rules for Go values:
    [null] leaves a scalar alone and empties a slice or map, a struct field
    is matched by its exact name or else without regard to case, unknown
    fields are skipped, and the first mismatch in the text is the error. *)
From Stdlib Require Import Ascii SpecFloat.
From stdpp Require Import options.
From S2P Require Import Prelude GoStd Types.
Open Scope string_scope.
Open Scope list_scope.
Open Scope nat_scope.

#[warnings="-register-all"]
Inductive json : Type :=
| JNull
| JBool (b : bool)
| JNum (lit : string)
| JStr (s : string)
| JArr (l : list json)
| JObj (l : list (string * json)).

(** ** Strings *)

Definition byte_of (n : N) : ascii := ascii_of_N n.
Definition code (c : ascii) : N := N_of_ascii c.

Definition between (lo hi : N) (c : ascii) : bool := (lo <=? code c)%N && (code c <=? hi)%N.
Definition cont (c : ascii) : bool := between 128 191 c.

(** The bytes of a rune. *)
Definition utf8_encode (r : N) : list ascii :=
  (if r <? 128 then [byte_of r]
   else if r <? 2048 then [byte_of (192 + r / 64); byte_of (128 + r mod 64)]
   else if r <? 65536 then
     [byte_of (224 + r / 4096); byte_of (128 + (r / 64) mod 64); byte_of (128 + r mod 64)]
   else [byte_of (240 + r / 262144); byte_of (128 + (r / 4096) mod 64);
         byte_of (128 + (r / 64) mod 64); byte_of (128 + r mod 64)])%N.

Definition replacement : list ascii := utf8_encode 65533.

Definition hex_val (c : ascii) : option N :=
  (if between 48 57 c then Some (code c - 48)
   else if between 97 102 c then Some (code c - 87)
   else if between 65 70 c then Some (code c - 55)
   else None)%N.

Definition hex4 (a b c d : ascii) : option N :=
  x ← hex_val a; y ← hex_val b; z ← hex_val c; t ← hex_val d;
  Some (4096 * x + 256 * y + 16 * z + t)%N.

Definition is_high (r : N) : bool := ((55296 <=? r) && (r <? 56320))%N.
Definition is_low (r : N) : bool := ((56320 <=? r) && (r <? 57344))%N.

Definition escaped_byte (c : ascii) : ascii :=
  match code c with
  | 98 => byte_of 8 | 102 => byte_of 12 | 110 => byte_of 10
  | 114 => byte_of 13 | 116 => byte_of 9 | _ => c
  end%N.

(** [unquote]: the bytes of a string literal, without its quotes. *)
Fixpoint unquote (l : list ascii) : list ascii :=
  match l with
  | [] => []
  | c :: l1 =>
    if (code c =? 92)%N then
      match l1 with
      | u :: ((h1 :: h2 :: h3 :: h4 :: l2) as l1') =>
        if (code u =? 117)%N then
          match hex4 h1 h2 h3 h4 with
          | Some r =>
            if is_high r then
              match l2 with
              | b :: v :: g1 :: g2 :: g3 :: g4 :: l3 =>
                match (if (code b =? 92)%N && (code v =? 117)%N then hex4 g1 g2 g3 g4 else None) with
                | Some r2 =>
                  if is_low r2
                  then utf8_encode (65536 + (r - 55296) * 1024 + (r2 - 56320))%N ++ unquote l3
                  else replacement ++ unquote l2
                | None => replacement ++ unquote l2
                end
              | _ => replacement ++ unquote l2
              end
            else if is_low r then replacement ++ unquote l2
            else utf8_encode r ++ unquote l2
          | None => []
          end
        else escaped_byte u :: unquote l1'
      | u :: l1' => escaped_byte u :: unquote l1'
      | [] => []
      end
    else if (code c <? 128)%N then c :: unquote l1
    else
      match l1 with
      | c1 :: l2 =>
        if between 194 223 c && cont c1 then c :: c1 :: unquote l2
        else
          match l2 with
          | c2 :: l3 =>
            if ((code c =? 224)%N && between 160 191 c1 || (code c =? 237)%N && between 128 159 c1 ||
                (between 225 236 c || between 238 239 c) && cont c1) && cont c2
            then c :: c1 :: c2 :: unquote l3
            else
              match l3 with
              | c3 :: l4 =>
                if ((code c =? 240)%N && between 144 191 c1 || (code c =? 244)%N && between 128 143 c1 ||
                    between 241 243 c && cont c1) && cont c2 && cont c3
                then c :: c1 :: c2 :: c3 :: unquote l4
                else replacement ++ unquote l1
              | [] => replacement ++ unquote l1
              end
          | [] => replacement ++ unquote l1
          end
      | [] => replacement
      end
  end.

Definition unquote_string (raw : list ascii) : string := String.string_of_list_ascii (unquote raw).

(** ** The scanner *)

Inductive frame : Type :=
| FArr (elems : list json)
| FObj (fields : list (string * json)) (key : option string).

Inductive num_state : Set := NNeg | NInt | NZero | NDot | NFrac | NExp | NExpSign | NExpDigits.

Inductive phase : Type :=
| AtValue            (* a value must start *)
| AtValueOrEnd       (* after an opening bracket *)
| AtKeyOrEnd         (* after an opening brace *)
| AtKey              (* after a comma in an object *)
| AtColon            (* after a key *)
| AtAfter            (* after a value *)
| AtString (raw : list ascii)
| AtEscape (raw : list ascii)
| AtHex (raw : list ascii) (left : nat)
| AtNumber (st : num_state) (raw : list ascii)
| AtLiteral (word rest : string) (v : json).

Record scanner : Type := mkScanner {
  sc_stack : list frame;
  sc_phase : phase;
  sc_top : option json;
}.

Definition quote_char (c : ascii) : string :=
  match code c with
  | 39 => "'\''"
  | 34 => String (byte_of 39) (String dquote "'")
  | _ => "'" +:+ quote_body (String.string_of_list_ascii (utf8_encode (code c))) +:+ "'"
  end%N.

Definition bad_char {A : Type} (c : ascii) (context : string) : result A :=
  Err ("invalid character " +:+ quote_char c +:+ " " +:+ context).

(** A value is complete. *)
Definition complete (v : json) (stack : list frame) (top : option json) : scanner :=
  match stack with
  | [] => mkScanner [] AtAfter (Some v)
  | FArr es :: st => mkScanner (FArr (es ++ [v]) :: st) AtAfter top
  | FObj fs (Some k) :: st => mkScanner (FObj (fs ++ [(k, v)]) None :: st) AtAfter top
  | FObj fs None :: st => mkScanner (FObj fs None :: st) AtAfter top
  end.

Definition max_depth : N := 10000.

Definition open_frame (c : ascii) (f : frame) (p : phase) (s : scanner) : result scanner :=
  if (max_depth <=? N.of_nat (length (sc_stack s)))%N then bad_char c "exceeded max depth"
  else Ok (mkScanner (f :: sc_stack s) p (sc_top s)).

Definition in_phase (p : phase) (s : scanner) : scanner := mkScanner (sc_stack s) p (sc_top s).

Definition json_space (c : ascii) : bool :=
  match code c with 32 | 9 | 13 | 10 => true | _ => false end%N.

Definition is_digit (c : ascii) : bool := between 48 57 c.

Definition begin_value (c : ascii) (s : scanner) : result scanner :=
  match code c with
  | 123 => open_frame c (FObj [] None) AtKeyOrEnd s
  | 91 => open_frame c (FArr []) AtValueOrEnd s
  | 34 => Ok (in_phase (AtString []) s)
  | 45 => Ok (in_phase (AtNumber NNeg [c]) s)
  | 48 => Ok (in_phase (AtNumber NZero [c]) s)
  | 116 => Ok (in_phase (AtLiteral "true" "rue" (JBool true)) s)
  | 102 => Ok (in_phase (AtLiteral "false" "alse" (JBool false)) s)
  | 110 => Ok (in_phase (AtLiteral "null" "ull" JNull) s)
  | _ => if is_digit c then Ok (in_phase (AtNumber NInt [c]) s)
         else bad_char c "looking for beginning of value"
  end%N.

(** What may follow a value. *)
Definition after_value (c : ascii) (s : scanner) : result scanner :=
  if json_space c then Ok s
  else
    match sc_stack s with
    | [] => bad_char c "after top-level value"
    | FArr es :: st =>
      if (code c =? 44)%N then Ok (mkScanner (FArr es :: st) AtValue (sc_top s))
      else if (code c =? 93)%N then Ok (complete (JArr es) st (sc_top s))
      else bad_char c "after array element"
    | FObj fs k :: st =>
      if (code c =? 44)%N then Ok (mkScanner (FObj fs k :: st) AtKey (sc_top s))
      else if (code c =? 125)%N then Ok (complete (JObj fs) st (sc_top s))
      else bad_char c "after object key:value pair"
    end.

Definition end_string (raw : list ascii) (s : scanner) : scanner :=
  let v := unquote_string raw in
  match sc_stack s with
  | FObj fs None :: st => mkScanner (FObj fs (Some v) :: st) AtColon (sc_top s)
  | _ => complete (JStr v) (sc_stack s) (sc_top s)
  end.

(** A number ends at the first byte that cannot continue it. *)
Definition end_number (raw : list ascii) (c : ascii) (s : scanner) : result scanner :=
  after_value c (complete (JNum (String.string_of_list_ascii raw)) (sc_stack s) (sc_top s)).

Definition is_e (c : ascii) : bool := ((code c =? 101) || (code c =? 69))%N.

Definition in_number (st : num_state) (raw : list ascii) (c : ascii) (s : scanner) : result scanner :=
  let go st' := Ok (in_phase (AtNumber st' (raw ++ [c])) s) in
  match st with
  | NNeg => if (code c =? 48)%N then go NZero else if is_digit c then go NInt
            else bad_char c "in numeric literal"
  | NInt => if is_digit c then go NInt else if (code c =? 46)%N then go NDot
            else if is_e c then go NExp else end_number raw c s
  | NZero => if (code c =? 46)%N then go NDot else if is_e c then go NExp else end_number raw c s
  | NDot => if is_digit c then go NFrac else bad_char c "after decimal point in numeric literal"
  | NFrac => if is_digit c then go NFrac else if is_e c then go NExp else end_number raw c s
  | NExp => if ((code c =? 43) || (code c =? 45))%N then go NExpSign
            else if is_digit c then go NExpDigits else bad_char c "in exponent of numeric literal"
  | NExpSign => if is_digit c then go NExpDigits else bad_char c "in exponent of numeric literal"
  | NExpDigits => if is_digit c then go NExpDigits else end_number raw c s
  end.

Definition escapable (c : ascii) : bool :=
  match code c with 98 | 102 | 110 | 114 | 116 | 92 | 47 | 34 => true | _ => false end%N.

Definition scan_step (c : ascii) (s : scanner) : result scanner :=
  match sc_phase s with
  | AtValue => if json_space c then Ok s else begin_value c s
  | AtValueOrEnd =>
    if json_space c then Ok s
    else if (code c =? 93)%N then after_value c s else begin_value c s
  | AtKeyOrEnd =>
    if json_space c then Ok s
    else if (code c =? 125)%N then after_value c s
    else if (code c =? 34)%N then Ok (in_phase (AtString []) s)
    else bad_char c "looking for beginning of object key string"
  | AtKey =>
    if json_space c then Ok s
    else if (code c =? 34)%N then Ok (in_phase (AtString []) s)
    else bad_char c "looking for beginning of object key string"
  | AtColon =>
    if json_space c then Ok s
    else if (code c =? 58)%N then Ok (in_phase AtValue s)
    else bad_char c "after object key"
  | AtAfter => after_value c s
  | AtString raw =>
    if (code c =? 34)%N then Ok (end_string raw s)
    else if (code c =? 92)%N then Ok (in_phase (AtEscape (raw ++ [c])) s)
    else if (code c <? 32)%N then bad_char c "in string literal"
    else Ok (in_phase (AtString (raw ++ [c])) s)
  | AtEscape raw =>
    if escapable c then Ok (in_phase (AtString (raw ++ [c])) s)
    else if (code c =? 117)%N then Ok (in_phase (AtHex (raw ++ [c]) 4) s)
    else bad_char c "in string escape code"
  | AtHex raw n =>
    match hex_val c with
    | Some _ => Ok (in_phase (match n with
                              | S (S k) => AtHex (raw ++ [c]) (S k)
                              | _ => AtString (raw ++ [c])
                              end) s)
    | None => bad_char c "in \u hexadecimal character escape"
    end
  | AtNumber st raw => in_number st raw c s
  | AtLiteral word rest v =>
    match rest with
    | String d rest' =>
      if decide (c = d) then
        Ok (match rest' with
            | EmptyString => complete v (sc_stack s) (sc_top s)
            | _ => in_phase (AtLiteral word rest' v) s
            end)
      else bad_char c ("in literal " +:+ word +:+ " (expecting " +:+ quote_char d +:+ ")")
    | EmptyString => Ok s
    end
  end.

Fixpoint scan (text : string) (s : scanner) : result scanner :=
  match text with
  | EmptyString => Ok s
  | String c text' => let! s' := scan_step c s in scan text' s'
  end.

(** The end of the text is read as one more space. *)
Definition scan_eof (s : scanner) : result json :=
  match scan_step (byte_of 32) s with
  | Ok (mkScanner [] AtAfter (Some v)) => Ok v
  | _ => Err "unexpected end of JSON input"
  end.

Definition parse (text : string) : result json :=
  let! s := scan text (mkScanner [] AtValue None) in scan_eof s.

(** ** Numbers *)

(** The digits of a literal: the integer they spell and their number. *)
Fixpoint take_digits (acc : Z) (n : Z) (s : string) : Z * Z * string :=
  match s with
  | String c s' => if is_digit c then take_digits (10 * acc + Z.of_N (code c - 48))%Z (n + 1)%Z s'
                   else (acc, n, s)
  | EmptyString => (acc, n, s)
  end.

(** A literal the scanner accepted: sign, mantissa and decimal exponent. *)
Definition split_number (lit : string) : bool * Z * Z :=
  let '(neg, s) := match lit with
                   | String c s' => if (code c =? 45)%N then (true, s') else (false, lit)
                   | EmptyString => (false, lit)
                   end in
  let '(m, _, s1) := take_digits 0 0 s in
  let '(m', frac, s2) := match s1 with
                         | String c s' => if (code c =? 46)%N then take_digits m 0 s' else (m, 0%Z, s1)
                         | EmptyString => (m, 0%Z, s1)
                         end in
  let e := match s2 with
           | String _ (String c s') =>
             if (code c =? 45)%N then let '(e, _, _) := take_digits 0 0 s' in (- e)%Z
             else if (code c =? 43)%N then let '(e, _, _) := take_digits 0 0 s' in e
             else let '(e, _, _) := take_digits 0 0 (String c s') in e
           | _ => 0%Z
           end in
  (neg, m', (e - frac)%Z).

(** The binary64 number nearest to [m * 10^e], ties to even: the quotient is
    computed to more than 64 bits, with the rest as a sticky last bit. *)
Definition decimal_to_float (neg : bool) (m e : Z) : float64 :=
  (let sign z := if neg then - z else z in
   if m =? 0 then S754_zero neg
   else if 400 <? e then S754_infinity neg
   else if e + Z.log2 m <? -1200 then S754_zero neg
   else if 0 <=? e then binary_normalize 53 1024 (sign (m * 10 ^ e)) 0 neg
   else
     let d := 10 ^ (- e) in
     let k := Z.max 0 (66 + Z.log2 d - Z.log2 m) in
     let q := (m * 2 ^ k) / d in
     let r := (m * 2 ^ k) mod d in
     binary_normalize 53 1024 (sign (2 * q + (if r =? 0 then 0 else 1))) (- k - 1) neg)%Z.

(** [strconv.ParseFloat(lit, 64)] on a literal the scanner accepted: [None]
    when it is out of range. *)
Definition ParseFloat (lit : string) : option float64 :=
  let '(neg, m, e) := split_number lit in
  match decimal_to_float neg m e with
  | S754_infinity _ | S754_nan => None
  | f => Some f
  end.

(** [int64(f)]: truncation; out of range the result is that of the amd64
    conversion instruction. *)
Definition float_to_int64 (f : float64) : Z :=
  match f with
  | S754_finite neg m e =>
    let a := (if 0 <=? e then Z.pos m * 2 ^ e else Z.pos m / 2 ^ (- e))%Z in
    let z := (if neg then - a else a)%Z in
    if decide (in_int64 z) then z else min_int64
  | S754_zero _ => 0%Z
  | _ => min_int64
  end.

(** ** Decoding *)

(** Where the decoder is: the name of the innermost struct type and the path
    of field names from the top. *)
Record place : Type := mkPlace { pl_struct : string; pl_path : list string }.

Definition at_top : place := mkPlace "" [].

Definition json_kind (v : json) : string :=
  match v with
  | JNull => "null"
  | JBool _ => "bool"
  | JNum _ => "number"
  | JStr _ => "string"
  | JArr _ => "array"
  | JObj _ => "object"
  end.

Definition type_error {A : Type} (value ty : string) (p : place) : result A :=
  Err ("json: cannot unmarshal " +:+ value +:+ " into Go " +:+
    (if decide (pl_struct p = "" ∧ pl_path p = []) then "value"
     else "struct field " +:+ pl_struct p +:+ "." +:+ join_with "." (pl_path p)) +:+
    " of type " +:+ ty).

(** A decoder stores a value over an old one. *)
Definition decoder (A : Type) : Type := place → json → A → result A.

Definition dec_string : decoder string := λ p v old,
  match v with
  | JStr s => Ok s
  | JNull => Ok old
  | _ => type_error (json_kind v) "string" p
  end.

Definition dec_int : decoder Z := λ p v old,
  match v with
  | JNum lit =>
    match ParseInt lit with
    | Ok n => Ok n
    | Err _ => type_error ("number " +:+ lit) "int" p
    end
  | JNull => Ok old
  | _ => type_error (json_kind v) "int" p
  end.

Definition dec_float64 : decoder float64 := λ p v old,
  match v with
  | JNum lit =>
    match ParseFloat lit with
    | Some f => Ok f
    | None => type_error ("number " +:+ lit) "float64" p
    end
  | JNull => Ok old
  | _ => type_error (json_kind v) "float64" p
  end.

(** The elements of an array are stored over the old elements, as the slice
    keeps its memory. *)
Fixpoint dec_elems {A : Type} (d : decoder A) (zero : A) (p : place) (l : list json) (old : list A) :
    result (list A) :=
  match l with
  | [] => Ok []
  | v :: l' =>
    let! x := d p v (hd zero old) in
    let! xs := dec_elems d zero p l' (tl old) in
    Ok (x :: xs)
  end.

Definition dec_slice {A : Type} (ty : string) (d : decoder A) (zero : A) : decoder (list A) := λ p v old,
  match v with
  | JArr l => dec_elems d zero p l old
  | JNull => Ok []
  | _ => type_error (json_kind v) ty p
  end.

Fixpoint dec_entries {A : Type} (d : decoder A) (zero : A) (p : place) (l : list (string * json))
    (m : gmap string A) : result (gmap string A) :=
  match l with
  | [] => Ok m
  | (k, v) :: l' =>
    let! x := d p v zero in
    dec_entries d zero p l' (<[k := x]> m)
  end.

Definition dec_map {A : Type} (ty : string) (d : decoder A) (zero : A) : decoder (gmap string A) := λ p v old,
  match v with
  | JObj l => dec_entries d zero p l old
  | JNull => Ok ∅
  | _ => type_error (json_kind v) ty p
  end.

(** The letters a field name is compared by, without regard to case; the
    Kelvin sign folds to [k] and the long s to [s]. *)
Fixpoint fold_name (l : list ascii) : list ascii :=
  match l with
  | a :: ((b :: ((c :: l3) as l2)) as l1) =>
    if ((code a =? 226) && (code b =? 132) && (code c =? 170))%N then byte_of 107 :: fold_name l3
    else if ((code a =? 197) && (code b =? 191))%N then byte_of 115 :: fold_name l2
    else (if between 65 90 a then byte_of (code a + 32) else a) :: fold_name l1
  | a :: ((b :: l2) as l1) =>
    if ((code a =? 197) && (code b =? 191))%N then byte_of 115 :: fold_name l2
    else (if between 65 90 a then byte_of (code a + 32) else a) :: fold_name l1
  | a :: l1 => (if between 65 90 a then byte_of (code a + 32) else a) :: fold_name l1
  | [] => []
  end.

Definition fold_string (s : string) : list ascii := fold_name (String.list_ascii_of_string s).

(** A field of a struct type: its name and how its value is stored. *)
Definition field (A : Type) : Type := string * (place → json → A → result A).

Definition find_field {A : Type} (fields : list (field A)) (k : string) : option (field A) :=
  match list_find (λ f, f.1 = k) fields with
  | Some (_, f) => Some f
  | None => snd <$> list_find (λ f, fold_string f.1 = fold_string k) fields
  end.

Fixpoint dec_fields {A : Type} (name : string) (fields : list (field A)) (p : place)
    (l : list (string * json)) (old : A) : result A :=
  match l with
  | [] => Ok old
  | (k, v) :: l' =>
    match find_field fields k with
    | None => dec_fields name fields p l' old
    | Some (f, store) =>
      let! x := store (mkPlace name (pl_path p ++ [f])) v old in
      dec_fields name fields p l' x
    end
  end.

(** A struct: [name] is its type's name ("" when it has none) and [ty] the
    text of its type. *)
Definition dec_struct {A : Type} (name ty : string) (fields : list (field A)) : decoder A := λ p v old,
  match v with
  | JObj l => dec_fields name fields p l old
  | JNull => Ok old
  | _ => type_error (json_kind v) ty p
  end.

(** [json.Unmarshal] into a variable that holds [zero]. *)
Definition Unmarshal {A : Type} (d : decoder A) (text : string) (zero : A) : result A :=
  let! v := parse text in d at_top v zero.

Definition quoted (s : string) : string := String dquote (s +:+ String dquote EmptyString).

(** The tag of a field in the text of a struct type. *)
Definition tag (name : string) : string := quoted ("json:\" +:+ quoted (name +:+ "\")).

(** ** Examples *)

Example parse_tree :
  parse ("{" +:+ quoted "a" +:+ ": [1, 2.5e-3, true, null, {}]}") =
  Ok (JObj [("a", JArr [JNum "1"; JNum "2.5e-3"; JBool true; JNull; JObj []])]).
Proof. vm_compute. reflexivity. Qed.
Example parse_comma : parse "[1,]" = Err "invalid character ']' looking for beginning of value".
Proof. vm_compute. reflexivity. Qed.
Example parse_eof : parse "tru" = Err "unexpected end of JSON input".
Proof. vm_compute. reflexivity. Qed.
Example parse_escape : parse (quoted "é😀\n") =
  Ok (JStr (String.string_of_list_ascii (utf8_encode 233 ++ utf8_encode 128512 ++ [byte_of 10]))).
Proof. vm_compute. reflexivity. Qed.
Example float_1 : ParseFloat "0.1" = Some (S754_finite false 7205759403792794 (-56)).
Proof. vm_compute. reflexivity. Qed.
Example float_2 : ParseFloat "1e400" = None.
Proof. vm_compute. reflexivity. Qed.
Example field_fold : fold_string "Duration_MS" = fold_string "duration_ms".
Proof. vm_compute. reflexivity. Qed.
