(* ===== verification/Marshal.v ===== *)
(** * Go's [json.Marshal], as the orchestrator uses it

    The texts of a string, of a slice of strings and of a map from strings to
    strings, with the escapes of [encoding/json] (which also escapes the
    characters that matter in HTML, and the two Unicode line separators), and
    the proof that they parse back. *)
From Stdlib Require Import Ascii.
From stdpp Require Import sorting options.
From S2P Require Import Prelude GoStd Types Json.
Open Scope string_scope.
Open Scope list_scope.
Open Scope nat_scope.

Definition hex_digit (n : N) : ascii := byte_of (if (n <? 10)%N then 48 + n else 87 + n)%N.

Definition backslash : ascii := byte_of 92.

(** [\u00XX] *)
Definition escape_hex (c : ascii) : list ascii :=
  [backslash; byte_of 117; byte_of 48; byte_of 48; hex_digit (code c / 16); hex_digit (code c mod 16)]%N.

(** A byte below 128. *)
Definition escape_ascii (c : ascii) : list ascii :=
  match code c with
  | 92 | 34 => [backslash; c]
  | 8 => [backslash; byte_of 98]
  | 12 => [backslash; byte_of 102]
  | 10 => [backslash; byte_of 110]
  | 13 => [backslash; byte_of 114]
  | 9 => [backslash; byte_of 116]
  | 60 | 62 | 38 => escape_hex c
  | n => if (n <? 32)%N then escape_hex c else [c]
  end%N.

(** The lengths of the encodings of runes that [utf8.DecodeRuneInString]
    accepts. *)
Definition rune2 (c c1 : ascii) : bool := between 194 223 c && cont c1.
Definition rune3 (c c1 c2 : ascii) : bool :=
  ((code c =? 224)%N && between 160 191 c1 || (code c =? 237)%N && between 128 159 c1 ||
   (between 225 236 c || between 238 239 c) && cont c1) && cont c2.
Definition rune4 (c c1 c2 c3 : ascii) : bool :=
  ((code c =? 240)%N && between 144 191 c1 || (code c =? 244)%N && between 128 143 c1 ||
   between 241 243 c && cont c1) && cont c2 && cont c3.

(** The line separators U+2028 and U+2029. *)
Definition separator (c c1 c2 : ascii) : bool :=
  ((code c =? 226) && (code c1 =? 128) && ((code c2 =? 168) || (code c2 =? 169)))%N.

Definition escape3 (c c1 c2 : ascii) : list ascii :=
  if separator c c1 c2
  then [backslash; byte_of 117; byte_of 50; byte_of 48; byte_of 50; hex_digit (code c2 mod 16)]%N
  else [c; c1; c2].

(** A byte that starts no rune. *)
Definition escape_bad : list ascii :=
  [backslash; byte_of 117; byte_of 102; byte_of 102; byte_of 102; byte_of 100]%N.

Fixpoint escape (l : list ascii) : list ascii :=
  match l with
  | [] => []
  | c :: l1 =>
    if (code c <? 128)%N then escape_ascii c ++ escape l1
    else
      match l1 with
      | c1 :: l2 =>
        if rune2 c c1 then [c; c1] ++ escape l2
        else
          match l2 with
          | c2 :: l3 =>
            if rune3 c c1 c2 then escape3 c c1 c2 ++ escape l3
            else
              match l3 with
              | c3 :: l4 => if rune4 c c1 c2 c3 then [c; c1; c2; c3] ++ escape l4 else escape_bad ++ escape l1
              | [] => escape_bad ++ escape l1
              end
          | [] => escape_bad ++ escape l1
          end
      | [] => escape_bad
      end
  end.

Definition str (l : list ascii) : string := String.string_of_list_ascii l.
Definition bytes (s : string) : list ascii := String.list_ascii_of_string s.

Definition marshal_string (s : string) : string :=
  String dquote (str (escape (bytes s)) +:+ String dquote EmptyString).

Definition marshal_strings (l : list string) : string :=
  "[" +:+ join_with "," (marshal_string <$> l) +:+ "]".

(** Maps are written in the order of their keys. *)
Definition key_le (x y : string * string) : Prop := String.leb x.1 y.1 = true.
Global Instance key_le_dec : RelDecision key_le := λ x y, decide (String.leb x.1 y.1 = true).

Definition sorted_entries (m : gmap string string) : list (string * string) :=
  merge_sort key_le (map_to_list m).

Definition marshal_map (m : gmap string string) : string :=
  "{" +:+ join_with "," ((λ kv, marshal_string kv.1 +:+ ":" +:+ marshal_string kv.2) <$> sorted_entries m) +:+ "}".

(** ** Valid UTF-8 *)

Inductive valid_utf8 : list ascii → Prop :=
| valid_nil : valid_utf8 []
| valid_one c l : (code c < 128)%N → valid_utf8 l → valid_utf8 (c :: l)
| valid_two c c1 l : rune2 c c1 = true → valid_utf8 l → valid_utf8 (c :: c1 :: l)
| valid_three c c1 c2 l : rune3 c c1 c2 = true → valid_utf8 l → valid_utf8 (c :: c1 :: c2 :: l)
| valid_four c c1 c2 c3 l :
    rune4 c c1 c2 c3 = true → valid_utf8 l → valid_utf8 (c :: c1 :: c2 :: c3 :: l).

Definition valid_string (s : string) : Prop := valid_utf8 (bytes s).

Example marshal_example :
  marshal_strings ["a<b"; "c"] = "[" +:+ quoted "a\u003cb" +:+ "," +:+ quoted "c" +:+ "]".
Proof. vm_compute. reflexivity. Qed.

(** ** Escapes are undone *)

(** A piece of text that stands for these bytes within a string literal. *)
Definition stands_for (raw esc : list ascii) : Prop :=
  (∀ X, unquote (esc ++ X) = raw ++ unquote X) ∧
  (∀ old st top rest, scan (str esc +:+ rest) (mkScanner st (AtString old) top) =
     scan rest (mkScanner st (AtString (old ++ esc)) top)).

Lemma stands_nil : stands_for [] [].
Proof. split; [done|]. intros. by rewrite app_nil_r. Qed.

Lemma str_app l l' : str (l ++ l') = str l +:+ str l'.
Proof. induction l as [|c l IH]; [done|]. exact (f_equal (String c) IH). Qed.

Lemma stands_app r r' e e' : stands_for r e → stands_for r' e' → stands_for (r ++ r') (e ++ e').
Proof.
  intros [Hu Hs] [Hu' Hs']. split.
  - intros X. by rewrite <- !app_assoc, Hu, Hu'.
  - intros old st top rest. rewrite str_app.
    assert ((str e +:+ str e') +:+ rest = str e +:+ (str e' +:+ rest)) as ->.
    { generalize (str e). intros a. induction a as [|c a IH]; [done|]. exact (f_equal (String c) IH). }
    by rewrite Hs, Hs', <- app_assoc.
Qed.

(** One byte of the text. *)
Lemma scan_cons c text s s' : scan_step c s = Ok s' → scan (String c text) s = scan text s'.
Proof. intros H. cbn [scan]. unfold result_bind. by rewrite H. Qed.

Lemma scan_escaped u old st top text :
  escapable u = true →
  scan (String u text) (mkScanner st (AtEscape old) top) = scan text (mkScanner st (AtString (old ++ [u])) top).
Proof. intros H. apply scan_cons. unfold scan_step. cbn [sc_phase]. by rewrite H. Qed.

Lemma scan_hex c n v old st top text :
  hex_val c = Some v →
  scan (String c text) (mkScanner st (AtHex old n) top) =
  scan text (mkScanner st (match n with S (S k) => AtHex (old ++ [c]) (S k) | _ => AtString (old ++ [c]) end) top).
Proof. intros H. apply scan_cons. unfold scan_step. cbn [sc_phase]. by rewrite H. Qed.

Lemma scan_backslash old st top text :
  scan (String backslash text) (mkScanner st (AtString old) top) =
  scan text (mkScanner st (AtEscape (old ++ [backslash])) top).
Proof. by apply scan_cons. Qed.

Lemma scan_u old st top text :
  scan (String (byte_of 117) text) (mkScanner st (AtEscape old) top) =
  scan text (mkScanner st (AtHex (old ++ [byte_of 117]) 4) top).
Proof. by apply scan_cons. Qed.

Lemma stands_short u :
  (code u =? 117)%N = false → escapable u = true → stands_for [escaped_byte u] [backslash; u].
Proof.
  intros Hu He. split.
  - intros X. destruct X as [|a [|b [|c [|d X]]]]; simpl; by rewrite ?Hu.
  - intros old st top rest. change (str [backslash; u] +:+ rest) with (String backslash (String u rest)).
    rewrite scan_backslash, scan_escaped by done. by rewrite <- app_assoc.
Qed.

Lemma stands_hex a b c d r :
  hex4 a b c d = Some r → is_high r = false → is_low r = false →
  stands_for (utf8_encode r) [backslash; byte_of 117; a; b; c; d].
Proof.
  intros Hx Hh Hl. split.
  - intros X. simpl. by rewrite Hx, Hh, Hl.
  - intros old st top rest. unfold hex4 in Hx.
    destruct (hex_val a) eqn:Ea; [|done]. destruct (hex_val b) eqn:Eb; [|done].
    destruct (hex_val c) eqn:Ec; [|done]. destruct (hex_val d) eqn:Ed; [|done].
    change (str _ +:+ rest) with (String backslash (String (byte_of 117) (String a (String b (String c (String d rest)))))).
    rewrite scan_backslash, scan_u. repeat (erewrite scan_hex by done). by rewrite <- !app_assoc.
Qed.

(** Bytes the scanner takes as they are. *)
Lemma scan_plain c old st top rest :
  (code c =? 34)%N = false → (code c =? 92)%N = false → (code c <? 32)%N = false →
  scan (String c rest) (mkScanner st (AtString old) top) = scan rest (mkScanner st (AtString (old ++ [c])) top).
Proof. intros H1 H2 H3. apply scan_cons. unfold scan_step. cbn [sc_phase]. by rewrite H1, H2, H3. Qed.

Lemma stands_plain c :
  (code c =? 34)%N = false → (code c =? 92)%N = false → (code c <? 32)%N = false → (code c <? 128)%N = true →
  stands_for [c] [c].
Proof.
  intros H1 H2 H3 H4. split; [|intros; by apply scan_plain]. intros X. simpl. by rewrite H2, H4.
Qed.

Lemma stands_ascii c : (code c < 128)%N → stands_for [c] (escape_ascii c).
Proof.
  intros Hc. destruct c as [[] [] [] [] [] [] [] []]; try (by vm_compute in Hc);
    match goal with |- stands_for [?c] _ =>
      first
        [ exact (stands_plain c eq_refl eq_refl eq_refl eq_refl)
        | exact (stands_short c eq_refl eq_refl)
        | exact (stands_short (byte_of 98) eq_refl eq_refl)
        | exact (stands_short (byte_of 102) eq_refl eq_refl)
        | exact (stands_short (byte_of 110) eq_refl eq_refl)
        | exact (stands_short (byte_of 114) eq_refl eq_refl)
        | exact (stands_short (byte_of 116) eq_refl eq_refl)
        | exact (stands_hex (byte_of 48) (byte_of 48) (hex_digit (code c / 16)) (hex_digit (code c mod 16))
            (code c) eq_refl eq_refl eq_refl) ]
    end.
Qed.

Ltac bytes_lia :=
  unfold rune2, rune3, rune4, cont, between in *;
  repeat match goal with
  | H : (_ && _)%bool = true |- _ => apply andb_prop in H as [? ?]
  | H : (_ || _)%bool = true |- _ => apply orb_prop in H as [?|?]
  | H : (_ =? _)%N = true |- _ => apply N.eqb_eq in H
  | H : (_ <=? _)%N = true |- _ => apply N.leb_le in H
  end.

Lemma high_byte c : (128 ≤ code c)%N →
  (code c =? 34)%N = false ∧ (code c =? 92)%N = false ∧ (code c <? 32)%N = false ∧ (code c <? 128)%N = false.
Proof. intros H. split_and!; try apply N.eqb_neq; try apply N.ltb_ge; lia. Qed.

(** The scanner takes bytes from 128 on as they are. *)
Lemma scan_high l old st top rest :
  Forall (λ c, (128 ≤ code c)%N) l →
  scan (str l +:+ rest) (mkScanner st (AtString old) top) = scan rest (mkScanner st (AtString (old ++ l)) top).
Proof.
  intros H. revert old. induction H as [|c l Hc _ IH]; intros old; [by rewrite app_nil_r|].
  destruct (high_byte c Hc) as (? & ? & ? & _).
  change (str (c :: l) +:+ rest) with (String c (str l +:+ rest)).
  rewrite scan_plain, IH by done. by rewrite <- app_assoc.
Qed.

Lemma rune2_high c c1 : rune2 c c1 = true → (194 ≤ code c ≤ 223)%N ∧ Forall (λ c, (128 ≤ code c)%N) [c; c1].
Proof. intros H. bytes_lia. repeat constructor; lia. Qed.
Lemma rune3_high c c1 c2 :
  rune3 c c1 c2 = true → (224 ≤ code c ≤ 239)%N ∧ Forall (λ c, (128 ≤ code c)%N) [c; c1; c2].
Proof. intros H. bytes_lia; repeat constructor; lia. Qed.
Lemma rune4_high c c1 c2 c3 :
  rune4 c c1 c2 c3 = true → (240 ≤ code c)%N ∧ Forall (λ c, (128 ≤ code c)%N) [c; c1; c2; c3].
Proof. intros H. bytes_lia; repeat constructor; lia. Qed.

Lemma not_rune2 c c1 : (224 ≤ code c)%N → rune2 c c1 = false.
Proof. intros H. destruct (rune2 c c1) eqn:E; [|done]. apply rune2_high in E. lia. Qed.
Lemma not_rune3 c c1 c2 : (240 ≤ code c)%N → rune3 c c1 c2 = false.
Proof. intros H. destruct (rune3 c c1 c2) eqn:E; [|done]. apply rune3_high in E. lia. Qed.

Lemma stands_two c c1 : rune2 c c1 = true → stands_for [c; c1] [c; c1].
Proof.
  intros H. destruct (rune2_high _ _ H) as [Hc Hh]. destruct (high_byte c ltac:(lia)) as (_ & H92 & _ & H128).
  split; [|intros; by apply scan_high]. intros X. cbn [app unquote]. rewrite H92, H128.
  fold (rune2 c c1). by rewrite H.
Qed.

Lemma stands_three c c1 c2 : rune3 c c1 c2 = true → stands_for [c; c1; c2] [c; c1; c2].
Proof.
  intros H. destruct (rune3_high _ _ _ H) as [Hc Hh]. destruct (high_byte c ltac:(lia)) as (_ & H92 & _ & H128).
  split; [|intros; by apply scan_high]. intros X. cbn [app unquote]. rewrite H92, H128.
  fold (rune2 c c1). rewrite not_rune2 by lia. fold (rune3 c c1 c2). by rewrite H.
Qed.

Lemma stands_four c c1 c2 c3 : rune4 c c1 c2 c3 = true → stands_for [c; c1; c2; c3] [c; c1; c2; c3].
Proof.
  intros H. destruct (rune4_high _ _ _ _ H) as [Hc Hh]. destruct (high_byte c ltac:(lia)) as (_ & H92 & _ & H128).
  split; [|intros; by apply scan_high]. intros X. cbn [app unquote]. rewrite H92, H128.
  fold (rune2 c c1). rewrite not_rune2 by lia. fold (rune3 c c1 c2). rewrite not_rune3 by lia.
  fold (rune4 c c1 c2 c3). by rewrite H.
Qed.

Lemma code_inj c n : code c = n → c = byte_of n.
Proof. intros <-. unfold byte_of, code. by rewrite ascii_N_embedding. Qed.

Lemma stands_escape3 c c1 c2 : rune3 c c1 c2 = true → stands_for [c; c1; c2] (escape3 c c1 c2).
Proof.
  intros H. unfold escape3. destruct (separator c c1 c2) eqn:Es; [|by apply stands_three].
  unfold separator in Es. apply andb_prop in Es as [[->%N.eqb_eq%code_inj ->%N.eqb_eq%code_inj]%andb_prop Es].
  apply orb_prop in Es as [->%N.eqb_eq%code_inj| ->%N.eqb_eq%code_inj];
    [exact (stands_hex (byte_of 50) (byte_of 48) (byte_of 50) (byte_of 56) 8232 eq_refl eq_refl eq_refl)
    |exact (stands_hex (byte_of 50) (byte_of 48) (byte_of 50) (byte_of 57) 8233 eq_refl eq_refl eq_refl)].
Qed.

Lemma escape_stands l : valid_utf8 l → stands_for l (escape l).
Proof.
  induction 1 as [|c l Hc _ IH|c c1 l H _ IH|c c1 c2 l H _ IH|c c1 c2 c3 l H _ IH]; cbn [escape].
  - apply stands_nil.
  - rewrite (proj2 (N.ltb_lt _ _) Hc). apply (stands_app [c] l); [by apply stands_ascii|done].
  - destruct (rune2_high _ _ H) as [Hc _]. destruct (high_byte c ltac:(lia)) as (_ & _ & _ & ->). rewrite H.
    apply (stands_app [c; c1] l); [by apply stands_two|done].
  - destruct (rune3_high _ _ _ H) as [Hc _]. destruct (high_byte c ltac:(lia)) as (_ & _ & _ & ->).
    rewrite not_rune2, H by lia. apply (stands_app [c; c1; c2] l); [by apply stands_escape3|done].
  - destruct (rune4_high _ _ _ _ H) as [Hc _]. destruct (high_byte c ltac:(lia)) as (_ & _ & _ & ->).
    rewrite not_rune2, not_rune3, H by lia. apply (stands_app [c; c1; c2; c3] l); [by apply stands_four|done].
Qed.

(** ** The texts parse back *)

Lemma unquote_escape s : valid_string s → unquote_string (escape (bytes s)) = s.
Proof.
  intros Hs. destruct (escape_stands _ Hs) as [Hu _]. specialize (Hu []). unfold unquote_string.
  rewrite app_nil_r in Hu. rewrite Hu. cbn [unquote]. rewrite app_nil_r.
  apply String.string_of_list_ascii_of_string.
Qed.

(** A string literal, wherever one may start. *)
Lemma scan_literal s ph st top rest :
  valid_string s →
  (∀ text, scan (String dquote text) (mkScanner st ph top) = scan text (mkScanner st (AtString []) top)) →
  scan (marshal_string s +:+ rest) (mkScanner st ph top) =
  scan rest (end_string (escape (bytes s)) (mkScanner st (AtString (escape (bytes s))) top)).
Proof.
  intros Hs Hstart. unfold marshal_string.
  change (String dquote ?x +:+ rest) with (String dquote (x +:+ rest)).
  rewrite Hstart, str_app_assoc. destruct (escape_stands _ Hs) as [_ Hscan]. rewrite Hscan.
  by apply scan_cons.
Qed.

Lemma scan_value s ph st top rest :
  valid_string s → ph = AtValue ∨ ph = AtValueOrEnd →
  match st with FObj _ None :: _ => False | _ => True end →
  scan (marshal_string s +:+ rest) (mkScanner st ph top) = scan rest (complete (JStr s) st top).
Proof.
  intros Hs Hph Hst. rewrite scan_literal; [|done|by destruct Hph as [-> | ->]]. f_equal.
  unfold end_string. rewrite unquote_escape by done. cbn [sc_stack sc_top].
  destruct st as [|[es|fs [k|]] st]; done.
Qed.

Lemma scan_key s ph fs st top rest :
  valid_string s → ph = AtKey ∨ ph = AtKeyOrEnd →
  scan (marshal_string s +:+ rest) (mkScanner (FObj fs None :: st) ph top) =
  scan rest (mkScanner (FObj fs (Some s) :: st) AtColon top).
Proof.
  intros Hs Hph. rewrite scan_literal; [|done|by destruct Hph as [-> | ->]]. f_equal.
  unfold end_string. by rewrite unquote_escape.
Qed.

Lemma join_cons sep x y l : join_with sep (x :: y :: l) = x +:+ sep +:+ join_with sep (y :: l).
Proof. done. Qed.

Lemma scan_strings l es ph st top rest :
  Forall valid_string l → l ≠ [] → ph = AtValue ∨ ph = AtValueOrEnd →
  scan (join_with "," (marshal_string <$> l) +:+ rest) (mkScanner (FArr es :: st) ph top) =
  scan rest (mkScanner (FArr (es ++ (JStr <$> l)) :: st) AtAfter top).
Proof.
  intros Hl. revert es ph. induction Hl as [|s l Hs Hl IH]; intros es ph Hne Hph; [done|].
  destruct l as [|s' l]; [by apply scan_value|].
  change (marshal_string <$> s :: s' :: l) with (marshal_string s :: marshal_string s' :: (marshal_string <$> l)).
  rewrite join_cons, !str_app_assoc, scan_value by done. cbn [complete].
  change ("," +:+ ?x) with (String ","%char x). erewrite scan_cons by done.
  rewrite (IH _ AtValue) by auto. by rewrite <- app_assoc.
Qed.

Lemma scan_entries l fs ph st top rest :
  Forall (λ kv, valid_string kv.1 ∧ valid_string kv.2) l → l ≠ [] → ph = AtKey ∨ ph = AtKeyOrEnd →
  scan (join_with "," ((λ kv, marshal_string kv.1 +:+ ":" +:+ marshal_string kv.2) <$> l) +:+ rest)
    (mkScanner (FObj fs None :: st) ph top) =
  scan rest (mkScanner (FObj (fs ++ (prod_map id JStr <$> l)) None :: st) AtAfter top).
Proof.
  intros Hl. revert fs ph. induction Hl as [|[k v] l [Hk Hv] Hl IH]; intros fs ph Hne Hph; [done|].
  assert (Hone : ∀ text, scan ((marshal_string k +:+ ":" +:+ marshal_string v) +:+ text)
    (mkScanner (FObj fs None :: st) ph top) =
    scan text (mkScanner (FObj (fs ++ [(k, JStr v)]) None :: st) AtAfter top)).
  { intros text. rewrite !str_app_assoc, scan_key by done.
    change (":" +:+ ?x) with (String ":"%char x). erewrite scan_cons by done. by apply scan_value; [|left|]. }
  destruct l as [|kv l]; [by apply Hone|].
  match goal with |- context [join_with "," (?f <$> _)] =>
    change (f <$> (k, v) :: kv :: l) with (f (k, v) :: f kv :: (f <$> l)) end.
  rewrite join_cons, str_app_assoc, Hone, str_app_assoc.
  change ("," +:+ ?x) with (String ","%char x). erewrite scan_cons by done.
  rewrite (IH _ AtKey) by auto. by rewrite <- app_assoc.
Qed.

Lemma parse_strings l :
  Forall valid_string l → parse (marshal_strings l) = Ok (JArr (JStr <$> l)).
Proof.
  intros Hl. unfold parse, marshal_strings. change ("[" +:+ ?x) with (String "["%char x).
  erewrite scan_cons by done. destruct l as [|s l]; [done|].
  rewrite scan_strings by auto. done.
Qed.

Lemma parse_entries l :
  Forall (λ kv, valid_string kv.1 ∧ valid_string kv.2) l →
  parse ("{" +:+ join_with "," ((λ kv, marshal_string kv.1 +:+ ":" +:+ marshal_string kv.2) <$> l) +:+ "}") =
  Ok (JObj (prod_map id JStr <$> l)).
Proof.
  intros Hl. unfold parse. change ("{" +:+ ?x) with (String "{"%char x).
  erewrite scan_cons by done. destruct l as [|kv l]; [done|].
  rewrite scan_entries by auto. done.
Qed.

Lemma dec_elems_strings l p : dec_elems dec_string "" p (JStr <$> l) [] = Ok l.
Proof. induction l as [|s l IH]; [done|]. csimpl. cbn [tl]. by rewrite IH. Qed.

Lemma dec_entries_map l m p :
  NoDup l.*1 → (∀ kv, kv ∈ l → m !! kv.1 = None) →
  dec_entries dec_string "" p (prod_map id JStr <$> l) m = Ok (list_to_map l ∪ m).
Proof.
  revert m. induction l as [|[k v] l IH]; intros m Hnd Hm; [by rewrite left_id_L by apply _|].
  csimpl in Hnd. apply NoDup_cons in Hnd as [Hk Hnd]. csimpl. rewrite IH; [|done|].
  - f_equal. rewrite <- insert_union_l. symmetry. rewrite insert_union_r; [done|]. by apply not_elem_of_list_to_map.
  - intros [k' v'] Hin. simpl. rewrite lookup_insert_ne; [by apply (Hm (k', v')); right|].
    intros ->. apply Hk. by apply (list_elem_of_fmap_2 fst) in Hin.
Qed.

(** Marshalling and reading back. *)
Lemma strings_roundtrip l :
  Forall valid_string l → Unmarshal (dec_slice "[]string" dec_string "") (marshal_strings l) [] = Ok l.
Proof. intros Hl. unfold Unmarshal. rewrite parse_strings by done. apply dec_elems_strings. Qed.

Lemma map_roundtrip (m : gmap string string) :
  (∀ k v, m !! k = Some v → valid_string k ∧ valid_string v) →
  Unmarshal (dec_map "map[string]string" dec_string "") (marshal_map m) ∅ = Ok m.
Proof.
  intros Hm. assert (Hp : sorted_entries m ≡ₚ map_to_list m) by apply merge_sort_Permutation.
  unfold Unmarshal, marshal_map. rewrite parse_entries.
  - cbn [result_bind dec_map]. rewrite dec_entries_map.
    + rewrite right_id_L by apply _. f_equal. rewrite (list_to_map_proper _ (map_to_list m)); [apply list_to_map_to_list| |done].
      rewrite Hp. apply NoDup_fst_map_to_list.
    + rewrite Hp. apply NoDup_fst_map_to_list.
    + done.
  - rewrite Hp. apply Forall_forall. intros [k v] Hkv%elem_of_map_to_list. by apply Hm.
Qed.
