(* ===== verification/JsonText.v ===== *)
(** * JSON texts and the values they spell

    [spells d t v] says that the text [t], wherever a value may stand, is
    read by the scanner of [encoding/json] as the value [v].  The rules build
    such texts from those of the parts, with any white space between the
    tokens, so that they cover what Go, Python and the C test framework
    write. *)
From Stdlib Require Import Ascii.
From stdpp Require Import options.
From S2P Require Import Prelude GoStd Json Marshal.
Open Scope string_scope.
Open Scope list_scope.
Open Scope nat_scope.

Lemma bytes_str l : bytes (str l) = l.
Proof. induction l as [|c l IH]; [done|]. exact (f_equal (cons c) IH). Qed.

Lemma str_bytes s : str (bytes s) = s.
Proof. induction s as [|c s IH]; [done|]. exact (f_equal (String c) IH). Qed.

Lemma bytes_app a b : bytes (a +:+ b) = bytes a ++ bytes b.
Proof. induction a as [|c a IH]; [done|]. exact (f_equal (cons c) IH). Qed.

Lemma valid_ascii s : forallb (λ c, code c <? 128)%N (bytes s) = true → valid_string s.
Proof.
  unfold valid_string. induction (bytes s) as [|c l IH]; [constructor|].
  intros [Hc Hl]%andb_prop. apply valid_one; [by apply N.ltb_lt|by apply IH].
Qed.

(** ** Places and delimiters *)

(** A value may stand here, at this depth. *)
Definition value_place (d : nat) (ph : phase) (st : list frame) : Prop :=
  (ph = AtValue ∨ ph = AtValueOrEnd) ∧ match st with FObj _ None :: _ => False | _ => True end ∧ length st + d ≤ 1000.

(** What ends a value inside an array or object. *)
Definition ends_value (c : ascii) : bool :=
  json_space c || (code c =? 44)%N || (code c =? 93)%N || (code c =? 125)%N.

Definition delimits (rest : string) : Prop := ∃ c rest', rest = String c rest' ∧ ends_value c = true.

Definition spells (d : nat) (t : string) (v : json) : Prop := ∀ ph st top rest,
  value_place d ph st → delimits rest →
  scan (t +:+ rest) (mkScanner st ph top) = scan rest (complete v st top).

(** ** White space *)

Definition blank (s : string) : Prop := Forall (λ c, json_space c = true) (bytes s).

Definition takes_space (ph : phase) : bool :=
  match ph with AtValue | AtValueOrEnd | AtKeyOrEnd | AtKey | AtColon | AtAfter => true | _ => false end.

Lemma scan_blank sp s rest : blank sp → takes_space (sc_phase s) = true → scan (sp +:+ rest) s = scan rest s.
Proof.
  unfold blank. induction sp as [|c sp IH]; intros Hb Hs; [done|]. apply Forall_cons in Hb as [Hc Hb].
  change (String c sp +:+ rest) with (String c (sp +:+ rest)).
  erewrite scan_cons; [by apply IH|]. unfold scan_step, after_value. by destruct (sc_phase s); rewrite ?Hc.
Qed.

Lemma blank_nil : blank "".
Proof. constructor. Qed.

Lemma blank_delimits sp c rest : blank sp → ends_value c = true → delimits (sp +:+ String c rest).
Proof.
  intros Hb Hc. destruct sp as [|b sp]; [by exists c, rest|]. apply Forall_cons in Hb as [Hb _].
  exists b, (sp +:+ String c rest). split; [done|]. unfold ends_value. cbv beta in Hb. by rewrite Hb.
Qed.

Lemma phase_complete v st top : sc_phase (complete v st top) = AtAfter.
Proof. by destruct st as [|[|? []]]. Qed.

(** ** Words and strings *)

Lemma spells_word d v w :
  (∀ ph st top, ph = AtValue ∨ ph = AtValueOrEnd →
    ∀ rest, scan (w +:+ rest) (mkScanner st ph top) = scan rest (complete v st top)) → spells d w v.
Proof. intros H ph st top rest (Hp & _) _. by apply H. Qed.

Definition literal (esc : list ascii) : string := String dquote (str esc +:+ String dquote EmptyString).

(** The text of a key. *)
Definition names (t k : string) : Prop := ∃ esc, t = literal esc ∧ stands_for (bytes k) esc.

Lemma unquote_stands s esc : stands_for (bytes s) esc → unquote_string esc = s.
Proof.
  intros [Hu _]. specialize (Hu []). unfold unquote_string. rewrite app_nil_r in Hu. rewrite Hu.
  cbn [unquote]. rewrite app_nil_r. apply String.string_of_list_ascii_of_string.
Qed.

Lemma scan_stands s esc ph st top rest :
  stands_for (bytes s) esc →
  (∀ text, scan (String dquote text) (mkScanner st ph top) = scan text (mkScanner st (AtString []) top)) →
  scan (literal esc +:+ rest) (mkScanner st ph top) = scan rest (end_string esc (mkScanner st (AtString esc) top)).
Proof.
  intros [_ Hscan] Hstart. unfold literal. change (String dquote ?x +:+ rest) with (String dquote (x +:+ rest)).
  rewrite Hstart, str_app_assoc, Hscan. by apply scan_cons.
Qed.

Lemma spells_string d s t : names t s → spells d t (JStr s).
Proof.
  intros (esc & -> & Hs) ph st top rest (Hp & Hst & _) _. rewrite (scan_stands s); [|done|by destruct Hp as [-> | ->]].
  f_equal. unfold end_string. rewrite (unquote_stands s) by done. cbn [sc_stack sc_top].
  by destruct st as [|[es|fs [k|]] st].
Qed.

Lemma scan_name k t ph fs st top rest :
  names t k → ph = AtKey ∨ ph = AtKeyOrEnd →
  scan (t +:+ rest) (mkScanner (FObj fs None :: st) ph top) = scan rest (mkScanner (FObj fs (Some k) :: st) AtColon top).
Proof.
  intros (esc & -> & Hs) Hp. rewrite (scan_stands k); [|done|by destruct Hp as [-> | ->]].
  f_equal. unfold end_string. by rewrite (unquote_stands k).
Qed.

(** ** Numbers *)

(** The states of a number literal. *)
Definition num_start (c : ascii) : option num_state :=
  if (code c =? 45)%N then Some NNeg else if (code c =? 48)%N then Some NZero
  else if is_digit c then Some NInt else None.

Definition num_next (st : num_state) (c : ascii) : option num_state :=
  match st with
  | NNeg => if (code c =? 48)%N then Some NZero else if is_digit c then Some NInt else None
  | NInt => if is_digit c then Some NInt else if (code c =? 46)%N then Some NDot else if is_e c then Some NExp else None
  | NZero => if (code c =? 46)%N then Some NDot else if is_e c then Some NExp else None
  | NDot => if is_digit c then Some NFrac else None
  | NFrac => if is_digit c then Some NFrac else if is_e c then Some NExp else None
  | NExp => if ((code c =? 43) || (code c =? 45))%N then Some NExpSign else if is_digit c then Some NExpDigits else None
  | NExpSign => if is_digit c then Some NExpDigits else None
  | NExpDigits => if is_digit c then Some NExpDigits else None
  end.

Definition num_final (st : num_state) : bool :=
  match st with NInt | NZero | NFrac | NExpDigits => true | _ => false end.

Fixpoint num_run (st : num_state) (l : list ascii) : option num_state :=
  match l with
  | [] => Some st
  | c :: l' => match num_next st c with Some st' => num_run st' l' | None => None end
  end.

(** A number literal of JSON. *)
Definition number_literal (lit : string) : bool :=
  match bytes lit with
  | [] => false
  | c :: l =>
    match num_start c with
    | Some st => match num_run st l with Some st' => num_final st' | None => false end
    | None => false
    end
  end.

Lemma in_number_next st raw c s st' :
  num_next st c = Some st' → in_number st raw c s = Ok (in_phase (AtNumber st' (raw ++ [c])) s).
Proof. destruct st; cbn [num_next in_number]; repeat case_match; intros [= <-]; done. Qed.

Lemma scan_num_run l ns raw st top rest ns' :
  num_run ns l = Some ns' →
  scan (str l +:+ rest) (mkScanner st (AtNumber ns raw) top) = scan rest (mkScanner st (AtNumber ns' (raw ++ l)) top).
Proof.
  revert ns raw. induction l as [|c l IH]; intros ns raw; cbn [num_run]; [intros [= <-]; by rewrite app_nil_r|].
  destruct (num_next ns c) as [ns1|] eqn:E; [|done]. intros Hl.
  change (str (c :: l) +:+ rest) with (String c (str l +:+ rest)).
  erewrite scan_cons by (unfold scan_step; cbn [sc_phase]; by apply in_number_next).
  unfold in_phase. cbn [sc_stack sc_top]. rewrite IH by done. by rewrite <- app_assoc.
Qed.

(** Facts about a byte, by trying all of them. *)
Ltac all_bytes c := destruct c as [[] [] [] [] [] [] [] []]; try done.

Lemma ends_not_number c ns raw s :
  ends_value c = true → num_final ns = true → in_number ns raw c s = end_number raw c s.
Proof. intros Hc Hn. destruct ns; try done; all_bytes c. Qed.

Lemma scan_num_end st ns raw top rest :
  num_final ns = true → delimits rest →
  scan rest (mkScanner st (AtNumber ns raw) top) = scan rest (complete (JNum (str raw)) st top).
Proof.
  intros Hns (c & rest' & -> & Hc). cbn [scan]. f_equal. unfold scan_step. cbn [sc_phase].
  rewrite phase_complete, ends_not_number by done. done.
Qed.

Lemma begin_number c ns s :
  num_start c = Some ns → begin_value c s = Ok (in_phase (AtNumber ns [c]) s) ∧ json_space c = false ∧ (code c =? 93)%N = false.
Proof. intros H. all_bytes c; vm_compute in H; injection H as <-; by split_and!. Qed.

Lemma spells_number d lit : number_literal lit = true → spells d lit (JNum lit).
Proof.
  intros Hl ph st top rest (Hp & _) Hrest. rewrite <- (str_bytes lit). unfold number_literal in Hl.
  destruct (bytes lit) as [|c l]; [done|]. destruct (num_start c) as [ns|] eqn:Hc; [|done].
  destruct (num_run ns l) as [ns'|] eqn:Hr; [|done].
  destruct (begin_number _ _ (mkScanner st ph top) Hc) as (Hb & Hs & H93).
  change (str (c :: l) +:+ rest) with (String c (str l +:+ rest)).
  erewrite scan_cons; [|unfold scan_step; cbn [sc_phase]; destruct Hp as [-> | ->]; by rewrite Hs, ?H93, Hb].
  unfold in_phase. cbn [sc_stack sc_top]. rewrite (scan_num_run _ _ _ _ _ _ _ Hr). by apply scan_num_end.
Qed.

(** A whole number without a sign, as a JSON literal. *)
Definition int_literal (lit : string) : bool :=
  match bytes lit with
  | [] => false
  | c :: l => is_digit c && forallb is_digit l && (negb (code c =? 48)%N || bool_decide (l = []))
  end.

Lemma int_literal_shape lit : int_literal lit = true →
  ∃ c l, bytes lit = c :: l ∧ ∃ st st', num_start c = Some st ∧ num_run st l = Some st' ∧ (st' = NInt ∨ st' = NZero).
Proof.
  unfold int_literal. destruct (bytes lit) as [|c l]; [done|]. intros [[Hc Hl]%andb_prop Hz]%andb_prop.
  exists c, l. split; [done|]. unfold num_start. assert (Hm : (code c =? 45)%N = false).
  { apply N.eqb_neq. unfold is_digit, between in Hc. apply andb_prop in Hc as [?%N.leb_le _]. lia. }
  rewrite Hm. destruct (code c =? 48)%N; [apply bool_decide_eq_true in Hz as ->; do 2 eexists; by split_and!; auto|].
  rewrite Hc. exists NInt, NInt. split_and!; [done| |by left].
  clear Hz. induction l as [|d l IH]; [done|]. apply andb_prop in Hl as [Hd Hl]. simpl. rewrite Hd. by apply IH.
Qed.

Lemma int_literal_number lit : int_literal lit = true → number_literal lit = true.
Proof.
  intros (c & l & Hb & st & st' & Hc & Hr & Hst)%int_literal_shape. unfold number_literal. rewrite Hb, Hc, Hr.
  by destruct Hst as [-> | ->].
Qed.

(** The decimal digits of a number. *)
Lemma pretty_char n : (n < 10)%N → is_digit (pretty_N_char n) = true ∧ (0 < n → code (pretty_N_char n) ≠ 48)%N.
Proof.
  intros Hn. assert (H : forallb (λ n, is_digit (pretty_N_char n) && ((n =? 0) || negb (code (pretty_N_char n) =? 48))%N)
    (N.of_nat <$> seq 0 10) = true) by (vm_compute; reflexivity).
  rewrite forallb_forall in H. specialize (H n). rewrite <- list_elem_of_In, list_elem_of_fmap in H.
  apply andb_prop in H as [Hd Hz]; [|exists (N.to_nat n); rewrite elem_of_seq; lia]. split; [done|].
  intros Hp E. rewrite E in Hz. apply orb_prop in Hz as [?%N.eqb_eq|?]; [lia|done].
Qed.

Lemma pretty_digits x s : (0 < x)%N →
  ∃ c l, bytes (pretty_N_go x s) = c :: l ++ bytes s ∧ is_digit c = true ∧ code c ≠ 48%N ∧ forallb is_digit l = true.
Proof.
  revert s. induction (N.lt_wf_0 x) as [x _ IH]. intros s Hx. rewrite pretty_N_go_step by done.
  destruct (pretty_char (x mod 10) ltac:(by apply N.mod_lt)) as [Hd Hz].
  destruct (decide (0 < x / 10)%N) as [Hq|Hq].
  - destruct (IH (x / 10)%N ltac:(apply N.div_lt; lia) (String (pretty_N_char (x mod 10)) s) Hq) as (c & l & E & Hc & Hnz & Hl).
    exists c, (l ++ [pretty_N_char (x mod 10)]). rewrite E. split_and!; [|done|done|].
    + rewrite <- app_assoc. done.
    + rewrite forallb_app, Hl. simpl. by rewrite Hd.
  - assert (H0 : (x / 10 = 0)%N) by (by apply N.le_0_r, N.nlt_ge). rewrite H0, pretty_N_go_0. exists (pretty_N_char (x mod 10)), [].
    split_and!; [done|done| |done]. apply Hz. apply N.div_small_iff in H0; [|done]. rewrite N.mod_small by done. done.
Qed.

Lemma fmt_d_literal n : (0 ≤ n)%Z → int_literal (fmt_d n) = true.
Proof.
  intros Hn. unfold fmt_d, pretty, pretty_Z. destruct n as [|p|p]; [done| |lia].
  unfold pretty, pretty_positive, pretty, pretty_N. rewrite decide_False by lia.
  destruct (pretty_digits (N.pos p) "" ltac:(lia)) as (c & l & E & Hc & Hnz & Hl). unfold int_literal. rewrite E.
  rewrite app_nil_r. rewrite Hc, Hl. simpl. apply orb_true_intro. left. by apply negb_true_iff, N.eqb_neq.
Qed.

(** ** Arrays and objects *)

Lemma open_ok c f p st ph top :
  length st ≤ 1000 → open_frame c f p (mkScanner st ph top) = Ok (mkScanner (f :: st) p top).
Proof.
  intros H. unfold open_frame, max_depth. cbn [sc_stack sc_top].
  destruct (N.leb_spec 10000 (N.of_nat (length st))); [lia|done].
Qed.

Lemma scan_open c f p st ph top text :
  length st ≤ 1000 → ph = AtValue ∨ ph = AtValueOrEnd →
  (∀ s, begin_value c s = open_frame c f p s) → json_space c = false → (code c =? 93)%N = false →
  scan (String c text) (mkScanner st ph top) = scan text (mkScanner (f :: st) p top).
Proof.
  intros Hl Hp Hb Hs Hc. apply scan_cons. unfold scan_step. cbn [sc_phase].
  destruct Hp as [-> | ->]; rewrite Hs, ?Hc, Hb; by apply open_ok.
Qed.

Lemma scan_close c text s s' : after_value c s = Ok s' → sc_phase s = AtAfter → scan (String c text) s = scan text s'.
Proof. intros H Hp. apply scan_cons. unfold scan_step. by rewrite Hp. Qed.

(** The elements of an array: texts with commas and white space between. *)
Definition commas (sp : string) (ts : list string) : string := join_with ("," +:+ sp) ts.

Lemma scan_elems d sp ts vs es st top rest :
  blank sp → Forall2 (spells d) ts vs → ts ≠ [] → length st + S d ≤ 1000 → delimits rest →
  ∀ ph, ph = AtValue ∨ ph = AtValueOrEnd →
  scan (commas sp ts +:+ rest) (mkScanner (FArr es :: st) ph top) =
  scan rest (mkScanner (FArr (es ++ vs) :: st) AtAfter top).
Proof.
  intros Hsp Hl. revert es. induction Hl as [|t v ts vs Hv Hl IH]; intros es Hne Hlen Hrest ph Hph; [done|].
  assert (Hplace : value_place d ph (FArr es :: st)) by (split; [done|split; [done|simpl; lia]]).
  destruct Hl as [|t' v' ts vs Hv' Hl]; [by apply Hv|]. unfold commas in *.
  rewrite join_cons, !str_app_assoc, Hv by (done || by eexists _, _; auto). cbn [complete].
  change ("," +:+ ?x) with (String ","%char x). erewrite scan_cons by done.
  rewrite scan_blank by done. rewrite IH by auto. by rewrite <- app_assoc.
Qed.

(** A field: the text of its key, a colon, white space and the value. *)
Definition field_text (sp : string) (kv : string * string) : string := kv.1 +:+ ":" +:+ sp +:+ kv.2.

Definition field_spells (d : nat) (t : string * string) (kv : string * json) : Prop :=
  names t.1 kv.1 ∧ spells d t.2 kv.2.

Lemma scan_fields d sp ts l fs st top rest :
  blank sp → Forall2 (field_spells d) ts l → ts ≠ [] → length st + S d ≤ 1000 → delimits rest →
  ∀ csp ph, blank csp → ph = AtKey ∨ ph = AtKeyOrEnd →
  scan (commas csp (field_text sp <$> ts) +:+ rest) (mkScanner (FObj fs None :: st) ph top) =
  scan rest (mkScanner (FObj (fs ++ l) None :: st) AtAfter top).
Proof.
  intros Hsp Hl. revert fs. induction Hl as [|[kt t] [k v] ts l [Hk Hv] Hl IH]; intros fs Hne Hlen Hrest csp ph Hcsp Hph; [done|].
  assert (Hone : ∀ text, delimits text → scan (field_text sp (kt, t) +:+ text) (mkScanner (FObj fs None :: st) ph top) =
    scan text (mkScanner (FObj (fs ++ [(k, v)]) None :: st) AtAfter top)).
  { intros text Ht. unfold field_text. rewrite !str_app_assoc, (scan_name k) by done. change (":" +:+ ?x) with (String ":"%char x).
    erewrite scan_cons by done. rewrite scan_blank by done. apply Hv; [|done]. split; [by left|]. split; [done|]. simpl. lia. }
  destruct Hl as [|t' kv' ts l Hkv' Hl]; [by apply Hone|].
  change (field_text sp <$> (kt, t) :: t' :: ts) with (field_text sp (kt, t) :: field_text sp t' :: (field_text sp <$> ts)).
  unfold commas in *. rewrite join_cons, str_app_assoc, Hone, !str_app_assoc by (by eexists _, _; auto).
  change ("," +:+ ?x) with (String ","%char x). erewrite scan_cons by done. rewrite scan_blank by done.
  change (field_text sp t' :: (field_text sp <$> ts)) with (field_text sp <$> t' :: ts).
  rewrite (IH _ ltac:(done) Hlen Hrest csp AtKey) by auto. by rewrite <- app_assoc.
Qed.

(** Whole containers, with white space at both ends. *)
Lemma spells_array d pre post sp ts vs :
  blank pre → blank post → blank sp → Forall2 (spells d) ts vs →
  spells (S d) ("[" +:+ pre +:+ commas sp ts +:+ post +:+ "]") (JArr vs).
Proof.
  intros Hpre Hpost Hsp Hf ph st top rest (Hp & Hst & Hlen) _. rewrite !str_app_assoc.
  change ("[" +:+ ?x) with (String "["%char x). rewrite (scan_open _ (FArr []) AtValueOrEnd) by (done || lia).
  rewrite scan_blank by done. change ("]" +:+ rest) with (String "]"%char rest).
  destruct Hf as [|t v ts vs Hv Hf].
  - change (commas sp [] +:+ ?x) with x. rewrite scan_blank by done. by destruct st as [|[]].
  - rewrite (scan_elems d _ _ (v :: vs)) by (done || lia || (by constructor) || (by right) || by apply blank_delimits).
    rewrite scan_blank by done. by apply scan_close.
Qed.

Lemma spells_object d pre post csp sp ts l :
  blank pre → blank post → blank csp → blank sp → Forall2 (field_spells d) ts l →
  spells (S d) ("{" +:+ pre +:+ commas csp (field_text sp <$> ts) +:+ post +:+ "}") (JObj l).
Proof.
  intros Hpre Hpost Hcsp Hsp Hf ph st top rest (Hp & Hst & Hlen) _. rewrite !str_app_assoc.
  change ("{" +:+ ?x) with (String "{"%char x). rewrite (scan_open _ (FObj [] None) AtKeyOrEnd) by (done || lia).
  rewrite scan_blank by done. change ("}" +:+ rest) with (String "}"%char rest).
  destruct Hf as [|t kv ts l Hkv Hf].
  - change (commas csp (field_text sp <$> []) +:+ ?x) with x. rewrite scan_blank by done. by destruct st as [|[]].
  - rewrite (scan_fields d _ _ (kv :: l)) by (done || lia || (by constructor) || (by right) || by apply blank_delimits).
    rewrite scan_blank by done. by apply scan_close.
Qed.

(** ** Whole texts *)

Lemma scan_app a b s : scan (a +:+ b) s = result_bind (scan a s) (scan b).
Proof.
  revert s. induction a as [|c a IH]; intros s; [done|]. change (String c a +:+ b) with (String c (a +:+ b)).
  cbn [scan]. destruct (scan_step c s); [apply IH|done].
Qed.

(** The end of the text is one more space. *)
Lemma parse_space x v :
  scan (x +:+ " ") (mkScanner [] AtValue None) = Ok (mkScanner [] AtAfter (Some v)) → parse x = Ok v.
Proof.
  rewrite scan_app. unfold parse. destruct (scan x _) as [s|]; [|done]. cbn [result_bind scan].
  unfold scan_eof. change (ascii_of_N 32) with " "%char. change (byte_of 32) with " "%char.
  by destruct (scan_step " " s) as [s'|]; [intros [= ->]|].
Qed.

Lemma parse_spells d t v sp : spells d t v → d ≤ 1000 → blank sp → parse (t +:+ sp) = Ok v.
Proof.
  intros Ht Hd Hsp. apply parse_space. rewrite str_app_assoc.
  rewrite Ht; [|split; [by left|split; [done|simpl; lia]]|by apply blank_delimits].
  by rewrite scan_blank.
Qed.

(** The bytes of a number. *)
Lemma num_next_ascii ns c ns' : num_next ns c = Some ns' → (32 ≤ code c < 128)%N.
Proof. destruct ns; all_bytes c; vm_compute; done. Qed.

Lemma num_run_ascii ns l ns' : num_run ns l = Some ns' → Forall (λ c, 32 ≤ code c < 128)%N l.
Proof.
  revert ns. induction l as [|c l IH]; intros ns; cbn [num_run]; [constructor|].
  destruct (num_next ns c) as [ns1|] eqn:E; [|done]. intros Hr. apply Forall_cons. split; [by eapply num_next_ascii|by eapply IH].
Qed.

Lemma number_bytes lit : number_literal lit = true → Forall (λ c, 32 ≤ code c < 128)%N (bytes lit).
Proof.
  unfold number_literal. destruct (bytes lit) as [|c l]; [done|]. destruct (num_start c) as [ns|] eqn:Ec; [|done].
  destruct (num_run ns l) as [ns'|] eqn:E; [|done]. intros _. apply Forall_cons. split; [|by eapply num_run_ascii].
  revert Ec. all_bytes c; vm_compute; done.
Qed.
