(* ===== verification/Numbers.v ===== *)
(** * Integers as JSON numbers

    The programs write integers in decimal and read them back through a
    binary64 number, as [encoding/json] does for a value of any type.  Up to
    2^53 nothing is lost. *)
From Stdlib Require Import Ascii SpecFloat.
From stdpp Require Import options.
From S2P Require Import Prelude GoStd Types Json Marshal JsonText.
Open Scope string_scope.
Open Scope list_scope.
Open Scope Z_scope.

(** ** Decimal digits *)

Lemma digit_value n : (n < 10)%N → Z.of_N (code (pretty_N_char n) - 48) = Z.of_N n.
Proof.
  intros Hn. assert (H : forallb (λ n, (code (pretty_N_char n) - 48 =? n)%N) (N.of_nat <$> seq 0 10) = true) by (vm_compute; reflexivity).
  rewrite forallb_forall in H. specialize (H n). rewrite <- list_elem_of_In, list_elem_of_fmap in H.
  apply N.eqb_eq in H; [by rewrite H|]. exists (N.to_nat n). rewrite elem_of_seq. lia.
Qed.

(** Reading the digits of [x] after those of [acc]. *)
Lemma take_digits_pretty x s acc n : (0 < x)%N →
  ∃ k, take_digits acc n (pretty_N_go x s) = take_digits (acc * 10 ^ k + Z.of_N x) (n + k) s ∧ 0 < k.
Proof.
  revert s acc n. induction (N.lt_wf_0 x) as [x _ IH]. intros s acc n Hx. rewrite pretty_N_go_step by done.
  assert (Hm : (x mod 10 < 10)%N) by (by apply N.mod_lt). destruct (pretty_char _ Hm) as [Hd _].
  pose proof (N.div_mod x 10 ltac:(done)) as Hdm.
  destruct (decide (0 < x / 10)%N) as [Hq|Hq].
  - destruct (IH (x / 10)%N ltac:(apply N.div_lt; lia) (String (pretty_N_char (x mod 10)) s) acc n Hq) as (k & E & Hk).
    exists (k + 1). rewrite E. split; [|lia]. cbn [take_digits]. rewrite Hd, digit_value by done. f_equal; [|lia].
    rewrite Z.pow_add_r by lia. change (10 ^ 1) with 10. lia.
  - assert (H0 : (x / 10 = 0)%N) by lia. rewrite H0, pretty_N_go_0. exists 1. split; [|lia].
    cbn [take_digits]. rewrite Hd, digit_value by done. f_equal. rewrite H0 in Hdm. change (10 ^ 1) with 10. lia.
Qed.

Lemma split_pretty p : ∃ c s, pretty (N.pos p) = String c s ∧ is_digit c = true ∧
  ∃ k, take_digits 0 0 (pretty (N.pos p)) = (Z.pos p, k, "").
Proof.
  assert (pretty (N.pos p) = pretty_N_go (N.pos p) "") as -> by (unfold pretty, pretty_N; by rewrite decide_False).
  destruct (pretty_digits (N.pos p) "" ltac:(lia)) as (c & l & E & Hc & _). exists c, (str l). split_and!; [|done|].
  - rewrite <- (str_bytes (pretty_N_go _ _)), E, app_nil_r. done.
  - destruct (take_digits_pretty (N.pos p) "" 0 0 ltac:(lia)) as (k & E' & _). exists (0 + k). by rewrite E'.
Qed.

Lemma split_number_fmt n : split_number (fmt_d n) = (bool_decide (n < 0), Z.abs n, 0).
Proof.
  destruct n as [|p|p]; [done|..]; unfold fmt_d; destruct (split_pretty p) as (c & s & E & Hc & k & Ht).
  - change (pretty (Z.pos p)) with (pretty (N.pos p)). unfold split_number. rewrite E. cbv iota.
    assert ((code c =? 45)%N = false) as -> by all_bytes c. rewrite <- E, Ht. done.
  - change (pretty (Z.neg p)) with (String "-" (pretty (N.pos p))). unfold split_number. cbv iota.
    change ((code "-" =? 45)%N) with true. cbv iota. rewrite Ht. done.
Qed.

(** [strconv.ParseInt] undoes [%d]. *)
Lemma digit_val_pretty n : (n < 10)%N → digit_val (pretty_N_char n) = Some (Z.of_N n).
Proof.
  intros Hn. assert (H : forallb (λ n, bool_decide (digit_val (pretty_N_char n) = Some (Z.of_N n))) (N.of_nat <$> seq 0 10) = true) by (vm_compute; reflexivity).
  rewrite forallb_forall in H. specialize (H n). rewrite <- list_elem_of_In, list_elem_of_fmap in H.
  apply bool_decide_eq_true in H; [done|]. exists (N.to_nat n). rewrite elem_of_seq. lia.
Qed.

Lemma parse_digits_pretty x s acc : (0 < x)%N →
  ∃ k, parse_digits acc (pretty_N_go x s) = parse_digits (acc * 10 ^ k + Z.of_N x) s ∧ 0 < k.
Proof.
  revert s acc. induction (N.lt_wf_0 x) as [x _ IH]. intros s acc Hx. rewrite pretty_N_go_step by done.
  assert (Hm : (x mod 10 < 10)%N) by (by apply N.mod_lt). pose proof (digit_val_pretty _ Hm) as Hd.
  pose proof (N.div_mod x 10 ltac:(done)) as Hdm.
  destruct (decide (0 < x / 10)%N) as [Hq|Hq].
  - destruct (IH (x / 10)%N ltac:(apply N.div_lt; lia) (String (pretty_N_char (x mod 10)) s) acc Hq) as (k & E & Hk).
    exists (k + 1). rewrite E. split; [|lia]. cbn [parse_digits]. rewrite Hd. cbn [mbind option_bind]. f_equal.
    rewrite Z.pow_add_r by lia. change (10 ^ 1) with 10. lia.
  - assert (H0 : (x / 10 = 0)%N) by lia. rewrite H0, pretty_N_go_0. exists 1. split; [|lia].
    cbn [parse_digits]. rewrite Hd. cbn [mbind option_bind]. f_equal. rewrite H0 in Hdm. change (10 ^ 1) with 10. lia.
Qed.

Lemma ParseInt_fmt n : in_int64 n → ParseInt (fmt_d n) = Ok n.
Proof.
  intros Hn. assert (Hp : ∀ p, parse_digits 0 (pretty (N.pos p)) = Some (Z.pos p)).
  { intros p. assert (pretty (N.pos p) = pretty_N_go (N.pos p) "") as -> by (unfold pretty, pretty_N; by rewrite decide_False).
    destruct (parse_digits_pretty (N.pos p) "" 0 ltac:(lia)) as (k & -> & _). done. }
  destruct n as [|p|p]; [done|..]; destruct (split_pretty p) as (c & s & E & Hc & _); unfold fmt_d.
  - change (pretty (Z.pos p)) with (pretty (N.pos p)). unfold ParseInt. rewrite E.
    assert (Hm : c ≠ "-"%char ∧ c ≠ "+"%char) by (split; intros ->; done). destruct Hm as [Hm1 Hm2].
    rewrite (decide_False (P := c = "-"%char)), (decide_False (P := c = "+"%char)), decide_False, <- E, Hp by done.
    by rewrite decide_True.
  - assert (Hneg : ∀ b, b = pretty (N.pos p) → ParseInt (String "-" b) =
      (if decide (b = "") then Err ("strconv.ParseInt: parsing " +:+ fmt_q (String "-" b) +:+ ": invalid syntax")
       else match parse_digits 0 b with
            | None => Err ("strconv.ParseInt: parsing " +:+ fmt_q (String "-" b) +:+ ": invalid syntax")
            | Some n => if decide (in_int64 (- n)) then Ok (- n)
                        else Err ("strconv.ParseInt: parsing " +:+ fmt_q (String "-" b) +:+ ": value out of range")
            end)) by done.
    change (pretty (Z.neg p)) with (String "-" (pretty (N.pos p))).
    rewrite (Hneg _ eq_refl), Hp, decide_False by (by rewrite E). by rewrite decide_True.
Qed.

Lemma fmt_d_number n : number_literal (fmt_d n) = true.
Proof.
  destruct n as [|p|p]; [done|by apply int_literal_number, fmt_d_literal|].
  change (fmt_d (Z.neg p)) with (String "-" (fmt_d (Z.pos p))).
  destruct (int_literal_shape (fmt_d (Z.pos p))) as (c & l & E & st & st' & Hc & Hr & Hst); [by apply fmt_d_literal|].
  unfold number_literal. change (bytes (String "-" ?x)) with ("-"%char :: bytes x). rewrite E. cbn [num_start].
  change (num_start "-") with (Some NNeg). cbn [num_run].
  assert (Hn : num_next NNeg c = Some st).
  { unfold int_literal in *. pose proof (fmt_d_literal (Z.pos p) ltac:(lia)) as Hl. unfold int_literal in Hl. rewrite E in Hl.
    apply andb_prop in Hl as [[Hd _]%andb_prop _]. revert Hc. all_bytes c. }
  rewrite Hn, Hr. by destruct Hst as [-> | ->].
Qed.

(** ** Rounding of integers that need none *)

Lemma digits2_bounds p : 2 ^ (Z.pos (digits2_pos p) - 1) ≤ Z.pos p < 2 ^ Z.pos (digits2_pos p).
Proof.
  induction p as [p IH|p IH|]; cbn [digits2_pos]; [..|done]; rewrite Pos2Z.inj_succ;
    (assert (H1 : Z.succ (Z.pos (digits2_pos p)) - 1 = Z.pos (digits2_pos p)) by lia);
    (assert (H2 : 2 ^ Z.pos (digits2_pos p) = 2 * 2 ^ (Z.pos (digits2_pos p) - 1)) by (rewrite <- Z.pow_succ_r by lia; f_equal; lia));
    rewrite H1, Z.pow_succ_r, H2 in *; lia.
Qed.

Lemma digits2_small p : Z.pos p < 2 ^ 53 → Z.pos (digits2_pos p) ≤ 53.
Proof.
  intros Hp. destruct (digits2_bounds p) as [Hl _]. destruct (decide (Z.pos (digits2_pos p) ≤ 53)) as [|Hn]; [done|].
  assert (2 ^ 53 ≤ 2 ^ (Z.pos (digits2_pos p) - 1)) by (apply Z.pow_le_mono_r; lia). lia.
Qed.

Lemma iter_xO p k : Z.pos (Pos.iter xO p k) = Z.pos p * 2 ^ Z.pos k ∧ digits2_pos (Pos.iter xO p k) = (digits2_pos p + k)%positive.
Proof.
  induction k as [|k IH] using Pos.peano_ind.
  - split; [|cbn; lia]. change (Pos.iter xO p 1) with (xO p). change (2 ^ 1) with 2. lia.
  - rewrite Pos.iter_succ. cbn [digits2_pos]. destruct IH as [H1 H2]. split; [|lia].
    rewrite Pos2Z.inj_succ, Z.pow_succ_r by lia. lia.
Qed.

(** A mantissa of 53 digits is not rounded. *)
Lemma round_aux_exact neg m e :
  Z.pos (digits2_pos m) = 53 → -1074 ≤ e ≤ 971 →
  binary_round_aux 53 1024 neg (Z.pos m) e loc_Exact = S754_finite neg m e.
Proof.
  intros Hd He. unfold binary_round_aux, shr_fexp.
  assert (Hz : fexp 53 1024 (Zdigits2 (Z.pos m) + e) - e = 0) by (unfold fexp, SpecFloat.emin, Zdigits2; lia).
  rewrite Hz. cbn [shr shr_record_of_loc shr_m loc_of_shr_record round_nearest_even]. rewrite Hz. cbn [shr shr_m].
  destruct (Z.leb_spec e (1024 - 53)); [done|lia].
Qed.

Lemma binary_round_exact neg p :
  Z.pos p < 2 ^ 53 → ∃ m e, binary_round 53 1024 neg p 0 = S754_finite neg m e ∧ -52 ≤ e ≤ 0 ∧ Z.pos m = Z.pos p * 2 ^ (- e).
Proof.
  intros Hp. pose proof (digits2_small p Hp) as Hd. unfold binary_round, shl_align.
  assert (fexp 53 1024 (Z.pos (digits2_pos p) + 0) - 0 = Z.pos (digits2_pos p) - 53) as -> by (unfold fexp, SpecFloat.emin; lia).
  destruct (Z.pos (digits2_pos p) - 53) as [|k|k] eqn:E; [|lia|].
  - exists p, 0. rewrite round_aux_exact by lia. split_and!; [done|lia|lia|]. change (2 ^ (- 0)) with 1. lia.
  - destruct (iter_xO p k) as [Hv Hg]. exists (Pos.iter xO p k), (Z.neg k).
    assert (fexp 53 1024 (Z.pos (digits2_pos p) + 0) = Z.neg k) as -> by (unfold fexp, SpecFloat.emin; lia).
    rewrite round_aux_exact by lia. split_and!; [done|lia|lia|]. done.
Qed.

(** ** The way over a float64 *)

(** A duration that survives the detour over a float64. *)
Definition exact_int (n : Z) : Prop := ∃ f, ParseFloat (fmt_d n) = Some f ∧ float_to_int64 f = n.

Lemma exact_53 n : - 2 ^ 53 < n < 2 ^ 53 → exact_int n.
Proof.
  intros Hn. unfold exact_int, ParseFloat. rewrite split_number_fmt. unfold decimal_to_float.
  destruct (Z.eqb_spec (Z.abs n) 0) as [E|E]; [exists (S754_zero (bool_decide (n < 0))); split; [done|simpl; lia]|].
  assert (Hl : (0 + Z.log2 (Z.abs n) <? -1200) = false) by (apply Z.ltb_ge; pose proof (Z.log2_nonneg (Z.abs n)); lia).
  rewrite Hl. cbn [Z.ltb Z.leb Z.compare]. change (10 ^ 0) with 1. rewrite Z.mul_1_r.
  destruct (Z.abs n) as [|p|] eqn:Ea; [lia| |lia].
  assert (Hb : binary_normalize 53 1024 (if bool_decide (n < 0) then - Z.pos p else Z.pos p) 0 (bool_decide (n < 0)) =
    binary_round 53 1024 (bool_decide (n < 0)) p 0) by (by destruct (bool_decide (n < 0))).
  rewrite Hb. destruct (binary_round_exact (bool_decide (n < 0)) p ltac:(lia)) as (m & e & -> & He & Hm).
  eexists. split; [done|]. unfold float_to_int64.
  assert (Ha : (if 0 <=? e then Z.pos m * 2 ^ e else Z.pos m / 2 ^ (- e)) = Z.pos p).
  { destruct (Z.leb_spec 0 e); [assert (e = 0) as -> by lia; change (2 ^ 0) with 1; change (2 ^ (- 0)) with 1 in Hm; lia|].
    rewrite Hm. apply Z.div_mul. lia. }
  rewrite Ha. assert (Hz : (if bool_decide (n < 0) then - Z.pos p else Z.pos p) = n) by (case_bool_decide; lia). rewrite Hz.
  rewrite decide_True; [done|]. unfold in_int64, min_int64, max_int64. lia.
Qed.
