(* ===== verification/JsonStruct.v ===== *)
(** * Decoders of Go structs

    The fields of a struct as a list of names and decoders over the tuple of
    its values, and what such a decoder makes of the object that
    [json.Marshal] writes for the struct. *)
From Stdlib Require Import Ascii.
From stdpp Require Import options.
From S2P Require Import Prelude GoStd Types Json Marshal JsonText Numbers.
Open Scope string_scope.
Open Scope list_scope.
Open Scope Z_scope.

(** ** Fields *)

(** A field of a component of the state. *)
Definition field_map {S T : Type} (to : S → T) (from : T → S → S) (f : field T) : field S :=
  (f.1, λ p v s, let! t := f.2 p v (to s) in Ok (from t s)).

(** The field [name], followed by those of [fs]. *)
Definition fcons {A B : Type} (name : string) (d : decoder A) (fs : list (field B)) : list (field (A * B)) :=
  (name, λ p v s, let! x := d p v s.1 in Ok (x, s.2)) :: (field_map snd (λ y s, (s.1, y)) <$> fs).

Definition fend : list (field unit) := [].

(** The fields of a record, given as a tuple. *)
Definition via {S T : Type} (to : S → T) (from : T → S) (fs : list (field T)) : list (field S) :=
  field_map to (λ t _, from t) <$> fs.

Declare Scope fields_scope.
Delimit Scope fields_scope with fields.
Notation "n ↦ d ;; fs" := (fcons n d fs) (at level 60, d at level 59, right associativity) : fields_scope.

(** ** Lookup *)

(** The first field whose name passes the test. *)
Fixpoint first_field {A : Type} (test : string → bool) (fs : list (field A)) : option (field A) :=
  match fs with
  | [] => None
  | f :: fs' => if test f.1 then Some f else first_field test fs'
  end.

Lemma find_field_first {A : Type} (fs : list (field A)) k :
  find_field fs k =
  match first_field (λ n, bool_decide (n = k)) fs with
  | Some f => Some f
  | None => first_field (λ n, bool_decide (fold_string n = fold_string k)) fs
  end.
Proof.
  assert (H1 : ∀ fs : list (field A), snd <$> list_find (λ f, f.1 = k) fs = first_field (λ n, bool_decide (n = k)) fs).
  { clear. intros fs. induction fs as [|f fs IH]; [done|]. cbn [list_find first_field]. rewrite <- IH. case_bool_decide; case_decide; try done.
    match goal with |- snd <$> (_ <$> ?x) = _ => by destruct x as [[]|] end. }
  assert (H2 : ∀ fs : list (field A), snd <$> list_find (λ f, fold_string f.1 = fold_string k) fs =
    first_field (λ n, bool_decide (fold_string n = fold_string k)) fs).
  { clear. intros fs. induction fs as [|f fs IH]; [done|]. cbn [list_find first_field]. rewrite <- IH. case_bool_decide; case_decide; try done.
    match goal with |- snd <$> (_ <$> ?x) = _ => by destruct x as [[]|] end. }
  unfold find_field. rewrite <- H1, <- H2. match goal with |- match ?x with _ => _ end = _ => by destruct x as [[]|] end.
Qed.

Lemma first_field_map {S T : Type} (to : S → T) from test fs :
  first_field test (field_map to from <$> fs) = field_map to from <$> first_field test fs.
Proof. induction fs as [|f fs IH]; [done|]. cbn [fmap list_fmap first_field field_map fst]. by destruct (test f.1). Qed.

Lemma find_field_map {S T : Type} (to : S → T) from fs k :
  find_field (field_map to from <$> fs) k = field_map to from <$> find_field fs k.
Proof. rewrite !find_field_first, !first_field_map. by destruct (first_field _ fs). Qed.

Definition names_of {A : Type} (fs : list (field A)) : list string := fs.*1.

Lemma names_map {S T : Type} (to : S → T) from fs : names_of (field_map to from <$> fs) = names_of fs.
Proof. unfold names_of. by rewrite <- list_fmap_compose. Qed.

(** A key that is exactly the name of a later field. *)
Lemma find_field_skip {A B : Type} name (d : decoder A) (fs : list (field B)) k :
  k ≠ name → k ∈ names_of fs →
  find_field (fcons name d fs) k = field_map snd (λ y s, (s.1, y)) <$> find_field fs k.
Proof.
  intros Hne Hin. rewrite <- find_field_map, !find_field_first. unfold fcons. cbn [first_field fst].
  rewrite bool_decide_false by congruence.
  destruct (first_field (λ n, bool_decide (n = k)) (field_map snd (λ y s, (s.1, y)) <$> fs)) as [f|] eqn:E; [done|].
  exfalso. rewrite <- (names_map snd (λ (y : B) (s : A * B), (s.1, y))) in Hin. revert E.
  induction (field_map snd (λ y (s : A * B), (s.1, y)) <$> fs) as [|f l IH]; [by apply not_elem_of_nil in Hin|].
  cbn [first_field]. case_bool_decide as Hf; [done|]. apply elem_of_cons in Hin as [?|Hin]; [congruence|]. by apply IH.
Qed.

(** ** Decoding *)

Lemma dec_fields_via {S T : Type} (to : S → T) (from : T → S) fs name p l s :
  (∀ t, to (from t) = t) → (∀ s, from (to s) = s) →
  dec_fields name (via to from fs) p l s = (let! t := dec_fields name fs p l (to s) in Ok (from t)).
Proof.
  intros Htf Hft. revert s. induction l as [|[k v] l IH]; intros s; cbn [dec_fields]; [by rewrite <- (Hft s) at 1|].
  unfold via. rewrite find_field_map. destruct (find_field fs k) as [[f store]|]; cbn [fmap option_fmap option_map]; [|apply IH].
  unfold field_map at 1. cbn [fst snd]. destruct (store _ v (to s)) as [t|]; cbn [result_bind]; [|done].
  fold (via to from fs). rewrite IH. by rewrite Htf.
Qed.

Lemma dec_fields_skip {A B : Type} n (d : decoder A) (fs : list (field B)) name p l x s :
  Forall (λ kv, kv.1 ≠ n ∧ kv.1 ∈ names_of fs) l →
  dec_fields name (fcons n d fs) p l (x, s) = (let! t := dec_fields name fs p l s in Ok (x, t)).
Proof.
  intros Hl. revert s. induction Hl as [|[k v] l [Hne Hin] _ IH]; intros s; cbn [dec_fields]; [done|].
  rewrite find_field_skip by done. destruct (find_field fs k) as [[f store]|]; cbn [fmap option_fmap option_map]; [|apply IH].
  unfold field_map at 1. cbn [fst snd]. destruct (store _ v s) as [t|]; cbn [result_bind]; [|done]. apply IH.
Qed.

(** The object [l] fills these fields, which held [s], with [t]. *)
Definition reads {A : Type} (fs : list (field A)) (l : list (string * json)) (s t : A) : Prop :=
  l.*1 = names_of fs ∧ NoDup l.*1 ∧ ∀ name p, dec_fields name fs p l s = Ok t.

Lemma reads_end : reads fend [] tt tt.
Proof. split_and!; [done|constructor|done]. Qed.

Lemma reads_cons {A B : Type} n (d : decoder A) (fs : list (field B)) j l x s1 s2 t :
  n ∉ l.*1 → (∀ p, d p j s1 = Ok x) → reads fs l s2 t → reads (fcons n d fs) ((n, j) :: l) (s1, s2) (x, t).
Proof.
  intros Hn Hd (Hk & Hnd & Hr). split_and!.
  - csimpl. rewrite Hk. f_equal. symmetry. apply names_map.
  - csimpl. by apply NoDup_cons.
  - intros name p. cbn [dec_fields]. rewrite find_field_first. cbn [fcons first_field fst]. rewrite bool_decide_true by done.
    cbn [snd]. rewrite Hd. cbn [result_bind]. rewrite dec_fields_skip; [by rewrite Hr|].
    apply Forall_forall. intros [k v] Hin. assert (Hin' : k ∈ l.*1) by (apply list_elem_of_fmap; by exists (k, v)).
    split; cbn [fst]; [by intros ->|]. by rewrite <- Hk.
Qed.

Lemma reads_struct {S T : Type} (to : S → T) (from : T → S) fs l s t name ty p :
  (∀ t, to (from t) = t) → (∀ s, from (to s) = s) → reads fs l (to s) t →
  dec_struct name ty (via to from fs) p (JObj l) s = Ok (from t).
Proof. intros Htf Hft (_ & _ & Hr). unfold dec_struct. rewrite dec_fields_via by done. by rewrite Hr. Qed.

(** The object of the fields of [c] is read as [c]. *)
Lemma struct_reads_back {S T : Type} (to : S → T) (from : T → S) fs l s c name ty p :
  (∀ t, to (from t) = t) → (∀ s, from (to s) = s) → reads fs l (to s) (to c) →
  dec_struct name ty (via to from fs) p (JObj l) s = Ok c.
Proof. intros Htf Hft Hr. rewrite <- (Hft c). by apply reads_struct. Qed.

(** ** Values *)

Lemma dec_int_fmt n p old : in_int64 n → dec_int p (JNum (fmt_d n)) old = Ok n.
Proof. intros Hn. unfold dec_int. by rewrite ParseInt_fmt. Qed.

Lemma dec_string_str s p old : dec_string p (JStr s) old = Ok s.
Proof. done. Qed.

Lemma dec_elems_ok {A B : Type} (d : decoder A) (enc : B → json) (f : B → A) zero p l old :
  Forall (λ x, ∀ old, d p (enc x) old = Ok (f x)) l → dec_elems d zero p (enc <$> l) old = Ok (f <$> l).
Proof.
  intros Hl. revert old. induction Hl as [|x l Hx _ IH]; intros old; [done|]. cbn [fmap list_fmap dec_elems].
  rewrite Hx. cbn [result_bind]. by rewrite IH.
Qed.

Lemma dec_slice_ok {A B : Type} ty (d : decoder A) (enc : B → json) (f : B → A) zero p l old :
  Forall (λ x, ∀ old, d p (enc x) old = Ok (f x)) l → dec_slice ty d zero p (JArr (enc <$> l)) old = Ok (f <$> l).
Proof. apply dec_elems_ok. Qed.

(** A slice that was empty: every element starts from the zero value. *)
Lemma dec_slice_fresh {A : Type} ty (d : decoder A) (enc : A → json) zero p l :
  Forall (λ x, d p (enc x) zero = Ok x) l → dec_slice ty d zero p (JArr (enc <$> l)) [] = Ok l.
Proof.
  cbn [dec_slice]. induction 1 as [|x l Hx _ IH]; [done|]. cbn [fmap list_fmap dec_elems hd tl]. rewrite Hx. cbn [result_bind].
  by rewrite IH.
Qed.

(** A map, from the entries in any order. *)
Lemma dec_entries_ok {A : Type} (d : decoder A) (enc : A → json) zero p (l : list (string * A)) m :
  Forall (λ kv, d p (enc kv.2) zero = Ok kv.2) l →
  dec_entries d zero p (prod_map id enc <$> l) m = Ok (foldl (λ m kv, <[kv.1 := kv.2]> m) m l).
Proof.
  intros Hl. revert m. induction Hl as [|[k x] l Hx _ IH]; intros m; [done|].
  cbn [fmap list_fmap prod_map dec_entries fst snd foldl]. cbn [snd] in Hx. rewrite Hx. cbn [result_bind]. apply IH.
Qed.

Lemma foldl_insert_map {A : Type} (l : list (string * A)) (m : gmap string A) :
  NoDup l.*1 → foldl (λ m kv, <[kv.1 := kv.2]> m) m l = list_to_map l ∪ m.
Proof.
  revert m. induction l as [|[k x] l IH]; intros m; csimpl; [by rewrite left_id_L by apply _|]. intros [Hk Hl]%NoDup_cons.
  rewrite IH by done. rewrite <- insert_union_l, insert_union_r; [done|]. by apply not_elem_of_list_to_map.
Qed.

Lemma dec_map_ok {A : Type} ty (d : decoder A) (enc : A → json) zero p (m : gmap string A) :
  (∀ k x, m !! k = Some x → d p (enc x) zero = Ok x) →
  dec_map ty d zero p (JObj (prod_map id enc <$> map_to_list m)) ∅ = Ok m.
Proof.
  intros Hm. cbn [dec_map]. rewrite dec_entries_ok.
  - rewrite foldl_insert_map by apply NoDup_fst_map_to_list. by rewrite list_to_map_to_list, right_id_L by apply _.
  - apply Forall_forall. intros [k x] Hin%elem_of_map_to_list. by eapply Hm.
Qed.
