(* ===== verification/JsonPrint.v ===== *)
(** * JSON texts of nested values

    [json.Marshal] of values built from strings, lists and maps, to any
    depth, and that such a text is read back as the value and holds no line
    break, so that one value is one line. *)
From Stdlib Require Import Ascii.
From stdpp Require Import sorting options.
From S2P Require Import Prelude GoStd Json Marshal JsonText.
Open Scope string_scope.
Open Scope list_scope.
Open Scope nat_scope.

Fixpoint print (v : json) : string :=
  match v with
  | JNull => "null"
  | JBool true => "true"
  | JBool false => "false"
  | JNum lit => lit
  | JStr s => marshal_string s
  | JArr l => "[" +:+ join_with "," (print <$> l) +:+ "]"
  | JObj l => "{" +:+ join_with "," ((λ kv, marshal_string kv.1 +:+ ":" +:+ print kv.2) <$> l) +:+ "}"
  end.

(** Values with strings of valid UTF-8 and numbers of that form, nested no
    deeper than [d]. *)
Fixpoint printable (d : nat) (v : json) : Prop :=
  match v with
  | JNull | JBool _ => True
  | JNum lit => number_literal lit = true
  | JStr s => valid_string s
  | JArr l => match d with O => False | S d' => Forall (printable d') l end
  | JObj l => match d with O => False | S d' => Forall (λ kv, valid_string kv.1 ∧ printable d' kv.2) l end
  end.

(** A check for values with ASCII strings. *)
Fixpoint ascii_value (d : nat) (v : json) : bool :=
  match v with
  | JNull | JBool _ => true
  | JNum lit => number_literal lit
  | JStr s => forallb (λ c, code c <? 128)%N (bytes s)
  | JArr l => match d with O => false | S d' => forallb (ascii_value d') l end
  | JObj l => match d with O => false | S d' =>
      forallb (λ kv, forallb (λ c, code c <? 128)%N (bytes kv.1) && ascii_value d' kv.2) l end
  end.

Lemma ascii_printable d v : ascii_value d v = true → printable d v.
Proof.
  revert v. induction d as [|d IH]; intros [|b|lit|s|l|l]; cbn [ascii_value printable]; try done; try apply valid_ascii.
  - rewrite forallb_forall, Forall_forall. intros Hl x Hx%list_elem_of_In. by apply IH, Hl.
  - rewrite forallb_forall, Forall_forall. intros Hl [k x] [Hk Hx]%list_elem_of_In%Hl%andb_prop. split; [by apply valid_ascii|by apply IH].
Qed.

Lemma names_marshal s : valid_string s → names (marshal_string s) s.
Proof. intros Hs. exists (escape (bytes s)). split; [done|by apply escape_stands]. Qed.

Lemma print_array l : print (JArr l) = "[" +:+ "" +:+ commas "" (print <$> l) +:+ "" +:+ "]".
Proof. done. Qed.

Lemma print_object l :
  print (JObj l) = "{" +:+ "" +:+ commas "" (field_text "" <$> (prod_map marshal_string print <$> l)) +:+ "" +:+ "}".
Proof. by rewrite <- list_fmap_compose. Qed.

Lemma print_spells d v : printable d v → spells d (print v) v.
Proof.
  revert v. induction d as [|d IH]; intros v; destruct v as [|[]|lit|s|l|l]; try done; intros Hv;
    try (apply spells_word; intros ph st top [-> | ->] rest; reflexivity);
    try (by apply spells_number); try (by apply spells_string, names_marshal).
  - rewrite print_array. apply spells_array; try apply blank_nil. apply Forall2_fmap_l, Forall_Forall2_diag.
    eapply Forall_impl; [exact Hv|]. intros x. apply IH.
  - rewrite print_object. apply spells_object; try apply blank_nil. apply Forall2_fmap_l, Forall_Forall2_diag.
    eapply Forall_impl; [exact Hv|]. intros [k x] [H1 H2]. split; [by apply names_marshal|by apply IH].
Qed.

(** The text of a value is read back as the value. *)
Lemma parse_print d v : printable d v → d ≤ 1000 → parse (print v) = Ok v.
Proof.
  intros Hv Hd. rewrite <- (str_app_nil (print v)). apply (parse_spells d); [by apply print_spells|done|apply blank_nil].
Qed.

(** ** No line breaks *)

Definition visible (c : ascii) : Prop := (32 <=? code c)%N = true.

Lemma visible_ascii c : Forall visible (escape_ascii c).
Proof.
  assert (H : forallb (λ c, 32 <=? code c)%N (escape_ascii c) = true)
    by (destruct c as [[] [] [] [] [] [] [] []]; vm_compute; reflexivity).
  apply Forall_forall. intros x Hx%list_elem_of_In. by apply (proj1 (forallb_forall _ _) H).
Qed.

Lemma visible_high l : Forall (λ c, (128 ≤ code c)%N) l → Forall visible l.
Proof. intros H. eapply Forall_impl; [exact H|]. intros c Hc. apply N.leb_le. cbv beta in Hc. lia. Qed.

Lemma visible_escape l : valid_utf8 l → Forall visible (escape l).
Proof.
  induction 1 as [|c l Hc _ IH|c c1 l H _ IH|c c1 c2 l H _ IH|c c1 c2 c3 l H _ IH]; cbn [escape]; [done|..].
  - rewrite (proj2 (N.ltb_lt _ _) Hc). apply Forall_app. split; [apply visible_ascii|done].
  - destruct (rune2_high _ _ H) as [Hc Hh]. destruct (high_byte c ltac:(lia)) as (_ & _ & _ & ->). rewrite H.
    apply Forall_app. split; [by apply visible_high|done].
  - destruct (rune3_high _ _ _ H) as [Hc Hh]. destruct (high_byte c ltac:(lia)) as (_ & _ & _ & ->).
    rewrite not_rune2, H by lia. apply Forall_app. split; [|done]. unfold escape3.
    destruct (separator c c1 c2) eqn:Es; [|by apply visible_high].
    unfold separator in Es. apply andb_prop in Es as [_ [->%N.eqb_eq%code_inj| ->%N.eqb_eq%code_inj]%orb_prop];
      repeat constructor.
  - destruct (rune4_high _ _ _ _ H) as [Hc Hh]. destruct (high_byte c ltac:(lia)) as (_ & _ & _ & ->).
    rewrite not_rune2, not_rune3, H by lia. apply Forall_app. split; [by apply visible_high|done].
Qed.

Definition one_line (s : string) : Prop := Forall visible (bytes s).

Lemma one_line_app a b : one_line (a +:+ b) ↔ one_line a ∧ one_line b.
Proof. unfold one_line. by rewrite bytes_app, Forall_app. Qed.

Lemma one_line_string s : valid_string s → one_line (marshal_string s).
Proof.
  intros Hs. unfold one_line, marshal_string. cbn [bytes String.list_ascii_of_string].
  constructor; [done|]. fold (bytes (str (escape (bytes s)) +:+ String dquote EmptyString)).
  rewrite bytes_app, bytes_str. apply Forall_app. split; [by apply visible_escape|]. by repeat constructor.
Qed.

Lemma one_line_join l : Forall one_line l → one_line (join_with "," l).
Proof.
  induction 1 as [|s l Hs Hl IH]; [constructor|]. destruct l as [|s' l]; [done|].
  rewrite join_cons. rewrite !one_line_app. split_and!; [done| |done]. by repeat constructor.
Qed.

Lemma one_line_number lit : number_literal lit = true → one_line lit.
Proof.
  intros H%number_bytes. eapply Forall_impl; [exact H|]. intros c Hc. apply N.leb_le. cbv beta in Hc. lia.
Qed.

Lemma one_line_print d v : printable d v → one_line (print v).
Proof.
  revert v. induction d as [|d IH]; intros v; destruct v as [|[]|lit|s|l|l]; try done; intros Hv;
    try (by apply one_line_string); try (by apply one_line_number); try (by repeat constructor).
  - cbn [print]. rewrite !one_line_app. split_and!; [by repeat constructor| |by repeat constructor].
    apply one_line_join, Forall_fmap. eapply Forall_impl; [exact Hv|]. intros x. apply IH.
  - cbn [print]. rewrite !one_line_app. split_and!; [by repeat constructor| |by repeat constructor].
    apply one_line_join, Forall_fmap. eapply Forall_impl; [exact Hv|]. intros [k x] [Hk Hx]. simpl.
    rewrite !one_line_app. split_and!; [by apply one_line_string|by repeat constructor|by apply IH].
Qed.

(** ** Maps *)

(** The entries in the order in which [json.Marshal] writes them. *)
Definition entry_le {A : Type} (x y : string * A) : Prop := String.leb x.1 y.1 = true.
Global Instance entry_le_dec {A : Type} : RelDecision (entry_le (A:=A)) := λ x y, decide (String.leb x.1 y.1 = true).

Definition sorted {A : Type} (m : gmap string A) : list (string * A) := merge_sort entry_le (map_to_list m).

Lemma elem_of_sorted {A} (m : gmap string A) k v : (k, v) ∈ sorted m ↔ m !! k = Some v.
Proof. unfold sorted. rewrite merge_sort_Permutation. apply elem_of_map_to_list. Qed.

Lemma sorted_keys {A} (m : gmap string A) : NoDup (sorted m).*1.
Proof. unfold sorted. rewrite merge_sort_Permutation. apply NoDup_fst_map_to_list. Qed.

Lemma sorted_Forall {A} (P : string * A → Prop) (m : gmap string A) :
  map_Forall (λ k v, P (k, v)) m → Forall P (sorted m).
Proof. intros Hm. apply Forall_forall. intros [k v] Hk%elem_of_sorted. by apply Hm. Qed.
