(* ===== verification/PyText.v ===== *)
(** * Python's strings and its [json] module, as the guest agent uses them

    A [str] is its UTF-8 text.  White space and letter case are those of
    ASCII, which is what the methods do on ASCII text.  [json.loads] is the
    scanner of [Json] with the three extra number words Python accepts; a
    Python number is the literal it was read from.  [json.dumps] escapes
    everything outside of ASCII.  A lone surrogate, which no UTF-8 text
    holds, is read as U+FFFD.  Python's limits on the depth of nesting and on
    the number of digits of an integer are not modelled. *)
From Stdlib Require Import Ascii SpecFloat.
From stdpp Require Import options.
Set Default Proof Using "Type*".
From S2P Require Import Prelude GoStd Types Json Marshal JsonText Numbers.
Open Scope string_scope.
Open Scope list_scope.
Open Scope nat_scope.

(** ** Strings *)

Definition py_space (c : ascii) : bool := between 9 13 c || between 28 32 c.

Fixpoint lstrip_by (p : ascii → bool) (l : list ascii) : list ascii :=
  match l with
  | [] => []
  | c :: l' => if p c then lstrip_by p l' else l
  end.

Definition rstrip_by (p : ascii → bool) (l : list ascii) : list ascii := rev (lstrip_by p (rev l)).

Definition strip (s : string) : string := str (rstrip_by py_space (lstrip_by py_space (bytes s))).

(** [s.rstrip(",")] *)
Definition rstrip_commas (s : string) : string := str (rstrip_by (λ c, code c =? 44)%N (bytes s)).

(** The text from the first occurrence of [sub] on: [s[s.index(sub):]]. *)
Fixpoint from_first (sub s : string) : option string :=
  if HasPrefix s sub then Some s
  else match s with EmptyString => None | String _ s' => from_first sub s' end.

(** [sub in s] *)
Definition contains (sub s : string) : bool := match from_first sub s with Some _ => true | None => false end.

Definition map_bytes (f : ascii → ascii) (s : string) : string := str (f <$> bytes s).
Definition upper (s : string) : string :=
  map_bytes (λ c, if between 97 122 c then byte_of (code c - 32) else c) s.
Definition lower (s : string) : string :=
  map_bytes (λ c, if between 65 90 c then byte_of (code c + 32) else c) s.

Definition py_newline : string := String (byte_of 10) "".
Definition is_nl (c : ascii) : bool := (code c =? 10)%N.

(** [s.split("\n")] and ["\n".join(l)] *)
Definition split_lines (s : string) : list string := split_on is_nl s.
Definition join_lines (l : list string) : string := join_with py_newline l.

(** The first [n] characters. *)
Fixpoint take_chars (n : nat) (l : list ascii) : list ascii :=
  match l with
  | [] => []
  | c :: l' => if cont c then c :: take_chars n l' else match n with O => [] | S n' => c :: take_chars n' l' end
  end.
Definition first_chars (n : nat) (s : string) : string := str (take_chars n (bytes s)).

(** Whether bytes are UTF-8: [b.decode("utf-8")] succeeds. *)
Fixpoint utf8_ok (l : list ascii) : bool :=
  match l with
  | [] => true
  | c :: l1 =>
    if (code c <? 128)%N then utf8_ok l1
    else
      match l1 with
      | c1 :: l2 =>
        if rune2 c c1 then utf8_ok l2
        else
          match l2 with
          | c2 :: l3 =>
            if rune3 c c1 c2 then utf8_ok l3
            else match l3 with c3 :: l4 => rune4 c c1 c2 c3 && utf8_ok l4 | [] => false end
          | [] => false
          end
      | [] => false
      end
  end.

(** ** [json.dumps] *)

Definition hex4_of (n : N) : list ascii :=
  [hex_digit (n / 4096); hex_digit (n / 256 mod 16); hex_digit (n / 16 mod 16); hex_digit (n mod 16)]%N.

Definition u_escape (n : N) : list ascii := backslash :: byte_of 117 :: hex4_of n.

Definition py_escape_ascii (c : ascii) : list ascii :=
  match code c with
  | 92 | 34 => [backslash; c]
  | 8 => [backslash; byte_of 98]
  | 12 => [backslash; byte_of 102]
  | 10 => [backslash; byte_of 110]
  | 13 => [backslash; byte_of 114]
  | 9 => [backslash; byte_of 116]
  | n => if ((n <? 32) || (n =? 127))%N then u_escape n else [c]
  end%N.

(** A character from U+0080 on; beyond U+FFFF, two surrogates. *)
Definition py_escape_rune (r : N) : list ascii :=
  (if r <? 65536 then u_escape r
   else u_escape (55296 + (r - 65536) / 1024) ++ u_escape (56320 + (r - 65536) mod 1024))%N.

Definition low6 (c : ascii) : N := (code c - 128)%N.
Definition decode2 (c c1 : ascii) : N := ((code c - 192) * 64 + low6 c1)%N.
Definition decode3 (c c1 c2 : ascii) : N := ((code c - 224) * 4096 + low6 c1 * 64 + low6 c2)%N.
Definition decode4 (c c1 c2 c3 : ascii) : N :=
  ((code c - 240) * 262144 + low6 c1 * 4096 + low6 c2 * 64 + low6 c3)%N.

Fixpoint py_escape (l : list ascii) : list ascii :=
  match l with
  | [] => []
  | c :: l1 =>
    if (code c <? 128)%N then py_escape_ascii c ++ py_escape l1
    else
      match l1 with
      | c1 :: l2 =>
        if rune2 c c1 then py_escape_rune (decode2 c c1) ++ py_escape l2
        else
          match l2 with
          | c2 :: l3 =>
            if rune3 c c1 c2 then py_escape_rune (decode3 c c1 c2) ++ py_escape l3
            else
              match l3 with
              | c3 :: l4 =>
                if rune4 c c1 c2 c3 then py_escape_rune (decode4 c c1 c2 c3) ++ py_escape l4
                else escape_bad ++ py_escape l1
              | [] => escape_bad ++ py_escape l1
              end
          | [] => escape_bad ++ py_escape l1
          end
      | [] => escape_bad
      end
  end.

Definition py_string (s : string) : string := literal (py_escape (bytes s)).

(** [json.dumps(v, separators=("," + csp, ":" + ksp))]; the text of a number
    is given by [num]. *)
Fixpoint dumps (num : string → string) (csp ksp : string) (v : json) : string :=
  match v with
  | JNull => "null"
  | JBool true => "true"
  | JBool false => "false"
  | JNum lit => num lit
  | JStr s => py_string s
  | JArr l => "[" +:+ commas csp (dumps num csp ksp <$> l) +:+ "]"
  | JObj l => "{" +:+ commas csp ((λ kv, field_text ksp (py_string kv.1, dumps num csp ksp kv.2)) <$> l) +:+ "}"
  end.

(** *** Numbers *)

(** [repr] of the float a literal with a point or an exponent spells. *)
Class PyFloat := float_repr : string → string.

(** It is a literal that reads back as the same float. *)
Class PyFloatLaw `{!PyFloat} : Prop :=
  float_repr_law lit f : number_literal lit = true → ParseFloat lit = Some f →
    number_literal (float_repr lit) = true ∧ ParseFloat (float_repr lit) = Some f.

(** The literals of floats have a point or an exponent, or are one of the
    words [NaN], [Infinity] and [-Infinity]. *)
Definition is_float (lit : string) : bool :=
  existsb (λ c, (code c =? 46)%N || is_e c || (code c =? 78)%N || (code c =? 73)%N) (bytes lit).

(** The text [json.dumps] writes for a number read from [lit]. *)
Definition py_num `{!PyFloat} (lit : string) : string :=
  if is_float lit then float_repr lit else if decide (lit = "-0") then "0" else lit.

(** The float a literal spells. *)
Definition py_float (lit : string) : float64 :=
  if decide (lit = "NaN") then S754_nan
  else if decide (lit = "Infinity") then S754_infinity false
  else if decide (lit = "-Infinity") then S754_infinity true
  else let '(neg, m, e) := split_number lit in decimal_to_float neg m e.

(** The integer a literal without point and exponent spells. *)
Definition py_integer (lit : string) : Z := let '(neg, m, _) := split_number lit in if neg then (- m)%Z else m.

(** ** [json.loads] *)

Definition py_step (c : ascii) (s : scanner) : result scanner :=
  match sc_phase s with
  | AtValue | AtValueOrEnd =>
    if (code c =? 78)%N then Ok (in_phase (AtLiteral "NaN" "aN" (JNum "NaN")) s)
    else if (code c =? 73)%N then Ok (in_phase (AtLiteral "Infinity" "nfinity" (JNum "Infinity")) s)
    else scan_step c s
  | AtNumber NNeg _ =>
    if (code c =? 73)%N then Ok (in_phase (AtLiteral "-Infinity" "nfinity" (JNum "-Infinity")) s)
    else scan_step c s
  | _ => scan_step c s
  end.

Fixpoint py_scan (text : string) (s : scanner) : result scanner :=
  match text with
  | EmptyString => Ok s
  | String c text' => let! s' := py_step c s in py_scan text' s'
  end.

(** A dict keeps the place of a key's first and the value of its last
    occurrence. *)
Fixpoint dict_set (k : string) (v : json) (l : list (string * json)) : list (string * json) :=
  match l with
  | [] => [(k, v)]
  | (k', v') :: l' => if decide (k = k') then (k, v) :: l' else (k', v') :: dict_set k v l'
  end.

Definition to_dict (l : list (string * json)) : list (string * json) := foldl (λ d kv, dict_set kv.1 kv.2 d) [] l.

Fixpoint py_value (v : json) : json :=
  match v with
  | JArr l => JArr (py_value <$> l)
  | JObj l => JObj (to_dict ((λ kv, (kv.1, py_value kv.2)) <$> l))
  | _ => v
  end.

(** [None] is the [JSONDecodeError]. *)
Definition loads (text : string) : option json :=
  match py_scan text (mkScanner [] AtValue None) with
  | Ok s => match scan_eof s with Ok v => Some (py_value v) | Err _ => None end
  | Err _ => None
  end.

(** [d.get(key, default)] of a dict. *)
Fixpoint dict_get (l : list (string * json)) (key : string) : option json :=
  match l with
  | [] => None
  | (k, v) :: l' => if decide (k = key) then Some v else dict_get l' key
  end.

(** ** What Python writes, Go reads *)

(** Digits of a number. *)
Lemma div_digit x y b : (y < b)%N → ((x * b + y) / b = x ∧ (x * b + y) mod b = y)%N.
Proof.
  intros Hy. split.
  - rewrite N.div_add_l by lia. rewrite N.div_small by done. lia.
  - rewrite N.add_comm, N.Div0.mod_add. by apply N.mod_small.
Qed.

Lemma hex_val_digit n : (n < 16)%N → hex_val (hex_digit n) = Some n.
Proof.
  intros Hn. assert (H : forallb (λ n, bool_decide (hex_val (hex_digit n) = Some n)) (N.of_nat <$> seq 0 16) = true)
    by (vm_compute; reflexivity).
  rewrite forallb_forall in H. apply (bool_decide_eq_true _), H, list_elem_of_In, list_elem_of_fmap.
  exists (N.to_nat n). rewrite elem_of_seq. lia.
Qed.

Lemma hex4_hex4_of n : (n < 65536)%N →
  ∃ a b c d, hex4_of n = [a; b; c; d] ∧ hex4 a b c d = Some n.
Proof.
  intros Hn. assert (n / 256 = n / 16 / 16 ∧ n / 4096 = n / 16 / 16 / 16)%N as [E1 E2] by (rewrite !N.Div0.div_div; done).
  assert (n / 16 / 16 / 16 < 16)%N.
  { rewrite !N.Div0.div_div. apply N.Div0.div_lt_upper_bound. lia. }
  do 4 eexists. split; [done|]. unfold hex4. rewrite E1, E2.
  rewrite !hex_val_digit by (done || by apply N.mod_lt). cbn [mbind option_bind]. f_equal.
  pose proof (N.div_mod n 16 ltac:(done)). pose proof (N.div_mod (n / 16) 16 ltac:(done)).
  pose proof (N.div_mod (n / 16 / 16) 16 ltac:(done)). lia.
Qed.

Lemma stands_u n : (n < 65536)%N → is_high n = false → is_low n = false → stands_for (utf8_encode n) (u_escape n).
Proof.
  intros Hn Hh Hl. unfold u_escape. destruct (hex4_hex4_of n Hn) as (a & b & c & d & -> & Hx). by apply stands_hex.
Qed.

Lemma stands_scan_u n old st top rest : (n < 65536)%N →
  scan (str (u_escape n) +:+ rest) (mkScanner st (AtString old) top) =
  scan rest (mkScanner st (AtString (old ++ u_escape n)) top).
Proof.
  intros Hn. unfold u_escape. destruct (hex4_hex4_of n Hn) as (a & b & c & d & -> & Hx). unfold hex4 in Hx.
  destruct (hex_val a) eqn:Ea; [|done]. destruct (hex_val b) eqn:Eb; [|done].
  destruct (hex_val c) eqn:Ec; [|done]. destruct (hex_val d) eqn:Ed; [|done].
  change (str _ +:+ rest) with (String backslash (String (byte_of 117) (String a (String b (String c (String d rest)))))).
  rewrite scan_backslash, scan_u. repeat (erewrite scan_hex by done). by rewrite <- !app_assoc.
Qed.

(** Two surrogates stand for one character. *)
Lemma stands_pair h l :
  is_high h = true → is_low l = true →
  stands_for (utf8_encode (65536 + (h - 55296) * 1024 + (l - 56320)))%N (u_escape h ++ u_escape l).
Proof.
  intros Hh Hl. assert (h < 65536 ∧ l < 65536)%N as [Hhn Hln].
  { unfold is_high in Hh. unfold is_low in Hl. apply andb_prop in Hh as [_ ?%N.ltb_lt]. apply andb_prop in Hl as [_ ?%N.ltb_lt]. lia. }
  split.
  - intros X. unfold u_escape. destruct (hex4_hex4_of h Hhn) as (a & b & c & d & -> & Hx).
    destruct (hex4_hex4_of l Hln) as (a' & b' & c' & d' & -> & Hx'). simpl. by rewrite Hx, Hh, Hx', Hl.
  - intros old st top rest. rewrite str_app, str_app_assoc, !stands_scan_u by done. by rewrite app_assoc.
Qed.

Lemma stands_rune r :
  (128 ≤ r < 1114112)%N → is_high r = false → is_low r = false → stands_for (utf8_encode r) (py_escape_rune r).
Proof.
  intros Hr Hh Hl. unfold py_escape_rune. destruct (N.ltb_spec r 65536); [by apply stands_u|].
  pose proof (N.div_mod (r - 65536) 1024 ltac:(done)) as Hd. pose proof (N.mod_lt (r - 65536) 1024 ltac:(done)) as Hm.
  assert (Hq : ((r - 65536) / 1024 < 1024)%N) by (apply N.Div0.div_lt_upper_bound; lia).
  revert Hd Hm Hq. generalize ((r - 65536) / 1024)%N ((r - 65536) mod 1024)%N. intros q m Hd Hm Hq.
  assert (Hp : (65536 + ((55296 + q) - 55296) * 1024 + ((56320 + m) - 56320) = r)%N) by lia.
  rewrite <- Hp at 1. apply stands_pair; unfold is_high, is_low; apply andb_true_intro; rewrite N.leb_le, N.ltb_lt; lia.
Qed.

Lemma byte_eq n c : (n = code c)%N → byte_of n = c.
Proof. intros ->. symmetry. by apply code_inj. Qed.

Lemma encode2 c c1 : rune2 c c1 = true → utf8_encode (decode2 c c1) = [c; c1] ∧ (128 ≤ decode2 c c1 < 2048)%N.
Proof.
  intros H. assert (Hb : (194 ≤ code c ≤ 223 ∧ 128 ≤ code c1 ≤ 191)%N) by (bytes_lia; lia). clear H.
  unfold utf8_encode, decode2. destruct (div_digit (code c - 192) (low6 c1) 64) as [Hq Hm]; [unfold low6; lia|].
  rewrite Hq, Hm. unfold low6 in *. split; [|lia].
  rewrite (proj2 (N.ltb_ge _ 128)), (proj2 (N.ltb_lt _ 2048)) by lia. f_equal; [|f_equal]; apply byte_eq; lia.
Qed.

Lemma encode3 c c1 c2 : rune3 c c1 c2 = true →
  utf8_encode (decode3 c c1 c2) = [c; c1; c2] ∧ (2048 ≤ decode3 c c1 c2 < 65536)%N ∧
  is_high (decode3 c c1 c2) = false ∧ is_low (decode3 c c1 c2) = false.
Proof.
  intros H. assert (Hb : (224 ≤ code c ≤ 239 ∧ 128 ≤ code c1 ≤ 191 ∧ 128 ≤ code c2 ≤ 191 ∧
    (code c = 224 → 160 ≤ code c1) ∧ (code c = 237 → code c1 ≤ 159))%N) by (bytes_lia; lia).
  clear H. assert (Hr : decode3 c c1 c2 = (((code c - 224) * 64 + low6 c1) * 64 + low6 c2)%N) by (unfold decode3; lia).
  assert (Hl : (2048 ≤ decode3 c c1 c2 < 65536)%N) by (unfold decode3, low6; lia).
  split_and!; [|lia|lia| |].
  - unfold utf8_encode. rewrite (proj2 (N.ltb_ge _ 128)), (proj2 (N.ltb_ge _ 2048)), (proj2 (N.ltb_lt _ 65536)) by lia.
    change 4096%N with (64 * 64)%N. rewrite <- N.Div0.div_div, Hr.
    destruct (div_digit ((code c - 224) * 64 + low6 c1) (low6 c2) 64) as [-> ->]; [unfold low6; lia|].
    destruct (div_digit (code c - 224) (low6 c1) 64) as [-> ->]; [unfold low6; lia|]. unfold low6.
    f_equal; [|f_equal; [|f_equal]]; apply byte_eq; lia.
  - unfold is_high. apply andb_false_iff. rewrite N.leb_gt, N.ltb_ge. unfold decode3, low6. lia.
  - unfold is_low. apply andb_false_iff. rewrite N.leb_gt, N.ltb_ge. unfold decode3, low6. lia.
Qed.

Lemma encode4 c c1 c2 c3 : rune4 c c1 c2 c3 = true →
  utf8_encode (decode4 c c1 c2 c3) = [c; c1; c2; c3] ∧ (65536 ≤ decode4 c c1 c2 c3 < 1114112)%N.
Proof.
  intros H. assert (Hb : (240 ≤ code c ≤ 244 ∧ 128 ≤ code c1 ≤ 191 ∧ 128 ≤ code c2 ≤ 191 ∧ 128 ≤ code c3 ≤ 191 ∧
    (code c = 240 → 144 ≤ code c1) ∧ (code c = 244 → code c1 ≤ 143))%N) by (bytes_lia; lia).
  clear H. assert (Hr : decode4 c c1 c2 c3 = ((((code c - 240) * 64 + low6 c1) * 64 + low6 c2) * 64 + low6 c3)%N)
    by (unfold decode4; lia).
  assert (Hl : (65536 ≤ decode4 c c1 c2 c3 < 1114112)%N) by (unfold decode4, low6; lia). split; [|done].
  unfold utf8_encode. rewrite (proj2 (N.ltb_ge _ 128)), (proj2 (N.ltb_ge _ 2048)), (proj2 (N.ltb_ge _ 65536)) by lia.
  change 262144%N with (64 * 64 * 64)%N. change 4096%N with (64 * 64)%N. rewrite <- !N.Div0.div_div, Hr.
  destruct (div_digit (((code c - 240) * 64 + low6 c1) * 64 + low6 c2) (low6 c3) 64) as [-> ->]; [unfold low6; lia|].
  destruct (div_digit ((code c - 240) * 64 + low6 c1) (low6 c2) 64) as [-> ->]; [unfold low6; lia|].
  destruct (div_digit (code c - 240) (low6 c1) 64) as [-> ->]; [unfold low6; lia|]. unfold low6.
  f_equal; [|f_equal; [|f_equal; [|f_equal]]]; apply byte_eq; lia.
Qed.

Lemma py_stands_ascii c : (code c < 128)%N → stands_for [c] (py_escape_ascii c).
Proof.
  intros Hc. destruct c as [[] [] [] [] [] [] [] []]; try (by vm_compute in Hc);
    match goal with |- stands_for [?c] _ =>
      first
        [ exact (stands_plain c eq_refl eq_refl eq_refl eq_refl)
        | exact (stands_short c eq_refl eq_refl)
        | exact (stands_short (byte_of 98) eq_refl eq_refl)
        | exact (stands_short (byte_of 102) eq_refl eq_refl)
        | exact (stands_short (byte_of 110) eq_refl eq_refl)
        | exact (stands_short (byte_of 114) eq_refl eq_refl)
        | exact (stands_short (byte_of 116) eq_refl eq_refl)
        | exact (stands_hex (byte_of 48) (byte_of 48) (hex_digit (code c / 16)) (hex_digit (code c mod 16))
            (code c) eq_refl eq_refl eq_refl) ]
    end.
Qed.

Lemma py_escape_stands l : valid_utf8 l → stands_for l (py_escape l).
Proof.
  induction 1 as [|c l Hc _ IH|c c1 l H _ IH|c c1 c2 l H _ IH|c c1 c2 c3 l H _ IH]; cbn [py_escape].
  - apply stands_nil.
  - rewrite (proj2 (N.ltb_lt _ _) Hc). apply (stands_app [c] l); [by apply py_stands_ascii|done].
  - destruct (rune2_high _ _ H) as [Hc _]. destruct (high_byte c ltac:(lia)) as (_ & _ & _ & ->). rewrite H.
    destruct (encode2 _ _ H) as [He Hr]. apply (stands_app [c; c1] l); [|done]. rewrite <- He.
    apply stands_rune; [lia|..]; unfold is_high, is_low; apply andb_false_iff; left; apply N.leb_gt; lia.
  - destruct (rune3_high _ _ _ H) as [Hc _]. destruct (high_byte c ltac:(lia)) as (_ & _ & _ & ->).
    rewrite not_rune2, H by lia. destruct (encode3 _ _ _ H) as (He & Hr & Hh & Hl).
    apply (stands_app [c; c1; c2] l); [|done]. rewrite <- He. apply stands_rune; [lia|done..].
  - destruct (rune4_high _ _ _ _ H) as [Hc _]. destruct (high_byte c ltac:(lia)) as (_ & _ & _ & ->).
    rewrite not_rune2, not_rune3, H by lia. destruct (encode4 _ _ _ _ H) as [He Hr].
    apply (stands_app [c; c1; c2; c3] l); [|done]. rewrite <- He.
    apply stands_rune; [lia|..]; unfold is_high, is_low; apply andb_false_iff; right; apply N.ltb_ge; lia.
Qed.

Lemma names_py s : valid_string s → names (py_string s) s.
Proof. intros Hs. exists (py_escape (bytes s)). split; [done|by apply py_escape_stands]. Qed.

(** A value whose strings are valid, nested no deeper than [d]; [ok] says
    which numbers it may hold. *)
Fixpoint dumpable (ok : string → Prop) (d : nat) (v : json) : Prop :=
  match v with
  | JNull | JBool _ => True
  | JNum lit => ok lit
  | JStr s => valid_string s
  | JArr l => match d with O => False | S d' => Forall (dumpable ok d') l end
  | JObj l => match d with O => False | S d' => Forall (λ kv, valid_string kv.1 ∧ dumpable ok d' kv.2) l end
  end.

Lemma dumpable_str ok d s : valid_string s → dumpable ok d (JStr s).
Proof. by destruct d. Qed.

Lemma dumpable_num (ok : string → Prop) d lit : ok lit → dumpable ok d (JNum lit).
Proof. by destruct d. Qed.

(** The value a reader sees: every number with the text it was written. *)
Fixpoint renumber (num : string → string) (v : json) : json :=
  match v with
  | JNum lit => JNum (num lit)
  | JArr l => JArr (renumber num <$> l)
  | JObj l => JObj ((λ kv, (kv.1, renumber num kv.2)) <$> l)
  | _ => v
  end.

Section dumps.
Context (num : string → string) (csp ksp : string).
Hypothesis blank_csp : blank csp.
Hypothesis blank_ksp : blank ksp.

Lemma dumps_spells ok d v :
  (∀ lit, ok lit → number_literal (num lit) = true) → dumpable ok d v → spells d (dumps num csp ksp v) (renumber num v).
Proof.
  intros Hok. revert v. induction d as [|d IH]; intros v; destruct v as [|[]|lit|s|l|l]; try done; intros Hv;
    try (apply spells_word; intros ph st top [-> | ->] rest; reflexivity);
    try (by apply spells_number, Hok); try (by apply spells_string, names_py).
  - cbn [dumps renumber]. apply (spells_array d "" ""); try apply blank_nil; [done|].
    apply Forall2_fmap, Forall_Forall2_diag. eapply Forall_impl; [exact Hv|]. intros x. apply IH.
  - cbn [dumps renumber].
    assert (Hl : Forall2 (field_spells d) (prod_map py_string (dumps num csp ksp) <$> l) ((λ kv, (kv.1, renumber num kv.2)) <$> l)).
    { apply Forall2_fmap, Forall_Forall2_diag. eapply Forall_impl; [exact Hv|]. intros [k x] [H1 H2].
      split; [by apply names_py|by apply IH]. }
    pose proof (spells_object d "" "" csp ksp _ _ blank_nil blank_nil blank_csp blank_ksp Hl) as Hs.
    by rewrite <- list_fmap_compose in Hs.
Qed.

Lemma parse_dumps ok d v sp :
  (∀ lit, ok lit → number_literal (num lit) = true) → dumpable ok d v → d ≤ 1000 → blank sp →
  parse (dumps num csp ksp v +:+ sp) = Ok (renumber num v).
Proof. intros Hok Hv Hd Hsp. apply (parse_spells d); [by eapply dumps_spells|done|done]. Qed.

End dumps.

(** Integers are written as they are. *)
Lemma digits_not_float l : forallb is_digit l = true → existsb (λ c, (code c =? 46)%N || is_e c || (code c =? 78)%N || (code c =? 73)%N) l = false.
Proof.
  assert (Hx : ∀ x, is_digit x = true → (code x =? 46)%N || is_e x || (code x =? 78)%N || (code x =? 73)%N = false) by (intros x Hx; all_bytes x).
  induction l as [|c l IH]; [done|]. cbn [forallb existsb]. intros [Hc Hl]%andb_prop. by rewrite Hx, IH.
Qed.

Lemma fmt_d_digits n : (0 ≤ n)%Z → ∃ c l, bytes (fmt_d n) = c :: l ∧ forallb is_digit (c :: l) = true.
Proof.
  intros Hl%fmt_d_literal. unfold int_literal in Hl. destruct (bytes (fmt_d n)) as [|c l]; [done|]. exists c, l.
  split; [done|]. by apply andb_prop in Hl as [? _].
Qed.

Lemma py_num_int `{!PyFloat} n : py_num (fmt_d n) = fmt_d n.
Proof.
  assert (Hf : is_float (fmt_d n) = false ∧ fmt_d n ≠ "-0"); [|destruct Hf as [Hf Hz]; unfold py_num; by rewrite Hf, decide_False].
  unfold is_float. destruct (decide (0 ≤ n)%Z) as [Hn|Hn].
  - destruct (fmt_d_digits n Hn) as (c & l & E & Hd). rewrite E. split; [by apply digits_not_float|].
    intros E'. rewrite E' in E. injection E as <- _. done.
  - destruct n as [|p|p]; [lia|lia|]. change (fmt_d (Z.neg p)) with (String "-" (fmt_d (Z.pos p))).
    destruct (fmt_d_digits (Z.pos p) ltac:(lia)) as (c & l & E & Hd).
    change (bytes (String "-" ?x)) with ("-"%char :: bytes x). rewrite E. split; [by apply (digits_not_float (c :: l))|].
    intros E'. assert (E2 : fmt_d (Z.pos p) = "0") by (by injection E'). pose proof (split_number_fmt (Z.pos p)) as Hs. rewrite E2 in Hs. by vm_compute in Hs.
Qed.

(** ** What Go reads, Python reads *)

Lemma py_step_extends c s s' : scan_step c s = Ok s' → py_step c s = Ok s'.
Proof.
  intros H. unfold py_step. destruct s as [st ph top]. cbn [sc_phase]. destruct ph as [| | | | | | | | |ns raw|]; try done.
  - destruct (code c =? 78)%N eqn:E1; [|destruct (code c =? 73)%N eqn:E2; [|done]].
    + apply N.eqb_eq, code_inj in E1 as ->. by vm_compute in H.
    + apply N.eqb_eq, code_inj in E2 as ->. by vm_compute in H.
  - destruct (code c =? 78)%N eqn:E1; [|destruct (code c =? 73)%N eqn:E2; [|done]].
    + apply N.eqb_eq, code_inj in E1 as ->. by vm_compute in H.
    + apply N.eqb_eq, code_inj in E2 as ->. by vm_compute in H.
  - destruct ns; try done. destruct (code c =? 73)%N eqn:E; [|done].
    apply N.eqb_eq, code_inj in E as ->. by vm_compute in H.
Qed.

Lemma py_scan_extends t s s' : scan t s = Ok s' → py_scan t s = Ok s'.
Proof.
  revert s. induction t as [|c t IH]; intros s; [done|]. cbn [scan py_scan].
  destruct (scan_step c s) as [s1|] eqn:E; [|done]. rewrite (py_step_extends _ _ _ E). apply IH.
Qed.

Lemma loads_parse t v : parse t = Ok v → loads t = Some (py_value v).
Proof.
  unfold parse, loads. destruct (scan t _) as [s|] eqn:E; [|done]. rewrite (py_scan_extends _ _ _ E).
  cbn [result_bind]. by intros ->.
Qed.

(** A text that ends inside a container is not accepted. *)
Lemma loads_unfinished t f st ph top :
  scan t (mkScanner [] AtValue None) = Ok (mkScanner (f :: st) ph top) →
  takes_space ph = true → loads t = None.
Proof.
  intros E Hp. unfold loads. rewrite (py_scan_extends _ _ _ E). unfold scan_eof, scan_step. cbn [sc_phase].
  by destruct ph.
Qed.

(** ** Dicts *)

Lemma dict_set_fresh k v l : k ∉ l.*1 → dict_set k v l = l ++ [(k, v)].
Proof.
  induction l as [|[k' v'] l IH]; intros Hk; [done|]. csimpl in Hk. apply not_elem_of_cons in Hk as [Hne Hk].
  simpl. rewrite decide_False by done. by rewrite IH.
Qed.

Lemma to_dict_nodup l : NoDup l.*1 → to_dict l = l.
Proof.
  intros Hl. unfold to_dict. assert (Hg : ∀ d, NoDup (d ++ l).*1 → foldl (λ d kv, dict_set kv.1 kv.2 d) d l = d ++ l); [|by apply (Hg [])].
  clear Hl. induction l as [|[k v] l IH]; intros d Hd; [by rewrite app_nil_r|]. simpl.
  rewrite fmap_app in Hd. csimpl in Hd. apply NoDup_app in Hd as (Hd & Hx & [Hk Hl]%NoDup_cons).
  rewrite dict_set_fresh by (intros Hin; apply (Hx k Hin); left). rewrite IH; [by rewrite <- app_assoc|].
  rewrite <- app_assoc, fmap_app. csimpl. apply NoDup_app. split_and!; [done|done|by apply NoDup_cons].
Qed.

(** No key occurs twice in an object. *)
Fixpoint distinct_keys (d : nat) (v : json) : Prop :=
  match v with
  | JArr l => match d with O => False | S d' => Forall (distinct_keys d') l end
  | JObj l => match d with O => False | S d' => NoDup l.*1 ∧ Forall (λ kv, distinct_keys d' kv.2) l end
  | _ => True
  end.

Lemma py_value_id d v : distinct_keys d v → py_value v = v.
Proof.
  revert v. induction d as [|d IH]; intros v; destruct v as [| | | |l|l]; try done; cbn [distinct_keys py_value].
  - intros Hl. f_equal. induction Hl as [|x l Hx _ IHl]; [done|]. csimpl. by rewrite IH, IHl.
  - intros [Hn Hl]. f_equal. assert (Hm : (λ kv : string * json, (kv.1, py_value kv.2)) <$> l = l).
    { clear Hn. induction Hl as [|[k x] l Hx _ IHl]; [done|]. csimpl. rewrite IHl. simpl in Hx. by rewrite (IH x). }
    rewrite Hm. by apply to_dict_nodup.
Qed.
