(* ===== verification/JsonTyped.v ===== *)
(** * The values JSON texts are read as

    Whatever text the scanners of [Json] and [PyText] are given, the value
    they return is well formed: its strings and keys are valid UTF-8, its
    numbers follow the grammar of JSON, and it is nested no deeper than the
    limit of the decoder.  The proof is an invariant of the scanner's state,
    kept by every byte. *)
From Stdlib Require Import Ascii.
From stdpp Require Import options.
Set Default Proof Using "Type*".
From S2P Require Import Prelude GoStd Json Marshal JsonText PyText.
Open Scope string_scope.
Open Scope list_scope.
Open Scope nat_scope.

(** ** UTF-8 *)

Lemma valid_app a b : valid_utf8 a → valid_utf8 b → valid_utf8 (a ++ b).
Proof. induction 1; intros Hb; simpl; [done|apply valid_one|apply valid_two|apply valid_three|apply valid_four]; auto. Qed.

Lemma valid_string_app a b : valid_string a → valid_string b → valid_string (a +:+ b).
Proof. unfold valid_string. rewrite bytes_app. apply valid_app. Qed.

Lemma code_byte n : (n < 256)%N → code (byte_of n) = n.
Proof. intros Hn. unfold code, byte_of. by apply N_ascii_embedding. Qed.

Ltac solve_between :=
  unfold rune2, rune3, rune4, cont, between; rewrite !code_byte by lia;
  rewrite ?andb_true_iff, ?orb_true_iff, ?andb_true_iff, ?orb_true_iff, ?andb_true_iff, ?N.leb_le, ?N.eqb_eq.

(** The bytes of a character. *)
Lemma valid_encode r :
  (r < 1114112)%N → is_high r = false → is_low r = false → valid_utf8 (utf8_encode r).
Proof.
  intros Hr Hh Hl. unfold utf8_encode.
  assert (Hs : (r < 55296 ∨ 57344 ≤ r)%N).
  { unfold is_high in Hh. unfold is_low in Hl. rewrite andb_false_iff, N.leb_gt, N.ltb_ge in Hh, Hl. lia. }
  pose proof (N.div_mod r 64 ltac:(done)) as H64. pose proof (N.mod_lt r 64 ltac:(done)) as M64.
  change 262144%N with (64 * 64 * 64)%N. change 4096%N with (64 * 64)%N. rewrite <- !N.Div0.div_div.
  revert H64 M64. generalize (r / 64)%N (r mod 64)%N. intros q m H64 M64.
  pose proof (N.div_mod q 64 ltac:(done)) as Hq. pose proof (N.mod_lt q 64 ltac:(done)) as Mq.
  revert Hq Mq. generalize (q / 64)%N (q mod 64)%N. intros q1 m1 Hq Mq.
  pose proof (N.div_mod q1 64 ltac:(done)) as Hq1. pose proof (N.mod_lt q1 64 ltac:(done)) as Mq1.
  revert Hq1 Mq1. generalize (q1 / 64)%N (q1 mod 64)%N. intros q2 m2 Hq1 Mq1.
  destruct (N.ltb_spec r 128); [apply valid_one; [rewrite code_byte; lia|constructor]|].
  destruct (N.ltb_spec r 2048); [apply valid_two; [solve_between; lia|constructor]|].
  destruct (N.ltb_spec r 65536); [apply valid_three; [solve_between; lia|constructor]|].
  apply valid_four; [solve_between; lia|constructor].
Qed.

Lemma utf8_ok_valid l : valid_utf8 l → utf8_ok l = true.
Proof.
  induction 1 as [|c l Hc _ IH|c c1 l H2 _ IH|c c1 c2 l H3 _ IH|c c1 c2 c3 l H4 _ IH]; [done|..]; cbn [utf8_ok].
  - by rewrite (proj2 (N.ltb_lt _ _) Hc).
  - assert (Hh : (code c <? 128)%N = false) by (apply N.ltb_ge; bytes_lia; lia). by rewrite Hh, H2.
  - assert (Hh : (code c <? 128)%N = false ∧ rune2 c c1 = false).
    { split; [apply N.ltb_ge; bytes_lia; lia|]. unfold rune2, between. rewrite !andb_false_iff, !N.leb_gt. bytes_lia; lia. }
    destruct Hh as [-> ->]. by rewrite H3.
  - assert (Hh : (code c <? 128)%N = false ∧ rune2 c c1 = false ∧ rune3 c c1 c2 = false).
    { split_and!; [apply N.ltb_ge; bytes_lia; lia| |].
      - unfold rune2, between. rewrite !andb_false_iff, !N.leb_gt. bytes_lia; lia.
      - unfold rune3, between. rewrite !andb_false_iff, !orb_false_iff, !andb_false_iff, !orb_false_iff, !andb_false_iff, !N.leb_gt, !N.eqb_neq.
        bytes_lia; lia. }
    destruct Hh as (-> & -> & ->). by rewrite H4, IH.
Qed.

(** *** Operations on valid texts *)

Lemma valid_tail c l : valid_utf8 (c :: l) → (code c < 128)%N → valid_utf8 l.
Proof. inversion 1; subst; [done|..]; intros Hc; exfalso; bytes_lia; lia. Qed.

(** A text can be cut at an ASCII character. *)
Lemma valid_cut l c r : valid_utf8 (l ++ c :: r) → (code c < 128)%N → valid_utf8 l ∧ valid_utf8 r.
Proof.
  intros Hv Hc. remember (l ++ c :: r) as x eqn:E. revert l E.
  induction Hv as [|a x Ha Hv IH|a a1 x Ha Hv IH|a a1 a2 x Ha Hv IH|a a1 a2 a3 x Ha Hv IH]; intros l E.
  - by destruct l.
  - destruct l as [|b l]; injection E as <- E; [subst; split; [constructor|done]|].
    destruct (IH l E). split; [by apply valid_one|done].
  - destruct l as [|b [|b1 l]]; simpl in E; [injection E as <- _|injection E as <- <- _|injection E as <- <- E];
      [exfalso; bytes_lia; lia..|]. destruct (IH l E). split; [by apply valid_two|done].
  - destruct l as [|b [|b1 [|b2 l]]]; simpl in E;
      [injection E as <- _|injection E as <- <- _|injection E as <- <- <- _|injection E as <- <- <- E];
      [exfalso; bytes_lia; lia..|]. destruct (IH l E). split; [by apply valid_three|done].
  - destruct l as [|b [|b1 [|b2 [|b3 l]]]]; simpl in E;
      [injection E as <- _|injection E as <- <- _|injection E as <- <- <- _|injection E as <- <- <- <- _|injection E as <- <- <- <- E];
      [exfalso; bytes_lia; lia..|]. destruct (IH l E). split; [by apply valid_four|done].
Qed.

Lemma valid_init l c : valid_utf8 (l ++ [c]) → (code c < 128)%N → valid_utf8 l.
Proof. intros Hv Hc. by apply (valid_cut l c []). Qed.

Lemma valid_lstrip p l : (∀ c, p c = true → (code c < 128)%N) → valid_utf8 l → valid_utf8 (lstrip_by p l).
Proof.
  intros Hp. induction l as [|c l IH]; intros Hl; [done|]. cbn [lstrip_by]. destruct (p c) eqn:E; [|done].
  apply IH. eapply valid_tail; [exact Hl|by apply Hp].
Qed.

Lemma valid_rstrip p l : (∀ c, p c = true → (code c < 128)%N) → valid_utf8 l → valid_utf8 (rstrip_by p l).
Proof.
  intros Hp. unfold rstrip_by. rewrite <- (rev_involutive l) at 1. induction (rev l) as [|c r IH]; intros Hl; [done|].
  cbn [lstrip_by]. destruct (p c) eqn:E; [|done]. apply IH. eapply valid_init; [exact Hl|by apply Hp].
Qed.

Lemma space_ascii c : py_space c = true → (code c < 128)%N.
Proof. unfold py_space. intros H. bytes_lia; lia. Qed.

Lemma valid_strip s : valid_string s → valid_string (strip s).
Proof.
  intros Hs. unfold strip, valid_string. rewrite bytes_str.
  apply valid_rstrip; [apply space_ascii|]. apply valid_lstrip; [apply space_ascii|done].
Qed.

Lemma valid_take_chars n l : valid_utf8 l → valid_utf8 (take_chars n l).
Proof.
  intros Hl. revert n. induction Hl as [|a x Ha Hv IH|a a1 x Ha Hv IH|a a1 a2 x Ha Hv IH|a a1 a2 a3 x Ha Hv IH]; intros n; [constructor|..];
    cbn [take_chars].
  - assert (Hc : cont a = false) by (unfold cont, between; apply andb_false_iff; rewrite !N.leb_gt; lia). rewrite Hc.
    destruct n; [constructor|]. by apply valid_one.
  - assert (Hc : cont a = false ∧ cont a1 = true) by (unfold cont, between; rewrite andb_false_iff, andb_true_iff, !N.leb_gt, !N.leb_le; bytes_lia; lia).
    destruct Hc as [-> ->]. destruct n; [constructor|]. by apply valid_two.
  - assert (Hc : cont a = false ∧ cont a1 = true ∧ cont a2 = true)
      by (unfold cont, between; rewrite andb_false_iff, !andb_true_iff, !N.leb_gt, !N.leb_le; bytes_lia; lia).
    destruct Hc as (-> & -> & ->). destruct n; [constructor|]. by apply valid_three.
  - assert (Hc : cont a = false ∧ cont a1 = true ∧ cont a2 = true ∧ cont a3 = true)
      by (unfold cont, between; rewrite andb_false_iff, !andb_true_iff, !N.leb_gt, !N.leb_le; bytes_lia; lia).
    destruct Hc as (-> & -> & -> & ->). destruct n; [constructor|]. by apply valid_four.
Qed.

Lemma valid_first_chars n s : valid_string s → valid_string (first_chars n s).
Proof. intros Hs. unfold first_chars, valid_string. rewrite bytes_str. by apply valid_take_chars. Qed.

Lemma valid_join sep l : valid_string sep → Forall valid_string l → valid_string (join_with sep l).
Proof.
  intros Hsep. induction 1 as [|s l Hs Hl IH]; [constructor|]. cbn [join_with].
  destruct l; [done|]. by repeat apply valid_string_app.
Qed.

(** ** String literals *)

(** What the scanner collects between quotes: a backslash is followed by an
    ASCII character. *)
Inductive body : list ascii → Prop :=
| body_nil : body []
| body_plain c l : code c ≠ 92%N → body l → body (c :: l)
| body_escape c u l : code c = 92%N → (code u < 128)%N → body l → body (c :: u :: l).

Lemma body_app a b : body a → body b → body (a ++ b).
Proof. induction 1; intros Hb; simpl; [done|apply body_plain|apply body_escape]; auto. Qed.

Lemma body_tail c l : body (c :: l) → code c ≠ 92%N → body l.
Proof. inversion 1; by subst. Qed.

Lemma body_unescape c l : body (c :: l) → code c = 92%N → ∃ u l', l = u :: l' ∧ (code u < 128)%N ∧ body l'.
Proof. inversion 1; subst; [done|]. eauto. Qed.

Lemma hex_not_backslash c n : hex_val c = Some n → code c ≠ 92%N ∧ (n < 16)%N.
Proof.
  unfold hex_val, between. intros H. repeat case_match; try done; injection H as <-;
    repeat match goal with H : _ && _ = true |- _ => apply andb_prop in H as [?%N.leb_le ?%N.leb_le] end; lia.
Qed.

Lemma hex4_body a b c d r l : hex4 a b c d = Some r → body (a :: b :: c :: d :: l) → (r < 65536)%N ∧ body l.
Proof.
  unfold hex4. intros H Hb. repeat (apply bind_Some in H as (? & ?%hex_not_backslash & H)). injection H as <-.
  split; [lia|]. do 4 (apply body_tail in Hb; [|naive_solver]). done.
Qed.

Lemma valid_replacement : valid_utf8 replacement.
Proof. by apply valid_encode. Qed.

Lemma escaped_ascii u : (code u < 128)%N → (code (escaped_byte u) < 128)%N.
Proof. intros Hu. all_bytes u. Qed.

Lemma pair_valid r r2 :
  is_high r = true → is_low r2 = true →
  valid_utf8 (utf8_encode (65536 + (r - 55296) * 1024 + (r2 - 56320))).
Proof.
  unfold is_high, is_low. rewrite !andb_true_iff, !N.leb_le, !N.ltb_lt. intros [? ?] [? ?].
  apply valid_encode; [lia|unfold is_high; apply andb_false_iff; rewrite N.leb_gt, N.ltb_ge; lia|].
  unfold is_low. apply andb_false_iff. rewrite N.leb_gt, N.ltb_ge. lia.
Qed.

Lemma cont_plain c : cont c = true → code c ≠ 92%N.
Proof. unfold cont, between. rewrite andb_true_iff, !N.leb_le. lia. Qed.

Lemma high_plain c : (code c <? 128)%N = false → code c ≠ 92%N.
Proof. rewrite N.ltb_ge. lia. Qed.

Lemma rune2_cont c c1 : rune2 c c1 = true → code c1 ≠ 92%N.
Proof. unfold rune2. intros [_ ?%cont_plain]%andb_prop. done. Qed.

Lemma rune3_cont c c1 c2 : rune3 c c1 c2 = true → code c1 ≠ 92%N ∧ code c2 ≠ 92%N.
Proof.
  unfold rune3, cont, between. rewrite ?andb_true_iff, ?orb_true_iff, ?andb_true_iff, ?orb_true_iff, ?andb_true_iff, ?N.leb_le. lia.
Qed.

Lemma rune4_cont c c1 c2 c3 : rune4 c c1 c2 c3 = true → code c1 ≠ 92%N ∧ code c2 ≠ 92%N ∧ code c3 ≠ 92%N.
Proof.
  unfold rune4, cont, between. rewrite ?andb_true_iff, ?orb_true_iff, ?andb_true_iff, ?orb_true_iff, ?andb_true_iff, ?N.leb_le. lia.
Qed.

(** An escape [\u], with what follows it. *)
Lemma unquote_u_valid h1 h2 h3 h4 l2 r :
  (∀ l, length l ≤ length l2 → body l → valid_utf8 (unquote l)) →
  hex4 h1 h2 h3 h4 = Some r → body (h1 :: h2 :: h3 :: h4 :: l2) →
  valid_utf8 (unquote (backslash :: byte_of 117 :: h1 :: h2 :: h3 :: h4 :: l2)).
Proof.
  intros IH Hx Hb. destruct (hex4_body _ _ _ _ _ _ Hx Hb) as [Hr Hb2]. cbn [unquote].
  change (code backslash =? 92)%N with true. change (code (byte_of 117) =? 117)%N with true. cbv iota. rewrite Hx.
  assert (Hrep : valid_utf8 (replacement ++ unquote l2)) by (apply valid_app; [apply valid_replacement|by apply IH]).
  destruct (is_high r) eqn:Hh; [|destruct (is_low r) eqn:Hl; [done|]].
  - destruct l2 as [|b [|v [|g1 [|g2 [|g3 [|g4 l3]]]]]]; try done.
    destruct ((code b =? 92)%N && (code v =? 117)%N) eqn:Hbv; [|done].
    destruct (hex4 g1 g2 g3 g4) as [r2|] eqn:Hg; [|done]. destruct (is_low r2) eqn:Hl2; [|done].
    apply andb_prop in Hbv as [Hb92%N.eqb_eq _]. apply valid_app; [by apply pair_valid|]. apply IH; [simpl; lia|].
    destruct (body_unescape _ _ Hb2 Hb92) as (u & l' & [= -> <-] & _ & Hb3). by apply (hex4_body _ _ _ _ _ _ Hg).
  - apply valid_app; [apply valid_encode; [lia|done|done]|by apply IH].
Qed.

(** A byte from 128 on, with what follows it. *)
Lemma unquote_high_valid c l1 :
  (∀ l, length l ≤ length l1 → body l → valid_utf8 (unquote l)) →
  (code c <? 128)%N = false → body l1 → valid_utf8 (unquote (c :: l1)).
Proof.
  intros IH Hc Hb. pose proof (high_plain _ Hc) as H92%N.eqb_neq. cbn [unquote]. rewrite H92, Hc.
  assert (Hrep : valid_utf8 (replacement ++ unquote l1)) by (apply valid_app; [apply valid_replacement|by apply IH]).
  destruct l1 as [|c1 l2]; [apply valid_replacement|]. fold (rune2 c c1).
  destruct (rune2 c c1) eqn:H2.
  { apply valid_two; [done|]. apply IH; [simpl; lia|]. eapply body_tail; [exact Hb|by eapply rune2_cont]. }
  destruct l2 as [|c2 l3]; [done|]. fold (rune3 c c1 c2). destruct (rune3 c c1 c2) eqn:H3.
  { destruct (rune3_cont _ _ _ H3) as [Hc1 Hc2]. apply valid_three; [done|]. apply IH; [simpl; lia|].
    eapply body_tail; [eapply body_tail; [exact Hb|done]|done]. }
  destruct l3 as [|c3 l4]; [done|]. fold (rune4 c c1 c2 c3). destruct (rune4 c c1 c2 c3) eqn:H4; [|done].
  destruct (rune4_cont _ _ _ _ H4) as (Hc1 & Hc2 & Hc3). apply valid_four; [done|]. apply IH; [simpl; lia|].
  eapply body_tail; [eapply body_tail; [eapply body_tail; [exact Hb|done]|done]|done].
Qed.

(** An escape of one character, as long as it is not the start of [\u]. *)
Lemma unquote_short c u l :
  code c = 92%N → (code u =? 117)%N = false → unquote (c :: u :: l) = escaped_byte u :: unquote l.
Proof.
  intros Hc Hu. cbn [unquote]. rewrite (proj2 (N.eqb_eq _ _) Hc).
  destruct l as [|h1 [|h2 [|h3 [|h4 l2]]]]; try done. by rewrite Hu.
Qed.

Lemma body_valid l : body l → valid_utf8 (unquote l).
Proof.
  remember (length l) as n eqn:Hn. assert (Hle : length l ≤ n) by lia. clear Hn. revert l Hle.
  induction n as [|n IH]; intros l Hle Hb; destruct l as [|c l1]; try (by constructor); [simpl in Hle; lia|].
  assert (IH' : ∀ l, length l ≤ length l1 → body l → valid_utf8 (unquote l)) by (intros; apply IH; simpl in *; [lia|done]).
  destruct (decide (code c = 92%N)) as [H92|H92].
  - destruct (body_unescape _ _ Hb H92) as (u & l' & -> & Hu & Hb'). destruct (code u =? 117)%N eqn:H117.
    + assert (backslash = c) as <- by (by apply byte_eq). apply N.eqb_eq in H117.
      assert (byte_of 117 = u) as <- by (by apply byte_eq).
      destruct l' as [|h1 [|h2 [|h3 [|h4 l2]]]].
      1-4: match type of Hb' with body ?X => apply (valid_one _ (unquote X)); [done|apply (IH' X); [simpl; lia|done]] end.
      destruct (hex4 h1 h2 h3 h4) as [r|] eqn:Hx; [|cbn [unquote]; change (code backslash =? 92)%N with true;
        change (code (byte_of 117) =? 117)%N with true; cbv iota; rewrite Hx; constructor].
      apply (unquote_u_valid _ _ _ _ _ r); [intros; apply IH'; [simpl; lia|done]|done|done].
    + rewrite unquote_short by done. apply valid_one; [by apply escaped_ascii|apply IH'; [simpl; lia|done]].
  - pose proof (body_tail _ _ Hb H92) as Hb'. destruct (code c <? 128)%N eqn:Hc; [|by apply unquote_high_valid].
    cbn [unquote]. rewrite (proj2 (N.eqb_neq _ _) H92), Hc. apply valid_one; [by apply N.ltb_lt|by apply IH'].
Qed.

(** ** The scanner's state *)

Section scanner.
Context (ok : string → Prop).
Hypothesis number_ok : ∀ lit, number_literal lit = true → ok lit.

(** The limit of the decoder. *)
Definition depth_limit : nat := N.to_nat max_depth.

Definition frame_ok (d : nat) (f : frame) : Prop :=
  match f with
  | FArr es => Forall (dumpable ok d) es
  | FObj fs key => Forall (λ kv, valid_string kv.1 ∧ dumpable ok d kv.2) fs ∧
                   match key with Some k => valid_string k | None => True end
  end.

Fixpoint frames_ok (st : list frame) : Prop :=
  match st with
  | [] => True
  | f :: st' => frame_ok (depth_limit - S (length st')) f ∧ S (length st') ≤ depth_limit ∧ frames_ok st'
  end.

Definition number_prefix (ns : num_state) (raw : list ascii) : Prop :=
  ∃ c l ns0, raw = c :: l ∧ num_start c = Some ns0 ∧ num_run ns0 l = Some ns.

Definition phase_ok (ph : phase) : Prop :=
  match ph with
  | AtString raw | AtHex raw _ => body raw
  | AtEscape raw => ∃ raw0 c, raw = raw0 ++ [c] ∧ code c = 92%N ∧ body raw0
  | AtNumber ns raw => number_prefix ns raw
  | AtLiteral _ _ v => dumpable ok 0 v
  | _ => True
  end.

Definition scanner_ok (s : scanner) : Prop :=
  frames_ok (sc_stack s) ∧ phase_ok (sc_phase s) ∧ ∀ v, sc_top s = Some v → dumpable ok depth_limit v.

Lemma dumpable_mono d d' v : d ≤ d' → dumpable ok d v → dumpable ok d' v.
Proof.
  revert d' v. induction d as [|d IH]; intros d' v Hd; destruct v as [|b|lit|s|l|l]; try (by destruct d'); try done.
  - destruct d' as [|d']; [lia|]. intros Hl. eapply Forall_impl; [exact Hl|]. intros x. apply IH. lia.
  - destruct d' as [|d']; [lia|]. intros Hl. eapply Forall_impl; [exact Hl|]. intros x [? ?]. split; [done|]. apply (IH d'); [lia|done].
Qed.

Lemma complete_ok v st top :
  frames_ok st → dumpable ok (depth_limit - length st) v → (∀ v, top = Some v → dumpable ok depth_limit v) →
  scanner_ok (complete v st top).
Proof.
  intros Hst Hv Ht. destruct st as [|[es|fs [k|]] st]; unfold scanner_ok; cbn [complete sc_stack sc_phase sc_top phase_ok frames_ok frame_ok].
  - split_and!; [done|done|]. intros v' [= <-]. by rewrite Nat.sub_0_r in Hv.
  - destruct Hst as (H1 & H2 & H3). split_and!; try done. apply Forall_app. split; [done|]. by apply Forall_singleton.
  - destruct Hst as ((H1 & Hk) & H2 & H3). split_and!; try done. apply Forall_app. split; [done|].
    by apply Forall_singleton.
  - done.
Qed.

Lemma after_value_ok c s s' : scanner_ok s → after_value c s = Ok s' → scanner_ok s'.
Proof.
  intros (Hst & Hph & Ht) H. unfold after_value in H. destruct (json_space c); [by injection H as <-|].
  destruct (sc_stack s) as [|[es|fs k] st] eqn:E; [done| |]; destruct Hst as (H1 & H2 & H3).
  - destruct (code c =? 44)%N; [by injection H as <-|]. destruct (code c =? 93)%N; [|done]. injection H as <-.
    apply complete_ok; [done| |done].
    assert (Hd : depth_limit - length st = S (depth_limit - S (length st))) by lia. by rewrite Hd.
  - destruct (code c =? 44)%N; [by injection H as <-|]. destruct (code c =? 125)%N; [|done]. injection H as <-.
    apply complete_ok; [done| |done].
    assert (Hd : depth_limit - length st = S (depth_limit - S (length st))) by lia. rewrite Hd. apply H1.
Qed.

Lemma in_phase_ok p s : scanner_ok s → phase_ok p → scanner_ok (in_phase p s).
Proof. intros (H1 & H2 & H3) Hp. by split_and!. Qed.

Lemma open_frame_ok c f p s s' :
  scanner_ok s → phase_ok p → frame_ok (depth_limit - S (length (sc_stack s))) f → open_frame c f p s = Ok s' → scanner_ok s'.
Proof.
  intros (H1 & H2 & H3) Hp Hf H. unfold open_frame in H. destruct (N.leb_spec max_depth (N.of_nat (length (sc_stack s)))); [done|].
  injection H as <-. unfold scanner_ok. cbn [sc_stack sc_phase sc_top frames_ok]. split_and!; try done. unfold depth_limit. lia.
Qed.

Lemma number_prefix_start c ns : num_start c = Some ns → number_prefix ns [c].
Proof. intros H. by exists c, [], ns. Qed.

Lemma num_run_snoc ns0 l c ns ns' : num_run ns0 l = Some ns → num_next ns c = Some ns' → num_run ns0 (l ++ [c]) = Some ns'.
Proof.
  revert ns0. induction l as [|d l IH]; intros ns0 Hr Hn; cbn [num_run app] in *; [injection Hr as ->; by rewrite Hn|].
  destruct (num_next ns0 d); [|done]. by apply IH.
Qed.

Lemma number_prefix_next ns raw c ns' : number_prefix ns raw → num_next ns c = Some ns' → number_prefix ns' (raw ++ [c]).
Proof.
  intros (c0 & l & ns0 & -> & H0 & Hr) Hn. exists c0, (l ++ [c]), ns0. split_and!; [done|done|]. by eapply num_run_snoc.
Qed.

Lemma number_prefix_final ns raw : number_prefix ns raw → num_final ns = true → ok (str raw).
Proof.
  intros (c & l & ns0 & -> & H0 & Hr) Hf. apply number_ok. unfold number_literal. rewrite bytes_str, H0, Hr. done.
Qed.

(** A number goes on, ends, or is in error. *)
Lemma in_number_cases ns raw c s s' :
  in_number ns raw c s = Ok s' →
  (∃ ns', num_next ns c = Some ns' ∧ s' = in_phase (AtNumber ns' (raw ++ [c])) s) ∨
  (num_final ns = true ∧ end_number raw c s = Ok s').
Proof. destruct ns; cbn [in_number num_next num_final]; repeat case_match; intros Hs; try done; eauto; injection Hs as <-; eauto. Qed.

Lemma in_number_ok ns raw c s s' :
  scanner_ok s → number_prefix ns raw → in_number ns raw c s = Ok s' → scanner_ok s'.
Proof.
  intros Hs Hn [(ns' & Hn' & ->)|[Hf He]]%in_number_cases; [apply in_phase_ok; [done|by eapply number_prefix_next]|].
  unfold end_number in He. eapply after_value_ok; [|exact He]. destruct Hs as (H1 & _ & H3). apply complete_ok; [done| |done].
  apply dumpable_num. by eapply number_prefix_final.
Qed.

Lemma begin_value_ok c s s' : scanner_ok s → begin_value c s = Ok s' → scanner_ok s'.
Proof.
  intros Hs H. unfold begin_value in H. destruct (num_start c) as [ns|] eqn:E.
  { destruct (begin_number _ _ s E) as (Hb & _). unfold begin_value in Hb. rewrite Hb in H. injection H as <-.
    apply in_phase_ok; [done|by apply number_prefix_start]. }
  assert (Hd : is_digit c = false) by (unfold num_start in E; repeat case_match; done). rewrite Hd in H.
  assert (H45 : code c ≠ 45%N) by (intros E'; unfold num_start in E; by rewrite E' in E).
  assert (H48 : code c ≠ 48%N) by (intros E'; unfold num_start in E; by rewrite E' in E).
  repeat case_match; try done; try (by injection H as <-; apply in_phase_ok; [|constructor]);
    by eapply open_frame_ok; [exact Hs| | |exact H]; [|repeat constructor].
Qed.

Lemma end_string_ok raw s : scanner_ok s → body raw → scanner_ok (end_string raw s).
Proof.
  intros (H1 & H2 & H3) Hb. unfold end_string.
  assert (Hv : valid_string (unquote_string raw)) by (unfold valid_string, unquote_string; rewrite bytes_str; by apply body_valid).
  destruct (sc_stack s) as [|[es|fs [k|]] st] eqn:E; try (apply complete_ok; [done|by apply dumpable_str|done]).
  destruct H1 as ((Hf & _) & Hl & Hst). by split_and!.
Qed.

Lemma body_snoc raw c : body raw → code c ≠ 92%N → body (raw ++ [c]).
Proof. intros Hb Hc. apply body_app; [done|]. apply body_plain; [done|constructor]. Qed.

(** The phases between values and inside of strings. *)
Lemma string_step_ok c s s' raw :
  scanner_ok s → sc_phase s = AtString raw → scan_step c s = Ok s' → scanner_ok s'.
Proof.
  intros Hs E H. pose proof Hs as (_ & Hp & _). rewrite E in Hp. unfold scan_step in H. rewrite E in H.
  destruct (code c =? 34)%N; [injection H as <-; by apply end_string_ok|].
  destruct (code c =? 92)%N eqn:E92; [injection H as <-; apply in_phase_ok; [done|exists raw, c; by apply N.eqb_eq in E92]|].
  destruct (code c <? 32)%N; [done|]. injection H as <-. apply in_phase_ok; [done|]. by apply body_snoc, N.eqb_neq.
Qed.

Lemma escape_step_ok c s s' raw :
  scanner_ok s → sc_phase s = AtEscape raw → scan_step c s = Ok s' → scanner_ok s'.
Proof.
  intros Hs E H. pose proof Hs as (_ & Hp & _). rewrite E in Hp. destruct Hp as (raw0 & b & -> & Hb & Hbody).
  unfold scan_step in H. rewrite E in H.
  assert (Hc : (code c < 128)%N → body ((raw0 ++ [b]) ++ [c])).
  { intros Hc. rewrite <- app_assoc. apply body_app; [done|]. by apply body_escape; [..|constructor]. }
  destruct (escapable c) eqn:Ee; [injection H as <-; apply in_phase_ok; [done|]; apply Hc; all_bytes c|].
  destruct (code c =? 117)%N eqn:Eu; [|done]. injection H as <-. apply in_phase_ok; [done|]. apply Hc.
  apply N.eqb_eq in Eu. lia.
Qed.

Lemma scan_step_ok c s s' : scanner_ok s → scan_step c s = Ok s' → scanner_ok s'.
Proof.
  intros Hs H. destruct (sc_phase s) as [| | | | | |raw|raw|raw n|ns raw|word rest v] eqn:E;
    [| | | | | |by eapply string_step_ok|by eapply escape_step_ok|..];
    pose proof Hs as (Hst & Hp & Ht); unfold scan_step in H; rewrite E in H, Hp.
  - destruct (json_space c); [by injection H as <-|]. by eapply begin_value_ok.
  - destruct (json_space c); [by injection H as <-|]. destruct (code c =? 93)%N; [by eapply after_value_ok|by eapply begin_value_ok].
  - destruct (json_space c); [by injection H as <-|]. destruct (code c =? 125)%N; [by eapply after_value_ok|].
    destruct (code c =? 34)%N; [|done]. injection H as <-. apply in_phase_ok; [done|constructor].
  - destruct (json_space c); [by injection H as <-|]. destruct (code c =? 34)%N; [|done]. injection H as <-.
    apply in_phase_ok; [done|constructor].
  - destruct (json_space c); [by injection H as <-|]. destruct (code c =? 58)%N; [|done]. injection H as <-. by apply in_phase_ok.
  - by eapply after_value_ok.
  - destruct (hex_val c) as [x|] eqn:Ex; [|done]. injection H as <-. apply hex_not_backslash in Ex as [Ex _].
    apply in_phase_ok; [done|]. destruct n as [|[|k]]; by apply body_snoc.
  - by eapply in_number_ok.
  - destruct rest as [|d rest']; [by injection H as <-|]. case_decide; [|done]. injection H as <-.
    destruct rest'; [|by apply in_phase_ok]. apply complete_ok; [done| |done]. eapply dumpable_mono; [|exact Hp]. lia.
Qed.

Lemma scan_ok t s s' : scanner_ok s → scan t s = Ok s' → scanner_ok s'.
Proof.
  revert s. induction t as [|c t IH]; intros s Hs H; cbn [scan] in H; [by injection H as <-|].
  destruct (scan_step c s) as [s1|] eqn:E; [|done]. by eapply IH; [eapply scan_step_ok|].
Qed.

Lemma scan_eof_ok s v : scanner_ok s → scan_eof s = Ok v → dumpable ok depth_limit v.
Proof.
  intros Hs H. unfold scan_eof in H. destruct (scan_step (byte_of 32) s) as [s'|] eqn:E; [|done].
  destruct (scan_step_ok _ _ _ Hs E) as (_ & _ & Ht). destruct s' as [[] ph top]; [|done].
  destruct ph; try done. destruct top as [v'|]; [|done]. injection H as <-. by apply Ht.
Qed.

Lemma start_ok : scanner_ok (mkScanner [] AtValue None).
Proof. by split_and!. Qed.

End scanner.

(** ** Python's reader *)

(** The numbers Python reads. *)
Definition py_number (lit : string) : Prop :=
  number_literal lit = true ∨ lit = "NaN" ∨ lit = "Infinity" ∨ lit = "-Infinity".

Lemma py_step_ok c s s' : scanner_ok py_number s → py_step c s = Ok s' → scanner_ok py_number s'.
Proof.
  intros Hs H. assert (Hn : ∀ lit, number_literal lit = true → py_number lit) by (by left).
  unfold py_step in H. destruct (sc_phase s) as [| | | | | |raw|raw|raw n|ns raw|word rest v];
    try (by eapply scan_step_ok).
  1-2: destruct (code c =? 78)%N; [injection H as <-; apply in_phase_ok; [done|done|by apply (dumpable_num _ 0); right; left]|];
    destruct (code c =? 73)%N; [injection H as <-; apply in_phase_ok; [done|done|by apply (dumpable_num _ 0); right; right; left]|by eapply scan_step_ok].
  destruct ns; try (by eapply scan_step_ok).
  destruct (code c =? 73)%N; [injection H as <-; apply in_phase_ok; [done|done|by apply (dumpable_num _ 0); do 3 right]|by eapply scan_step_ok].
Qed.

Lemma py_scan_ok t s s' : scanner_ok py_number s → py_scan t s = Ok s' → scanner_ok py_number s'.
Proof.
  revert s. induction t as [|c t IH]; intros s Hs H; cbn [py_scan] in H; [by injection H as <-|].
  destruct (py_step c s) as [s1|] eqn:E; [|done]. by eapply IH; [eapply py_step_ok|].
Qed.

Lemma dict_set_Forall (P : string * json → Prop) k v l : P (k, v) → Forall P l → Forall P (dict_set k v l).
Proof.
  intros Hkv. induction 1 as [|[k' v'] l H1 H2 IH]; cbn [dict_set]; [by apply Forall_singleton|].
  case_decide; by apply Forall_cons.
Qed.

Lemma to_dict_Forall (P : string * json → Prop) l : Forall P l → Forall P (to_dict l).
Proof.
  unfold to_dict. assert (Hacc : Forall P []) by constructor. revert Hacc. generalize ([] : list (string * json)).
  induction l as [|[k v] l IH]; intros acc Hacc Hl; [done|]. apply Forall_cons in Hl as [Hkv Hl].
  apply IH; [|done]. by apply dict_set_Forall.
Qed.

Lemma dict_set_keys k v l : NoDup l.*1 → NoDup (dict_set k v l).*1 ∧ ∀ x, x ∈ (dict_set k v l).*1 → x = k ∨ x ∈ l.*1.
Proof.
  induction l as [|[k' v'] l IH]; cbn [dict_set]; intros Hn.
  - split; [apply NoDup_singleton|]. intros x Hx. left. by apply list_elem_of_singleton in Hx.
  - apply NoDup_cons in Hn as [Hk Hn]. case_decide as E.
    + subst. split; [by apply NoDup_cons|]. intros x Hx. by right.
    + destruct (IH Hn) as [H1 H2]. split.
      * apply NoDup_cons. split; [|done]. intros [Hx|?]%H2; [|done]. by apply E.
      * csimpl. intros x. rewrite !elem_of_cons. intros [?|[?|?]%H2]; auto.
Qed.

Lemma to_dict_keys l : NoDup (to_dict l).*1.
Proof.
  unfold to_dict. assert (Hacc : NoDup ([] : list (string * json)).*1) by constructor. revert Hacc.
  generalize ([] : list (string * json)). induction l as [|[k v] l IH]; intros acc Hacc; [done|]. by apply IH, dict_set_keys.
Qed.

Lemma py_value_ok ok d v : dumpable ok d v → dumpable ok d (py_value v) ∧ distinct_keys d (py_value v).
Proof.
  revert v. induction d as [|d IH]; intros v; destruct v as [|b|lit|s|l|l]; try done; intros Hl.
  - split; apply Forall_fmap; (eapply Forall_impl; [exact Hl|]); intros x Hx; by apply IH.
  - change (Forall (λ kv, valid_string kv.1 ∧ dumpable ok d kv.2) l) in Hl.
    split; [|split; [apply to_dict_keys|]]; apply to_dict_Forall, Forall_fmap; (eapply Forall_impl; [exact Hl|]).
    + intros kv [? ?]. split; [done|by apply IH].
    + intros kv [? ?]. by apply IH.
Qed.

(** ** Properties *)

(** The values the programs read from JSON are well formed, whatever the
    text is.  Every string and every key is valid UTF-8, also where the text
    is not and where it escapes halves of surrogate pairs; every number is a
    literal of the JSON grammar (for Python also one of its three words); and
    the value is nested no deeper than the decoder's limit.  A value Python
    reads moreover has each key of an object once. *)
Theorem read_values_well_formed (t : string) :
  (∀ v, parse t = Ok v → dumpable (λ lit, number_literal lit = true) depth_limit v) ∧
  (∀ v, loads t = Some v → dumpable py_number depth_limit v ∧ distinct_keys depth_limit v).
Proof.
  split; intros v H.
  - unfold parse in H. destruct (scan t _) as [s|] eqn:E; [|done]. eapply scan_eof_ok; [done| |exact H].
    eapply scan_ok; [done|apply start_ok|exact E]; done.
  - unfold loads in H. destruct (py_scan t _) as [s|] eqn:E; [|done].
    destruct (scan_eof s) as [v'|] eqn:E'; [|done]. injection H as <-. apply py_value_ok.
    eapply scan_eof_ok; [by left| |exact E']. eapply py_scan_ok; [|exact E]. apply start_ok. by left.
Qed.
