(* ===== verification/TestFramework.v ===== *)
(** * The C test framework ([c-test-binaries/common/test_framework.{h,c}])

    What a test binary records while it runs its tests and the JSON it
    prints on its standard output.  A [double] is a binary64 number of
    [SpecFloat]; [printf] rounds it exactly, ties to even, as glibc does.
    The tests themselves are arguments: a test returns, possibly after a
    failed assertion, or is interrupted by a signal.  [setjmp] does not save
    the signal mask, so a signal whose handler jumped away stays blocked. *)
From Stdlib Require Import Ascii SpecFloat.
From stdpp Require Import options.
From S2P Require Import Prelude GoStd Types Json Marshal JsonText.
Open Scope string_scope.
Open Scope list_scope.
Open Scope Z_scope.

(** ** [printf] *)

(** The quotient rounded to the nearest integer, ties to even. *)
Definition round_half_even (n d : Z) : Z :=
  let q := n / d in
  let r := n mod d in
  if 2 * r <? d then q else if d <? 2 * r then q + 1 else if Z.even q then q else q + 1.

(** A non-negative number in hundredths. *)
Definition hundredths (m : positive) (e : Z) : Z :=
  if 0 <=? e then Z.pos m * 2 ^ e * 100 else round_half_even (Z.pos m * 100) (2 ^ (- e)).

Definition two_digits (n : Z) : string := (if n <? 10 then "0" else "") +:+ fmt_d n.

(** ["%.2f"] *)
Definition fmt_2f (f : float64) : string :=
  let text h := fmt_d (h / 100) +:+ "." +:+ two_digits (h mod 100) in
  match f with
  | S754_zero neg => (if neg then "-" else "") +:+ text 0
  | S754_finite neg m e => (if neg then "-" else "") +:+ text (hundredths m e)
  | S754_infinity neg => if neg then "-inf" else "inf"
  | S754_nan => "nan"
  end.

(** ** State *)

Record TestResult : Type := mkTestResult {
  r_test_name : string;
  r_passed : bool;
  r_duration_ms : float64;
  r_message : string;
}.

Record TestSuite : Type := mkTestSuite {
  s_suite_name : string;
  s_results : list TestResult;             (* the first [count] of 256 *)
  s_passed : Z;
  s_failed : Z;
  s_total_duration_ms : float64;
  s_blocked : list Z;                      (* the process's signal mask *)
}.

Definition s_count (g : TestSuite) : Z := Z.of_nat (length (s_results g)).

Definition test_suite_begin (name : string) : TestSuite := mkTestSuite name [] 0 0 (S754_zero false) [].

(** What a call of a test function comes to. *)
Inductive test_outcome : Type :=
| TReturns (rc : Z) (assertion : option string)     (* the text of the assertion that failed last *)
| TSignal (sig : Z).                                (* SIGSEGV, SIGBUS, SIGFPE or SIGABRT *)

(** [snprintf] into [g_fail_msg], of 512 bytes. *)
Definition fail_msg (s : string) : string := str_take 511 s.

(** Whether the test failed, and the message. *)
Definition verdict (o : test_outcome) : bool * string :=
  match o with
  | TReturns rc (Some msg) => (true, fail_msg msg)
  | TReturns rc None => if decide (rc ≠ 0) then (true, fail_msg ("returned non-zero: " +:+ fmt_d rc)) else (false, "")
  | TSignal sig => (true, fail_msg ("caught signal " +:+ fmt_d sig))
  end.

(** A signal that is blocked when it is raised kills the process. *)
Definition survives (o : test_outcome) (g : TestSuite) : option (list Z) :=
  match o with
  | TReturns _ _ => Some (s_blocked g)
  | TSignal sig => if decide (sig ∈ s_blocked g) then None else Some (sig :: s_blocked g)
  end.

(** [RUN_TEST], for a test that took [dur]. *)
Definition RUN_TEST (func : string) (o : test_outcome) (dur : float64) (g : TestSuite) : go TestSuite :=
  match survives o g with
  | None => Panics "killed by a signal"
  | Some mask =>
    let '(failed, msg) := verdict o in
    if decide (s_count g < 256) then
      Done (mkTestSuite (s_suite_name g) (s_results g ++ [mkTestResult func (negb failed) dur msg])
        (if failed then s_passed g else s_passed g + 1) (if failed then s_failed g + 1 else s_failed g)
        (SFadd 53 1024 (s_total_duration_ms g) dur) mask)
    else Panics "g_suite.results is full"
  end.

(** ** The JSON *)

(** [json_escape]: what is written to [out], from the place [j] on. *)
Fixpoint escape_from (out_sz j : Z) (s : list ascii) : list ascii :=
  match s with
  | [] => []
  | c :: s' =>
    if j <? out_sz - 2 then
      let piece :=
        if (code c =? 34)%N then [backslash; c]
        else if (code c =? 92)%N then [backslash; c]
        else if (code c =? 10)%N then [backslash; byte_of 110]
        else if (code c =? 9)%N then [backslash; byte_of 116]
        else [c] in
      piece ++ escape_from out_sz (j + Z.of_nat (length piece)) s'
    else []
  end.

Definition json_escape (s : string) (out_sz : Z) : string := str (escape_from out_sz 0 (bytes s)).

Definition nl : string := String (byte_of 10) "".

Definition result_line (r : TestResult) (last : bool) : string :=
  "  {" +:+ quoted "test" +:+ ": " +:+ quoted (r_test_name r) +:+ ", " +:+
  quoted "status" +:+ ": " +:+ quoted (if r_passed r then "PASS" else "FAIL") +:+ ", " +:+
  quoted "duration_ms" +:+ ": " +:+ fmt_2f (r_duration_ms r) +:+ ", " +:+
  quoted "message" +:+ ": " +:+ quoted (json_escape (r_message r) 1024) +:+ "}" +:+ (if last then "" else ",").

Fixpoint result_lines (rs : list TestResult) : list string :=
  match rs with
  | [] => []
  | [r] => [result_line r true]
  | r :: rs' => result_line r false :: result_lines rs'
  end.

Definition first_line (g : TestSuite) : string :=
  "{" +:+ quoted "suite" +:+ ": " +:+ quoted (s_suite_name g) +:+ ", " +:+ quoted "results" +:+ ": [".

Definition summary_line (g : TestSuite) : string :=
  "], " +:+ quoted "summary" +:+ ": {" +:+ quoted "total" +:+ ": " +:+ fmt_d (s_count g) +:+ ", " +:+
  quoted "passed" +:+ ": " +:+ fmt_d (s_passed g) +:+ ", " +:+ quoted "failed" +:+ ": " +:+ fmt_d (s_failed g) +:+ ", " +:+
  quoted "duration_ms" +:+ ": " +:+ fmt_2f (s_total_duration_ms g) +:+ "}}".

(** The lines of [test_suite_print_json], each followed by a line break. *)
Definition json_lines (g : TestSuite) : list string := first_line g :: result_lines (s_results g) ++ [summary_line g].

Definition test_suite_print_json (g : TestSuite) : string := foldr (λ l s, l +:+ nl +:+ s) "" (json_lines g).

(** [TEST_SUITE_END]: the exit status. *)
Definition exit_status (g : TestSuite) : Z := if decide (s_failed g > 0) then 1 else 0.

(** ** The texts are JSON *)

Lemma num_run_app a b st : num_run st (a ++ b) = match num_run st a with Some st' => num_run st' b | None => None end.
Proof. revert st. induction a as [|c a IH]; intros st; [done|]. simpl. destruct (num_next st c); [apply IH|done]. Qed.

Lemma num_run_digits st l : st = NInt ∨ st = NFrac → forallb is_digit l = true → num_run st l = Some st.
Proof.
  intros Hst. induction l as [|c l IH]; intros Hl; [done|]. apply andb_prop in Hl as [Hc Hl]. simpl.
  destruct Hst as [-> | ->]; simpl; rewrite Hc; auto.
Qed.

(** A whole number, a point and digits. *)
Lemma number_frac a b :
  int_literal a = true → bytes b ≠ [] → forallb is_digit (bytes b) = true → number_literal (a +:+ "." +:+ b) = true.
Proof.
  intros Ha Hne Hb. apply int_literal_shape in Ha as (c & l & Hbytes & st & st' & Hc & Hr & Hst').
  unfold number_literal. rewrite !bytes_app, Hbytes. cbn [app]. rewrite Hc, num_run_app, Hr.
  change (bytes "." ++ bytes b) with ("."%char :: bytes b). destruct (bytes b) as [|d ds]; [done|].
  apply andb_prop in Hb as [Hd Hds].
  assert (Hfrac : num_run NDot (d :: ds) = Some NFrac) by (simpl; rewrite Hd; apply num_run_digits; auto).
  destruct Hst' as [-> | ->]; simpl num_run; simpl in Hfrac; by rewrite Hfrac.
Qed.

Lemma two_digits_digits n : 0 ≤ n < 100 → bytes (two_digits n) ≠ [] ∧ forallb is_digit (bytes (two_digits n)) = true.
Proof.
  intros Hn. assert (H : forallb (λ n, bool_decide (bytes (two_digits n) ≠ []) && forallb is_digit (bytes (two_digits n)))
    (Z.of_nat <$> seq 0 100) = true) by (vm_compute; reflexivity).
  rewrite forallb_forall in H. destruct (andb_prop _ _ (H n ltac:(apply list_elem_of_In, list_elem_of_fmap;
    exists (Z.to_nat n); rewrite elem_of_seq; lia))) as [H1 H2]. split; [by apply bool_decide_eq_true in H1|done].
Qed.

(** A duration: a number that is not negative. *)
Definition duration (f : float64) : Prop :=
  match f with S754_zero false | S754_finite false _ _ => True | _ => False end.

Lemma round_nonneg n d : 0 ≤ n → 0 < d → 0 ≤ round_half_even n d.
Proof. intros Hn Hd. unfold round_half_even. pose proof (Z.div_pos n d Hn Hd). repeat case_match; lia. Qed.

Lemma hundredths_nonneg m e : 0 ≤ hundredths m e.
Proof.
  unfold hundredths. case_match eqn:He; [lia|]. apply Z.leb_gt in He. apply round_nonneg; [lia|]. apply Z.pow_pos_nonneg; lia.
Qed.

Lemma fmt_2f_number f : duration f → number_literal (fmt_2f f) = true.
Proof.
  assert (Ht : ∀ h, 0 ≤ h → number_literal (fmt_d (h / 100) +:+ "." +:+ two_digits (h mod 100)) = true).
  { intros h Hh. destruct (two_digits_digits (h mod 100)) as [H1 H2]; [by apply Z.mod_pos_bound|].
    apply number_frac; [apply fmt_d_literal; by apply Z.div_pos|done|done]. }
  destruct f as [[]|[]| |[] m e]; intros Hf; try done; apply Ht; (done || apply hundredths_nonneg).
Qed.

(** *** [json_escape] *)

Definition c_piece (c : ascii) : list ascii :=
  if (code c =? 34)%N then [backslash; c]
  else if (code c =? 92)%N then [backslash; c]
  else if (code c =? 10)%N then [backslash; byte_of 110]
  else if (code c =? 9)%N then [backslash; byte_of 116]
  else [c].

Lemma c_piece_length c : (1 ≤ length (c_piece c) ≤ 2)%nat.
Proof. unfold c_piece. repeat case_match; simpl; lia. Qed.

(** The buffer is never overrun: the text and its final zero fit. *)
Lemma escape_from_fits sz j s : 0 ≤ j → j ≤ sz - 1 → 2 ≤ sz → j + Z.of_nat (length (escape_from sz j s)) ≤ sz - 1.
Proof.
  revert j. induction s as [|c s IH]; intros j Hj Hjs Hsz; [simpl; lia|]. cbn [escape_from]. fold (c_piece c).
  destruct (Z.ltb_spec j (sz - 2)); [|simpl; lia]. rewrite length_app. pose proof (c_piece_length c).
  specialize (IH (j + Z.of_nat (length (c_piece c)))). lia.
Qed.

(** Text that is short enough is not cut. *)
Lemma escape_from_whole sz j s :
  0 ≤ j → j + 2 * Z.of_nat (length s) < sz → escape_from sz j s = flat_map c_piece s.
Proof.
  revert j. induction s as [|c s IH]; intros j Hj Hl; [done|]. cbn [escape_from flat_map]. fold (c_piece c).
  cbn [length] in Hl. rewrite (proj2 (Z.ltb_lt _ _)) by lia. f_equal. pose proof (c_piece_length c). apply IH; lia.
Qed.

(** Text [json_escape] copes with: valid UTF-8 whose only control characters
    are line breaks and tabs. *)
Definition clean (s : string) : Prop :=
  valid_string s ∧ Forall (λ c, (32 ≤ code c)%N ∨ code c = 9%N ∨ code c = 10%N) (bytes s).

Lemma c_piece_ascii c :
  (code c < 128)%N → (32 ≤ code c)%N ∨ code c = 9%N ∨ code c = 10%N → stands_for [c] (c_piece c).
Proof.
  intros Hc Hr. destruct c as [[] [] [] [] [] [] [] []]; try (by vm_compute in Hc);
    match goal with |- stands_for [?c] _ =>
      first
        [ exact (stands_plain c eq_refl eq_refl eq_refl eq_refl)
        | exact (stands_short c eq_refl eq_refl)
        | exact (stands_short (byte_of 110) eq_refl eq_refl)
        | exact (stands_short (byte_of 116) eq_refl eq_refl)
        | exfalso; vm_compute in Hr; destruct Hr as [Hr|[Hr|Hr]]; [by apply Hr|discriminate..] ]
    end.
Qed.

Lemma c_piece_high c : (128 ≤ code c)%N → c_piece c = [c].
Proof. intros Hc. unfold c_piece. by repeat rewrite (proj2 (N.eqb_neq _ _)) by lia. Qed.

Lemma c_escape_stands l :
  valid_utf8 l → Forall (λ c, (32 ≤ code c)%N ∨ code c = 9%N ∨ code c = 10%N) l → stands_for l (flat_map c_piece l).
Proof.
  induction 1 as [|c l Hc _ IH|c c1 l H _ IH|c c1 c2 l H _ IH|c c1 c2 c3 l H _ IH]; intros Hl; cbn [flat_map].
  - apply stands_nil.
  - apply Forall_cons in Hl as [Hr Hl]. apply (stands_app [c] l); [by apply c_piece_ascii|auto].
  - destruct (rune2_high _ _ H) as [_ Hh]. rewrite !Forall_cons in Hh, Hl. destruct_and! Hh. rewrite !c_piece_high by done.
    apply (stands_app [c; c1] l [c; c1]); [by apply stands_two|naive_solver].
  - destruct (rune3_high _ _ _ H) as [_ Hh]. rewrite !Forall_cons in Hh, Hl. destruct_and! Hh. rewrite !c_piece_high by done.
    apply (stands_app [c; c1; c2] l [c; c1; c2]); [by apply stands_three|naive_solver].
  - destruct (rune4_high _ _ _ _ H) as [_ Hh]. rewrite !Forall_cons in Hh, Hl. destruct_and! Hh. rewrite !c_piece_high by done.
    apply (stands_app [c; c1; c2; c3] l [c; c1; c2; c3]); [by apply stands_four|naive_solver].
Qed.

Lemma str_take_length n s : (String.length (str_take n s) ≤ n)%nat.
Proof. revert n. induction s as [|c s IH]; intros [|n]; simpl; try lia. specialize (IH n). lia. Qed.

Lemma bytes_length s : length (bytes s) = String.length s.
Proof. induction s as [|c s IH]; [done|]. exact (f_equal S IH). Qed.

(** A message of at most 511 bytes reaches the reader as it is. *)
Lemma names_message s : clean s → (String.length s ≤ 511)%nat → names (quoted (json_escape s 1024)) s.
Proof.
  intros [Hv Hc] Hl. exists (flat_map c_piece (bytes s)). split; [|by apply c_escape_stands].
  unfold json_escape. rewrite escape_from_whole by (rewrite ?bytes_length; lia). done.
Qed.

(** Text that needs no escapes, such as the name of a C function. *)
Definition plain (s : string) : Prop :=
  Forall (λ c, (32 ≤ code c < 128)%N ∧ code c ≠ 34%N ∧ code c ≠ 92%N) (bytes s).

Lemma names_plain s : plain s → names (quoted s) s.
Proof.
  intros Hp. exists (bytes s). split; [unfold literal; by rewrite str_bytes|]. unfold plain in Hp.
  induction Hp as [|c l (Hc & H34 & H92) _ IH]; [apply stands_nil|]. apply (stands_app [c] l [c]); [|done].
  apply stands_plain; [by apply N.eqb_neq..|apply N.ltb_ge; lia|apply N.ltb_lt; lia].
Qed.

(** ** The state of a suite *)

(** A binary that runs its tests one after the other. *)
Fixpoint run_tests (ts : list (string * test_outcome * float64)) (g : TestSuite) : go TestSuite :=
  match ts with
  | [] => Done g
  | (func, o, dur) :: ts' => let? g' := RUN_TEST func o dur g in run_tests ts' g'
  end.

Definition passed_tests (rs : list TestResult) : Z := foldr (λ r n, (if r_passed r then 1 else 0) + n) 0 rs.

Lemma passed_tests_app a b : passed_tests (a ++ b) = passed_tests a + passed_tests b.
Proof. induction a as [|r a IH]; [done|]. simpl. rewrite IH. lia. Qed.

Lemma passed_tests_all rs : passed_tests rs ≤ Z.of_nat (length rs) ∧
  (passed_tests rs = Z.of_nat (length rs) ↔ ∀ r, r ∈ rs → r_passed r = true).
Proof.
  induction rs as [|r rs [IH1 IH2]]; [split; [done|split; [by intros _ r ?%not_elem_of_nil|done]]|].
  simpl. destruct (r_passed r) eqn:E; split; try lia; split.
  - intros H r' [->|Hr]%elem_of_cons; [done|]. apply IH2; [lia|done].
  - intros H. rewrite (proj2 IH2); [lia|]. intros r' Hr. apply H. by right.
  - lia.
  - intros H. rewrite (H r) in E by left. done.
Qed.

Record suite_ok (g : TestSuite) : Prop := mkSuiteOk {
  so_passed : s_passed g = passed_tests (s_results g);
  so_total : s_passed g + s_failed g = s_count g;
  so_room : s_count g ≤ 256;
  so_short : Forall (λ r, (String.length (r_message r) ≤ 511)%nat) (s_results g);
}.

Lemma suite_begin_ok name : suite_ok (test_suite_begin name).
Proof. by split. Qed.

Lemma verdict_short o : (String.length (verdict o).2 ≤ 511)%nat.
Proof. unfold verdict, fail_msg. repeat case_match; cbn [snd]; (apply str_take_length || (simpl; lia)). Qed.

Lemma RUN_TEST_ok func o dur g g' : suite_ok g → RUN_TEST func o dur g = Done g' → suite_ok g'.
Proof.
  intros [Hp Ht Hr Hs]. unfold RUN_TEST. destruct (survives o g) as [mask|]; [|done].
  pose proof (verdict_short o) as Hv. destruct (verdict o) as [failed msg]. case_decide as Hc; [|done]. intros [= <-].
  split; unfold s_count in *; cbn [s_results s_passed s_failed]; rewrite ?passed_tests_app, ?length_app; simpl.
  - destruct failed; simpl; lia.
  - destruct failed; lia.
  - lia.
  - apply Forall_app. split; [done|]. by apply Forall_singleton.
Qed.

Lemma run_tests_ok ts g g' : suite_ok g → run_tests ts g = Done g' → suite_ok g'.
Proof.
  revert g. induction ts as [|[[func o] dur] ts IH]; intros g Hg; simpl; [by intros [= <-]|].
  destruct (RUN_TEST func o dur g) as [g1|] eqn:E; [|done]. simpl. apply IH. by eapply RUN_TEST_ok.
Qed.

(** What the results of a run are: one per test, in order. *)
Definition result_of_test (t : string * test_outcome * float64) : TestResult :=
  let '(func, o, dur) := t in mkTestResult func (negb (verdict o).1) dur (verdict o).2.

Lemma run_tests_results ts g g' :
  run_tests ts g = Done g' → s_results g' = s_results g ++ (result_of_test <$> ts) ∧ s_suite_name g' = s_suite_name g.
Proof.
  revert g. induction ts as [|[[func o] dur] ts IH]; intros g; simpl; [intros [= <-]; by rewrite app_nil_r|].
  unfold RUN_TEST. destruct (survives o g); [|done]. destruct (verdict o) as [failed msg] eqn:Ev. case_decide; [|done].
  cbn [go_bind]. intros [-> ->]%IH. simpl. by rewrite <- app_assoc.
Qed.

Lemma exit_status_zero g : exit_status g = 0 ↔ s_failed g ≤ 0.
Proof. unfold exit_status. case_decide; lia. Qed.

(** Tests that are not interrupted, and for which there is room, are run. *)
Lemma run_tests_returns ts g :
  (∀ t, t ∈ ts → match t.1.2 with TSignal _ => False | _ => True end) → s_count g + Z.of_nat (length ts) ≤ 256 →
  ∃ g', run_tests ts g = Done g'.
Proof.
  revert g. induction ts as [|[[func o] dur] ts IH]; intros g Hs Hc; [by exists g|]. simpl in *. unfold RUN_TEST.
  pose proof (Hs (func, o, dur) ltac:(left)) as Ho. destruct o as [rc msg|]; [|done]. simpl survives. cbn match.
  destruct (verdict _) as [failed m]. rewrite decide_True by lia. cbn [go_bind]. apply IH.
  - intros t Ht. apply Hs. by right.
  - unfold s_count in *. simpl. rewrite length_app. simpl. lia.
Qed.

(** A suite of tests that survives its signals and has at most 256 tests
    runs to its end; the results are one per test in order, a test passes
    exactly when it returned 0 without a failed assertion, the counters agree
    with the results, and the exit status is 0 exactly when every test
    passed. *)
Theorem suite_counts_its_tests (name : string) (ts : list (string * test_outcome * float64)) :
  (length ts ≤ 256)%nat → (∀ t, t ∈ ts → match t.1.2 with TSignal _ => False | _ => True end) →
  ∃ g, run_tests ts (test_suite_begin name) = Done g ∧ s_results g = result_of_test <$> ts ∧
       s_passed g = passed_tests (s_results g) ∧ s_passed g + s_failed g = Z.of_nat (length ts) ∧
       (exit_status g = 0 ↔ ∀ t, t ∈ ts → t.1.2 = TReturns 0 None).
Proof.
  intros Hl Hs. assert (Hrun : ∃ g, run_tests ts (test_suite_begin name) = Done g).
  { apply run_tests_returns; [done|]. change (s_count (test_suite_begin name)) with 0. lia. }
  destruct Hrun as [g Hg]. exists g. pose proof (run_tests_ok _ _ _ (suite_begin_ok name) Hg) as [Hp Ht _ _].
  destruct (run_tests_results _ _ _ Hg) as [Hr _]. simpl in Hr. unfold s_count in Ht.
  assert (Hlen : length (s_results g) = length ts) by (by rewrite Hr, length_fmap).
  split_and!; [done|done|done|lia|]. rewrite exit_status_zero, <- Hlen, Hp in *.
  destruct (passed_tests_all (s_results g)) as [Hle Hall].
  assert (Hz : s_failed g ≤ 0 ↔ passed_tests (s_results g) = Z.of_nat (length (s_results g))) by lia.
  rewrite Hz, Hall, Hr. split.
  - intros H t Ht'. specialize (H (result_of_test t) (list_elem_of_fmap_2 _ _ _ Ht')). specialize (Hs t Ht').
    destruct t as [[func [rc [msg|]|sig]] dur]; try done. simpl in *. by case_decide; subst.
  - intros H r (t & -> & Ht')%list_elem_of_fmap. specialize (H t Ht'). destruct t as [[func o] dur]. simpl in *. by subst o.
Qed.

(** [json_escape] stays within its buffer, whatever the message: the
    text and the final zero take at most [out_sz] bytes; and a message of the
    length the framework stores is never cut by it. *)
Theorem json_escape_in_bounds (s : string) (out_sz : Z) :
  2 ≤ out_sz →
  Z.of_nat (String.length (json_escape s out_sz)) + 1 ≤ out_sz ∧
  ((String.length s ≤ 511)%nat → bytes (json_escape s 1024) = flat_map c_piece (bytes s)).
Proof.
  intros Hsz. unfold json_escape. rewrite <- bytes_length, bytes_str. split.
  - pose proof (escape_from_fits out_sz 0 (bytes s)). lia.
  - intros Hl. rewrite bytes_str. apply escape_from_whole; rewrite ?bytes_length; lia.
Qed.

(** The second test that dies of the same signal takes the whole binary
    with it: the handler left by [longjmp], so the signal is still blocked
    when it is raised again, the process is killed, and no JSON is printed. *)
Theorem second_signal_kills (name f f' : string) (sig : Z) (d d' : float64) :
  run_tests [(f, TSignal sig, d); (f', TSignal sig, d')] (test_suite_begin name) = Panics "killed by a signal".
Proof. unfold run_tests, RUN_TEST. simpl. by rewrite decide_True by left. Qed.

Lemma suite_counts_its_tests_witness :
  ∃ g, run_tests [("test_a", TReturns 0 None, S754_zero false); ("test_b", TReturns 1 (Some "x"), S754_zero false)]
         (test_suite_begin "demo") = Done g ∧ s_passed g + s_failed g = 2.
Proof.
  destruct (suite_counts_its_tests "demo"
    [("test_a", TReturns 0 None, S754_zero false); ("test_b", TReturns 1 (Some "x"), S754_zero false)])
    as (g & Hg & _ & _ & Ht & _); [simpl; lia| |by exists g].
  intros t [->|[->|[]%not_elem_of_nil]%elem_of_cons]%elem_of_cons; exact I.
Defined.

Lemma json_escape_in_bounds_witness : Z.of_nat (String.length (json_escape (quoted "a") 4)) + 1 ≤ 4.
Proof. apply json_escape_in_bounds. lia. Defined.
