(* ===== verification/AgentParser.v ===== *)
(** * The guest agent's output parser ([parse_vishwa_output] of
      [python-agent/agent/__main__.py])

    How the agent finds the results of a test binary in what it printed: a
    JSON object over several lines, a summary line, single result lines, or
    the words of a plain-text verdict.  [ms] is the text of the elapsed time,
    rounded to one digit.  [Err] is an exception. *)
From Stdlib Require Import Ascii.
From stdpp Require Import options.
From S2P Require Import Prelude GoStd Json Marshal JsonText PyText.
Open Scope string_scope.
Open Scope list_scope.
Open Scope Z_scope.

Definition int_json (n : Z) : json := JNum (fmt_d n).

Definition summary_json (total passed failed : Z) (ms : string) : json :=
  JObj [("total", int_json total); ("passed", int_json passed); ("failed", int_json failed); ("duration_ms", JNum ms)].

(** [type(v).__name__] *)
Definition py_type (v : json) : string :=
  match v with
  | JNull => "NoneType"
  | JBool _ => "bool"
  | JNum lit => if is_float lit then "float" else "int"
  | JStr _ => "str"
  | JArr _ => "list"
  | JObj _ => "dict"
  end.

(** [v.get(key, default)]: only a dict has the method. *)
Definition get (v : json) (key : string) (default : json) : result json :=
  match v with
  | JObj l => Ok (match dict_get l key with Some x => x | None => default end)
  | _ => Err ("'" +:+ py_type v +:+ "' object has no attribute 'get'")
  end.

(** ** Strategy 1: an object that starts with a suite *)

Definition suite_start : string := "{" +:+ quoted "suite" +:+ ":".

Fixpoint find_object (lines : list string) (json_lines : option (list string)) : option json :=
  match lines with
  | [] => None
  | line :: lines' =>
    let stripped := strip line in
    if HasPrefix stripped suite_start then find_object lines' (Some [stripped])
    else
      match json_lines with
      | None => find_object lines' None
      | Some js =>
        let js := js ++ [stripped] in
        match loads (join_with " " js) with
        | Some parsed => Some parsed
        | None => find_object lines' (Some js)
        end
      end
  end.

(** ** Strategy 2: the line of a summary *)

Definition summary_key : string := quoted "summary" +:+ ":".
Definition total_key : string := quoted "total" +:+ ":".

(** The last such line that can be read counts. *)
Fixpoint find_summary (lines : list string) (found : option json) (summary : json) : result (option json) :=
  match lines with
  | [] => Ok found
  | line :: lines' =>
    let stripped := strip line in
    match (if contains total_key stripped then from_first summary_key stripped else None) with
    | Some tail =>
      match loads ("{" +:+ tail) with
      | Some obj => let! s := get obj "summary" summary in find_summary lines' (Some s) s
      | None => find_summary lines' found summary
      end
    | None => find_summary lines' found summary
    end
  end.

(** ** Strategy 3: single results *)

Record counts : Type := mkCounts { parsed_results : list json; pass_count : Z; fail_count : Z }.

Definition test_key : string := quoted "test" +:+ ":".
Definition status_key : string := quoted "status" +:+ ":".

Definition count_line (line : string) (c : counts) : result counts :=
  let stripped := strip line in
  if contains test_key stripped && contains status_key stripped then
    match loads (rstrip_commas stripped) with
    | None => Ok c
    | Some obj =>
      let! status := get obj "status" JNull in
      let rs := parsed_results c ++ [obj] in
      match status with
      | JStr "PASS" => Ok (mkCounts rs (pass_count c + 1) (fail_count c))
      | _ => Ok (mkCounts rs (pass_count c) (fail_count c + 1))
      end
    end
  else if contains "PASS" stripped && contains "running:" stripped then
    Ok (mkCounts (parsed_results c) (pass_count c + 1) (fail_count c))
  else if contains "FAIL" stripped && contains "running:" stripped then
    Ok (mkCounts (parsed_results c) (pass_count c) (fail_count c + 1))
  else Ok c.

Fixpoint count_lines (lines : list string) (c : counts) : result counts :=
  match lines with
  | [] => Ok c
  | line :: lines' => let! c' := count_line line c in count_lines lines' c'
  end.

(** ** Strategy 4: plain text *)

Definition says_passed (output : string) : bool :=
  let u := upper output in
  (contains "TEST PASSED" u || contains "PASSED" u) &&
  negb (contains "GPURT ERROR" u || contains "DEVICE OPEN FAILED" u || contains "IOCTL FAILED" u).

Fixpoint err_hint (lines : list string) : string :=
  match lines with
  | [] => ""
  | ln :: lines' =>
    if contains "error" (lower ln) || contains "failed" (lower ln) then first_chars 120 (strip ln) else err_hint lines'
  end.

Definition verdict_results (output : string) (lines : list string) (suite_name : json) (ms : string) : json * json :=
  if says_passed output then
    (JArr [JObj [("test", suite_name); ("status", JStr "PASS"); ("duration_ms", JNum ms)]], summary_json 1 1 0 ms)
  else
    let hint := err_hint lines in
    (JArr [JObj [("test", suite_name); ("status", JStr "FAIL"); ("duration_ms", JNum ms);
                 ("message", JStr (if decide (hint = "") then "hardware/driver initialization failed" else hint))]],
     summary_json 1 0 1 ms).

(** ** The parser *)

(** The results and the summary. *)
Definition parse_results (output : string) (suite_name : json) (ms : string) : result (json * json) :=
  let lines := split_lines output in
  let summary := summary_json 0 0 0 ms in
  match find_object lines None with
  | Some parsed =>
    let! results := get parsed "results" (JArr []) in
    let! s := get parsed "summary" summary in
    Ok (results, s)
  | None =>
    let! found := find_summary lines None summary in
    match found with
    | Some s => Ok (JArr [], s)
    | None =>
      let! c := count_lines lines (mkCounts [] 0 0) in
      let total := pass_count c + fail_count c in
      if decide (parsed_results c ≠ [] ∨ total > 0) then
        Ok (JArr (parsed_results c),
            if decide (total > 0) then summary_json total (pass_count c) (fail_count c) ms else summary)
      else Ok (verdict_results output lines suite_name ms)
    end
  end.

Definition parse_vishwa_output (output : string) (suite_name : json) (ms : string) : result json :=
  let! rs := parse_results output suite_name ms in
  Ok (JObj [("suite", suite_name); ("results", rs.1); ("summary", rs.2)]).

(** ** Examples *)

Definition q (s : string) : string := quoted s.

Definition one_line_suite : string :=
  "{" +:+ q "suite" +:+ ": " +:+ q "s" +:+ ", " +:+ q "results" +:+ ": [{" +:+ q "test" +:+ ": " +:+ q "t" +:+ ", " +:+
  q "status" +:+ ": " +:+ q "PASS" +:+ "}], " +:+ q "summary" +:+ ": {" +:+ q "total" +:+ ": 1, " +:+ q "passed" +:+ ": 1, " +:+
  q "failed" +:+ ": 0}}".

Definition passing_results : json := JArr [JObj [("test", JStr "t"); ("status", JStr "PASS")]].

Example one_line_at_the_end :
  parse_vishwa_output (one_line_suite +:+ py_newline) (JStr "s") "1.0" =
  Ok (JObj [("suite", JStr "s"); ("results", passing_results);
            ("summary", JObj [("total", JNum "1"); ("passed", JNum "1"); ("failed", JNum "0")])]).
Proof. vm_compute. reflexivity. Qed.

Example plain_pass :
  parse_vishwa_output ("Test Passed!" +:+ py_newline) (JStr "s") "1.0" =
  Ok (JObj [("suite", JStr "s"); ("results", JArr [JObj [("test", JStr "s"); ("status", JStr "PASS"); ("duration_ms", JNum "1.0")]]);
            ("summary", summary_json 1 1 0 "1.0")]).
Proof. vm_compute. reflexivity. Qed.

(** A suite printed as JSON on one line loses its results as soon as
    the binary prints anything after it: the object is only tried together
    with the next line, so only the summary is found, and the results of the
    single tests are reported as an empty list. *)
Theorem one_line_suite_loses_results :
  find_object (split_lines (one_line_suite +:+ py_newline)) None ≠ None ∧
  parse_vishwa_output (one_line_suite +:+ py_newline +:+ "bye" +:+ py_newline) (JStr "s") "1.0" =
    Ok (JObj [("suite", JStr "s"); ("results", JArr []);
              ("summary", JObj [("total", JNum "1"); ("passed", JNum "1"); ("failed", JNum "0")])]).
Proof. split; vm_compute; [discriminate|reflexivity]. Qed.
