(* ===== verification/GuestAgent.v ===== *)
(** * The guest agent ([python-agent/agent/__main__.py])

    The program inside a VM: it registers over the virtio-serial port, reads
    commands from it, runs them and reports a result for each.  What it asks
    of the guest's operating system and of [subprocess] is the class
    [GuestOS]; what the host writes is given as the list of complete lines.
    A Python value read from JSON is a [json]; an exception is [Err] with its
    text.  [print] has no effect on the protocol and is left out, and so is
    the text [repr] gives for a value, which is a parameter. *)
From Stdlib Require Import Ascii SpecFloat.
From stdpp Require Import sorting options.
Set Default Proof Using "Type*".
From S2P Require Import Prelude GoStd Types Effects Json Marshal JsonText Numbers PyText TestFramework AgentParser.
Open Scope string_scope.
Open Scope list_scope.
Open Scope Z_scope.

(** ** Values *)

(** [repr(v)] *)
Class PyRepr := py_repr : json → string.

(** [str(v)], also within an f-string. *)
Definition py_str `{!PyRepr} (v : json) : string := match v with JStr s => s | _ => py_repr v end.

(** [bool(v)] *)
Definition truthy (v : json) : bool :=
  match v with
  | JNull => false
  | JBool b => b
  | JNum lit =>
    if is_float lit then match py_float lit with S754_zero _ => false | _ => true end else negb (py_integer lit =? 0)
  | JStr s => bool_decide (s ≠ "")
  | JArr l => bool_decide (l ≠ [])
  | JObj l => bool_decide (l ≠ [])
  end.

(** [v > 0] *)
Definition gt_zero (v : json) : result bool :=
  match v with
  | JNum lit =>
    Ok (if is_float lit then match py_float lit with S754_finite false _ _ | S754_infinity false => true | _ => false end
        else 0 <? py_integer lit)
  | JBool b => Ok b
  | _ => Err ("'>' not supported between instances of '" +:+ py_type v +:+ "' and 'int'")
  end.

(** [v == 0] *)
Definition is_zero (v : json) : bool :=
  match v with JNum _ | JBool _ => negb (truthy v) | _ => false end.

(** [int(f)] of a float *)
Definition trunc (f : float64) : result Z :=
  match f with
  | S754_zero _ => Ok 0
  | S754_finite neg m e =>
    let a := if 0 <=? e then Z.pos m * 2 ^ e else Z.pos m / 2 ^ (- e) in Ok (if neg then - a else a)
  | S754_infinity _ => Err "cannot convert float infinity to integer"
  | S754_nan => Err "cannot convert float NaN to integer"
  end.

(** Decimal digits, single underscores between them. *)
Fixpoint digits_value (acc : Z) (after_digit : bool) (l : list ascii) : option Z :=
  match l with
  | [] => if after_digit then Some acc else None
  | c :: l' =>
    if is_digit c then digits_value (10 * acc + Z.of_N (code c - 48)) true l'
    else if (code c =? 95)%N && after_digit then digits_value acc false l' else None
  end.

Definition int_text (l : list ascii) : option Z :=
  match l with
  | c :: l' =>
    if (code c =? 45)%N then Z.opp <$> digits_value 0 false l'
    else if (code c =? 43)%N then digits_value 0 false l' else digits_value 0 false l
  | [] => None
  end.

(** [int(v)] *)
Definition py_int `{!PyRepr} (v : json) : result Z :=
  match v with
  | JStr s =>
    match int_text (bytes (strip s)) with
    | Some n => Ok n
    | None => Err ("invalid literal for int() with base 10: " +:+ py_repr v)
    end
  | JNum lit => if is_float lit then trunc (py_float lit) else Ok (py_integer lit)
  | JBool b => Ok (if b then 1 else 0)
  | _ => Err ("int() argument must be a string, a bytes-like object or a real number, not '" +:+ py_type v +:+ "'")
  end.

(** [os.fspath(v)] *)
Definition fspath (v : json) : result string :=
  match v with
  | JStr s => Ok s
  | _ => Err ("expected str, bytes or os.PathLike object, not " +:+ py_type v)
  end.

Definition is_slash (c : ascii) : bool := (code c =? 47)%N.

(** The bytes up to and with the last slash. *)
Definition head_of (l : list ascii) : list ascii := rstrip_by (λ c, negb (is_slash c)) l.

(** [os.path.dirname(p)] *)
Definition dirname (p : string) : string :=
  let head := head_of (bytes p) in
  str (if forallb is_slash head then head else rstrip_by is_slash head).

(** [os.path.join(a, b)] for a relative [b] *)
Definition path_join (a b : string) : string :=
  if decide (a = "") then b
  else match last (bytes a) with
       | Some c => if is_slash c then a +:+ b else a +:+ "/" +:+ b
       | None => b
       end.

(** [s.split()] *)
Fixpoint split_space (l : list ascii) (word : list ascii) : list string :=
  match l with
  | [] => match word with [] => [] | _ => [str word] end
  | c :: l' =>
    if py_space c then match word with [] => split_space l' [] | _ => str word :: split_space l' [] end
    else split_space l' (word ++ [c])
  end.

(** [int((t1 - t0) * 1000)] and [round((t1 - t0) * 1000.0, 1)] *)
Definition thousand : float64 := binary_normalize 53 1024 1000 0 false.
Definition elapsed (t0 t1 : float64) : float64 := SFmul 53 1024 (SFsub 53 1024 t1 t0) thousand.

Definition tenths (m : positive) (e : Z) : Z :=
  if 0 <=? e then Z.pos m * 2 ^ e * 10 else round_half_even (Z.pos m * 10) (2 ^ (- e)).

Definition ms_text (f : float64) : string :=
  let text h := fmt_d (h / 10) +:+ "." +:+ fmt_d (h mod 10) in
  match f with
  | S754_zero neg => (if neg then "-" else "") +:+ text 0
  | S754_finite neg m e => (if neg then "-" else "") +:+ text (tenths m e)
  | S754_infinity neg => if neg then "-Infinity" else "Infinity"
  | S754_nan => "NaN"
  end.

(** ** The guest's operating system *)

(** A finished command: [subprocess.run(..., capture_output=True, text=True)]. *)
Record completed : Type := mkCompleted { cp_stdout : string; cp_stderr : string; cp_returncode : Z }.

Inductive stream : Set := Stdout | Stderr.

Class GuestOS (W : Type) := {
  g_process : Type;
  g_environ : M W (gmap string string);
  g_run : list json → gmap string string → M W (result completed);
  g_exists : json → M W (result bool);
  g_isdir : string → M W bool;
  g_listdir : string → M W (result (list string));
  g_makedirs : string → M W (result unit);
  g_chmod : json → M W (result (option string));           (* [Ok (Some e)]: the [OSError] [e] *)
  g_read_file : string → M W (result string);
  g_ls_dev : M W (result string);                          (* [check_output(["ls", "/dev/"])] *)
  g_popen : list json → option json → gmap string string → M W (result g_process);
  (* the lines the two reader threads take before the main thread goes on *)
  g_taken : g_process → M W (list (stream * string));
  g_wait : g_process → Z → M W (result (option Z));        (* [Ok None]: [TimeoutExpired] *)
  g_kill : g_process → M W unit;                           (* [kill] and [wait] *)
  g_open : string → M W (result unit);
  g_write : string → M W (result Z);                       (* the number of bytes written *)
  g_close : M W unit;
  g_node : M W string;
  g_platform : M W string;
  g_time : M W float64;
  g_sleep : Z → M W unit;
}.

(** ** Exceptions *)

Definition try_bind {W A B : Type} (c : M W (result A)) (k : A → M W (result B)) : M W (result B) :=
  r ← c; match r with Ok a => k a | Err e => mret (Err e) end.

Declare Scope agent_scope.
Delimit Scope agent_scope with agent.
Notation "'try' x := c 'in' k" := (try_bind c (λ x, k))
  (at level 10, x name, c at level 100, k at level 200) : agent_scope.
Notation "'try' ' p := c 'in' k" := (try_bind c (λ x, match x with p => k end))
  (at level 10, p pattern, c at level 100, k at level 200) : agent_scope.
Open Scope agent_scope.

(** A computation without effects. *)
Definition pure {W A : Type} (r : result A) : M W (result A) := mret r.

(** ** State and messages *)

Record agent : Type := mkAgent {
  a_vm_id : string;
  a_agent_id : json;
  a_running : bool;
}.

Definition register_json (vm_id node platform : string) (devices : list string) : json :=
  JObj [("msg", JStr "register"); ("vm_id", JStr vm_id); ("hostname", JStr node); ("os_version", JStr platform);
        ("agent_version", JStr "2.0.0"); ("available_devices", JArr (JStr <$> devices))].

Definition heartbeat_json (vm_id : string) : json :=
  JObj [("msg", JStr "heartbeat"); ("vm_id", JStr vm_id); ("state", JStr "READY")].

Definition log_json (vm_id severity message : string) : json :=
  JObj [("msg", JStr "log"); ("vm_id", JStr vm_id); ("severity", JStr severity); ("message", JStr (first_chars 4096 message))].

Definition answer_json (cmd_id : json) (status output logs : string) (duration_ms : Z) : json :=
  JObj [("msg", JStr "result"); ("command_id", cmd_id); ("status", JStr status); ("output", JStr output);
        ("logs", JStr logs); ("duration_ms", int_json duration_ms)].

(** The line of a message. *)
Definition wire `{!PyFloat} (msg : json) : string := dumps py_num "" "" msg.

(** The bytes the host writes, as [_recv] cuts them: complete lines; what
    follows the last line break is dropped at the end of the stream. *)
Definition host_lines (data : string) : list string := removelast (split_lines data).

(** [_recv], of a complete line *)
Definition recv (line : string) : json :=
  let buf := line +:+ py_newline in
  match (if utf8_ok (bytes buf) then loads buf else None) with Some v => v | None => JObj [] end.

Section agent.
Context {W : Type} `{!GuestOS W, !PyRepr, !PyFloat}.

Definition search_path : string := "/sbin:/usr/sbin:/bin:/usr/bin:/usr/local/sbin:/usr/local/bin".

(** [_run] *)
Definition run_cmd (cmd : list json) : M W (result (string * Z)) :=
  env ← g_environ;
  let env := match env !! "PATH" with Some _ => env | None => <["PATH" := search_path]> env end in
  try c := g_run cmd env in
  pure (Ok (strip (cp_stdout c +:+ cp_stderr c), cp_returncode c)).

(** [_send]; how much was written is not looked at. *)
Definition send (msg : json) : M W (result unit) :=
  try _ := g_write (wire msg +:+ py_newline) in pure (Ok tt).

(** [_stream_log] *)
Definition stream_log (a : agent) (message severity : string) : M W unit :=
  _ ← send (log_json (a_vm_id a) severity message); mret tt.

(** ** Handlers *)

Definition words (l : list string) : list json := JStr <$> l.

Definition handle_load_driver (params : json) : M W (result (string * string)) :=
  try module_path := pure (get params "module_path" (JStr "")) in
  try ko_path := pure (get params "ko_path" module_path) in
  if negb (truthy ko_path) then pure (Ok ("ko_path parameter is required", "errored"))
  else
    try there := g_exists ko_path in
    if negb there then pure (Ok ("ko file not found: " +:+ py_str ko_path, "errored"))
    else
      try '(out, rc) := run_cmd [JStr "insmod"; ko_path] in
      if decide (rc ≠ 0) then
        try '(dmesg, _) := run_cmd (words ["sh"; "-c"; "dmesg | tail -5"]) in
        pure (Ok ("insmod failed (rc=" +:+ fmt_d rc +:+ "): " +:+ out +:+ py_newline +:+ "dmesg: " +:+ dmesg, "failed"))
      else pure (Ok (if decide (out = "") then "driver loaded" else out, "passed")).

Definition handle_unload_driver (params : json) : M W (result (string * string)) :=
  try module := pure (get params "module" (JStr "")) in
  try '(out, rc) := run_cmd [JStr "rmmod"; module] in
  pure (Ok (out, if decide (rc = 0) then "passed" else "failed")).

Definition lspci_command : string :=
  "lspci -nn 2>/dev/null || cat /proc/bus/pci/devices 2>/dev/null || echo 'no lspci'".

Definition handle_verify_device (params : json) : M W (result (string * string * string)) :=
  try device_node := pure (get params "device_node" (JStr "/dev/gp_gpu")) in
  _ ← g_sleep 1;
  try '(out, rc) := run_cmd [JStr "ls"; JStr "-la"; device_node] in
  if decide (rc = 0) then pure (Ok (out, "passed", ""))
  else
    try '(dmesg, _) := run_cmd (words ["sh"; "-c"; "dmesg | tail -20"]) in
    try '(lspci, _) := run_cmd (words ["sh"; "-c"; lspci_command]) in
    pure (Ok ("device node " +:+ py_str device_node +:+ " not found (rc=" +:+ fmt_d rc +:+ "): " +:+ out, "failed",
              "dmesg:" +:+ py_newline +:+ dmesg +:+ py_newline +:+ py_newline +:+ "lspci:" +:+ py_newline +:+ lspci)).

(** *** Running a test *)

(** The environment of a test, from the parameter [env]. *)
Definition env_value (env_raw : json) : json :=
  if truthy env_raw then
    match env_raw with
    | JStr s => match loads s with Some v => v | None => JObj [] end
    | _ => env_raw
    end
  else JObj [].

Definition extra_env (v : json) : result (list (string * string)) :=
  match v with
  | JObj l => Ok (prod_map id py_str <$> l)
  | _ => Err ("'" +:+ py_type v +:+ "' object has no attribute 'items'")
  end.

Definition update_env (env : gmap string string) (l : list (string * string)) : gmap string string :=
  foldl (λ m kv, <[kv.1 := kv.2]> m) env l.

Definition prepend (dir : string) (path : json) : string :=
  if truthy path then dir +:+ ":" +:+ py_str path else dir.

(** [line.rstrip("\n")] *)
Definition rstrip_newline (line : string) : string := str (rstrip_by is_nl (bytes line)).

(** [drain], of both threads: the lines in the order they are taken. *)
Fixpoint drain (a : agent) (events : list (stream * string)) (stores : list string * list string) :
    M W (list string * list string) :=
  match events with
  | [] => mret stores
  | (from, raw) :: events' =>
    let line := rstrip_newline raw in
    match from with
    | Stdout => _ ← stream_log a line "INFO"; drain a events' (stores.1 ++ [line], stores.2)
    | Stderr => _ ← stream_log a line "DEBUG"; drain a events' (stores.1, stores.2 ++ [line])
    end
  end.

(** The lines the readers take until the main thread goes on. *)
Definition read_on (a : agent) (proc : g_process) (stores : list string * list string) : M W (list string * list string) :=
  events ← g_taken proc; drain a events stores.

(** The streaming execution: the status and the lines of both streams.  The
    joins of the reading threads wait for five seconds at most: a thread may
    outlive them, and what it reads later is not part of the result, but is
    still sent as log lines. *)
Definition run_binary (a : agent) (cmd : list json) (cwd : option json) (env : gmap string string) (timeout : Z) :
    M W (string * (list string * list string)) :=
  p ← g_popen cmd cwd env;
  match p with
  | Err e => mret ("errored", ([e], []))
  | Ok proc =>
    s1 ← read_on a proc ([], []);
    r ← g_wait proc timeout;
    match r with
    | Err e => mret ("errored", (s1.1 ++ [e], s1.2))
    | Ok (Some rc) =>
      s2 ← read_on a proc s1;
      mret (if decide (rc = 0) then "passed" else "failed", s2)
    | Ok None =>
      _ ← g_kill proc;
      s2 ← read_on a proc s1;
      s3 ← read_on a proc (s2.1 ++ ["test timed out after " +:+ fmt_d timeout +:+ "s"], s2.2);
      mret ("errored", s3)
    end
  end.

(** Status reconciliation. *)
Definition reconcile (status : string) (parsed : json) : result string :=
  if decide (status = "passed") then
    let! summary := get parsed "summary" (JObj []) in
    let! parsed_failed := get summary "failed" (int_json 0) in
    let! parsed_passed := get summary "passed" (int_json 0) in
    let! parsed_total := get summary "total" (int_json 0) in
    let! some_failed := gt_zero parsed_failed in
    if (some_failed : bool) then Ok "failed"
    else
      let! some_run := gt_zero parsed_total in
      Ok (if some_run && is_zero parsed_passed then "failed" else "passed")
  else Ok status.

(** What the agent makes of what the binary did. *)
Definition report (suite_name : json) (ms : string) (status : string) (stores : list string * list string) :
    result (string * string * string) :=
  let raw_output := join_lines stores.1 in
  let raw_logs := join_lines stores.2 in
  let! parsed := parse_vishwa_output (raw_output +:+ py_newline +:+ raw_logs) suite_name ms in
  let json_output := dumps py_num " " " " parsed in
  let! status := reconcile status parsed in
  Ok (json_output, status, raw_logs).

(** The directory of bundled libraries. *)
Definition bundled_lib (binary binary_dir : json) : result string :=
  let! d := (if truthy binary_dir then fspath binary_dir else let! b := fspath binary in Ok (dirname b)) in
  Ok (path_join d "lib").

Definition test_command (loader lib_dir binary : json) : list json :=
  if truthy loader && truthy lib_dir then [loader; JStr "--library-path"; lib_dir; binary] else [binary].

Definition handle_start_test (a : agent) (params : json) : M W (result (string * string * string)) :=
  try binary := pure (get params "binary" (JStr "")) in
  try timeout_raw := pure (get params "timeout" (JStr "120")) in
  try timeout := pure (py_int timeout_raw) in
  try binary_dir := pure (get params "binary_dir" (JStr "")) in
  try loader := pure (get params "loader" (JStr "")) in
  try lib_dir := pure (get params "lib_dir" (JStr "")) in
  try suite_name := pure (get params "suite_name" binary) in
  try env_raw := pure (get params "env" (JStr "")) in
  if negb (truthy binary) then pure (Ok ("binary parameter is required", "errored", ""))
  else
    environ ← g_environ;
    try extra := pure (extra_env (env_value env_raw)) in
    let run_env := update_env environ extra in
    try lib := pure (bundled_lib binary binary_dir) in
    bundled ← g_isdir lib;
    let run_env :=
      if (bundled : bool) then
        <["LD_LIBRARY_PATH" := prepend lib (JStr (default "" (run_env !! "LD_LIBRARY_PATH")))]> run_env
      else run_env in
    let lib_dir := if (bundled : bool) then JStr (prepend lib lib_dir) else lib_dir in
    try _ := g_chmod binary in
    t0 ← g_time;
    run ← run_binary a (test_command loader lib_dir binary) (if truthy binary_dir then Some binary_dir else None)
            run_env timeout;
    t1 ← g_time;
    pure (report suite_name (ms_text (elapsed t0 t1)) run.1 run.2).

(** ** Dispatch *)

(** [v == s], for a string [s] *)
Definition is_str (v : json) (s : string) : bool := match v with JStr s' => bool_decide (s' = s) | _ => false end.

(** The branches of [execute]; [Err] is the exception they end in. *)
Definition dispatch (a : agent) (cmd_type params : json) : M W (result (string * string * string)) :=
  if is_str cmd_type "load_driver" then
    try '(output, status) := handle_load_driver params in pure (Ok (output, status, ""))
  else if is_str cmd_type "unload_driver" then
    try '(output, status) := handle_unload_driver params in pure (Ok (output, status, ""))
  else if is_str cmd_type "verify_device" then handle_verify_device params
  else if is_str cmd_type "start_test" then handle_start_test a params
  else if is_str cmd_type "shutdown" then pure (Ok ("shutting down", "passed", ""))
  else pure (Ok ("unknown command type: " +:+ py_str cmd_type, "errored", "")).

Definition after_command (a : agent) (cmd_type : json) : agent :=
  if is_str cmd_type "shutdown" then mkAgent (a_vm_id a) (a_agent_id a) false else a.

Definition outcome (r : result (string * string * string)) : string * string * string :=
  match r with Ok t => t | Err e => (e, "errored", "") end.

(** [execute] up to the report of the result. *)
Definition perform (a : agent) (cmd_id cmd_type params : json) : M W (result (string * string * string * Z)) :=
  start ← g_time;
  r ← dispatch a cmd_type params;
  let '(output, status, logs) := outcome r in
  stop ← g_time;
  try duration_ms := pure (trunc (elapsed start stop)) in
  _ ← stream_log a ("Command " +:+ py_str cmd_id +:+ " (" +:+ py_str cmd_type +:+ "): " +:+ status) "INFO";
  _ ← (if decide (logs = "") then mret tt else stream_log a (first_chars 4096 logs) "DEBUG");
  pure (Ok (output, status, logs, duration_ms)).

Definition execute (a : agent) (msg : json) : M W (result agent) :=
  try cmd_id := pure (get msg "command_id" (JStr "")) in
  try cmd_type := pure (get msg "cmd" (JStr "")) in
  try params := pure (get msg "params" (JObj [])) in
  try '(output, status, logs, duration_ms) := perform a cmd_id cmd_type params in
  try _ := send (answer_json cmd_id status output logs duration_ms) in
  pure (Ok (after_command a cmd_type)).

(** [command_loop], on the lines the host writes until the connection ends. *)
Fixpoint command_loop (a : agent) (lines : list string) : M W (result agent) :=
  if a_running a then
    match lines with
    | [] => pure (Ok a)
    | line :: lines' =>
      let msg := recv line in
      try kind := pure (get msg "msg" JNull) in
      if is_str kind "command" then try a' := execute a msg in command_loop a' lines'
      else command_loop a lines'
    end
  else pure (Ok a).

(** ** Start *)

Definition is_device (d : string) : bool := HasPrefix d "gpgpu" || HasPrefix d "gp_gpu" || HasPrefix d "fpga".

Definition detect_devices : M W (list string) :=
  r ← g_ls_dev;
  mret (match r with
        | Ok out => (λ d, "/dev/" +:+ d) <$> filter (λ d, is_device d = true) (split_space (bytes out) [])
        | Err _ => []
        end).

(** [register]: the agent and the lines that are left. *)
Definition register (a : agent) (lines : list string) : M W (result (agent * list string)) :=
  node ← g_node;
  platform ← g_platform;
  devices ← detect_devices;
  try _ := send (register_json (a_vm_id a) node platform devices) in
  let fallback := JStr ("agent-" +:+ a_vm_id a) in
  let with_id i := mkAgent (a_vm_id a) i (a_running a) in
  match lines with
  | [] => pure (Ok (with_id fallback, []))
  | line :: rest =>
    let ack := recv line in
    if truthy ack then
      try kind := pure (get ack "msg" JNull) in
      if is_str kind "ack" then try i := pure (get ack "agent_id" fallback) in pure (Ok (with_id i, rest))
      else pure (Ok (with_id fallback, rest))
    else pure (Ok (with_id fallback, rest))
  end.

(** [heartbeat_loop], one turn of it *)
Definition heartbeat (a : agent) : M W unit := _ ← send (heartbeat_json (a_vm_id a)); _ ← g_sleep 5; mret tt.

(** [run]; the heartbeats are those of another thread. *)
Definition run (vm_id port_path : string) (lines : list string) : M W (result agent) :=
  try _ := g_open port_path in
  r ← (try '(a, rest) := register (mkAgent vm_id JNull true) lines in command_loop a rest);
  _ ← g_close;
  mret r.

(** [_run] where the result is not looked at *)
Definition mount_guest_filesystems (mount_path : string) : M W (result unit) :=
  try _ := g_makedirs mount_path in
  try '(_, rc) := run_cmd (words ["mount"; "-t"; "9p"; "-o"; "trans=virtio,version=9p2000.L"; "hostshare"; mount_path]) in
  try _ := (if decide (rc = 0) then pure (Ok tt)
            else try _ := run_cmd (words ["mount"; "-t"; "9p"; "-o"; "trans=virtio"; "hostshare"; mount_path]) in pure (Ok tt)) in
  try _ := run_cmd (words ["mount"; "-t"; "proc"; "proc"; "/proc"]) in
  try _ := run_cmd (words ["mount"; "-t"; "sysfs"; "sysfs"; "/sys"]) in
  try _ := run_cmd (words ["mount"; "-t"; "devtmpfs"; "devtmpfs"; "/dev"]) in
  pure (Ok tt).

(** The bytes before the first white space. *)
Fixpoint word_of (l : list ascii) : list ascii :=
  match l with
  | [] => []
  | c :: l' => if py_space c then [] else c :: word_of l'
  end.

(** [re.search(r"dvf_vm_id=(\S+)", cmdline).group(1)], empty without a match *)
Fixpoint find_vm_id (l : list ascii) : list ascii :=
  match l with
  | [] => []
  | _ :: l' =>
    let key := bytes "dvf_vm_id=" in
    let value := if decide (take (length key) l = key) then word_of (drop (length key) l) else [] in
    match value with [] => find_vm_id l' | _ => value end
  end.

Definition read_vm_id_from_cmdline : M W string :=
  r ← g_read_file "/proc/cmdline";
  mret (match r with Ok cmdline => str (find_vm_id (bytes cmdline)) | Err _ => "" end).

Definition VIRTIO_PORT : string := "/dev/virtio-ports/dvf.agent.0".

Definition path_le (a b : string) : Prop := String.leb a b = true.
Global Instance path_le_dec : RelDecision path_le := λ a b, decide (String.leb a b = true).

(** The loop that waits for the port, with [n] attempts left. *)
Fixpoint find_port (n : nat) : M W (result (option string)) :=
  match n with
  | O => pure (Ok None)
  | S n' =>
    try there := g_exists (JStr VIRTIO_PORT) in
    if (there : bool) then pure (Ok (Some VIRTIO_PORT))
    else
      r ← g_listdir "/dev";
      let vports := match r with
                    | Ok l => merge_sort path_le ((λ d, "/dev/" +:+ d) <$> filter (λ d, HasPrefix d "vport" = true) l)
                    | Err _ => []
                    end in
      match vports with
      | p :: _ => pure (Ok (Some p))
      | [] => _ ← g_sleep 1; find_port n'
      end
  end.

(** [main]: [Err "exit"] is [sys.exit(1)]. *)
Definition main (lines : list string) : M W (result agent) :=
  environ ← g_environ;
  let from_env := default "" (environ !! "DVF_VM_ID") in
  vm_id ← (if decide (from_env = "") then read_vm_id_from_cmdline else mret from_env);
  if decide (vm_id = "") then pure (Err "exit")
  else
    try _ := mount_guest_filesystems "/mnt/share" in
    try port_path := find_port 30 in
    match port_path with
    | None => pure (Err "exit")
    | Some p => run vm_id p lines
    end.

End agent.
