(* ===== verification/AgentRun.v ===== *)
(** * What the guest agent writes

    The lines the agent writes while it handles commands, for every guest
    operating system with the documented behaviour of Python's interface to
    it: the calls return, texts are UTF-8, only [os.write] writes to the
    port.  Each command is answered by exactly one result line, after any
    number of log lines. *)
From Stdlib Require Import Ascii SpecFloat.
From stdpp Require Import options.
Set Default Proof Using "Type*".
From S2P Require Import Prelude GoStd Types Effects Json Marshal JsonText Numbers PyText JsonTyped AgentParser GuestAgent.
Open Scope string_scope.
Open Scope list_scope.
Open Scope Z_scope.

(** ** Texts *)

(** A character of ASCII that is not a control character. *)
Definition visible_char (c : ascii) : Prop := (32 ≤ code c < 128)%N.

Definition ascii_text (s : string) : Prop := Forall visible_char (bytes s).

Lemma text_valid s : ascii_text s → valid_string s.
Proof. unfold ascii_text, valid_string. induction 1 as [|c l [_ Hc] _ IH]; [constructor|by apply valid_one]. Qed.

Lemma ascii_check s : forallb (λ c, (32 <=? code c) && (code c <? 128))%N (bytes s) = true → ascii_text s.
Proof.
  intros H. apply Forall_forall. intros c Hc%list_elem_of_In. rewrite forallb_forall in H. apply H in Hc.
  by apply andb_prop in Hc as [?%N.leb_le ?%N.ltb_lt].
Qed.

Lemma ascii_app a b : ascii_text a → ascii_text b → ascii_text (a +:+ b).
Proof. unfold ascii_text. rewrite bytes_app. intros. by apply Forall_app. Qed.

Lemma ascii_cons c s : (32 ≤ code c < 128)%N → ascii_text s → ascii_text (String c s).
Proof. intros. by apply Forall_cons. Qed.

Ltac solve_ascii := apply ascii_check; reflexivity.

(** A number literal of JSON is ASCII. *)
Lemma number_ascii lit : number_literal lit = true → ascii_text lit.
Proof. apply number_bytes. Qed.

Lemma py_number_ascii lit : py_number lit → ascii_text lit.
Proof. intros [H|[->|[->| ->]]]; [by apply number_ascii|solve_ascii..]. Qed.

Lemma fmt_d_ascii n : ascii_text (fmt_d n).
Proof. apply number_ascii, fmt_d_number. Qed.

(** What [json.dumps] writes is ASCII. *)
Lemma hex_digit_ascii n : visible_char (hex_digit n) ∨ (16 ≤ n)%N.
Proof.
  destruct (decide (16 ≤ n)%N); [by right|left]. unfold hex_digit, visible_char.
  destruct (N.ltb_spec n 10); rewrite code_byte; lia.
Qed.

Lemma u_escape_ascii n : (n < 65536)%N → Forall visible_char (u_escape n).
Proof.
  intros Hn. unfold u_escape, hex4_of.
  assert (Hd : ∀ x, (x < 16)%N → visible_char (hex_digit x)) by (intros x Hx; destruct (hex_digit_ascii x); [done|lia]).
  repeat (apply Forall_cons; split); try apply Forall_nil_2; try done; apply Hd; try (by apply N.mod_lt).
  apply N.Div0.div_lt_upper_bound. lia.
Qed.

Lemma py_escape_ascii_ascii c : Forall visible_char (py_escape_ascii c) ∨ (128 ≤ code c)%N.
Proof.
  destruct (N.ltb_spec (code c) 128) as [Hc|Hc]; [left|by right].
  rewrite <- (bytes_str (py_escape_ascii c)). apply ascii_check. rewrite bytes_str. all_bytes c.
Qed.

Lemma py_rune_ascii r : (r < 1114112)%N → Forall visible_char (py_escape_rune r).
Proof.
  intros Hr. unfold py_escape_rune. destruct (N.ltb_spec r 65536); [by apply u_escape_ascii|].
  assert (Hq : ((r - 65536) / 1024 < 1024)%N) by (apply N.Div0.div_lt_upper_bound; lia).
  assert (Hm : ((r - 65536) mod 1024 < 1024)%N) by (by apply N.mod_lt).
  apply Forall_app. split; apply u_escape_ascii; lia.
Qed.

Lemma py_escape_is_ascii l : Forall visible_char (py_escape l).
Proof.
  remember (length l) as n eqn:Hn. assert (Hle : (length l ≤ n)%nat) by lia. clear Hn. revert l Hle.
  induction n as [|n IH]; intros l Hle; destruct l as [|c l1]; try apply Forall_nil_2; [simpl in Hle; lia|].
  assert (Hbad : Forall visible_char escape_bad) by (rewrite <- (bytes_str escape_bad); solve_ascii).
  assert (Hrest : Forall visible_char (escape_bad ++ py_escape l1)).
  { apply Forall_app. split; [done|]. apply IH. simpl in Hle. lia. }
  cbn [py_escape]. destruct (N.ltb_spec (code c) 128).
  { apply Forall_app. split; [destruct (py_escape_ascii_ascii c); [done|lia]|]. apply IH. simpl in Hle. lia. }
  destruct l1 as [|c1 l2]; [done|]. destruct (rune2 c c1) eqn:E2.
  { apply Forall_app. split; [apply py_rune_ascii; destruct (encode2 _ _ E2) as [_ ?]; lia|]. apply IH. simpl in Hle. lia. }
  destruct l2 as [|c2 l3]; [done|]. destruct (rune3 c c1 c2) eqn:E3.
  { apply Forall_app. split; [apply py_rune_ascii; destruct (encode3 _ _ _ E3) as (_ & ? & _); lia|]. apply IH. simpl in Hle. lia. }
  destruct l3 as [|c3 l4]; [done|]. destruct (rune4 c c1 c2 c3) eqn:E4; [|done].
  apply Forall_app. split; [apply py_rune_ascii; destruct (encode4 _ _ _ _ E4) as [_ ?]; lia|]. apply IH. simpl in Hle. lia.
Qed.

Lemma py_string_ascii s : ascii_text (py_string s).
Proof.
  unfold py_string, literal. apply ascii_cons; [done|]. apply ascii_app; [|solve_ascii].
  unfold ascii_text. rewrite bytes_str. apply py_escape_is_ascii.
Qed.

(** All numbers of a value. *)
Fixpoint numbers_all (P : string → Prop) (v : json) : Prop :=
  match v with
  | JNum lit => P lit
  | JArr l => (fix all l := match l with [] => True | x :: l' => numbers_all P x ∧ all l' end) l
  | JObj l => (fix all l := match l with [] => True | kv :: l' => numbers_all P kv.2 ∧ all l' end) l
  | _ => True
  end.

Lemma numbers_arr P l : numbers_all P (JArr l) ↔ Forall (numbers_all P) l.
Proof. induction l as [|x l IH]; [by split|]. rewrite Forall_cons, <- IH. done. Qed.

Lemma numbers_obj P l : numbers_all P (JObj l) ↔ Forall (λ kv, numbers_all P kv.2) l.
Proof. induction l as [|x l IH]; [by split|]. rewrite Forall_cons, <- IH. done. Qed.

Lemma dumpable_numbers ok d v : dumpable ok d v → numbers_all ok v.
Proof.
  revert v. induction d as [|d IH]; intros v; destruct v as [|b|lit|s|l|l]; try done; intros Hl.
  - apply numbers_arr. eapply Forall_impl; [exact Hl|]. apply IH.
  - apply numbers_obj. eapply Forall_impl; [exact Hl|]. intros kv [_ ?]. by apply IH.
Qed.

Lemma commas_ascii sp l : ascii_text sp → Forall ascii_text l → ascii_text (commas sp l).
Proof.
  intros Hsp. unfold commas. induction 1 as [|s l Hs Hl IH]; [constructor|]. cbn [join_with].
  destruct l; [done|]. repeat apply ascii_app; try done. solve_ascii.
Qed.

Section dumps.
Context (num : string → string) (csp ksp : string).
Hypothesis csp_ascii : ascii_text csp.
Hypothesis ksp_ascii : ascii_text ksp.

Lemma dumps_ascii v : numbers_all (λ lit, ascii_text (num lit)) v → ascii_text (dumps num csp ksp v).
Proof.
  revert v. fix IH 1. intros [|[]|lit|s|l|l] Hv; [solve_ascii|solve_ascii|solve_ascii|done|apply py_string_ascii|..]; cbn [dumps].
  - apply ascii_cons; [done|]. apply ascii_app; [|solve_ascii]. apply commas_ascii; [done|].
    induction l as [|x l IHl]; [constructor|]. destruct Hv as [Hx Hl]. apply Forall_cons. split; [by apply IH|by apply IHl].
  - apply ascii_cons; [done|]. apply ascii_app; [|solve_ascii]. apply commas_ascii; [done|].
    induction l as [|[k x] l IHl]; [constructor|]. destruct Hv as [Hx Hl]. apply Forall_cons. split; [|by apply IHl].
    unfold field_text. cbn [fst snd]. repeat apply ascii_app; try done; [apply py_string_ascii|solve_ascii|by apply IH].
Qed.

End dumps.

(** *** The numbers of a report *)

Lemma numbers_mono (P Q : string → Prop) v : (∀ lit, P lit → Q lit) → numbers_all P v → numbers_all Q v.
Proof.
  intros HPQ. revert v. fix IH 1. intros [|b|lit|s|l|l] Hv; try done; [by apply HPQ|..].
  - induction l as [|x l IHl]; [done|]. destruct Hv as [Hx Hl]. split; [by apply IH|by apply IHl].
  - induction l as [|x l IHl]; [done|]. destruct Hv as [Hx Hl]. split; [by apply IH|by apply IHl].
Qed.

Lemma loads_numbers t v : loads t = Some v → numbers_all ascii_text v.
Proof.
  intros H. destruct (read_values_well_formed t) as [_ Hw]. destruct (Hw v H) as [Hv _].
  eapply numbers_mono; [apply py_number_ascii|]. by eapply dumpable_numbers.
Qed.

Lemma dict_get_Forall (P : string * json → Prop) l k v : Forall P l → dict_get l k = Some v → P (k, v).
Proof.
  induction 1 as [|[k' v'] l Hkv Hl IH]; cbn [dict_get]; [done|]. case_decide as E; [intros [= ->]; by subst|done].
Qed.

Lemma py_type_ascii v : ascii_text (py_type v).
Proof. destruct v as [| |lit| | |]; try solve_ascii. simpl. destruct (is_float lit); solve_ascii. Qed.

(** What holds of a result without exception; the text of an exception is
    ASCII. *)
Definition ok_or_ascii {A : Type} (P : A → Prop) (r : result A) : Prop :=
  match r with Ok x => P x | Err e => ascii_text e end.

Lemma ok_bind {A B} (r : result A) (k : A → result B) P Q :
  ok_or_ascii P r → (∀ x, P x → ok_or_ascii Q (k x)) → ok_or_ascii Q (result_bind r k).
Proof. destruct r; simpl; auto. Qed.

Lemma get_numbers v k default :
  numbers_all ascii_text v → numbers_all ascii_text default → ok_or_ascii (numbers_all ascii_text) (get v k default).
Proof.
  intros Hv Hd. unfold get. destruct v as [| | | | |l]; try (repeat apply ascii_app; try apply py_type_ascii; solve_ascii).
  simpl. destruct (dict_get l k) as [x|] eqn:E; [|done]. apply numbers_obj in Hv.
  by apply (dict_get_Forall _ _ _ _ Hv) in E.
Qed.

Lemma int_json_numbers n : numbers_all ascii_text (int_json n).
Proof. apply fmt_d_ascii. Qed.

Lemma summary_numbers t p f ms : ascii_text ms → numbers_all ascii_text (summary_json t p f ms).
Proof. intros Hms. split_and!; try apply fmt_d_ascii; done. Qed.

Lemma find_object_numbers lines js v : find_object lines js = Some v → numbers_all ascii_text v.
Proof.
  revert js. induction lines as [|line lines IH]; intros js; cbn [find_object]; [done|].
  destruct (HasPrefix _ _); [apply IH|]. destruct js as [js|]; [|apply IH].
  destruct (loads _) as [x|] eqn:E; [intros [= <-]; by eapply loads_numbers|apply IH].
Qed.

Lemma find_summary_numbers lines found summary :
  numbers_all ascii_text summary → (∀ v, found = Some v → numbers_all ascii_text v) →
  ok_or_ascii (λ o, ∀ v, o = Some v → numbers_all ascii_text v) (find_summary lines found summary).
Proof.
  revert found summary. induction lines as [|line lines IH]; intros found summary Hs Hf; cbn [find_summary]; [done|].
  destruct (if contains _ _ then _ else _) as [tail|]; [|by apply IH].
  destruct (loads _) as [obj|] eqn:E; [|by apply IH]. eapply ok_bind; [apply get_numbers; [by eapply loads_numbers|done]|].
  intros x Hx. apply IH; [done|]. by intros v [= <-].
Qed.

Lemma count_line_numbers line c :
  Forall (numbers_all ascii_text) (parsed_results c) →
  ok_or_ascii (λ c, Forall (numbers_all ascii_text) (parsed_results c)) (count_line line c).
Proof.
  intros Hc. unfold count_line. destruct (_ && _).
  - destruct (loads _) as [obj|] eqn:E; [|done]. apply loads_numbers in E.
    eapply ok_bind; [by apply get_numbers|]. intros status _.
    assert (Hrs : Forall (numbers_all ascii_text) (parsed_results c ++ [obj])) by (apply Forall_app; by rewrite Forall_singleton).
    by repeat case_match.
  - by repeat case_match.
Qed.

Lemma count_lines_numbers lines c :
  Forall (numbers_all ascii_text) (parsed_results c) →
  ok_or_ascii (λ c, Forall (numbers_all ascii_text) (parsed_results c)) (count_lines lines c).
Proof.
  revert c. induction lines as [|line lines IH]; intros c Hc; cbn [count_lines]; [done|].
  eapply ok_bind; [by apply count_line_numbers|]. intros c'. apply IH.
Qed.

Lemma verdict_numbers output lines name ms :
  numbers_all ascii_text name → ascii_text ms →
  numbers_all ascii_text (verdict_results output lines name ms).1 ∧ numbers_all ascii_text (verdict_results output lines name ms).2.
Proof. intros Hn Hms. unfold verdict_results. destruct (says_passed output); (split; [done|by apply summary_numbers]). Qed.

Lemma parse_results_numbers output name ms :
  numbers_all ascii_text name → ascii_text ms →
  ok_or_ascii (λ rs, numbers_all ascii_text rs.1 ∧ numbers_all ascii_text rs.2) (parse_results output name ms).
Proof.
  intros Hn Hms. unfold parse_results. pose proof (summary_numbers 0 0 0 ms Hms) as Hs0.
  destruct (find_object _ _) as [parsed|] eqn:E.
  - apply find_object_numbers in E. eapply ok_bind; [by apply get_numbers|]. intros results Hr.
    eapply ok_bind; [by apply get_numbers|]. by intros x Hx.
  - eapply ok_bind; [by apply find_summary_numbers|]. intros [x|] Hx; [by split; [|apply Hx]|].
    eapply ok_bind; [by apply count_lines_numbers|]. intros c Hc. case_decide.
    + split; [by apply numbers_arr|]. simpl. case_decide; [by apply summary_numbers|done].
    + by apply verdict_numbers.
Qed.

Lemma parse_output_numbers output name ms :
  numbers_all ascii_text name → ascii_text ms →
  ok_or_ascii (numbers_all ascii_text) (parse_vishwa_output output name ms).
Proof.
  intros Hn Hms. unfold parse_vishwa_output. eapply ok_bind; [by apply parse_results_numbers|]. intros [r x] [? ?]. by split_and!.
Qed.

Lemma ms_text_ascii f : ascii_text (ms_text f).
Proof.
  destruct f as [[]|[]| |[] m e]; try solve_ascii; unfold ms_text;
    repeat apply ascii_app; try apply fmt_d_ascii; solve_ascii.
Qed.

Lemma gt_zero_ascii v : ok_or_ascii (λ _, True) (gt_zero v).
Proof. destruct v; try done; repeat apply ascii_app; try apply py_type_ascii; solve_ascii. Qed.

Lemma reconcile_ascii status parsed :
  ascii_text status → numbers_all ascii_text parsed → ok_or_ascii ascii_text (reconcile status parsed).
Proof.
  intros Hst Hp. unfold reconcile. case_decide; [|done].
  eapply ok_bind; [by apply get_numbers|]. intros x Hx.
  eapply ok_bind; [apply get_numbers; [done|apply int_json_numbers]|]. intros f _.
  eapply ok_bind; [apply get_numbers; [done|apply int_json_numbers]|]. intros p _.
  eapply ok_bind; [apply get_numbers; [done|apply int_json_numbers]|]. intros t _.
  eapply ok_bind; [apply gt_zero_ascii|]. intros [] _; [solve_ascii|].
  eapply ok_bind; [apply gt_zero_ascii|]. intros b _. destruct (_ && _); solve_ascii.
Qed.

(** ** The guest *)

(** What holds of a result that is not an exception; the text of an
    exception is a [str]. *)
Definition ok_or_text {A : Type} (P : A → Prop) (r : result A) : Prop :=
  match r with Ok x => P x | Err e => valid_string e end.

(** A call that returns, with a result in [P], and does not write. *)
Definition quiet {W A : Type} (written : W → list string) (c : M W A) (P : A → Prop) : Prop :=
  ∀ w, ∃ r w', c w = Done (r, w') ∧ written w' = written w ∧ P r.

Definition anything {A : Type} (_ : A) : Prop := True.

(** The documented behaviour of Python's interface to the system: calls
    return or raise, texts are UTF-8, a write to the connected port succeeds
    and is recorded, and two readings of the clock are less than 2^53
    milliseconds apart. *)
Class GuestLaws (W : Type) `{!GuestOS W} := {
  written : W → list string;
  clock : float64 → Prop;
  clock_law t0 t1 : clock t0 → clock t1 → ∃ d, trunc (elapsed t0 t1) = Ok d ∧ - 2 ^ 53 < d < 2 ^ 53;
  environ_law : quiet written g_environ anything;
  run_law cmd env : quiet written (g_run cmd env) (ok_or_text (λ c, valid_string (cp_stdout c) ∧ valid_string (cp_stderr c)));
  exists_law p : quiet written (g_exists p) (ok_or_text anything);
  isdir_law p : quiet written (g_isdir p) anything;
  chmod_law p : quiet written (g_chmod p) (ok_or_text anything);
  popen_law cmd cwd env : quiet written (g_popen cmd cwd env) (ok_or_text anything);
  taken_law p : quiet written (g_taken p) (Forall (λ e, valid_string e.2));
  wait_law p t : quiet written (g_wait p t) (ok_or_text anything);
  kill_law p : quiet written (g_kill p) anything;
  time_law : quiet written g_time clock;
  node_law : quiet written g_node valid_string;
  platform_law : quiet written g_platform valid_string;
  ls_dev_law : quiet written g_ls_dev (ok_or_text valid_string);
  sleep_law n : quiet written (g_sleep n) anything;
  write_law s w : ∃ n w', g_write s w = Done (Ok n, w') ∧ written w' = written w ++ [s];
}.

(** The same for the texts Python makes of values. *)
Class PyTextLaws `{!PyRepr, !PyFloat} : Prop := {
  repr_valid v d : dumpable py_number d v → valid_string (py_repr v);
  float_ascii lit : ascii_text (float_repr lit);
}.

(** ** Log lines *)

Section sends.
Context {W : Type} `{!GuestOS W, !GuestLaws W, !PyRepr, !PyFloat, !PyTextLaws} (a : agent).

Definition line_of (msg : json) : string := wire msg +:+ py_newline.

Definition log_line (s : string) : Prop :=
  ∃ severity message, s = line_of (log_json (a_vm_id a) severity message) ∧ valid_string severity ∧ valid_string message.

(** A computation that returns, with a result in [P], and writes log lines
    only. *)
Definition sends {A : Type} (c : M W A) (P : A → Prop) : Prop :=
  ∀ w, ∃ r w' l, c w = Done (r, w') ∧ written w' = written w ++ l ∧ Forall log_line l ∧ P r.

Lemma sends_quiet {A} (c : M W A) P : quiet written c P → sends c P.
Proof. intros Hc w. destruct (Hc w) as (r & w' & E & Hw & HP). exists r, w', []. by rewrite app_nil_r. Qed.

Lemma sends_ret {A} (x : A) (P : A → Prop) : P x → sends (mret x) P.
Proof. intros Hx w. exists x, w, []. by rewrite app_nil_r. Qed.

Lemma sends_bind {A B} (c : M W A) (k : A → M W B) P Q :
  sends c P → (∀ x, P x → sends (k x) Q) → sends (c ≫= k) Q.
Proof.
  intros Hc Hk w. destruct (Hc w) as (x & w1 & l1 & E1 & Hw1 & Hl1 & Hx).
  destruct (Hk x Hx w1) as (y & w2 & l2 & E2 & Hw2 & Hl2 & Hy). exists y, w2, (l1 ++ l2).
  rewrite (M_bind_done _ _ _ _ _ E1), Hw2, Hw1, app_assoc. split_and!; [done|done|by apply Forall_app|done].
Qed.

Lemma sends_try {A B} (c : M W (result A)) (k : A → M W (result B)) P Q :
  sends c (ok_or_text P) → (∀ x, P x → sends (k x) (ok_or_text Q)) → sends (try_bind c k) (ok_or_text Q).
Proof.
  intros Hc Hk. eapply sends_bind; [exact Hc|]. intros [x|e] Hx; [by apply Hk|by apply sends_ret].
Qed.

Lemma sends_pure {A} (r : result A) (P : A → Prop) : ok_or_text P r → sends (pure r) (ok_or_text P).
Proof. apply sends_ret. Qed.

Lemma sends_mono {A} (c : M W A) (P Q : A → Prop) : sends c P → (∀ x, P x → Q x) → sends c Q.
Proof. intros Hc HPQ w. destruct (Hc w) as (r & w' & l & ? & ? & ? & ?). exists r, w', l. auto. Qed.

Lemma sends_log message severity : valid_string message → valid_string severity → sends (stream_log a message severity) anything.
Proof.
  intros Hm Hs w. destruct (write_law (line_of (log_json (a_vm_id a) severity message)) w) as (n & w' & E & Hw).
  exists tt, w', [line_of (log_json (a_vm_id a) severity message)]. split_and!; [|done| |done].
  - unfold stream_log, send, try_bind, mbind, M_bind. unfold line_of in E. by rewrite E.
  - apply Forall_singleton. by exists severity, message.
Qed.

Definition readable_value (v : json) : Prop := ∃ d, dumpable py_number d v.

Lemma str_valid v : readable_value v → valid_string (py_str v).
Proof. intros [d Hv]. destruct v; try (by eapply repr_valid). by destruct d. Qed.

Lemma get_readable v k default :
  readable_value v → readable_value default → ok_or_text readable_value (get v k default).
Proof.
  intros [d Hv] Hd. unfold get. destruct v as [| | | | |l]; try (apply text_valid; repeat apply ascii_app; try apply py_type_ascii; solve_ascii).
  simpl. destruct (dict_get l k) as [x|] eqn:E; [|done]. destruct d as [|d]; [done|].
  apply (dict_get_Forall _ _ _ _ Hv) in E as [_ Hx]. by exists d.
Qed.

Lemma str_readable s : valid_string s → readable_value (JStr s).
Proof. intros Hs. by exists 0%nat. Qed.

Lemma sends_run_cmd cmd : sends (run_cmd cmd) (ok_or_text (λ p, valid_string p.1)).
Proof.
  unfold run_cmd. eapply sends_bind; [apply sends_quiet, environ_law|]. intros env _.
  eapply sends_try; [apply sends_quiet, run_law|]. intros c [Ho He]. apply sends_pure. by apply valid_strip, valid_string_app.
Qed.

(** The three texts of an answer. *)
Definition texts_ok (t : string * string * string) : Prop :=
  valid_string t.1.1 ∧ valid_string t.1.2 ∧ valid_string t.2.

Definition two_ok (t : string * string) : Prop := valid_string t.1 ∧ valid_string t.2.

Lemma newline_valid : valid_string py_newline.
Proof. by apply valid_one; [|constructor]. Qed.

Lemma fmt_d_valid n : valid_string (fmt_d n).
Proof. apply text_valid, fmt_d_ascii. Qed.

Ltac solve_text :=
  repeat first
    [ assumption
    | apply fmt_d_valid
    | apply newline_valid
    | apply str_valid; assumption
    | apply valid_string_app
    | apply text_valid; solve_ascii ].

Lemma sends_load_driver params : readable_value params → sends (handle_load_driver params) (ok_or_text two_ok).
Proof.
  intros Hp. unfold handle_load_driver.
  eapply sends_try; [apply sends_pure, get_readable; [done|apply str_readable; solve_text]|]. intros mp Hmp.
  eapply sends_try; [apply sends_pure, get_readable; done|]. intros ko Hko.
  destruct (truthy ko); cbn [negb]; [|apply sends_pure; split; simpl; solve_text].
  eapply sends_try; [apply sends_quiet, exists_law|]. intros [] _; cbn [negb]; [|apply sends_pure; split; simpl; solve_text].
  eapply sends_try; [apply sends_run_cmd|]. intros [out rc] Hout. simpl in Hout. case_decide.
  - eapply sends_try; [apply sends_run_cmd|]. intros [dmesg rc'] Hd. simpl in Hd. apply sends_pure. split; simpl; solve_text.
  - apply sends_pure. split; simpl; [case_decide|]; solve_text.
Qed.

Lemma sends_unload_driver params : readable_value params → sends (handle_unload_driver params) (ok_or_text two_ok).
Proof.
  intros Hp. unfold handle_unload_driver.
  eapply sends_try; [apply sends_pure, get_readable; [done|apply str_readable; solve_text]|]. intros m Hm.
  eapply sends_try; [apply sends_run_cmd|]. intros [out rc] Hout. simpl in Hout.
  apply sends_pure. split; simpl; [|case_decide]; solve_text.
Qed.

Lemma sends_verify_device params : readable_value params → sends (handle_verify_device params) (ok_or_text texts_ok).
Proof.
  intros Hp. unfold handle_verify_device.
  eapply sends_try; [apply sends_pure, get_readable; [done|apply str_readable; solve_text]|]. intros dev Hdev.
  eapply sends_bind; [apply sends_quiet, sleep_law|]. intros _ _.
  eapply sends_try; [apply sends_run_cmd|]. intros [out rc] Hout. simpl in Hout.
  case_decide; [apply sends_pure; split_and!; simpl; solve_text|].
  eapply sends_try; [apply sends_run_cmd|]. intros [dmesg rc1] Hd. simpl in Hd.
  eapply sends_try; [apply sends_run_cmd|]. intros [lspci rc2] Hl. simpl in Hl.
  apply sends_pure. split_and!; simpl; solve_text.
Qed.

Lemma py_num_ascii lit : ascii_text lit → ascii_text (py_num lit).
Proof. intros Hl. unfold py_num. destruct (is_float lit); [apply float_ascii|]. case_decide; [solve_ascii|done]. Qed.

Definition stores_ok (stores : list string * list string) : Prop := Forall valid_string stores.1 ∧ Forall valid_string stores.2.

Lemma report_texts name ms status stores :
  readable_value name → ascii_text ms → ascii_text status → stores_ok stores →
  ok_or_text texts_ok (report name ms status stores).
Proof.
  intros [d Hn] Hms Hst [Ho Hl]. unfold report.
  assert (Hnn : numbers_all ascii_text name) by (eapply numbers_mono; [apply py_number_ascii|by eapply dumpable_numbers]).
  pose proof (parse_output_numbers (join_lines stores.1 +:+ py_newline +:+ join_lines stores.2) name ms Hnn Hms) as Hp.
  destruct (parse_vishwa_output _ _ _) as [parsed|e]; [|by apply text_valid]. cbn [result_bind]. simpl in Hp.
  pose proof (reconcile_ascii status parsed Hst Hp) as Hr.
  destruct (reconcile status parsed) as [status'|e]; [|by apply text_valid]. split_and!; simpl.
  - apply text_valid, dumps_ascii; [solve_ascii..|]. eapply numbers_mono; [apply py_num_ascii|done].
  - by apply text_valid.
  - apply valid_join; [solve_text|done].
Qed.

(** *** The test *)

Lemma newline_ascii c : is_nl c = true → (code c < 128)%N.
Proof. unfold is_nl. rewrite N.eqb_eq. lia. Qed.

Lemma rstrip_newline_valid s : valid_string s → valid_string (rstrip_newline s).
Proof. intros Hs. unfold rstrip_newline, valid_string. rewrite bytes_str. apply valid_rstrip; [apply newline_ascii|done]. Qed.

Lemma sends_drain events stores :
  Forall (λ e, valid_string e.2) events → stores_ok stores → sends (drain a events stores) stores_ok.
Proof.
  intros He. revert stores. induction He as [|[from raw] events Hraw He IH]; intros [outs errs] [Ho Hl]; cbn [drain]; [by apply sends_ret|].
  simpl in Hraw. apply rstrip_newline_valid in Hraw.
  destruct from; (eapply sends_bind; [apply sends_log; [done|solve_text]|]); intros _ _; apply IH; split; simpl; try done;
    apply Forall_app; by rewrite Forall_singleton.
Qed.

Lemma sends_read_on p stores : stores_ok stores → sends (read_on a p stores) stores_ok.
Proof.
  intros Hs. unfold read_on. eapply sends_bind; [apply sends_quiet, taken_law|]. intros events He. by apply sends_drain.
Qed.

Definition run_ok (r : string * (list string * list string)) : Prop := ascii_text r.1 ∧ stores_ok r.2.

Lemma stores_push outs errs s : stores_ok (outs, errs) → valid_string s → stores_ok (outs ++ [s], errs).
Proof. intros [Ho He] Hs. split; [|done]. apply Forall_app. by rewrite Forall_singleton. Qed.

Lemma sends_run_binary cmd cwd env timeout : sends (run_binary a cmd cwd env timeout) run_ok.
Proof.
  unfold run_binary. eapply sends_bind; [apply sends_quiet, popen_law|]. intros [proc|e] He.
  2: { apply sends_ret. split; simpl; [solve_ascii|]. split; simpl; [by apply Forall_singleton|done]. }
  eapply sends_bind; [apply sends_read_on; by split|]. intros [o1 e1] Hs1.
  eapply sends_bind; [apply sends_quiet, wait_law|]. intros [[rc|]|e] Hr.
  - eapply sends_bind; [by apply sends_read_on|]. intros s2 Hs2. apply sends_ret. split; simpl; [case_decide; solve_ascii|done].
  - eapply sends_bind; [apply sends_quiet, kill_law|]. intros _ _.
    eapply sends_bind; [by apply sends_read_on|]. intros [o2 e2] Hs2. cbn [fst snd].
    eapply sends_bind; [apply sends_read_on; apply stores_push; [done|solve_text]|]. intros s3 Hs3.
    apply sends_ret. split; simpl; [solve_ascii|done].
  - apply sends_ret. split; cbn [fst snd]; [solve_ascii|]. by apply stores_push.
Qed.

Lemma extra_env_text v : readable_value v → ok_or_text anything (extra_env v).
Proof. intros _. destruct v; try (apply text_valid; repeat apply ascii_app; try apply py_type_ascii; solve_ascii). done. Qed.

Lemma fspath_text v : ok_or_text anything (fspath v).
Proof. destruct v; try (apply text_valid; apply ascii_app; try apply py_type_ascii; solve_ascii). done. Qed.

Lemma bundled_lib_text b d : ok_or_text anything (bundled_lib b d).
Proof.
  unfold bundled_lib. pose proof (fspath_text b) as Hb. pose proof (fspath_text d) as Hd.
  destruct (truthy d); [by destruct (fspath d)|by destruct (fspath b)].
Qed.

Lemma py_int_text v : readable_value v → ok_or_text anything (py_int v).
Proof.
  intros Hv. destruct v as [|b|lit|s|l|l]; try done; try (apply text_valid; solve_ascii); simpl.
  - destruct (is_float lit); [|done]. destruct (py_float lit) as [[]|[]| |[] m e]; try done; apply text_valid; solve_ascii.
  - destruct (int_text _); [done|]. destruct Hv as [d Hv]. apply valid_string_app; [apply text_valid; solve_ascii|by eapply repr_valid].
Qed.

Lemma empty_readable : readable_value (JObj []).
Proof. exists 1%nat. apply Forall_nil_2. Qed.

Lemma env_value_readable v : readable_value v → readable_value (env_value v).
Proof.
  intros Hv. unfold env_value. destruct (truthy v); [|apply empty_readable]. destruct v as [| | |s| |]; try done.
  destruct (loads s) as [x|] eqn:E; [|apply empty_readable]. exists depth_limit. by apply (read_values_well_formed s).
Qed.

Lemma sends_start_test params : readable_value params → sends (handle_start_test a params) (ok_or_text texts_ok).
Proof.
  intros Hp. assert (He : readable_value (JStr "")) by (apply str_readable; solve_text). unfold handle_start_test.
  eapply sends_try; [by apply sends_pure, get_readable|]. intros binary Hbin.
  eapply sends_try; [apply sends_pure, get_readable; [done|apply str_readable; solve_text]|]. intros tr Htr.
  eapply sends_try; [by apply sends_pure, py_int_text|]. intros timeout _.
  eapply sends_try; [by apply sends_pure, get_readable|]. intros dir Hdir.
  eapply sends_try; [by apply sends_pure, get_readable|]. intros loader Hload.
  eapply sends_try; [by apply sends_pure, get_readable|]. intros lib Hlib.
  eapply sends_try; [by apply sends_pure, get_readable|]. intros name Hname.
  eapply sends_try; [by apply sends_pure, get_readable|]. intros env Henv.
  destruct (truthy binary); cbn [negb]; [|apply sends_pure; split_and!; simpl; solve_text].
  eapply sends_bind; [apply sends_quiet, environ_law|]. intros environ _.
  eapply sends_try; [by apply sends_pure, extra_env_text, env_value_readable|]. intros extra _.
  eapply sends_try; [apply sends_pure, bundled_lib_text|]. intros lb _.
  eapply sends_bind; [apply sends_quiet, isdir_law|]. intros bundled _.
  eapply sends_try; [apply sends_quiet, chmod_law|]. intros ch _.
  eapply sends_bind; [apply sends_quiet, time_law|]. intros t0 _.
  eapply sends_bind; [apply sends_run_binary|]. intros run [Hst Hs].
  eapply sends_bind; [apply sends_quiet, time_law|]. intros t1 _.
  apply sends_pure. apply report_texts; [done|apply ms_text_ascii|done|done].
Qed.

(** *** Commands *)

Lemma sends_dispatch cmd_type params :
  readable_value cmd_type → readable_value params → sends (dispatch a cmd_type params) (ok_or_text texts_ok).
Proof.
  intros Ht Hp. unfold dispatch.
  destruct (is_str _ _); [eapply sends_try; [by apply sends_load_driver|]; intros [o st] [? ?]; apply sends_pure; split_and!; simpl; solve_text|].
  destruct (is_str _ _); [eapply sends_try; [by apply sends_unload_driver|]; intros [o st] [? ?]; apply sends_pure; split_and!; simpl; solve_text|].
  destruct (is_str _ _); [by apply sends_verify_device|].
  destruct (is_str _ _); [by apply sends_start_test|].
  destruct (is_str _ _); apply sends_pure; split_and!; simpl; solve_text.
Qed.

Lemma outcome_ok r : ok_or_text texts_ok r → texts_ok (outcome r).
Proof. destruct r; simpl; [done|]. intros He. split_and!; simpl; solve_text. Qed.

(** A command object as the agent reads it. *)
Definition is_command (msg : json) (id cmd_type params : json) : Prop :=
  get msg "command_id" (JStr "") = Ok id ∧ get msg "cmd" (JStr "") = Ok cmd_type ∧ get msg "params" (JObj []) = Ok params.

(** An answer to the command [id]. *)
Definition answer_line (id : json) (s : string) : Prop :=
  ∃ status output logs d, s = line_of (answer_json id status output logs d) ∧
    valid_string status ∧ valid_string output ∧ valid_string logs ∧ - 2 ^ 53 < d < 2 ^ 53.

Definition is_done {A : Type} (P : A → Prop) (r : result A) : Prop := ∃ x, r = Ok x ∧ P x.

Definition answer_ok (t : string * string * string * Z) : Prop := texts_ok t.1 ∧ - 2 ^ 53 < t.2 < 2 ^ 53.

Lemma sends_perform id cmd_type params :
  readable_value id → readable_value cmd_type → readable_value params →
  sends (perform a id cmd_type params) (is_done answer_ok).
Proof.
  intros Hid Hty Hpa. unfold perform.
  eapply sends_bind; [apply sends_quiet, time_law|]. intros t0 Ht0.
  eapply sends_bind; [by apply sends_dispatch|]. intros r Hr. apply outcome_ok in Hr.
  destruct (outcome r) as [[output status] logs]. destruct Hr as (Ho & Hst & Hl). cbn [fst snd] in *.
  eapply sends_bind; [apply sends_quiet, time_law|]. intros t1 Ht1.
  destruct (clock_law t0 t1 Ht0 Ht1) as (d & Hd & Hb). rewrite Hd.
  eapply (sends_bind _ _ (is_done (λ x, x = d))); [apply sends_ret; by exists d|]. intros ? (x & -> & ->).
  eapply sends_bind; [apply sends_log; solve_text|]. intros _ _.
  eapply (sends_bind _ _ anything).
  - case_decide; [by apply sends_ret|]. apply sends_log; [by apply valid_first_chars|solve_text].
  - intros _ _. apply sends_ret. eexists. split; [done|]. split; [by split_and!|done].
Qed.

(** Executing a command returns, after log lines and exactly one answer. *)
Lemma execute_answers msg id cmd_type params w :
  is_command msg id cmd_type params → readable_value id → readable_value cmd_type → readable_value params →
  ∃ w' l s, execute a msg w = Done (Ok (after_command a cmd_type), w') ∧
    written w' = written w ++ l ++ [s] ∧ Forall log_line l ∧ answer_line id s.
Proof.
  intros (Hi & Ht & Hp) Hid Hty Hpa. unfold execute. rewrite Hi, Ht, Hp.
  destruct (sends_perform id cmd_type params Hid Hty Hpa w) as (r & w1 & l & E & Hw & Hl & ([[[output status] logs] d] & -> & Hok & Hb)).
  destruct (write_law (line_of (answer_json id status output logs d)) w1) as (n & w2 & E2 & Hw2).
  exists w2, l, (line_of (answer_json id status output logs d)). split_and!; [|by rewrite Hw2, Hw, app_assoc|done|].
  - unfold try_bind, pure, mbind, M_bind, mret, M_ret. rewrite E. unfold send, try_bind, mbind, M_bind.
    unfold line_of in E2. by rewrite E2.
  - destruct Hok as (? & ? & ?). by exists status, output, logs, d.
Qed.

(** ** The loop *)

Record command : Type := mkCommand { c_id : json; c_type : json; c_params : json }.

(** A line the agent reads as this command. *)
Definition command_line (line : string) (c : command) : Prop :=
  get (recv line) "msg" JNull = Ok (JStr "command") ∧ is_command (recv line) (c_id c) (c_type c) (c_params c) ∧
  readable_value (c_id c) ∧ readable_value (c_type c) ∧ readable_value (c_params c).

(** Lines that answer these commands one after the other. *)
Inductive answers : list json → list string → Prop :=
| answers_nil : answers [] []
| answers_cons id ids l s rest :
    Forall log_line l → answer_line id s → answers ids rest → answers (id :: ids) (l ++ s :: rest).

(** The commands up to the first one to shut down, that one included. *)
Fixpoint served {A : Type} (last_one : A → bool) (l : list A) : list A :=
  match l with [] => [] | x :: l => x :: if last_one x then [] else served last_one l end.

Lemma served_fmap {A B : Type} (f : A → B) (stop : B → bool) l : served stop (f <$> l) = f <$> served (stop ∘ f) l.
Proof. induction l as [|x l IH]; [done|]. cbn. destruct (stop (f x)); [done|]. by rewrite <- IH. Qed.

Lemma served_incl {A : Type} (stop : A → bool) (P : A → Prop) l : Forall P l → Forall P (served stop l).
Proof. induction 1 as [|x l Hx Hl IH]; simpl; [done|]. constructor; [done|]. by destruct (stop x). Qed.

Definition shuts_down (c : command) : bool := is_str (c_type c) "shutdown".

(** The agent after these commands. *)
Definition after_commands (stopped : bool) : agent := if stopped then mkAgent (a_vm_id a) (a_agent_id a) false else a.

Lemma loop_answers lines cs w :
  a_running a = true → Forall2 command_line lines cs →
  ∃ w' out, command_loop a lines w = Done (Ok (after_commands (existsb shuts_down cs)), w') ∧
    written w' = written w ++ out ∧ answers (c_id <$> served shuts_down cs) out.
Proof.
  intros Hrun Hl. revert w. induction Hl as [|line c lines cs (Hm & Hc & Hi & Ht & Hp) _ IH]; intros w; cbn [command_loop]; rewrite Hrun.
  - exists w, []. rewrite app_nil_r. split_and!; [done|done|constructor].
  - rewrite Hm. destruct (execute_answers _ _ _ _ w Hc Hi Ht Hp) as (w1 & l & s & E & Hw & Hl & Ha).
    unfold try_bind, pure, mbind, M_bind, mret, M_ret. cbn [is_str existsb served]. rewrite bool_decide_true by done. rewrite E.
    unfold after_command, shuts_down at 1 3. destruct (is_str (c_type c) "shutdown") eqn:Es; cbn [orb].
    + exists w1, (l ++ [s]). split_and!; [by destruct lines|done|]. constructor; [done..|constructor].
    + destruct (IH w1) as (w2 & out & E2 & Hw2 & Hout). exists w2, (l ++ s :: out). split_and!; [exact E2| |].
      * rewrite Hw2, Hw, <- !app_assoc. done.
      * by constructor.
Qed.

(** ** Registration *)

Lemma split_space_valid l word : valid_utf8 (word ++ l) → Forall valid_string (split_space l word).
Proof.
  revert word. induction l as [|c l IH]; intros word Hv; cbn [split_space].
  - rewrite app_nil_r in Hv. destruct word as [|d word]; [constructor|]. apply Forall_singleton.
    unfold valid_string. by rewrite bytes_str.
  - destruct (py_space c) eqn:Es.
    + apply valid_cut in Hv as [Hw Hl]; [|by apply space_ascii]. pose proof (IH [] Hl) as Hr.
      destruct word as [|d word]; [done|]. apply Forall_cons. split; [|done]. unfold valid_string. by rewrite bytes_str.
    + apply IH. by rewrite <- app_assoc.
Qed.

Lemma sends_detect_devices : sends detect_devices (Forall valid_string).
Proof.
  unfold detect_devices. eapply sends_bind; [apply sends_quiet, ls_dev_law|]. intros [out|e] Ho; apply sends_ret; [|constructor].
  apply Forall_fmap, Forall_forall. intros d [_ Hd]%list_elem_of_filter.
  eapply Forall_forall in Hd; [|by apply (split_space_valid _ [])].
  apply (valid_string_app "/dev/"); [solve_text|done].
Qed.

(** Registering writes one line and takes the identifier the host sends. *)
Lemma register_writes w :
  ∃ node platform devices w', valid_string node ∧ valid_string platform ∧ Forall valid_string devices ∧
    written w' = written w ++ [line_of (register_json (a_vm_id a) node platform devices)] ∧
    ∀ line rest i, recv line = JObj [("agent_id", JStr i); ("msg", JStr "ack")] →
      register a (line :: rest) w = Done (Ok (mkAgent (a_vm_id a) (JStr i) (a_running a), rest), w').
Proof.
  destruct (node_law w) as (node & w1 & E1 & Hw1 & Hn). destruct (platform_law w1) as (plat & w2 & E2 & Hw2 & Hp).
  destruct (ls_dev_law w2) as (r & w3 & E3 & Hw3 & Hd).
  set (devices := match r with
                  | Ok out => (λ d, "/dev/" +:+ d) <$> filter (λ d, is_device d = true) (split_space (bytes out) [])
                  | Err _ => [] end).
  destruct (write_law (line_of (register_json (a_vm_id a) node plat devices)) w3) as (n & w4 & E4 & Hw4).
  exists node, plat, devices, w4. split_and!; [done|done| |by rewrite Hw4, Hw3, Hw2, Hw1|].
  - destruct (sends_detect_devices w2) as (x & w' & l & E & _ & _ & Hx). unfold detect_devices, mbind, M_bind in E.
    rewrite E3 in E. injection E as <- _. exact Hx.
  - intros line rest i Hr. unfold register, detect_devices, send, try_bind, mbind, M_bind, mret, M_ret, pure.
    rewrite E1, E2, E3. fold devices. unfold line_of in E4. rewrite E4, Hr. done.
Qed.

End sends.
