(* ===== verification/StepExec.v ===== *)
(** * Suites, commands and results of a test run

    The pure and the storage-facing helpers of [core/execution_engine.go]:
    which devices run under QEMU, where a suite comes from, the command a
    step sends to the guest agent, and what becomes of the agent's answer. *)
From Stdlib Require Import Ascii SpecFloat.
From stdpp Require Import options.
From S2P Require Import Prelude GoStd Types Effects Config Json.
Open Scope string_scope.
Open Scope list_scope.
Open Scope nat_scope.

(** ** Suites of the Vishwa runtime *)

Definition isVishwaSuite (suiteID : string) : bool :=
  bool_decide (7 < String.length suiteID) && bool_decide (str_take 7 suiteID = "vishwa/").

(** [splitPath]: the loop over the bytes, with the bytes since [start]. *)
Fixpoint split_loop (since : string) (p : string) : list string :=
  match p with
  | EmptyString => if nonempty since then [since] else []
  | String c p' =>
    if is_slash c
    then (if nonempty since then [since] else []) ++ split_loop EmptyString p'
    else split_loop (since +:+ String c EmptyString) p'
  end.

Definition splitPath (p : string) : list string := split_loop EmptyString p.

Definition deviceSupportsQEMU (targetModes : list string) : bool :=
  if decide (length targetModes = 0) then true
  else existsb (λ m, bool_decide (m = "qemu")) targetModes.

(** [segments[len(segments)-1]] *)
Definition last_segment (segments : list string) : go string :=
  match last segments with
  | Some s => Done s
  | None => Panics "index out of range [-1]"
  end.

Definition or_default (s d : string) : string := if decide (s = "") then d else s.

Definition vishwa_test_dir (device : DeviceEntry) : string :=
  or_default (de_VishwaTestDir device) "/mnt/share/vishwa_tests".
Definition vishwa_lib_dir (device : DeviceEntry) : string :=
  or_default (de_VishwaLibDir device) "/mnt/share/vishwa_tests/lib".
Definition vishwa_loader (device : DeviceEntry) : string :=
  or_default (de_VishwaLoader device) "/mnt/share/vishwa_tests/lib/ld-linux-x86-64.so.2".

Definition load_command (run : TestRun) (device : DeviceEntry) : AgentCommand :=
  mkAgentCommand ("cmd-load-" +:+ tr_ID run) "load_driver"
    (<["ko_path" := PString (de_DriverPath device)]>
     (<["module_name" := PString (de_DriverModule device)]> ∅)).

Definition verify_command (run : TestRun) (device : DeviceEntry) : AgentCommand :=
  mkAgentCommand ("cmd-verify-" +:+ tr_ID run) "verify_device"
    (<["device_node" := PString (de_DeviceNode device)]> ∅).

(** [vishwaCommandSequence]; slicing [TestSuiteID[7:]] panics on a shorter
    identifier. *)
Definition vishwaCommandSequence (run : TestRun) (device : DeviceEntry) : go (list AgentCommand) :=
  if decide (String.length (tr_TestSuiteID run) < 7)
  then Panics "slice bounds out of range"
  else
    let suitePath := str_drop 7 (tr_TestSuiteID run) in
    let? binaryName := last_segment (splitPath suitePath) in
    let binaryDir := vishwa_test_dir device +:+ "/" +:+ suitePath in
    let binaryPath := binaryDir +:+ "/" +:+ binaryName in
    Done [load_command run device; verify_command run device;
          mkAgentCommand ("cmd-test-" +:+ tr_ID run) "start_test"
            (<["binary" := PString binaryPath]>
             (<["binary_dir" := PString binaryDir]>
              (<["loader" := PString (vishwa_loader device)]>
               (<["lib_dir" := PString (vishwa_lib_dir device)]>
                (<["timeout" := PString "60"]>
                 (<["env" := PEnv (de_VishwaEnv device)]>
                  (<["suite_name" := PString (tr_TestSuiteID run)]>
                   (<["binary_name" := PString binaryName]> ∅))))))))].

(** ** The command of a step *)

Definition step_command_id (run : TestRun) (def : WorkflowStep) (attempt : Z) : string :=
  "cmd-step-" +:+ tr_ID run +:+ "-" +:+ ws_ID def +:+ "-" +:+ fmt_d attempt.

Definition base_env (device : DeviceEntry) : gmap string string :=
  {["DVF_DEVICE_PATH" := de_DeviceNode device]}.

Definition step_parameters (run : TestRun) (device : DeviceEntry) (def : WorkflowStep) : gmap string param :=
  let p := <["binary" := PString (ws_TestBinary def)]>
           (<["timeout" := PString (fmt_d (ws_TimeoutSec def))]>
            (<["suite_name" := PString (tr_TestSuiteID run)]>
             (<["env" := PEnv (base_env device)]> ∅))) in
  if decide (0 < length (ws_Args def)) then <["args" := PStrings (ws_Args def)]> p else p.

(** The parameters the Vishwa runtime adds: its variables take priority over
    the base environment. *)
Definition vishwa_parameters (run : TestRun) (device : DeviceEntry) (p : gmap string param) :
    go (gmap string param) :=
  let suitePath := str_drop 7 (tr_TestSuiteID run) in
  let? binaryName := last_segment (splitPath suitePath) in
  Done (<["binary_name" := PString binaryName]>
        (<["env" := PEnv (de_VishwaEnv device ∪ base_env device)]>
         (<["binary_dir" := PString (vishwa_test_dir device +:+ "/" +:+ suitePath)]>
          (<["lib_dir" := PString (vishwa_lib_dir device)]>
           (<["loader" := PString (vishwa_loader device)]> p))))).

Definition step_command (run : TestRun) (device : DeviceEntry) (def : WorkflowStep) (attempt : Z) :
    go AgentCommand :=
  let? p := if isVishwaSuite (tr_TestSuiteID run)
            then vishwa_parameters run device (step_parameters run device def)
            else Done (step_parameters run device def) in
  Done (mkAgentCommand (step_command_id run def attempt) "start_test" p).

(** ** The agent's answer *)

Definition mapAgentStatus (s : string) : TestRunStatus :=
  if decide (s = "passed" ∨ s = "PASS") then TestRunStatusPassed
  else if decide (s = "failed" ∨ s = "FAIL") then TestRunStatusFailed
  else TestRunStatusErrored.

Record rawResultItem : Type := mkRaw {
  raw_Test : string;
  raw_Status : string;
  raw_DurationMs : float64;
  raw_Message : string;
  raw_Metrics : gmap string float64;
}.

Definition raw_zero : rawResultItem := mkRaw "" "" (S754_zero false) "" ∅.

Definition raw_fields : list (field rawResultItem) :=
  [("test", λ p v r, let! x := dec_string p v (raw_Test r) in
      Ok (mkRaw x (raw_Status r) (raw_DurationMs r) (raw_Message r) (raw_Metrics r)));
   ("status", λ p v r, let! x := dec_string p v (raw_Status r) in
      Ok (mkRaw (raw_Test r) x (raw_DurationMs r) (raw_Message r) (raw_Metrics r)));
   ("duration_ms", λ p v r, let! x := dec_float64 p v (raw_DurationMs r) in
      Ok (mkRaw (raw_Test r) (raw_Status r) x (raw_Message r) (raw_Metrics r)));
   ("message", λ p v r, let! x := dec_string p v (raw_Message r) in
      Ok (mkRaw (raw_Test r) (raw_Status r) (raw_DurationMs r) x (raw_Metrics r)));
   ("metrics", λ p v r,
      let! x := dec_map "map[string]float64" dec_float64 (S754_zero false) p v (raw_Metrics r) in
      Ok (mkRaw (raw_Test r) (raw_Status r) (raw_DurationMs r) (raw_Message r) x))].

Definition dec_raw : decoder rawResultItem := dec_struct "rawResultItem" "core.rawResultItem" raw_fields.
Definition dec_raws : decoder (list rawResultItem) := dec_slice "[]core.rawResultItem" dec_raw raw_zero.
Definition dec_obj_result : decoder (list rawResultItem) :=
  dec_struct "" ("struct { Results []core.rawResultItem " +:+ quoted ("json:\" +:+ quoted "results\") +:+ " }")
    [("results", dec_raws)].

(** The results an output holds: those of an object with a [results] field,
    else those of an array; [None] when it is neither. *)
Definition raw_results (output : string) : option (list rawResultItem) :=
  match Unmarshal dec_obj_result output [] with
  | Ok (r :: rs) => Some (r :: rs)
  | _ =>
    match Unmarshal dec_raws output [] with
    | Ok rs => Some rs
    | Err _ => None
    end
  end.

Section results.
Context {W : Type} `{!EngineStore W} `{!Runtime W}.

(** The result of one parsed item, and the one of an output that did not
    parse. *)
Definition item_result (run : TestRun) (logs : string) (now : Z) (raw : rawResultItem) : TestResult :=
  mkTestResult "" (tr_ID run) (raw_Test raw) TestCategoryUnset (mapAgentStatus (raw_Status raw))
    (float_to_int64 (raw_DurationMs raw)) (raw_Message raw) (raw_Metrics raw) logs now.

Definition whole_result (run : TestRun) (name : string) (res : AgentResult) (now : Z) : TestResult :=
  mkTestResult "" (tr_ID run) name TestCategoryUnset (mapAgentStatus (ar_Status res))
    (ar_DurationMs res) (ar_Output res) ∅ (ar_Logs res) now.

(** The two functions differ in the name of the result of an output that did
    not parse. *)
Definition process_results (c : ctx) (run : TestRun) (name : string) (res : option AgentResult) :
    M W (result unit) :=
  match res with
  | None => mret (Ok tt)
  | Some r =>
    if decide (ar_Output r = "") then mret (Ok tt)
    else
      match raw_results (ar_Output r) with
      | None => now ← rt_Now; SaveTestResult c (whole_result run name r now)
      | Some raws =>
        _ ← for_each raws (λ raw,
              now ← rt_Now;
              _ ← SaveTestResult c (item_result run (ar_Logs r) now raw);
              mret tt);
        mret (Ok tt)
      end
  end.

Definition processResults (c : ctx) (run : TestRun) (res : option AgentResult) : M W (result unit) :=
  process_results c run (tr_TestSuiteID run) res.

Definition processResultsForStep (c : ctx) (run : TestRun) (stepID : string) (res : option AgentResult) :
    M W (result unit) :=
  process_results c run stepID res.

End results.

(** ** Where a suite comes from *)

(** The entries of [suiteJSON]. *)
Record suiteTest : Type := mkSuiteTest {
  st_Binary : string;
  st_Description : string;
  st_TimeoutSeconds : Z;
  st_DependsOn : list string;
}.

Record suiteJSON : Type := mkSuiteJSON {
  sj_ID : string;
  sj_Name : string;
  sj_Description : string;
  sj_TimeoutSeconds : Z;
  sj_Tests : list suiteTest;
  sj_Steps : list WorkflowStep;
}.

Definition dec_strings : decoder (list string) := dec_slice "[]string" dec_string "".

Definition test_zero : suiteTest := mkSuiteTest "" "" 0 [].
Definition test_fields : list (field suiteTest) :=
  [("binary", λ p v t, let! x := dec_string p v (st_Binary t) in
      Ok (mkSuiteTest x (st_Description t) (st_TimeoutSeconds t) (st_DependsOn t)));
   ("description", λ p v t, let! x := dec_string p v (st_Description t) in
      Ok (mkSuiteTest (st_Binary t) x (st_TimeoutSeconds t) (st_DependsOn t)));
   ("timeout_seconds", λ p v t, let! x := dec_int p v (st_TimeoutSeconds t) in
      Ok (mkSuiteTest (st_Binary t) (st_Description t) x (st_DependsOn t)));
   ("depends_on", λ p v t, let! x := dec_strings p v (st_DependsOn t) in
      Ok (mkSuiteTest (st_Binary t) (st_Description t) (st_TimeoutSeconds t) x))].

Definition test_type : string :=
  "struct { Binary string " +:+ tag "binary" +:+ "; Description string " +:+ tag "description" +:+
  "; TimeoutSeconds int " +:+ tag "timeout_seconds" +:+ "; DependsOn []string " +:+
  tag "depends_on,omitempty" +:+ " }".

Definition step_zero : WorkflowStep := mkWorkflowStep "" "" [] [] 0 0.
Definition step_fields : list (field WorkflowStep) :=
  [("id", λ p v s, let! x := dec_string p v (ws_ID s) in
      Ok (mkWorkflowStep x (ws_TestBinary s) (ws_Args s) (ws_DependsOn s) (ws_RetryMax s) (ws_TimeoutSec s)));
   ("test_binary", λ p v s, let! x := dec_string p v (ws_TestBinary s) in
      Ok (mkWorkflowStep (ws_ID s) x (ws_Args s) (ws_DependsOn s) (ws_RetryMax s) (ws_TimeoutSec s)));
   ("args", λ p v s, let! x := dec_strings p v (ws_Args s) in
      Ok (mkWorkflowStep (ws_ID s) (ws_TestBinary s) x (ws_DependsOn s) (ws_RetryMax s) (ws_TimeoutSec s)));
   ("depends_on", λ p v s, let! x := dec_strings p v (ws_DependsOn s) in
      Ok (mkWorkflowStep (ws_ID s) (ws_TestBinary s) (ws_Args s) x (ws_RetryMax s) (ws_TimeoutSec s)));
   ("retry_max", λ p v s, let! x := dec_int p v (ws_RetryMax s) in
      Ok (mkWorkflowStep (ws_ID s) (ws_TestBinary s) (ws_Args s) (ws_DependsOn s) x (ws_TimeoutSec s)));
   ("timeout_seconds", λ p v s, let! x := dec_int p v (ws_TimeoutSec s) in
      Ok (mkWorkflowStep (ws_ID s) (ws_TestBinary s) (ws_Args s) (ws_DependsOn s) (ws_RetryMax s) x))].

Definition dec_tests : decoder (list suiteTest) :=
  dec_slice ("[]" +:+ test_type) (dec_struct "" test_type test_fields) test_zero.
Definition dec_steps : decoder (list WorkflowStep) :=
  dec_slice "[]core.WorkflowStep" (dec_struct "WorkflowStep" "core.WorkflowStep" step_fields) step_zero.

Definition suite_zero : suiteJSON := mkSuiteJSON "" "" "" 0 [] [].
Definition suite_fields : list (field suiteJSON) :=
  [("id", λ p v s, let! x := dec_string p v (sj_ID s) in
      Ok (mkSuiteJSON x (sj_Name s) (sj_Description s) (sj_TimeoutSeconds s) (sj_Tests s) (sj_Steps s)));
   ("name", λ p v s, let! x := dec_string p v (sj_Name s) in
      Ok (mkSuiteJSON (sj_ID s) x (sj_Description s) (sj_TimeoutSeconds s) (sj_Tests s) (sj_Steps s)));
   ("description", λ p v s, let! x := dec_string p v (sj_Description s) in
      Ok (mkSuiteJSON (sj_ID s) (sj_Name s) x (sj_TimeoutSeconds s) (sj_Tests s) (sj_Steps s)));
   ("timeout_seconds", λ p v s, let! x := dec_int p v (sj_TimeoutSeconds s) in
      Ok (mkSuiteJSON (sj_ID s) (sj_Name s) (sj_Description s) x (sj_Tests s) (sj_Steps s)));
   ("tests", λ p v s, let! x := dec_tests p v (sj_Tests s) in
      Ok (mkSuiteJSON (sj_ID s) (sj_Name s) (sj_Description s) (sj_TimeoutSeconds s) x (sj_Steps s)));
   ("steps", λ p v s, let! x := dec_steps p v (sj_Steps s) in
      Ok (mkSuiteJSON (sj_ID s) (sj_Name s) (sj_Description s) (sj_TimeoutSeconds s) (sj_Tests s) x))].

Definition dec_suite : decoder suiteJSON := dec_struct "suiteJSON" "core.suiteJSON" suite_fields.

(** The step a test of the file stands for. *)
Definition test_step (t : suiteTest) : WorkflowStep :=
  mkWorkflowStep (st_Binary t)
    (if HasPrefix (st_Binary t) "/" then st_Binary t else "/mnt/share/dvf_tests/" +:+ st_Binary t)
    [] (st_DependsOn t) 1 (st_TimeoutSeconds t).

Definition suite_of (sj : suiteJSON) : TestSuite :=
  mkTestSuite (sj_ID sj) (sj_Name sj) "" TestCategoryUnset (sj_Description sj) ""
    (if decide (0 < length (sj_Steps sj)) then sj_Steps sj else test_step <$> sj_Tests sj)
    (sj_TimeoutSeconds sj) [].

Definition vishwa_suite (suiteID : string) (device : DeviceEntry) : go TestSuite :=
  let suitePath := str_drop 7 suiteID in
  let? binaryName := last_segment (splitPath suitePath) in
  Done (mkTestSuite suiteID "Vishwa Dynamic Suite" "" TestCategoryUnset
    "Dynamically generated suite for Vishwa runtime environment" ""
    [mkWorkflowStep suiteID (vishwa_test_dir device +:+ "/" +:+ suitePath +:+ "/" +:+ binaryName)
       [] [] 1 180] 0 []).

(** The parts of [os] that find and read a suite. *)
Class FileSystem (W : Type) := {
  os_Getwd : M W (result string);
  os_Stat : string → M W (result unit);
  os_ReadFile : string → M W (result string);
}.

Class SafeFiles (W : Type) `{!FileSystem W} : Prop := {
  #[global] safe_getwd :: Total os_Getwd;
  #[global] safe_stat p :: Total (os_Stat p);
  #[global] safe_read p :: Total (os_ReadFile p);
}.

Section load.
Context {W : Type} `{!FileSystem W}.

Definition suite_path (dir suiteID : string) : string := Join [dir; "test-suites"; suiteID; "suite.json"].

(** The loop that climbs from [dir] to the root: the path found, or the empty
    string.  [fuel] bounds the number of directories. *)
Fixpoint climb (fuel : nat) (dir suiteID : string) : M W (option string) :=
  match fuel with
  | O => mret None
  | S fuel' =>
    let p := suite_path dir suiteID in
    r ← os_Stat p;
    match r with
    | Ok _ => mret (Some p)
    | Err _ =>
      let parent := Dir dir in
      if decide (parent = dir) then mret (Some "") else climb fuel' parent suiteID
    end
  end.

(** A path has no more directories above it than it has slashes. *)
Definition climb_fuel (dir : string) : nat := S (S (length (split_on is_slash dir))).

Definition fallback_paths (suiteID : string) : list string :=
  [Join ["/home/kartheekbudime/driver-validation-suite/test-suites"; suiteID; "suite.json"];
   Join ["../../../test-suites"; suiteID; "suite.json"];
   Join ["../test-suites"; suiteID; "suite.json"];
   Join ["test-suites"; suiteID; "suite.json"]].

(** The first file that can be read, or the last error. *)
Fixpoint read_first (paths : list string) (last : result string) : M W (result string) :=
  match paths with
  | [] => mret last
  | p :: ps =>
    r ← os_ReadFile p;
    match r with
    | Ok data => mret (Ok data)
    | Err e => read_first ps (Err e)
    end
  end.

Definition find_suite (suiteID : string) : M W (result string) :=
  cwd ← os_Getwd;
  found ← match cwd with
          | Ok dir => climb (climb_fuel dir) dir suiteID
          | Err _ => mret (Some "")
          end;
  if decide (default "" found ≠ "") then os_ReadFile (default "" found)
  else read_first (fallback_paths suiteID) (Ok "").

Definition loadTestSuite (suiteID : string) (device : DeviceEntry) : M W (result TestSuite) :=
  if isVishwaSuite suiteID then
    λ w, match vishwa_suite suiteID device with
         | Done s => Done (Ok s, w)
         | Panics why => Panics why
         end
  else
    r ← find_suite suiteID;
    match r with
    | Err e => mret (Err ("loading test suite " +:+ suiteID +:+ ": " +:+ e))
    | Ok "" => mret (Err ("loading test suite " +:+ suiteID +:+ ": %!w(<nil>)"))
    | Ok data =>
      match Unmarshal dec_suite data suite_zero with
      | Err e => mret (Err ("unmarshaling test suite " +:+ suiteID +:+ ": " +:+ e))
      | Ok sj => mret (Ok (suite_of sj))
      end
    end.

End load.

(** ** Climbing to the root takes finitely many steps *)

(** An element of a cleaned absolute path. *)
Definition plain_elem (e : string) : Prop :=
  split_on is_slash e = [e] ∧ e ≠ "" ∧ e ≠ "." ∧ e ≠ "..".

(** The absolute path with these elements. *)
Definition abs_path (es : list string) : string := "/" +:+ join_with "/" es.

Lemma split_on_elems sep s e : e ∈ split_on sep s → split_on sep e = [e].
Proof.
  revert e. induction s as [|c s IH]; intros e; simpl.
  { rewrite list_elem_of_singleton. by intros ->. }
  destruct (sep c) eqn:Hc; [rewrite elem_of_cons; intros [->|?]; [done|by apply IH]|].
  destruct (split_on sep s) as [|w ws] eqn:Es.
  { rewrite list_elem_of_singleton. intros ->. simpl. by rewrite Hc. }
  rewrite elem_of_cons. intros [->|He]; [|by apply IH; right].
  simpl. rewrite Hc, (IH w) by left. done.
Qed.

Lemma split_on_app_slash a b :
  split_on is_slash a = [a] → split_on is_slash (a +:+ "/" +:+ b) = a :: split_on is_slash b.
Proof.
  induction a as [|c a IH]; intros Ha; [done|]. simpl in *.
  destruct (is_slash c) eqn:Hc; [by destruct (split_on_ne is_slash a); injection Ha|].
  destruct (split_on is_slash a) as [|w ws] eqn:Es; [by destruct (split_on_ne is_slash a)|].
  injection Ha as -> ->. by rewrite IH.
Qed.

Lemma split_on_slash b : split_on is_slash ("/" +:+ b) = "" :: split_on is_slash b.
Proof. done. Qed.

Lemma split_join es :
  es ≠ [] → Forall (λ e, split_on is_slash e = [e]) es → split_on is_slash (join_with "/" es) = es.
Proof.
  induction es as [|e es IH]; [done|]. intros _ Hf. apply Forall_cons in Hf as [He Hf].
  destruct es as [|e' es']; [done|].
  change (join_with "/" (e :: e' :: es')) with (e +:+ "/" +:+ join_with "/" (e' :: es')).
  by rewrite split_on_app_slash, IH by done.
Qed.

Lemma clean_elems_plain st es :
  Forall plain_elem st → Forall (λ e, split_on is_slash e = [e]) es →
  Forall plain_elem (clean_elems true st es) ∧ length (clean_elems true st es) ≤ length st + length es.
Proof.
  revert st. induction es as [|e es IH]; intros st Hst Hes; simpl; [split; [done|lia]|].
  apply Forall_cons in Hes as [He Hes].
  match goal with |- context [clean_elems true ?s es] => set (st' := s) end.
  assert (Forall plain_elem st' ∧ length st' ≤ S (length st)) as [Hp Hl].
  { unfold st'. case_decide as H1; [split; [done|lia]|]. case_decide as H2.
    - destruct st as [|t st1]; [split; [done|simpl; lia]|]. apply Forall_cons in Hst as [Ht Hst].
      rewrite decide_False by apply Ht. split; [done|simpl; lia].
    - split; [|done]. apply Forall_cons. split; [|done]. unfold plain_elem. tauto. }
  destruct (IH st' Hp Hes). split; [done|]. simpl. lia.
Qed.

Lemma clean_elems_id st es :
  Forall plain_elem es → clean_elems true st es = reverse es ++ st.
Proof.
  revert st. induction es as [|e es IH]; intros st Hes; [done|]. simpl.
  apply Forall_cons in Hes as [(_ & H1 & H2 & H3) Hes].
  rewrite decide_False by tauto. rewrite decide_False by done.
  rewrite IH by done. by rewrite reverse_cons, <- app_assoc.
Qed.

Lemma clean_elems_app r st es es' :
  clean_elems r st (es ++ es') = clean_elems r (clean_elems r st es) es'.
Proof. revert st. induction es as [|e es IH]; intros st; [done|]. simpl. by rewrite IH. Qed.

(** [Clean] of an absolute path, by its elements. *)
Lemma Clean_abs es :
  es ≠ [] → Forall (λ e, split_on is_slash e = [e]) es →
  Clean ("/" +:+ join_with "/" es) = abs_path (reverse (clean_elems true [] es)).
Proof.
  intros Hne Hf. unfold Clean, abs_path.
  assert (HasPrefix ("/" +:+ join_with "/" es) "/" = true) as ->.
  { unfold HasPrefix. simpl. by destruct (join_with "/" es). }
  rewrite split_on_slash. by rewrite split_join.
Qed.

(** The directory above the path with the elements [init ++ [lst]]. *)
Lemma Dir_snoc p init lst :
  split_on is_slash p = init ++ [lst] →
  Dir ("/" +:+ p) = abs_path (reverse (clean_elems true [] init)).
Proof.
  intros Hp. unfold Dir. rewrite split_on_slash, Hp. simpl length.
  rewrite length_app. simpl length. replace (S (length init + 1) - 1) with (S (length init)) by lia.
  change (S (length init)) with (length ("" :: init)). rewrite app_comm_cons, take_app_length.
  assert (Hf : Forall (λ e, split_on is_slash e = [e]) (init ++ [""])).
  { apply Forall_app. split; [|by apply Forall_singleton]. apply Forall_forall.
    intros e He. apply (split_on_elems _ p). rewrite Hp. set_solver. }
  assert (Hne : init ++ [""] ≠ []) by (by destruct init).
  assert (join_with "/" (("" :: init) ++ [""]) = "/" +:+ join_with "/" (init ++ [""])) as ->.
  { simpl. by destruct (init ++ [""]) eqn:E. }
  rewrite Clean_abs by done. f_equal. f_equal. by rewrite clean_elems_app.
Qed.

Lemma snoc_split (l : list string) : l ≠ [] → ∃ init lst, l = init ++ [lst].
Proof. induction l as [|x l _] using rev_ind; [done|]. eauto. Qed.

Lemma Dir_rooted p :
  ∃ es, Dir ("/" +:+ p) = abs_path es ∧ Forall plain_elem es ∧
    length es < length (split_on is_slash ("/" +:+ p)).
Proof.
  destruct (snoc_split _ (split_on_ne is_slash p)) as (init & lst & Hp).
  rewrite (Dir_snoc p init lst Hp). eexists. split; [done|].
  destruct (clean_elems_plain [] init) as [Hf Hl]; [done| |].
  { apply Forall_forall. intros e He. apply (split_on_elems _ p). rewrite Hp. set_solver. }
  rewrite split_on_slash, Hp, length_reverse. simpl. rewrite length_app. simpl in *.
  split; [by apply Forall_reverse|lia].
Qed.

Lemma Dir_abs_path es lst :
  Forall plain_elem (es ++ [lst]) → Dir (abs_path (es ++ [lst])) = abs_path es.
Proof.
  intros Hf. unfold abs_path at 1. rewrite (Dir_snoc _ es lst).
  - apply Forall_app in Hf as [Hf _]. by rewrite clean_elems_id, app_nil_r, reverse_involutive.
  - apply split_join; [by destruct es|]. by eapply Forall_impl; [exact Hf|intros e []].
Qed.

Section climb.
Context {W : Type} `{!FileSystem W}.

Lemma climb_abs es fuel suiteID (w : W) :
  Forall plain_elem es → length es < fuel → wp (climb fuel (abs_path es) suiteID) (λ r _, r ≠ None) w.
Proof.
  revert fuel w. induction es as [|e es IH] using rev_ind; intros fuel w Hf Hl;
    (destruct fuel as [|fuel]; [lia|]); cbn [climb]; apply wp_bind;
    (eapply (wp_mono _ (λ _ _, True)); [by apply wp_true|]);
    (intros [u|err] w' _; [by apply wp_ret|]).
  - change (Dir (abs_path [])) with (abs_path []). rewrite decide_True by done. by apply wp_ret.
  - rewrite Dir_abs_path by done. case_decide; [by apply wp_ret|]. apply Forall_app in Hf as [Hf _].
    rewrite length_app in Hl. simpl in Hl. apply IH; [done|lia].
Qed.

(** From an absolute directory the loop always ends by itself. *)
Lemma climb_ends p suiteID (w : W) :
  wp (climb (climb_fuel ("/" +:+ p)) ("/" +:+ p) suiteID) (λ r _, r ≠ None) w.
Proof.
  destruct (Dir_rooted p) as (es & Hd & Hf & Hl). unfold climb_fuel.
  cbn [climb]. apply wp_bind.
  eapply (wp_mono _ (λ _ _, True)); [by apply wp_true|]. intros [u|err] w' _; [by apply wp_ret|].
  rewrite Hd. case_decide; [by apply wp_ret|]. apply (climb_abs es (S _)); [done|lia].
Qed.

End climb.

(** ** Paths of Vishwa suites *)

(** The loop over the bytes, with the bytes read since the last slash put
    back in front of the first part. *)
Lemma split_loop_filter since p :
  split_on is_slash since = [since] →
  split_loop since p = filter (λ s, nonempty s) (split_on is_slash (since +:+ p)).
Proof.
  revert since. induction p as [|c p IH]; intros since Hs; simpl.
  - rewrite str_app_nil, Hs, filter_cons, filter_nil. by destruct (nonempty since).
  - destruct (is_slash c) eqn:Hc.
    + unfold is_slash in Hc. apply bool_decide_eq_true in Hc as ->.
      change (String "/"%char p) with ("/" +:+ p).
      rewrite split_on_app_slash, filter_cons, (IH "") by done. simpl. by destruct (nonempty since).
    + rewrite IH; [by rewrite str_app_assoc|].
      clear IH. induction since as [|x since IH]; simpl; [by rewrite Hc|]. simpl in Hs.
      destruct (is_slash x) eqn:Hx; [by destruct (split_on_ne is_slash since); injection Hs|].
      destruct (split_on is_slash since) as [|y l] eqn:El; [by destruct (split_on_ne is_slash since)|].
      injection Hs as -> ->. by rewrite IH.
Qed.

Lemma splitPath_filter p : splitPath p = filter (λ s, nonempty s) (split_on is_slash p).
Proof. by apply (split_loop_filter ""). Qed.

(** [suiteID] names a binary, if it is a Vishwa suite. *)
Definition names_binary (suiteID : string) : Prop :=
  isVishwaSuite suiteID = true → splitPath (str_drop 7 suiteID) ≠ [].

Lemma last_segment_ok l : l ≠ [] → ∃ s, last_segment l = Done s.
Proof. intros H. unfold last_segment. destruct (last l) eqn:E; [eauto|by apply last_None in E]. Qed.

Lemma step_command_ok run device def k :
  names_binary (tr_TestSuiteID run) → ∃ cmd, step_command run device def k = Done cmd.
Proof.
  intros H. unfold step_command. destruct (isVishwaSuite (tr_TestSuiteID run)) eqn:E; [|eauto].
  destruct (last_segment_ok _ (H E)) as [s Hs]. unfold vishwa_parameters. rewrite Hs. eauto.
Qed.

(** ** Totality *)

Section total.
Context {W : Type}.

Global Instance total_process_results `{!EngineStore W, !Runtime W, !SafeStore W, !SafeRuntime W} c run name res :
  Total (process_results (W:=W) c run name res).
Proof. unfold process_results. solve_total. Qed.

Global Instance total_climb `{!FileSystem W, !SafeFiles W} fuel dir suiteID : Total (W:=W) (climb fuel dir suiteID).
Proof. revert dir. induction fuel as [|fuel IH]; intros dir; simpl; solve_total. Qed.

Global Instance total_read_first `{!FileSystem W, !SafeFiles W} paths last : Total (W:=W) (read_first paths last).
Proof. revert last. induction paths as [|p ps IH]; intros last; simpl; solve_total. Qed.

Lemma total_loadTestSuite `{!FileSystem W, !SafeFiles W} suiteID device :
  names_binary suiteID → Total (W:=W) (loadTestSuite suiteID device).
Proof.
  intros H. unfold loadTestSuite. destruct (isVishwaSuite suiteID) eqn:E; [|unfold find_suite; solve_total].
  intros w. destruct (last_segment_ok _ (H E)) as [s Hs]. unfold vishwa_suite. rewrite Hs. eauto.
Qed.

End total.
