(* ===== verification/ConfigLoad.v ===== *)
(** * Loading the configuration ([config/loader.go])

    The files are read, the environment is expanded in their text
    ([os.ExpandEnv]), and the result is decoded and validated.  The contents
    of the files and the environment are given by the world. *)
From Stdlib Require Import Ascii.
From stdpp Require Import sorting options.
From S2P Require Import Prelude GoStd Types Effects Json Marshal JsonText Numbers JsonStruct JsonPrint Config StepExec.
Open Scope string_scope.
Open Scope list_scope.
Open Scope Z_scope.

(** ** [os.Expand] *)

Definition is_special (c : ascii) : bool :=
  match code c with 42 | 35 | 36 | 64 | 33 | 63 | 45 => true | _ => is_digit c end%N.

Definition is_alnum (c : ascii) : bool := (code c =? 95)%N || is_digit c || between 97 122 c || between 65 90 c.

(** The bytes before the closing brace. *)
Fixpoint to_brace (l : list ascii) : option (list ascii) :=
  match l with
  | [] => None
  | c :: l' => if (code c =? 125)%N then Some [] else (cons c) <$> to_brace l'
  end.

Fixpoint alnum_prefix (l : list ascii) : list ascii :=
  match l with
  | c :: l' => if is_alnum c then c :: alnum_prefix l' else []
  | [] => []
  end.

(** [getShellName]: the name after a dollar sign and how many bytes it takes. *)
Definition getShellName (l : list ascii) : list ascii * nat :=
  match l with
  | [] => ([], 0%nat)
  | c :: l' =>
    if (code c =? 123)%N then
      match l' with
      | d :: e :: _ => if is_special d && (code e =? 125)%N then ([d], 3%nat)
                       else match to_brace l' with
                            | Some name => (name, (length name + 2)%nat)
                            | None => ([], 1%nat)
                            end
      | _ => match to_brace l' with
             | Some name => (name, (length name + 2)%nat)
             | None => ([], 1%nat)
             end
      end
    else if is_special c then ([c], 1%nat)
    else (alnum_prefix l, length (alnum_prefix l))
  end.

(** The text from here on, after [skip] more bytes. *)
Fixpoint expand (mapping : string → string) (skip : nat) (l : list ascii) : list ascii :=
  match l with
  | [] => []
  | c :: l' =>
    match skip with
    | S skip' => expand mapping skip' l'
    | O =>
      match l' with
      | _ :: _ =>
        if (code c =? 36)%N then
          let '(name, w) := getShellName l' in
          match name with
          | [] => (match w with O => [c] | S _ => [] end) ++ expand mapping w l'
          | _ => bytes (mapping (str name)) ++ expand mapping w l'
          end
        else c :: expand mapping 0 l'
      | [] => [c]
      end
    end
  end.

(** [os.ExpandEnv(s)] *)
Definition ExpandEnv (getenv : string → string) (s : string) : string := str (expand getenv 0 (bytes s)).

(** ** Decoding *)

Definition dec_bool : decoder bool := λ p v old,
  match v with
  | JBool b => Ok b
  | JNull => Ok old
  | _ => type_error (json_kind v) "bool" p
  end.

Definition ServerConfig_to (s : ServerConfig) :=
  (srv_GRPCPort s, (srv_RESTPort s, (srv_Host s, tt))).
Definition ServerConfig_from '(a, (b, (c, tt))) : ServerConfig :=
  mkServerConfig a b c.
Definition ServerConfig_fields : list (field ServerConfig) := via ServerConfig_to ServerConfig_from (
  "grpc_port" ↦ dec_int;; "rest_port" ↦ dec_int;; "host" ↦ dec_string;; fend)%fields.
Definition dec_ServerConfig : decoder ServerConfig := dec_struct "ServerConfig" "config.ServerConfig" ServerConfig_fields.

Definition QEMUConfig_to (s : QEMUConfig) :=
  (qemu_BinaryPath s, (qemu_DataDir s, (qemu_KernelPath s, (qemu_RootFSPath s, (qemu_ShareDir s, (qemu_GuestMount s,
  (qemu_DefaultMemoryMB s, (qemu_DefaultCPUs s, (qemu_VMImageDir s, (qemu_SocketDir s, (qemu_SerialSocketDir s,
  tt))))))))))).
Definition QEMUConfig_from '(a, (b, (c, (d, (e, (f, (g, (h, (i, (j, (k, tt))))))))))) : QEMUConfig :=
  mkQEMUConfig a b c d e f g h i j k.
Definition QEMUConfig_fields : list (field QEMUConfig) := via QEMUConfig_to QEMUConfig_from (
  "binary_path" ↦ dec_string;; "data_dir" ↦ dec_string;; "kernel_path" ↦ dec_string;; "rootfs_path" ↦ dec_string;;
  "share_dir" ↦ dec_string;; "guest_mount" ↦ dec_string;; "default_memory_mb" ↦ dec_int;; "default_cpus" ↦ dec_int;;
  "vm_image_dir" ↦ dec_string;; "socket_dir" ↦ dec_string;; "serial_socket_dir" ↦ dec_string;; fend)%fields.
Definition dec_QEMUConfig : decoder QEMUConfig := dec_struct "QEMUConfig" "config.QEMUConfig" QEMUConfig_fields.

Definition FPGAConfig_to (s : FPGAConfig) :=
  (fpga_VFIOGroupPath s, (fpga_IOMMUEnabled s, (fpga_PCIAddresses s, tt))).
Definition FPGAConfig_from '(a, (b, (c, tt))) : FPGAConfig :=
  mkFPGAConfig a b c.
Definition FPGAConfig_fields : list (field FPGAConfig) := via FPGAConfig_to FPGAConfig_from (
  "vfio_group_path" ↦ dec_string;; "iommu_enabled" ↦ dec_bool;; "pci_addresses" ↦ dec_strings;; fend)%fields.
Definition dec_FPGAConfig : decoder FPGAConfig := dec_struct "FPGAConfig" "config.FPGAConfig" FPGAConfig_fields.

Definition PostgresConfig_to (s : PostgresConfig) :=
  (pg_Host s, (pg_Port s, (pg_User s, (pg_Password s, (pg_Database s, (pg_MaxConnections s, (pg_SSLMode s, tt))))))).
Definition PostgresConfig_from '(a, (b, (c, (d, (e, (f, (g, tt))))))) : PostgresConfig :=
  mkPostgresConfig a b c d e f g.
Definition PostgresConfig_fields : list (field PostgresConfig) := via PostgresConfig_to PostgresConfig_from (
  "host" ↦ dec_string;; "port" ↦ dec_int;; "user" ↦ dec_string;; "password" ↦ dec_string;; "database" ↦ dec_string;;
  "max_connections" ↦ dec_int;; "ssl_mode" ↦ dec_string;; fend)%fields.
Definition dec_PostgresConfig : decoder PostgresConfig := dec_struct "PostgresConfig" "config.PostgresConfig" PostgresConfig_fields.

Definition RedisConfig_to (s : RedisConfig) :=
  (redis_Host s, (redis_Port s, (redis_Password s, (redis_DB s, (redis_PoolSize s, tt))))).
Definition RedisConfig_from '(a, (b, (c, (d, (e, tt))))) : RedisConfig :=
  mkRedisConfig a b c d e.
Definition RedisConfig_fields : list (field RedisConfig) := via RedisConfig_to RedisConfig_from (
  "host" ↦ dec_string;; "port" ↦ dec_int;; "password" ↦ dec_string;; "db" ↦ dec_int;; "pool_size" ↦ dec_int;; fend)%fields.
Definition dec_RedisConfig : decoder RedisConfig := dec_struct "RedisConfig" "config.RedisConfig" RedisConfig_fields.

Definition ObjectStoreConfig_to (s : ObjectStoreConfig) :=
  (os_Endpoint s, (os_AccessKey s, (os_SecretKey s, (os_Bucket s, (os_UseSSL s, tt))))).
Definition ObjectStoreConfig_from '(a, (b, (c, (d, (e, tt))))) : ObjectStoreConfig :=
  mkObjectStoreConfig a b c d e.
Definition ObjectStoreConfig_fields : list (field ObjectStoreConfig) := via ObjectStoreConfig_to ObjectStoreConfig_from (
  "endpoint" ↦ dec_string;; "access_key" ↦ dec_string;; "secret_key" ↦ dec_string;; "bucket" ↦ dec_string;;
  "use_ssl" ↦ dec_bool;; fend)%fields.
Definition dec_ObjectStoreConfig : decoder ObjectStoreConfig := dec_struct "ObjectStoreConfig" "config.ObjectStoreConfig" ObjectStoreConfig_fields.

Definition StorageConfig_to (s : StorageConfig) :=
  (st_Postgres s, (st_Redis s, (st_ObjectStore s, tt))).
Definition StorageConfig_from '(a, (b, (c, tt))) : StorageConfig :=
  mkStorageConfig a b c.
Definition StorageConfig_fields : list (field StorageConfig) := via StorageConfig_to StorageConfig_from (
  "postgres" ↦ dec_PostgresConfig;; "redis" ↦ dec_RedisConfig;; "object_store" ↦ dec_ObjectStoreConfig;; fend)%fields.
Definition dec_StorageConfig : decoder StorageConfig := dec_struct "StorageConfig" "config.StorageConfig" StorageConfig_fields.

Definition TelemetryConfig_to (s : TelemetryConfig) :=
  (tel_MetricsPort s, (tel_TraceEndpoint s, (tel_LogLevel s, (tel_LogFormat s, tt)))).
Definition TelemetryConfig_from '(a, (b, (c, (d, tt)))) : TelemetryConfig :=
  mkTelemetryConfig a b c d.
Definition TelemetryConfig_fields : list (field TelemetryConfig) := via TelemetryConfig_to TelemetryConfig_from (
  "metrics_port" ↦ dec_int;; "trace_endpoint" ↦ dec_string;; "log_level" ↦ dec_string;; "log_format" ↦ dec_string;;
  fend)%fields.
Definition dec_TelemetryConfig : decoder TelemetryConfig := dec_struct "TelemetryConfig" "config.TelemetryConfig" TelemetryConfig_fields.

Definition VMDefaultsConfig_to (s : VMDefaultsConfig) :=
  (vmd_BootTimeoutSeconds s, (vmd_HeartbeatIntervalSeconds s, (vmd_HeartbeatTimeoutSeconds s,
  (vmd_TestTimeoutSeconds s, (vmd_MaxConcurrentVMs s, tt))))).
Definition VMDefaultsConfig_from '(a, (b, (c, (d, (e, tt))))) : VMDefaultsConfig :=
  mkVMDefaultsConfig a b c d e.
Definition VMDefaultsConfig_fields : list (field VMDefaultsConfig) := via VMDefaultsConfig_to VMDefaultsConfig_from (
  "boot_timeout_seconds" ↦ dec_int;; "heartbeat_interval_seconds" ↦ dec_int;;
  "heartbeat_timeout_seconds" ↦ dec_int;; "test_timeout_seconds" ↦ dec_int;; "max_concurrent_vms" ↦ dec_int;; fend)%fields.
Definition dec_VMDefaultsConfig : decoder VMDefaultsConfig := dec_struct "VMDefaultsConfig" "config.VMDefaultsConfig" VMDefaultsConfig_fields.

Definition ClusterConfig_to (s : ClusterConfig) :=
  (cl_NodeID s, (cl_NodeRole s, (cl_HeartbeatIntervalSec s, (cl_NodeHeartbeatTTLSec s, (cl_HostCPUs s,
  (cl_HostMemMB s, tt)))))).
Definition ClusterConfig_from '(a, (b, (c, (d, (e, (f, tt)))))) : ClusterConfig :=
  mkClusterConfig a b c d e f.
Definition ClusterConfig_fields : list (field ClusterConfig) := via ClusterConfig_to ClusterConfig_from (
  "node_id" ↦ dec_string;; "node_role" ↦ dec_string;; "heartbeat_interval_seconds" ↦ dec_int;;
  "node_heartbeat_ttl_seconds" ↦ dec_int;; "host_cpus" ↦ dec_int;; "host_mem_mb" ↦ dec_int;; fend)%fields.
Definition dec_ClusterConfig : decoder ClusterConfig := dec_struct "ClusterConfig" "config.ClusterConfig" ClusterConfig_fields.

Definition GlobalConfig_to (s : GlobalConfig) :=
  (cfg_Server s, (cfg_QEMU s, (cfg_FPGA s, (cfg_Storage s, (cfg_Telemetry s, (cfg_VMDefaults s, (cfg_Cluster s,
  tt))))))).
Definition GlobalConfig_from '(a, (b, (c, (d, (e, (f, (g, tt))))))) : GlobalConfig :=
  mkGlobalConfig a b c d e f g.
Definition GlobalConfig_fields : list (field GlobalConfig) := via GlobalConfig_to GlobalConfig_from (
  "server" ↦ dec_ServerConfig;; "qemu" ↦ dec_QEMUConfig;; "fpga" ↦ dec_FPGAConfig;; "storage" ↦ dec_StorageConfig;;
  "telemetry" ↦ dec_TelemetryConfig;; "vm_defaults" ↦ dec_VMDefaultsConfig;; "cluster" ↦ dec_ClusterConfig;; fend)%fields.
Definition dec_GlobalConfig : decoder GlobalConfig := dec_struct "GlobalConfig" "config.GlobalConfig" GlobalConfig_fields.

Definition BARDef_to (s : BARDef) :=
  (bar_Type s, (bar_SizeBytes s, (bar_Description s, tt))).
Definition BARDef_from '(a, (b, (c, tt))) : BARDef :=
  mkBARDef a b c.
Definition BARDef_fields : list (field BARDef) := via BARDef_to BARDef_from (
  "type" ↦ dec_string;; "size_bytes" ↦ dec_int;; "description" ↦ dec_string;; fend)%fields.
Definition dec_BARDef : decoder BARDef := dec_struct "BARDef" "config.BARDef" BARDef_fields.

Definition dec_bar_layout : decoder (gmap string BARDef) :=
  dec_map "map[string]config.BARDef" dec_BARDef (mkBARDef "" 0 "").
Definition dec_env : decoder (gmap string string) := dec_map "map[string]string" dec_string "".

Definition DeviceEntry_to (s : DeviceEntry) :=
  (de_ID s, (de_Name s, (de_VendorID s, (de_DeviceID s, (de_PCIClass s, (de_QEMUDeviceName s, (de_DriverModule s,
  (de_DriverPath s, (de_DeviceNode s, (de_Description s, (de_TargetModes s, (de_Capabilities s, (de_BARLayout s,
  (de_TestSuites s, (de_VishwaEnv s, (de_VishwaLoader s, (de_VishwaLibDir s, (de_VishwaTestDir s,
  tt)))))))))))))))))).
Definition DeviceEntry_from '(a, (b, (c, (d, (e, (f, (g, (h, (i, (j, (k, (l, (m, (n, (o, (p, (q, (r, tt)))))))))))))))))) : DeviceEntry :=
  mkDeviceEntry a b c d e f g h i j k l m n o p q r.
Definition DeviceEntry_fields : list (field DeviceEntry) := via DeviceEntry_to DeviceEntry_from (
  "id" ↦ dec_string;; "name" ↦ dec_string;; "vendor_id" ↦ dec_string;; "device_id" ↦ dec_string;;
  "pci_class" ↦ dec_string;; "qemu_device_name" ↦ dec_string;; "driver_module" ↦ dec_string;;
  "driver_path" ↦ dec_string;; "device_node" ↦ dec_string;; "description" ↦ dec_string;;
  "target_modes" ↦ dec_strings;; "capabilities" ↦ dec_strings;; "bar_layout" ↦ dec_bar_layout;;
  "test_suites" ↦ dec_strings;; "vishwa_env" ↦ dec_env;; "vishwa_loader" ↦ dec_string;;
  "vishwa_lib_dir" ↦ dec_string;; "vishwa_test_dir" ↦ dec_string;; fend)%fields.
Definition dec_DeviceEntry : decoder DeviceEntry := dec_struct "DeviceEntry" "config.DeviceEntry" DeviceEntry_fields.

Definition device_zero : DeviceEntry := mkDeviceEntry "" "" "" "" "" "" "" "" "" "" [] [] ∅ [] ∅ "" "" "".

Definition DeviceRegistry_to (s : DeviceRegistry) := (reg_Devices s, tt).
Definition DeviceRegistry_from '(a, tt) : DeviceRegistry := mkDeviceRegistry a.
Definition DeviceRegistry_fields : list (field DeviceRegistry) := via DeviceRegistry_to DeviceRegistry_from (
  "devices" ↦ dec_slice "[]config.DeviceEntry" dec_DeviceEntry device_zero;; fend)%fields.
Definition dec_DeviceRegistry : decoder DeviceRegistry :=
  dec_struct "DeviceRegistry" "config.DeviceRegistry" DeviceRegistry_fields.

(** ** The loader *)

(** [os.Getenv] *)
Class Environ (W : Type) := os_Getenv : W → string → string.

Definition within {A : Type} (context : string) (r : result A) : result A :=
  match r with Ok x => Ok x | Err e => Err (context +:+ ": " +:+ e) end.

Section load.
Context {W : Type} `{!FileSystem W, !Environ W}.

Definition environment : M W (string → string) := λ w, Done (os_Getenv w, w).

Definition loadJSON {A : Type} (d : decoder A) (path : string) (target : A) : M W (result A) :=
  data ← os_ReadFile path;
  match data with
  | Err e => mret (Err ("reading " +:+ path +:+ ": " +:+ e))
  | Ok text =>
    getenv ← environment;
    mret (within ("parsing " +:+ path) (Unmarshal d (ExpandEnv getenv text) target))
  end.

Definition Load (configDir : string) : M W (result GlobalConfig) :=
  r ← loadJSON dec_GlobalConfig (Join [configDir; "global_config.json"]) global_zero;
  mret (let! cfg := within "loading global config" r in within "validating global config" (validate_global cfg)).

Definition LoadDeviceRegistry (configDir : string) : M W (result DeviceRegistry) :=
  r ← loadJSON dec_DeviceRegistry (Join [configDir; "device_registry.json"]) (mkDeviceRegistry []);
  mret (let! reg := within "loading device registry" r in
        let! _ := within "validating device registry" (validate_registry reg) in Ok reg).

End load.

(** ** The text of a configuration *)

(** What [json.Marshal] makes of the structs, which is how a configuration
    file looks; the entries of a map may stand in any order. *)
Definition ServerConfig_json (c : ServerConfig) : json :=
  JObj [("grpc_port", JNum (fmt_d (srv_GRPCPort c))); ("rest_port", JNum (fmt_d (srv_RESTPort c)));
        ("host", JStr (srv_Host c))].

Definition QEMUConfig_json (c : QEMUConfig) : json :=
  JObj [("binary_path", JStr (qemu_BinaryPath c)); ("data_dir", JStr (qemu_DataDir c));
        ("kernel_path", JStr (qemu_KernelPath c)); ("rootfs_path", JStr (qemu_RootFSPath c));
        ("share_dir", JStr (qemu_ShareDir c)); ("guest_mount", JStr (qemu_GuestMount c));
        ("default_memory_mb", JNum (fmt_d (qemu_DefaultMemoryMB c)));
        ("default_cpus", JNum (fmt_d (qemu_DefaultCPUs c))); ("vm_image_dir", JStr (qemu_VMImageDir c));
        ("socket_dir", JStr (qemu_SocketDir c)); ("serial_socket_dir", JStr (qemu_SerialSocketDir c))].

Definition FPGAConfig_json (c : FPGAConfig) : json :=
  JObj [("vfio_group_path", JStr (fpga_VFIOGroupPath c)); ("iommu_enabled", JBool (fpga_IOMMUEnabled c));
        ("pci_addresses", JArr (JStr <$> (fpga_PCIAddresses c)))].

Definition PostgresConfig_json (c : PostgresConfig) : json :=
  JObj [("host", JStr (pg_Host c)); ("port", JNum (fmt_d (pg_Port c))); ("user", JStr (pg_User c));
        ("password", JStr (pg_Password c)); ("database", JStr (pg_Database c));
        ("max_connections", JNum (fmt_d (pg_MaxConnections c))); ("ssl_mode", JStr (pg_SSLMode c))].

Definition RedisConfig_json (c : RedisConfig) : json :=
  JObj [("host", JStr (redis_Host c)); ("port", JNum (fmt_d (redis_Port c))); ("password", JStr (redis_Password c));
        ("db", JNum (fmt_d (redis_DB c))); ("pool_size", JNum (fmt_d (redis_PoolSize c)))].

Definition ObjectStoreConfig_json (c : ObjectStoreConfig) : json :=
  JObj [("endpoint", JStr (os_Endpoint c)); ("access_key", JStr (os_AccessKey c));
        ("secret_key", JStr (os_SecretKey c)); ("bucket", JStr (os_Bucket c)); ("use_ssl", JBool (os_UseSSL c))].

Definition StorageConfig_json (c : StorageConfig) : json :=
  JObj [("postgres", PostgresConfig_json (st_Postgres c)); ("redis", RedisConfig_json (st_Redis c));
        ("object_store", ObjectStoreConfig_json (st_ObjectStore c))].

Definition TelemetryConfig_json (c : TelemetryConfig) : json :=
  JObj [("metrics_port", JNum (fmt_d (tel_MetricsPort c))); ("trace_endpoint", JStr (tel_TraceEndpoint c));
        ("log_level", JStr (tel_LogLevel c)); ("log_format", JStr (tel_LogFormat c))].

Definition VMDefaultsConfig_json (c : VMDefaultsConfig) : json :=
  JObj [("boot_timeout_seconds", JNum (fmt_d (vmd_BootTimeoutSeconds c)));
        ("heartbeat_interval_seconds", JNum (fmt_d (vmd_HeartbeatIntervalSeconds c)));
        ("heartbeat_timeout_seconds", JNum (fmt_d (vmd_HeartbeatTimeoutSeconds c)));
        ("test_timeout_seconds", JNum (fmt_d (vmd_TestTimeoutSeconds c)));
        ("max_concurrent_vms", JNum (fmt_d (vmd_MaxConcurrentVMs c)))].

Definition ClusterConfig_json (c : ClusterConfig) : json :=
  JObj [("node_id", JStr (cl_NodeID c)); ("node_role", JStr (cl_NodeRole c));
        ("heartbeat_interval_seconds", JNum (fmt_d (cl_HeartbeatIntervalSec c)));
        ("node_heartbeat_ttl_seconds", JNum (fmt_d (cl_NodeHeartbeatTTLSec c)));
        ("host_cpus", JNum (fmt_d (cl_HostCPUs c))); ("host_mem_mb", JNum (fmt_d (cl_HostMemMB c)))].

Definition GlobalConfig_json (c : GlobalConfig) : json :=
  JObj [("server", ServerConfig_json (cfg_Server c)); ("qemu", QEMUConfig_json (cfg_QEMU c));
        ("fpga", FPGAConfig_json (cfg_FPGA c)); ("storage", StorageConfig_json (cfg_Storage c));
        ("telemetry", TelemetryConfig_json (cfg_Telemetry c));
        ("vm_defaults", VMDefaultsConfig_json (cfg_VMDefaults c)); ("cluster", ClusterConfig_json (cfg_Cluster c))].

Definition BARDef_json (c : BARDef) : json :=
  JObj [("type", JStr (bar_Type c)); ("size_bytes", JNum (fmt_d (bar_SizeBytes c)));
        ("description", JStr (bar_Description c))].

Definition DeviceEntry_json (c : DeviceEntry) : json :=
  JObj [("id", JStr (de_ID c)); ("name", JStr (de_Name c)); ("vendor_id", JStr (de_VendorID c));
        ("device_id", JStr (de_DeviceID c)); ("pci_class", JStr (de_PCIClass c));
        ("qemu_device_name", JStr (de_QEMUDeviceName c)); ("driver_module", JStr (de_DriverModule c));
        ("driver_path", JStr (de_DriverPath c)); ("device_node", JStr (de_DeviceNode c));
        ("description", JStr (de_Description c)); ("target_modes", JArr (JStr <$> (de_TargetModes c)));
        ("capabilities", JArr (JStr <$> (de_Capabilities c)));
        ("bar_layout", JObj (prod_map id BARDef_json <$> map_to_list (de_BARLayout c)));
        ("test_suites", JArr (JStr <$> (de_TestSuites c)));
        ("vishwa_env", JObj (prod_map id JStr <$> map_to_list (de_VishwaEnv c)));
        ("vishwa_loader", JStr (de_VishwaLoader c)); ("vishwa_lib_dir", JStr (de_VishwaLibDir c));
        ("vishwa_test_dir", JStr (de_VishwaTestDir c))].

Definition DeviceRegistry_json (r : DeviceRegistry) : json := JObj [("devices", JArr (DeviceEntry_json <$> reg_Devices r))].

(** ** Reading a configuration back *)

(** The integers of a configuration, each an [int] in the code. *)
Definition GlobalConfig_ints (c : GlobalConfig) : list Z :=
  let srv := cfg_Server c in let q := cfg_QEMU c in let pg := st_Postgres (cfg_Storage c) in
  let rd := st_Redis (cfg_Storage c) in let vmd := cfg_VMDefaults c in let cl := cfg_Cluster c in
  [srv_GRPCPort srv; srv_RESTPort srv; qemu_DefaultMemoryMB q; qemu_DefaultCPUs q; pg_Port pg; pg_MaxConnections pg;
   redis_Port rd; redis_DB rd; redis_PoolSize rd; tel_MetricsPort (cfg_Telemetry c); vmd_BootTimeoutSeconds vmd;
   vmd_HeartbeatIntervalSeconds vmd; vmd_HeartbeatTimeoutSeconds vmd; vmd_TestTimeoutSeconds vmd;
   vmd_MaxConcurrentVMs vmd; cl_HeartbeatIntervalSec cl; cl_NodeHeartbeatTTLSec cl; cl_HostCPUs cl; cl_HostMemMB cl].

Definition GlobalConfig_typed (c : GlobalConfig) : Prop := Forall in_int64 (GlobalConfig_ints c).

Definition DeviceEntry_typed (d : DeviceEntry) : Prop :=
  ∀ k b, de_BARLayout d !! k = Some b → in_int64 (bar_SizeBytes b).

Lemma dec_strings_ok p l old : dec_strings p (JArr (JStr <$> l)) old = Ok l.
Proof.
  unfold dec_strings. rewrite (dec_slice_ok _ _ _ id) by (by apply Forall_forall). by rewrite list_fmap_id.
Qed.

(** One field: its name is not that of a later one, and its decoder reads its value. *)
Ltac read_field := apply reads_cons; [cbn [fmap list_fmap fst]; apply (bool_decide_unpack _); vm_compute; exact I|intros ?; first
  [apply dec_int_fmt; assumption | apply dec_string_str | reflexivity | apply dec_strings_ok | by eauto with reads]|].
Ltac solve_reads to from :=
  apply (struct_reads_back to from);
  [ intros t; by repeat match goal with t : prod _ _ |- _ => destruct t | t : unit |- _ => destruct t end
  | by intros [] | unfold to; repeat read_field; apply reads_end ].

Create HintDb reads.

Lemma dec_ServerConfig_ok c p old :
  in_int64 (srv_GRPCPort c) → in_int64 (srv_RESTPort c) → dec_ServerConfig p (ServerConfig_json c) old = Ok c.
Proof. intros. solve_reads ServerConfig_to ServerConfig_from. Qed.

Lemma dec_QEMUConfig_ok c p old :
  in_int64 (qemu_DefaultMemoryMB c) → in_int64 (qemu_DefaultCPUs c) → dec_QEMUConfig p (QEMUConfig_json c) old = Ok c.
Proof. intros. solve_reads QEMUConfig_to QEMUConfig_from. Qed.

Lemma dec_FPGAConfig_ok c p old : dec_FPGAConfig p (FPGAConfig_json c) old = Ok c.
Proof. solve_reads FPGAConfig_to FPGAConfig_from. Qed.

Lemma dec_PostgresConfig_ok c p old :
  in_int64 (pg_Port c) → in_int64 (pg_MaxConnections c) → dec_PostgresConfig p (PostgresConfig_json c) old = Ok c.
Proof. intros. solve_reads PostgresConfig_to PostgresConfig_from. Qed.

Lemma dec_RedisConfig_ok c p old :
  in_int64 (redis_Port c) → in_int64 (redis_DB c) → in_int64 (redis_PoolSize c) →
  dec_RedisConfig p (RedisConfig_json c) old = Ok c.
Proof. intros. solve_reads RedisConfig_to RedisConfig_from. Qed.

Lemma dec_ObjectStoreConfig_ok c p old : dec_ObjectStoreConfig p (ObjectStoreConfig_json c) old = Ok c.
Proof. solve_reads ObjectStoreConfig_to ObjectStoreConfig_from. Qed.

#[export] Hint Resolve dec_ServerConfig_ok dec_QEMUConfig_ok dec_FPGAConfig_ok dec_PostgresConfig_ok dec_RedisConfig_ok
  dec_ObjectStoreConfig_ok : reads.

Lemma dec_StorageConfig_ok c p old :
  in_int64 (pg_Port (st_Postgres c)) → in_int64 (pg_MaxConnections (st_Postgres c)) →
  in_int64 (redis_Port (st_Redis c)) → in_int64 (redis_DB (st_Redis c)) → in_int64 (redis_PoolSize (st_Redis c)) →
  dec_StorageConfig p (StorageConfig_json c) old = Ok c.
Proof. intros. solve_reads StorageConfig_to StorageConfig_from. Qed.

Lemma dec_TelemetryConfig_ok c p old :
  in_int64 (tel_MetricsPort c) → dec_TelemetryConfig p (TelemetryConfig_json c) old = Ok c.
Proof. intros. solve_reads TelemetryConfig_to TelemetryConfig_from. Qed.

Lemma dec_VMDefaultsConfig_ok c p old :
  in_int64 (vmd_BootTimeoutSeconds c) → in_int64 (vmd_HeartbeatIntervalSeconds c) →
  in_int64 (vmd_HeartbeatTimeoutSeconds c) → in_int64 (vmd_TestTimeoutSeconds c) → in_int64 (vmd_MaxConcurrentVMs c) →
  dec_VMDefaultsConfig p (VMDefaultsConfig_json c) old = Ok c.
Proof. intros. solve_reads VMDefaultsConfig_to VMDefaultsConfig_from. Qed.

Lemma dec_ClusterConfig_ok c p old :
  in_int64 (cl_HeartbeatIntervalSec c) → in_int64 (cl_NodeHeartbeatTTLSec c) → in_int64 (cl_HostCPUs c) →
  in_int64 (cl_HostMemMB c) → dec_ClusterConfig p (ClusterConfig_json c) old = Ok c.
Proof. intros. solve_reads ClusterConfig_to ClusterConfig_from. Qed.

Lemma dec_BARDef_ok c p old : in_int64 (bar_SizeBytes c) → dec_BARDef p (BARDef_json c) old = Ok c.
Proof. intros. solve_reads BARDef_to BARDef_from. Qed.

#[export] Hint Resolve dec_StorageConfig_ok dec_TelemetryConfig_ok dec_VMDefaultsConfig_ok dec_ClusterConfig_ok : reads.

Lemma dec_GlobalConfig_ok c p old : GlobalConfig_typed c → dec_GlobalConfig p (GlobalConfig_json c) old = Ok c.
Proof.
  unfold GlobalConfig_typed, GlobalConfig_ints. rewrite !Forall_cons. intros H. destruct_and! H.
  solve_reads GlobalConfig_to GlobalConfig_from.
Qed.

Lemma dec_bar_layout_ok p m :
  (∀ k b, m !! k = Some b → in_int64 (bar_SizeBytes b)) →
  dec_bar_layout p (JObj (prod_map id BARDef_json <$> map_to_list m)) ∅ = Ok m.
Proof. intros Hm. apply dec_map_ok. intros k x Hx. apply dec_BARDef_ok. by eapply Hm. Qed.

Lemma dec_env_ok p m : dec_env p (JObj (prod_map id JStr <$> map_to_list m)) ∅ = Ok m.
Proof. by apply dec_map_ok. Qed.

#[export] Hint Resolve dec_bar_layout_ok dec_env_ok : reads.

Lemma dec_DeviceEntry_ok d p : DeviceEntry_typed d → dec_DeviceEntry p (DeviceEntry_json d) device_zero = Ok d.
Proof. unfold DeviceEntry_typed. intros. solve_reads DeviceEntry_to DeviceEntry_from. Qed.

Lemma dec_DeviceRegistry_ok r p :
  Forall DeviceEntry_typed (reg_Devices r) → dec_DeviceRegistry p (DeviceRegistry_json r) (mkDeviceRegistry []) = Ok r.
Proof.
  intros Hr. apply (struct_reads_back DeviceRegistry_to DeviceRegistry_from); [by intros [? []]|by intros []|].
  apply reads_cons; [set_solver| |apply reads_end]. intros q. apply dec_slice_fresh. eapply Forall_impl; [exact Hr|].
  intros d. apply dec_DeviceEntry_ok.
Qed.

(** ** Expanding the environment *)

(** A text with references of the form dollar, name in braces. *)
Inductive piece : Type :=
  | Plain (s : string)
  | Ref (name : string).

Definition written (x : piece) : string := match x with Plain s => s | Ref n => "${" +:+ n +:+ "}" end.
Definition filled (getenv : string → string) (x : piece) : string := match x with Plain s => s | Ref n => getenv n end.
Definition texts (f : piece → string) (l : list piece) : string := join_with "" (f <$> l).

Definition piece_ok (x : piece) : Prop :=
  match x with
  | Plain s => Forall (λ c, code c ≠ 36%N) (bytes s)
  | Ref n => n ≠ "" ∧ Forall (λ c, code c ≠ 125%N) (bytes n)
  end.

Global Instance piece_ok_dec x : Decision (piece_ok x).
Proof. destruct x; apply _. Defined.

Lemma expand_plain getenv a l : Forall (λ c, code c ≠ 36%N) a → expand getenv 0 (a ++ l) = a ++ expand getenv 0 l.
Proof.
  induction 1 as [|c a Hc _ IH]; [done|]. cbn [app expand]. rewrite (proj2 (N.eqb_neq _ _) Hc), IH.
  by destruct (a ++ l) as [|] eqn:E; [apply app_eq_nil in E as [-> ->]|].
Qed.

Lemma expand_skip getenv a l : expand getenv (length a) (a ++ l) = expand getenv 0 l.
Proof. induction a as [|c a IH]; [done|]. cbn [length app expand]. apply IH. Qed.

Lemma to_brace_app name l :
  Forall (λ c, code c ≠ 125%N) name → to_brace (name ++ "}"%char :: l) = Some name.
Proof. induction 1 as [|c name Hc _ IH]; [done|]. cbn [app to_brace]. by rewrite (proj2 (N.eqb_neq _ _) Hc), IH. Qed.

Lemma getShellName_braces name l :
  name ≠ [] → Forall (λ c, code c ≠ 125%N) name →
  getShellName ("{"%char :: name ++ "}"%char :: l) = (name, (length name + 2)%nat).
Proof.
  intros Hne Hn. pose proof (to_brace_app name l Hn) as Hb. destruct name as [|d name]; [done|]. cbn [getShellName app] in *.
  change (code "{"%char =? 123)%N with true. cbv iota.
  destruct (name ++ "}"%char :: l) as [|e rest] eqn:E; [by apply app_eq_nil in E as []|]. rewrite Hb.
  destruct (is_special d && (code e =? 125)%N) eqn:Es; [|done]. apply andb_prop in Es as [_ Ee%N.eqb_eq].
  destruct name as [|e' name]; [done|]. injection E as Ed _. rewrite !Forall_cons in Hn. destruct Hn as (_ & Hd & _).
  cbv beta in Hd. congruence.
Qed.

Lemma expand_ref getenv n l :
  n ≠ [] → Forall (λ c, code c ≠ 125%N) n →
  expand getenv 0 ("$"%char :: "{"%char :: n ++ "}"%char :: l) = bytes (getenv (str n)) ++ expand getenv 0 l.
Proof.
  intros Hne Hn. assert (Hskip : expand getenv (length n + 2) ("{"%char :: n ++ "}"%char :: l) = expand getenv 0 l).
  { rewrite <- (expand_skip getenv ("{"%char :: n ++ ["}"%char]) l). f_equal.
    - simpl. rewrite length_app. simpl. lia.
    - simpl. by rewrite <- app_assoc. }
  rewrite <- Hskip. cbn [expand]. change (code "$"%char =? 36)%N with true. cbv iota. rewrite getShellName_braces by done.
  by destruct n.
Qed.

Lemma texts_cons f x l : texts f (x :: l) = f x +:+ texts f l.
Proof. unfold texts. destruct l as [|y l]; [|done]. cbn. by rewrite str_app_nil. Qed.

(** The references are replaced by the values of the variables, and the rest is kept. *)
Lemma ExpandEnv_fills getenv l : Forall piece_ok l → ExpandEnv getenv (texts written l) = texts (filled getenv) l.
Proof.
  unfold ExpandEnv. intros Hl. rewrite <- (str_bytes (texts (filled getenv) l)). f_equal.
  induction Hl as [|x l Hx _ IH]; [done|]. rewrite !texts_cons, !bytes_app, <- IH.
  destruct x as [s|n]; cbn [piece_ok written filled] in *; [by apply expand_plain|]. destruct Hx as [Hne Hn].
  rewrite !bytes_app, <- !app_assoc. change (bytes "${") with ["$"%char; "{"%char]. change (bytes "}") with ["}"%char].
  cbn [app]. rewrite expand_ref by (done || by destruct n). by rewrite str_bytes.
Qed.

(** ** The loader's theorems *)

Section loaded.
Context {W : Type} `{!FileSystem W, !Environ W}.

(** The file at [path] holds [text] and the environment gives the variables
    the values of [getenv]. *)
Definition holds (path text : string) (getenv : string → string) (w w' : W) : Prop :=
  os_ReadFile path w = Done (Ok text, w') ∧ os_Getenv w' = getenv.

Lemma loadJSON_reads {A : Type} (d : decoder A) path l getenv v target x w w' :
  holds path (texts written l) getenv w w' → Forall piece_ok l →
  parse (texts (filled getenv) l) = Ok v → d at_top v target = Ok x →
  loadJSON d path target w = Done (Ok x, w').
Proof.
  intros [Hr Hg] Hl Hv Hd. unfold loadJSON. rewrite (M_bind_done _ _ _ _ _ Hr). unfold environment, mbind, M_bind.
  rewrite Hg, ExpandEnv_fills by done. unfold Unmarshal. rewrite Hv. cbn [result_bind]. by rewrite Hd.
Qed.

(** C27: [Load] of a file that holds a JSON text of a configuration, however
    it is laid out, with any parts of it given by environment variables,
    returns that configuration with the default filled in, or the error of its
    validation: no field is lost, mixed up or rounded on the way.  The
    variables are written in braces after a dollar sign, which stands nowhere
    else in the file; what is parsed is the text with their values in place;
    the members of each object are in the order of the fields, and the numbers
    fit into 64 bits. *)
Theorem configuration_loaded configDir l getenv c w w' :
  holds (Join [configDir; "global_config.json"]) (texts written l) getenv w w' → Forall piece_ok l →
  parse (texts (filled getenv) l) = Ok (GlobalConfig_json c) → GlobalConfig_typed c →
  Load configDir w = Done (within "validating global config" (validate_global c), w').
Proof.
  intros Hh Hl Hp Hc. unfold Load.
  by rewrite (M_bind_done _ _ _ _ _ (loadJSON_reads _ _ _ _ _ _ _ _ _ Hh Hl Hp (dec_GlobalConfig_ok _ _ _ Hc))).
Qed.

(** [LoadDeviceRegistry] of a file that holds the JSON text of a valid
    registry returns that registry, and [FindDevice] finds each of its devices
    there, with the register layout and the environment it was written with. *)
Theorem registry_loaded configDir l getenv r w w' :
  holds (Join [configDir; "device_registry.json"]) (texts written l) getenv w w' → Forall piece_ok l →
  parse (texts (filled getenv) l) = Ok (DeviceRegistry_json r) → Forall DeviceEntry_typed (reg_Devices r) → validate_registry r = Ok tt →
  LoadDeviceRegistry configDir w = Done (Ok r, w') ∧ ∀ d, d ∈ reg_Devices r → FindDevice r (de_ID d) = Ok d.
Proof.
  intros Hh Hl Hp Hr Hv. split.
  - unfold LoadDeviceRegistry.
    rewrite (M_bind_done _ _ _ _ _ (loadJSON_reads _ _ _ _ _ _ _ _ _ Hh Hl Hp (dec_DeviceRegistry_ok _ _ Hr))).
    cbn [within result_bind]. by rewrite Hv.
  - intros d Hd. apply (proj2 (registry_validated_lookup r) Hv (de_ID d)). done.
Qed.

End loaded.

(** ** A machine *)

(** Files and environment variables that stay as they are. *)
Record machine : Type := mkMachine {
  mc_files : gmap string string;
  mc_vars : gmap string string;
}.

Global Instance machine_files : FileSystem machine := {|
  os_Getwd := mret (Ok "/");
  os_Stat p := λ w, Done (match mc_files w !! p with Some _ => Ok tt | None => Err ("stat " +:+ p +:+ ": no such file or directory") end, w);
  os_ReadFile p := λ w,
    Done (match mc_files w !! p with Some t => Ok t | None => Err ("open " +:+ p +:+ ": no such file or directory") end, w);
|}.

Global Instance machine_environ : Environ machine := λ w x, default "" (mc_vars w !! x).

(** A configuration whose database password comes from the environment. *)
Definition sample_config (host password : string) : GlobalConfig :=
  mkGlobalConfig (mkServerConfig 9090 8080 "0.0.0.0")
    (mkQEMUConfig "qemu-system-x86_64" "/q" "/k" "/r" "/s" "/g" 2048 2 "/i" "/run" "/run")
    (mkFPGAConfig "/dev/vfio" true ["0000:01:00.0"])
    (mkStorageConfig (mkPostgresConfig host 5432 "dvf" password "dvf" 10 "disable") (mkRedisConfig "r" 6379 "" 0 10)
       (mkObjectStoreConfig "e" "a" "s" "b" false))
    (mkTelemetryConfig 9100 "t" "info" "json") (mkVMDefaultsConfig 60 5 (-1) 300 0) (mkClusterConfig "n" "worker" 5 30 8 16384).

Definition config_text (c : GlobalConfig) : string := print (GlobalConfig_json c).

(** The text with a reference in the place of the only at-sign. *)
Definition template (name t : string) : list piece :=
  match String.index 0 "@" t with
  | Some i => [Plain (String.substring 0 i t); Ref name; Plain (String.substring (S i) (String.length t) t)]
  | None => [Plain t]
  end.

Definition sample_machine (value : string) : machine :=
  mkMachine {["configs/global_config.json" := texts written (template "DB_PASSWORD" (config_text (sample_config "db" "@")))]}
    {["DB_PASSWORD" := value]}.

Lemma configuration_loaded_witness :
  let w := sample_machine "secret" in
  Load "configs" w = Done (within "validating global config" (validate_global (sample_config "db" "secret")), w).
Proof.
  apply (configuration_loaded "configs" (template "DB_PASSWORD" (config_text (sample_config "db" "@")))
    (λ x, default "" (mc_vars (sample_machine "secret") !! x)) (sample_config "db" "secret")).
  - split; reflexivity.
  - apply (bool_decide_unpack _). vm_compute. exact I.
  - vm_compute. reflexivity.
  - repeat constructor; done.
Defined.

(** A device with a register layout and environment. *)
Definition sample_registry (path : string) : DeviceRegistry :=
  mkDeviceRegistry [mkDeviceEntry "gpgpu" "GPGPU" "0x1234" "0x1" "0x03" "gpgpu" "gpgpu_driver" path "/dev/gpgpu" "a device"
    ["qemu"] ["pcie"; "msi"] (<["0" := mkBARDef "mem" 4096 "registers"]> {["2" := mkBARDef "mem" 268435456 "memory"]}) ["vector"]
    {["LD_LIBRARY_PATH" := "/lib"]} "/lib/ld" "/lib" "/tests"].

Lemma registry_loaded_witness :
  let r := sample_registry "/opt/dvf/driver.ko" in
  let w := mkMachine {["configs/device_registry.json" :=
    texts written (template "ROOT" (print (DeviceRegistry_json (sample_registry "@/driver.ko"))))]} {["ROOT" := "/opt/dvf"]} in
  LoadDeviceRegistry "configs" w = Done (Ok r, w) ∧ ∀ d, d ∈ reg_Devices r → FindDevice r (de_ID d) = Ok d.
Proof.
  apply (registry_loaded "configs" (template "ROOT" (print (DeviceRegistry_json (sample_registry "@/driver.ko"))))
    (λ x, default "" (({["ROOT" := "/opt/dvf"]} : gmap string string) !! x))).
  - split; reflexivity.
  - apply (bool_decide_unpack _). vm_compute. exact I.
  - vm_compute. reflexivity.
  - constructor; [|constructor]. intros k b. cbn. intros [[_ <-]|[_ [_ <-]%lookup_singleton_Some]]%lookup_insert_Some; done.
  - vm_compute. reflexivity.
Defined.

(** The environment is expanded in the text before it is decoded, and
    nothing is escaped, so a value with a quote is read as JSON: a password
    can replace the database host, one with a lone quote makes the
    configuration unreadable, and a dollar sign in a password of the file
    takes the letters after it away. *)
Theorem environment_read_as_json :
  let q := String dquote EmptyString in
  (∃ c, Load "configs" (sample_machine ("x" +:+ q +:+ "," +:+ q +:+ "host" +:+ q +:+ ":" +:+ q +:+ "evil"))
        = Done (Ok c, sample_machine ("x" +:+ q +:+ "," +:+ q +:+ "host" +:+ q +:+ ":" +:+ q +:+ "evil")) ∧
        pg_Host (st_Postgres (cfg_Storage c)) = "evil") ∧
  (∃ e, Load "configs" (sample_machine q) = Done (Err e, sample_machine q)) ∧
  (let w := mkMachine {["configs/global_config.json" := config_text (sample_config "db" "pa$word-1")]} ∅ in
   ∃ c, Load "configs" w = Done (Ok c, w) ∧ pg_Password (st_Postgres (cfg_Storage c)) = "pa-1").
Proof. split_and!; eexists; try split; vm_compute; reflexivity. Qed.
