(* ===== verification/Sql.v ===== *)
(** * The SQL of the PostgreSQL store

    The statements [storage/postgres.go] is written in, as data, and what a
    statement does to the tables: [run_sql] is a function of the choices the
    server makes (the generated identifier, its clock, the order of rows
    that the statement leaves open).  A row is a map from columns to values;
    every table of the schema has [id TEXT PRIMARY KEY], so its rows are a
    map from identifiers.  A statement that cannot be carried out (a missing
    table, a violated constraint) has no result.  Indexes and the extension
    change no answer and are left out.  The server and the connection pool
    themselves are not part of the program: they are the class [Database],
    with the documented laws that a statement that succeeds has done what it
    says and one that fails has done that or nothing. *)
From Stdlib Require Import Ascii SpecFloat.
From stdpp Require Import sorting options.
From S2P Require Import Prelude GoStd Types Effects Json Marshal JsonText JsonPrint.
Open Scope string_scope.
Open Scope list_scope.
Open Scope Z_scope.

(** ** Values and expressions *)

(** A time is in microseconds; [VMillis n] is the numeric [n / 1000], the
    milliseconds of an interval of [n] microseconds. *)
Inductive value : Type :=
  | VNull
  | VText (s : string)
  | VInt (n : Z)
  | VTime (us : Z)
  | VMillis (n : Z)
  | VJson (v : json).

Inductive expr : Type :=
  | Col (c : string)
  | Arg (n : nat)                       (* $n *)
  | Lit (s : string)
  | Coalesce (a b : expr)
  | Nullif (a b : expr)
  | EpochMs (a b : expr).               (* EXTRACT(EPOCH FROM (a - b)) * 1000 *)

Inductive cond : Type :=
  | ColEq (c : string) (n : nat)        (* c = $n *)
  | ColIn (c : string) (l : list string).

Abbreviation row := (gmap string value).

Definition column_of (r : row) (c : string) : value := default VNull (r !! c).

Definition text_of (v : value) : option string := match v with VText s => Some s | _ => None end.

Fixpoint eval (args : list value) (r : row) (e : expr) : option value :=
  match e with
  | Col c => Some (column_of r c)
  | Arg n => args !! pred n
  | Lit s => Some (VText s)
  | Coalesce a b => x ← eval args r a; match x with VNull => eval args r b | _ => Some x end
  | Nullif a b =>
    x ← eval args r a; y ← eval args r b;
    match x, y with
    | VText s, VText t => Some (if decide (s = t) then VNull else x)
    | _, _ => Some x
    end
  | EpochMs a b =>
    x ← eval args r a; y ← eval args r b;
    match x, y with
    | VTime s, VTime t => Some (VMillis (s - t))
    | VNull, _ | _, VNull => Some VNull
    | _, _ => None
    end
  end.

(** Texts only are compared by these statements. *)
Definition holds_for (args : list value) (r : row) (c : cond) : bool :=
  match c with
  | ColEq c n =>
    match column_of r c, args !! pred n with
    | VText s, Some (VText t) => bool_decide (s = t)
    | _, _ => false
    end
  | ColIn c l => match column_of r c with VText s => bool_decide (s ∈ l) | _ => false end
  end.

Definition matches (args : list value) (where_ : list cond) (r : row) : bool := forallb (holds_for args r) where_.

Arguments matches : simpl never.

(** ** Tables *)

Inductive coltype : Set := TEXT | INTEGER | BIGINT | TIMESTAMPTZ | JSONB.

Inductive default_value : Type :=
  | DefaultNull
  | DefaultUuid                         (* gen_random_uuid()::text *)
  | DefaultNow
  | DefaultValue (v : value).

Record column : Type := mkColumn {
  c_name : string;
  c_type : coltype;
  c_notnull : bool;
  c_default : default_value;
  c_references : option string;         (* REFERENCES t(id) *)
}.

Record table : Type := mkTable {
  t_columns : list column;
  t_rows : gmap string row;
}.

Abbreviation database := (gmap string table).

(** A numeric becomes an integer by rounding, halves away from zero. *)
Definition round_thousandths (n : Z) : Z := Z.sgn n * ((Z.abs n + 500) / 1000).

(** A value as a column of the type holds it. *)
Definition coerce (t : coltype) (v : value) : option value :=
  match t, v with
  | _, VNull => Some VNull
  | TEXT, VText s => Some v
  | (INTEGER | BIGINT), VInt n => Some v
  | (INTEGER | BIGINT), VMillis n => Some (VInt (round_thousandths n))
  | TIMESTAMPTZ, VTime _ => Some v
  | JSONB, VText s => match parse s with Ok j => Some (VJson j) | Err _ => None end
  | JSONB, VJson _ => Some v
  | _, _ => None
  end.

Definition find_column (t : table) (c : string) : option column :=
  snd <$> list_find (λ k, c_name k = c) (t_columns t).

Definition coerce_to (t : table) (c : string) (v : value) : option value := k ← find_column t c; coerce (c_type k) v.

(** The choices of the server: an identifier, the time and an order of rows. *)
Record choice : Type := mkChoice {
  ch_uuid : string;
  ch_now : Z;
  ch_order : list string;
}.

Definition default_of (ch : choice) (k : column) : value :=
  match c_default k with
  | DefaultNull => VNull
  | DefaultUuid => VText (ch_uuid ch)
  | DefaultNow => VTime (ch_now ch)
  | DefaultValue v => v
  end.

(** The row of an insertion before constraints are checked. *)
Definition set_column (t : table) (r : row) (cv : string * value) : option row :=
  v ← coerce_to t cv.1 cv.2; Some (<[cv.1 := v]> r).

Definition set_columns (t : table) (cvs : list (string * value)) (r : row) : option row :=
  foldl (λ r cv, r ← r; set_column t r cv) (Some r) cvs.

Definition default_row (ch : choice) (t : table) : row := list_to_map ((λ k, (c_name k, default_of ch k)) <$> t_columns t).

(** NOT NULL and the references. *)
Definition satisfies (db : database) (r : row) (k : column) : bool :=
  negb (c_notnull k && match column_of r (c_name k) with VNull => true | _ => false end) &&
  match c_references k, column_of r (c_name k) with
  | Some t, VText id => match db !! t with Some t' => bool_decide (is_Some (t_rows t' !! id)) | None => false end
  | _, _ => true
  end.

(** ** Statements *)

(** [conflict] are the columns of [ON CONFLICT (id) DO UPDATE SET c = EXCLUDED.c].
    The only deletions are from a table nothing refers to. *)
Inductive statement : Type :=
  | CreateTables (ts : list (string * list column))
  | Insert (t : string) (cols : list string) (values : list expr) (conflict : option (list string)) (returning : list string)
  | Update (t : string) (sets : list (string * expr)) (where_ : list cond)
  | Delete (t : string) (where_ : list cond)
  | Select (exprs : list expr) (t : string) (where_ : list cond) (order : option (string * bool)) (limit offset : option nat).

Record answer : Type := mkAnswer {
  a_rows : list (list value);
  a_affected : nat;
}.

Definition set_rows (rows : gmap string row) (t : table) : table := mkTable (t_columns t) rows.

Definition insert_row (db : database) (name : string) (t : table) (r : row) (conflict : option (list string))
    (returning : list string) : option (answer * database) :=
  id ← text_of (column_of r "id");
  let put r' := Some (mkAnswer [column_of r' <$> returning] 1, <[name := set_rows (<[id := r']> (t_rows t)) t]> db) in
  if forallb (satisfies db r) (t_columns t) then
    match t_rows t !! id, conflict with
    | None, _ => put r
    | Some old, Some cs =>
      let r' := foldl (λ o c, <[c := column_of r c]> o) old cs in
      if forallb (satisfies db r') (t_columns t) then put r' else None
    | Some _, None => None
    end
  else None.

Definition update_row (db : database) (t : table) (args : list value) (sets : list (string * expr)) (where_ : list cond)
    (r : row) : option row :=
  if matches args where_ r then
    vs ← mapM (eval args r) sets.*2;
    r' ← set_columns t (zip sets.*1 vs) r;
    if forallb (satisfies db r') (t_columns t) then Some r' else None
  else Some r.

(** The time a column holds. *)
Definition time_in (c : string) (r : row) : Z := match column_of r c with VTime t => t | _ => 0 end.

Fixpoint in_order (c : string) (desc : bool) (l : list row) : bool :=
  match l with
  | r1 :: ((r2 :: _) as l') =>
    (if desc then time_in c r2 <=? time_in c r1 else time_in c r1 <=? time_in c r2) && in_order c desc l'
  | _ => true
  end.

Definition ordered (order : option (string * bool)) (l : list row) : bool :=
  match order with Some (c, desc) => in_order c desc l | None => true end.

(** [LIMIT $n OFFSET $m] *)
Definition count_arg (args : list value) (n : option nat) : option nat :=
  n ← n; v ← args !! pred n; match v with VInt z => Some (Z.to_nat z) | _ => None end.

Definition page {A : Type} (limit offset : option nat) (l : list A) : list A :=
  let l1 := match offset with Some n => drop n l | None => l end in
  match limit with Some n => take n l1 | None => l1 end.

Definition run_sql (ch : choice) (db : database) (q : statement) (args : list value) : option (answer * database) :=
  match q with
  | CreateTables ts =>
    Some (mkAnswer [] 0, foldl (λ db '(name, cols),
      match db !! name with Some _ => db | None => <[name := mkTable cols ∅]> db end) db ts)
  | Insert name cols values conflict returning =>
    t ← db !! name;
    vs ← mapM (eval args ∅) values;
    r ← set_columns t (zip cols vs) (default_row ch t);
    insert_row db name t r conflict returning
  | Update name sets where_ =>
    t ← db !! name;
    let upd := update_row db t args sets where_ in
    if decide (map_Forall (λ _ r, is_Some (upd r)) (t_rows t)) then
      Some (mkAnswer [] (size (filter (λ kr, matches args where_ kr.2 = true) (t_rows t))),
            <[name := set_rows (omap upd (t_rows t)) t]> db)
    else None
  | Delete name where_ =>
    t ← db !! name;
    Some (mkAnswer [] (size (filter (λ kr, matches args where_ kr.2 = true) (t_rows t))),
          <[name := set_rows (filter (λ kr, matches args where_ kr.2 = false) (t_rows t)) t]> db)
  | Select exprs name where_ order limit offset =>
    t ← db !! name;
    let l := filter (λ r, matches args where_ r = true) (map_range (t_rows t) (ch_order ch)).*2 in
    if ordered order l then
      rows ← mapM (λ r, mapM (eval args r) exprs) (page (count_arg args limit) (count_arg args offset) l);
      Some (mkAnswer rows (length rows), db)
    else None
  end.

Definition table_of (q : statement) : option string :=
  match q with
  | CreateTables _ => None
  | Insert t _ _ _ _ | Update t _ _ | Delete t _ | Select _ t _ _ _ _ => Some t
  end.

(** An order of rows is one that visits each once. *)
Definition legal (ch : choice) (db : database) (q : statement) : Prop :=
  ∀ name t, table_of q = Some name → db !! name = Some t → iteration_of (t_rows t) (ch_order ch).

(** The answers and the tables a statement may lead to. *)
Definition allowed (db : database) (q : statement) (args : list value) (a : answer) (db' : database) : Prop :=
  ∃ ch, legal ch db q ∧ run_sql ch db q args = Some (a, db').

(** ** The server *)

(** A pool of connections: a statement is answered by its rows and what
    [rows.Err()] gives after the last of them, or by an error; [pool_tables]
    are the tables at this moment and [jsonb_out] the text in which the server
    sends a [jsonb]; [scan_error] is the error of [Scan] for a row that does
    not fit its targets. *)
Class Database (W : Type) := {
  pool_Do : ctx → statement → list value → M W (result (answer * option string));
  pool_Ping : ctx → M W (result unit);
  pool_tables : W → database;
  jsonb_out : json → string;
  scan_error : list value → string;
}.

(** The same JSON value: numbers by their value, members in any order. *)
Fixpoint same_json (v v' : json) : Prop :=
  match v, v' with
  | JNum a, JNum b => ParseFloat a = ParseFloat b
  | JArr l, JArr l' =>
    (fix all l l' := match l, l' with
     | [], [] => True
     | x :: l, x' :: l' => same_json x x' ∧ all l l'
     | _, _ => False
     end) l l'
  | JObj l, JObj l' =>
    NoDup l'.*1 ∧ length l = length l' ∧
    (fix all l := match l with [] => True | kx :: l => (∃ x', (kx.1, x') ∈ l' ∧ same_json kx.2 x') ∧ all l end) l
  | _, _ => v = v'
  end.

(** What [jsonb] keeps: distinct members and numbers other than the negative zero. *)
Fixpoint jsonb_keeps (v : json) : Prop :=
  match v with
  | JNull | JBool _ | JStr _ => True
  | JNum a => ∃ f, ParseFloat a = Some f ∧ f ≠ S754_zero true
  | JArr l => (fix all l := match l with [] => True | x :: l' => jsonb_keeps x ∧ all l' end) l
  | JObj l => NoDup l.*1 ∧ (fix all l := match l with [] => True | kv :: l' => jsonb_keeps kv.2 ∧ all l' end) l
  end.

(** A statement that succeeds has done what it says; one that fails may have
    been carried out before the connection was lost.  The clock of the program
    changes no table. *)
Class DatabaseLaws (W : Type) `{!Database W, !Runtime W} : Prop := {
  #[global] do_total c q args :: Total (pool_Do c q args);
  #[global] ping_total c :: Total (pool_Ping c);
  #[global] now_total :: Total rt_Now;
  do_ok c q args w a e w' :
    pool_Do c q args w = Done (Ok (a, e), w') →
    ∃ a', allowed (pool_tables w) q args a' (pool_tables w') ∧ (e = None → a = a');
  do_err c q args w e w' :
    pool_Do c q args w = Done (Err e, w') →
    pool_tables w' = pool_tables w ∨ ∃ a, allowed (pool_tables w) q args a (pool_tables w');
  #[global] ping_keeps c :: Keeps pool_tables (pool_Ping c);
  #[global] now_keeps :: Keeps pool_tables rt_Now;
  jsonb_law d v : printable d v → (d ≤ 1000)%nat → jsonb_keeps v → ∃ v', parse (jsonb_out v) = Ok v' ∧ same_json v v';
}.

(** ** Types of rows *)

Definition fits_type (t : coltype) (v : value) : bool :=
  match t, v with
  | _, VNull | TEXT, VText _ | (INTEGER | BIGINT), VInt _ | TIMESTAMPTZ, VTime _ | JSONB, VJson _ => true
  | _, _ => false
  end.

Definition fits (k : column) (v : value) : Prop :=
  fits_type (c_type k) v = true ∧ (c_notnull k = true → v ≠ VNull).

(** A row of the table has a value of its type in each column, and its key in the column [id]. *)
Definition row_typed (cols : list column) (id : string) (r : row) : Prop :=
  column_of r "id" = VText id ∧ Forall (λ k, fits k (column_of r (c_name k))) cols.

Definition table_typed (t : table) : Prop := map_Forall (row_typed (t_columns t)) (t_rows t).

Definition typed (db : database) : Prop := map_Forall (λ _, table_typed) db.

(** Columns with distinct names and defaults of their types. *)
Definition columns_ok (cols : list column) : Prop :=
  NoDup (c_name <$> cols) ∧
  Forall (λ k, match c_default k with
               | DefaultNull => True
               | DefaultUuid => c_type k = TEXT
               | DefaultNow => c_type k = TIMESTAMPTZ
               | DefaultValue v => fits_type (c_type k) v = true
               end) cols.

(** A statement that leaves the keys of the rows as they are. *)
Definition keeps_keys (q : statement) : Prop :=
  match q with
  | Insert _ _ _ conflict _ => match conflict with Some cs => "id" ∉ cs | None => True end
  | Update _ sets _ => "id" ∉ sets.*1
  | _ => True
  end.

Lemma coerce_fits t v v' : coerce t v = Some v' → fits_type t v' = true.
Proof. destruct t, v; simpl; intros H; simplify_eq; try done; by repeat case_match; simplify_eq. Qed.

Lemma column_insert r c v c' : column_of (<[c := v]> r) c' = if decide (c = c') then v else column_of r c'.
Proof. unfold column_of. rewrite lookup_insert. by case_decide. Qed.

Lemma find_column_name t c k : find_column t c = Some k → c_name k = c.
Proof.
  unfold find_column. intros H. destruct (list_find _ (t_columns t)) as [[i k']|] eqn:E; [|done]. simpl in H. simplify_eq.
  by apply list_find_Some in E as (_ & ? & _).
Qed.

Lemma find_column_in t k : NoDup (c_name <$> t_columns t) → k ∈ t_columns t → find_column t (c_name k) = Some k.
Proof.
  intros Hnd Hk. unfold find_column. destruct (list_find (λ k', c_name k' = c_name k) (t_columns t)) as [[i k']|] eqn:E; simpl.
  - apply list_find_Some in E as (Hi & Hn & _). f_equal. apply list_elem_of_lookup in Hk as [j Hj].
    assert (i = j) as ->; [|congruence].
    eapply (NoDup_lookup _ i j (c_name k)); [exact Hnd| |]; rewrite list_lookup_fmap; [by rewrite Hi, <- Hn|by rewrite Hj].
  - exfalso. apply list_find_None in E. rewrite Forall_forall in E. by apply (E k).
Qed.

Lemma set_columns_none t cvs : foldl (λ r cv, r ← r; set_column t r cv) None cvs = None.
Proof. by induction cvs. Qed.

Lemma set_columns_cons t c v cvs r r' :
  set_columns t ((c, v) :: cvs) r = Some r' ↔
  ∃ x, coerce_to t c v = Some x ∧ set_columns t cvs (<[c := x]> r) = Some r'.
Proof.
  change (set_columns t ((c, v) :: cvs) r) with (foldl (λ r cv, r ← r; set_column t r cv) (set_column t r (c, v)) cvs).
  assert (set_column t r (c, v) = (λ x, <[c := x]> r) <$> coerce_to t c v) as ->.
  { unfold set_column. cbn [fst snd]. by destruct (coerce_to t c v). }
  destruct (coerce_to t c v) as [x|]; cbn [fmap option_fmap option_map]; [unfold set_columns; naive_solver|].
  rewrite set_columns_none. naive_solver.
Qed.

(** Setting columns keeps each of them of its type. *)
Lemma set_columns_typed t cvs r r' :
  NoDup (c_name <$> t_columns t) → set_columns t cvs r = Some r' →
  Forall (λ k, fits_type (c_type k) (column_of r (c_name k)) = true) (t_columns t) →
  Forall (λ k, fits_type (c_type k) (column_of r' (c_name k)) = true) (t_columns t).
Proof.
  intros Hnd. revert r. induction cvs as [|[c v] cvs IH]; intros r Hs Hr; [by injection Hs as <-|].
  apply set_columns_cons in Hs as (x & E & Hs). eapply IH; [exact Hs|]. unfold coerce_to in E.
  destruct (find_column t c) as [k0|] eqn:Ek; [|done]. simpl in E. rewrite Forall_forall in *.
  intros k Hk. rewrite column_insert. case_decide as Hc; [|by apply Hr].
  subst c. rewrite find_column_in in Ek by done. simplify_eq. by apply coerce_fits in E.
Qed.

Lemma set_columns_other t cvs r r' c : set_columns t cvs r = Some r' → c ∉ cvs.*1 → column_of r' c = column_of r c.
Proof.
  revert r. induction cvs as [|[c0 v] cvs IH]; intros r Hs Hc; [by injection Hs as <-|].
  apply set_columns_cons in Hs as (x & _ & Hs). csimpl in Hc. apply not_elem_of_cons in Hc as [Hne Hc].
  rewrite (IH _ Hs Hc), column_insert. by rewrite decide_False.
Qed.

Lemma satisfies_notnull db r cols :
  forallb (satisfies db r) cols = true → Forall (λ k, c_notnull k = true → column_of r (c_name k) ≠ VNull) cols.
Proof.
  rewrite forallb_forall, Forall_forall. intros H k Hk%list_elem_of_In Hn Hv. apply H in Hk. unfold satisfies in Hk.
  by rewrite Hn, Hv in Hk.
Qed.

Lemma row_typed_intro db cols id r :
  column_of r "id" = VText id → forallb (satisfies db r) cols = true →
  Forall (λ k, fits_type (c_type k) (column_of r (c_name k)) = true) cols → row_typed cols id r.
Proof.
  intros Hid Hs%satisfies_notnull Hf. split; [done|]. rewrite !Forall_forall in *. intros k Hk. split; [by apply Hf|by apply Hs].
Qed.

Lemma row_typed_fits cols id r :
  row_typed cols id r → Forall (λ k, fits_type (c_type k) (column_of r (c_name k)) = true) cols.
Proof. intros [_ H]. eapply Forall_impl; [exact H|]. by intros k []. Qed.

Lemma column_default ch cols k :
  NoDup (c_name <$> cols) → k ∈ cols → column_of (list_to_map ((λ k, (c_name k, default_of ch k)) <$> cols)) (c_name k) = default_of ch k.
Proof.
  intros Hnd Hk. unfold column_of. erewrite elem_of_list_to_map_1; [done| |].
  - by rewrite <- list_fmap_compose.
  - apply list_elem_of_fmap. by exists k.
Qed.

Lemma default_row_fits ch t :
  columns_ok (t_columns t) → Forall (λ k, fits_type (c_type k) (column_of (default_row ch t) (c_name k)) = true) (t_columns t).
Proof.
  intros [Hnd Hd]. rewrite Forall_forall in *. intros k Hk. unfold default_row. rewrite column_default by done.
  specialize (Hd k Hk). unfold default_of. destruct (c_default k); simplify_eq/=; [by destruct (c_type k)|by rewrite Hd..|done].
Qed.

Lemma typed_put db name t rows :
  typed db → db !! name = Some t → map_Forall (row_typed (t_columns t)) rows → typed (<[name := set_rows rows t]> db).
Proof. intros Hdb Ht Hr. by apply map_Forall_insert_2. Qed.

Lemma update_row_typed db t args sets where_ id r r' :
  columns_ok (t_columns t) → "id" ∉ sets.*1 → row_typed (t_columns t) id r →
  update_row db t args sets where_ r = Some r' → row_typed (t_columns t) id r'.
Proof.
  intros [Hnd _] Hid Hr. unfold update_row. destruct (matches args where_ r); [|by intros [= <-]].
  destruct (mapM (eval args r) sets.*2) as [vs|] eqn:Ev; [|done]. simpl.
  destruct (set_columns t (zip sets.*1 vs) r) as [r1|] eqn:Es; [|done]. simpl.
  destruct (forallb (satisfies db r1) (t_columns t)) eqn:Ec; [|done]. intros [= <-].
  eapply row_typed_intro; [|done|eapply set_columns_typed; [done..|by eapply row_typed_fits]].
  rewrite (set_columns_other _ _ _ _ "id" Es); [apply Hr|]. intros Hin. apply Hid.
  apply list_elem_of_fmap in Hin as ([c v] & Heq & Hin%elem_of_zip_l). simpl in Heq. by subst c.
Qed.

(** The row after [ON CONFLICT DO UPDATE]. *)
Lemma column_overwrite r cs old c :
  column_of (foldl (λ o c, <[c := column_of r c]> o) old cs) c = if decide (c ∈ cs) then column_of r c else column_of old c.
Proof.
  revert old. induction cs as [|c0 cs IH]; intros old; [by rewrite decide_False by apply not_elem_of_nil|]. simpl.
  rewrite IH, column_insert. destruct (decide (c ∈ cs)) as [Hc|Hc]; [by rewrite decide_True by (by right)|].
  case_decide as Hd; [subst; by rewrite decide_True by left|].
  rewrite decide_False; [done|]. intros [->|?]%elem_of_cons; done.
Qed.

Lemma insert_row_spec db name t r conflict returning a db' :
  insert_row db name t r conflict returning = Some (a, db') →
  ∃ id r', column_of r "id" = VText id ∧ db' = <[name := set_rows (<[id := r']> (t_rows t)) t]> db ∧
    a = mkAnswer [column_of r' <$> returning] 1 ∧ forallb (satisfies db r') (t_columns t) = true ∧
    match t_rows t !! id with
    | None => r' = r
    | Some old => ∃ cs, conflict = Some cs ∧ r' = foldl (λ o c, <[c := column_of r c]> o) old cs
    end.
Proof.
  unfold insert_row. destruct (column_of r "id") as [|id| | | |]; try done. simpl.
  destruct (forallb (satisfies db r) (t_columns t)) eqn:Es; [|done]. intros H. exists id.
  destruct (t_rows t !! id) as [old|]; [|injection H as <- <-; eauto 10].
  destruct conflict as [cs|]; [|done]. case_match eqn:Es'; [|done]. injection H as <- <-. eauto 10.
Qed.

Lemma insert_typed db name t r conflict returning a db' :
  typed db → db !! name = Some t → match conflict with Some cs => "id" ∉ cs | None => True end →
  Forall (λ k, fits_type (c_type k) (column_of r (c_name k)) = true) (t_columns t) →
  insert_row db name t r conflict returning = Some (a, db') → typed db'.
Proof.
  intros Hdb Ht Hc Hf (id & r' & Hid & -> & _ & Hs & Hr)%insert_row_spec. apply typed_put; [done..|].
  apply map_Forall_insert_2; [|by apply (Hdb name)]. destruct (t_rows t !! id) as [old|] eqn:E; [|subst; by eapply row_typed_intro].
  destruct Hr as (cs & -> & Hr). assert (Ho : row_typed (t_columns t) id old) by (by apply (Hdb name _ Ht)).
  eapply row_typed_intro; [|done|]; subst r'.
  - rewrite column_overwrite, decide_False by done. apply Ho.
  - apply row_typed_fits in Ho. rewrite Forall_forall in *. intros k Hk. rewrite column_overwrite. case_decide; auto.
Qed.

(** Tables with sensible columns and rows of their types. *)
Definition sound (db : database) : Prop := typed db ∧ map_Forall (λ _ t, columns_ok (t_columns t)) db.

Definition statement_ok (q : statement) : Prop :=
  keeps_keys q ∧ match q with CreateTables ts => Forall (λ '(_, cols), columns_ok cols) ts | _ => True end.

(** What a statement other than [CREATE TABLE] does: it replaces the rows of its table. *)
Lemma run_sql_rows ch db q args a db' :
  run_sql ch db q args = Some (a, db') → sound db → keeps_keys q →
  match q with
  | CreateTables _ => True
  | _ => db' = db ∨ ∃ name t rows, table_of q = Some name ∧ db !! name = Some t ∧
           db' = <[name := set_rows rows t]> db ∧ map_Forall (row_typed (t_columns t)) rows
  end.
Proof.
  destruct q as [ts|name cols values conflict returning|name sets where_|name where_|exprs name where_ order limit offset];
    simpl; [done|..]; intros H [Hty Hcols] Hk; (destruct (db !! name) as [t|] eqn:Et; [|done]); simpl in H;
    pose proof (Hty name t Et) as Htt; pose proof (Hcols name t Et) as Hc; simpl in Htt, Hc.
  - right. destruct (mapM (eval args ∅) values) as [vs|]; [|done]. simpl in H.
    destruct (set_columns t (zip cols vs) (default_row ch t)) as [r|] eqn:Es; [|done]. simpl in H.
    assert (Hf : Forall (λ k, fits_type (c_type k) (column_of r (c_name k)) = true) (t_columns t)).
    { eapply set_columns_typed; [apply Hc|exact Es|]. by apply default_row_fits. }
    pose proof (insert_typed _ _ _ _ _ _ _ _ Hty Et Hk Hf H) as Hty'.
    apply insert_row_spec in H as (id & r' & _ & -> & _). eexists name, t, _. split_and!; [done..|].
    exact (Hty' name _ (lookup_insert_eq _ _ _)).
  - right. case_decide as Hall; [|done]. injection H as <- <-. eexists name, t, _. split_and!; [done..|].
    intros id r'. rewrite lookup_omap. intros (r & Hr & Hu)%bind_Some.
    eapply update_row_typed; [done|done|by apply Htt|exact Hu].
  - right. injection H as <- <-. eexists name, t, _. split_and!; [done..|].
    intros id r [Hr _]%map_lookup_filter_Some. by apply Htt.
  - left. case_match; [|done]. destruct (mapM _ _); [|done]. by injection H as <- <-.
Qed.

Lemma create_tables_sound ts db :
  sound db → Forall (λ '(_, cols), columns_ok cols) ts →
  sound (foldl (λ db '(name, cols), match db !! name with Some _ => db | None => <[name := mkTable cols ∅]> db end) db ts).
Proof.
  intros Hdb Hts. revert db Hdb. induction Hts as [|[name cols] ts Hc _ IH]; intros db Hdb; [done|]. simpl. apply IH.
  destruct (db !! name); [done|]. destruct Hdb as [Hty Hcs]. split; apply map_Forall_insert_2; try done.
Qed.

(** Statements keep the tables sound. *)
Lemma allowed_sound db q args a db' : allowed db q args a db' → sound db → statement_ok q → sound db'.
Proof.
  intros (ch & _ & Hr) Hdb [Hk Hc]. pose proof (run_sql_rows _ _ _ _ _ _ Hr Hdb Hk) as Hrows.
  destruct q; [injection Hr as _ <-; exact (create_tables_sound _ _ Hdb Hc)|..];
    (destruct Hrows as [->|(name & t' & rows & _ & Ht & -> & Hrows)]; [done|]);
    (split; [by apply typed_put; [apply Hdb|..]|]);
    (apply map_Forall_insert_2; [exact (proj2 Hdb name t' Ht)|apply Hdb]).
Qed.

(** The columns an insertion or an update sets. *)
Lemma set_columns_in t cvs r r' c v :
  set_columns t cvs r = Some r' → NoDup cvs.*1 → (c, v) ∈ cvs → coerce_to t c v = Some (column_of r' c).
Proof.
  revert r. induction cvs as [|[c0 v0] cvs IH]; intros r Hs Hnd Hin; [by apply not_elem_of_nil in Hin|].
  apply set_columns_cons in Hs as (x & Hx & Hs). csimpl in Hnd. apply NoDup_cons in Hnd as [Hni Hnd].
  apply elem_of_cons in Hin as [[= -> ->]|Hin]; [|by eapply IH].
  by rewrite (set_columns_other _ _ _ _ _ Hs Hni), column_insert, decide_True.
Qed.

Lemma coerce_col t c k v : find_column t c = Some k → coerce_to t c v = coerce (c_type k) v.
Proof. unfold coerce_to. by intros ->. Qed.

Lemma set_columns_at t cvs r r' i c v :
  set_columns t cvs r = Some r' → NoDup cvs.*1 → cvs !! i = Some (c, v) → coerce_to t c v = Some (column_of r' c).
Proof. intros Hs Hnd Hi%list_elem_of_lookup_2. by eapply set_columns_in. Qed.
