(* ===== verification/Postgres.v ===== *)
(** * The PostgreSQL store ([storage/postgres.go])

    The schema and one definition per method of [PostgresStore], with its
    statement, its arguments and the conversions of [Scan].  A time is sent
    in whole microseconds; the zero time is 0.  The error of [json.Unmarshal] on a stored column is
    ignored by the code, and a status that is none of the constants, which
    the store never writes, is read as the zero value. *)
From Stdlib Require Import Ascii SpecFloat.
From stdpp Require Import sorting options.
From S2P Require Import Prelude GoStd GoChan Types Scheduler Effects MemoryStore Recovery Json Marshal JsonText JsonStruct JsonPrint.
From S2P Require Import StepExec Sql.
Open Scope string_scope.
Open Scope list_scope.
Open Scope Z_scope.

(** ** The schema *)

Definition col (name : string) (t : coltype) : column := mkColumn name t false DefaultNull None.
Definition required (name : string) (t : coltype) (d : default_value) : column := mkColumn name t true d None.

Definition test_runs : list column :=
  [required "id" TEXT DefaultUuid; required "device_id" TEXT DefaultNull; required "test_suite_id" TEXT DefaultNull;
   required "status" TEXT (DefaultValue (VText "PENDING")); col "vm_id" TEXT; required "priority" INTEGER (DefaultValue (VInt 0));
   required "created_at" TIMESTAMPTZ DefaultNow; col "started_at" TIMESTAMPTZ; col "completed_at" TIMESTAMPTZ;
   required "duration_ms" BIGINT (DefaultValue (VInt 0)); col "requested_by" TEXT;
   required "tags" JSONB (DefaultValue (VJson (JArr []))); col "error_message" TEXT].

Definition test_results : list column :=
  [required "id" TEXT DefaultUuid; mkColumn "test_run_id" TEXT true DefaultNull (Some "test_runs");
   required "test_name" TEXT DefaultNull; required "category" TEXT (DefaultValue (VText "")); required "status" TEXT DefaultNull;
   required "duration_ms" BIGINT (DefaultValue (VInt 0)); col "message" TEXT;
   required "metrics" JSONB (DefaultValue (VJson (JObj []))); col "logs" TEXT; required "completed_at" TIMESTAMPTZ DefaultNow].

Definition vms_table : list column :=
  [required "id" TEXT DefaultNull; required "status" TEXT (DefaultValue (VText "CREATING")); required "device_id" TEXT DefaultNull;
   col "qemu_device_name" TEXT; col "qmp_socket_path" TEXT; required "serial_ports" JSONB (DefaultValue (VJson (JArr [])));
   required "pid" INTEGER (DefaultValue (VInt 0)); required "allocated_cpus" INTEGER (DefaultValue (VInt 0));
   required "allocated_mem_mb" INTEGER (DefaultValue (VInt 0)); col "image_path" TEXT; col "overlay_path" TEXT;
   required "created_at" TIMESTAMPTZ DefaultNow; required "agent_status" TEXT (DefaultValue (VText "UNKNOWN"));
   col "last_heartbeat" TIMESTAMPTZ; col "current_test_run_id" TEXT].

Definition ddl : statement :=
  CreateTables [("test_runs", test_runs); ("test_results", test_results); ("vms", vms_table)].

(** ** Values of Go and of the database *)

(** [strconv]'s shortest text of a number, which [json.Marshal] writes. *)
Class FloatText := FormatFloat : float64 → string.

(** Go tells a nil slice from an empty one, and the lists of this model do
    not: whether the tags of a run, the ports of a VM and the metrics of a
    result, when there are none, are nil. *)
Class NilSlices := {
  nil_tags : TestRun → bool;
  nil_ports : VMInstance → bool;
  nil_metrics : TestResult → bool;
}.

(** A number is finite or not; the text of a finite one is read as the number. *)
Definition finite (f : float64) : bool := match f with S754_zero _ | S754_finite _ _ _ => true | _ => false end.

Definition TestRunStatus_of (s : string) : TestRunStatus :=
  default TestRunStatusUnset (snd <$> list_find (λ st, TestRunStatus_string st = s)
    [TestRunStatusPending; TestRunStatusQueued; TestRunStatusRunning; TestRunStatusPassed; TestRunStatusFailed;
     TestRunStatusErrored; TestRunStatusCancelled; TestRunStatusTimeout]).

Definition VMStatus_of (s : string) : VMStatus :=
  default VMStatusUnset (snd <$> list_find (λ st, VMStatus_string st = s)
    [VMStatusCreating; VMStatusBooting; VMStatusReady; VMStatusRunningTest; VMStatusStopping; VMStatusStopped; VMStatusError;
     VMStatusDestroyed]).

Definition AgentStatus_of (s : string) : AgentStatus :=
  default AgentStatusUnset (snd <$> list_find (λ st, AgentStatus_string st = s)
    [AgentStatusUnknown; AgentStatusInitializing; AgentStatusReady; AgentStatusExecuting; AgentStatusReporting; AgentStatusDead]).

Definition TestCategory_of (s : string) : TestCategory :=
  default TestCategoryUnset (snd <$> list_find (λ c, TestCategory_string c = s)
    [TestCategoryReadWrite; TestCategoryInterrupt; TestCategoryErrorInjection; TestCategoryStress; TestCategoryPowerManagement;
     TestCategoryConcurrency; TestCategoryDataIntegrity]).

Definition time_arg (ns : Z) : value := VTime (ns / 1000).

Definition nullableStr (s : string) : value := if decide (s = "") then VNull else VText s.

Definition nullable_time (t : option Z) : value := match t with Some ns => time_arg ns | None => VNull end.

(** [json.Marshal] of a slice of strings, and of the metrics, whose error for
    a number that is not finite is replaced; a nil slice or map is [null]. *)
Definition strings_text (isnil : bool) (l : list string) : string :=
  if decide (l = [] ∧ isnil = true) then "null" else marshal_strings l.

Definition metrics_json `{!FloatText} (m : gmap string float64) : json :=
  JObj (prod_map id (λ f, JNum (FormatFloat f)) <$> sorted m).

Definition metrics_text `{!FloatText} (isnil : bool) (m : gmap string float64) : string :=
  if decide (map_Forall (λ _ f, finite f = true) m) then
    if decide (m = ∅ ∧ isnil = true) then "null" else print (metrics_json m)
  else "{}".

(** ** Scan *)

(** [Scan] into an integer, a time, a pointer to a time. *)
Definition scan_int (v : value) : option Z := match v with VInt n => Some n | _ => None end.
Definition scan_time (v : value) : option Z := match v with VTime us => Some (us * 1000) | _ => None end.
Definition scan_time_ptr (v : value) : option (option Z) :=
  match v with VTime us => Some (Some (us * 1000)) | VNull => Some None | _ => None end.

(** A column into [[]byte], then [json.Unmarshal] if there are bytes. *)
Definition scan_json {A : Type} (out : json → string) (d : decoder A) (zero : A) (v : value) : option A :=
  match v with
  | VJson j => Some (if decide (out j = "") then zero else match Unmarshal d (out j) zero with Ok x => x | Err _ => zero end)
  | VNull => Some zero
  | _ => None
  end.

Definition scan_run (out : json → string) (l : list value) : option TestRun :=
  match l with
  | [id; device; suite; status; vm; priority; created; started; completed; duration; by_; tags; message] =>
    id ← text_of id; device ← text_of device; suite ← text_of suite;
    status ← text_of status; vm ← text_of vm; priority ← scan_int priority;
    created ← scan_time created; started ← scan_time_ptr started;
    completed ← scan_time_ptr completed; duration ← scan_int duration; by_ ← text_of by_;
    tags ← scan_json out dec_strings [] tags; message ← text_of message;
    Some (mkTestRun id device suite (TestRunStatus_of status) vm priority created started completed duration by_ tags message)
  | _ => None
  end.

Definition dec_metrics : decoder (gmap string float64) := dec_map "map[string]float64" dec_float64 (S754_zero false).

Definition scan_result (out : json → string) (l : list value) : option TestResult :=
  match l with
  | [id; run; name; category; status; duration; message; metrics; logs; completed] =>
    id ← text_of id; run ← text_of run; name ← text_of name;
    category ← text_of category; status ← text_of status; duration ← scan_int duration;
    message ← text_of message; metrics ← scan_json out dec_metrics ∅ metrics;
    logs ← text_of logs; completed ← scan_time completed;
    Some (mkTestResult id run name (TestCategory_of category) (TestRunStatus_of status) duration message metrics logs completed)
  | _ => None
  end.

Definition scan_vm (out : json → string) (l : list value) : option VMInstance :=
  match l with
  | [id; status; device; qemu; qmp; ports; pid; cpus; mem; image; overlay; created; agent; beat; run] =>
    id ← text_of id; status ← text_of status; device ← text_of device;
    qemu ← text_of qemu; qmp ← text_of qmp; ports ← scan_json out dec_strings [] ports;
    pid ← scan_int pid; cpus ← scan_int cpus; mem ← scan_int mem; image ← text_of image;
    overlay ← text_of overlay; created ← scan_time created; agent ← text_of agent;
    beat ← scan_time_ptr beat; run ← text_of run;
    Some (mkVMInstance id (VMStatus_of status) device qemu qmp ports pid cpus mem image overlay created
          (AgentStatus_of agent) beat run)
  | _ => None
  end.

(** The columns the three kinds of [SELECT] ask for. *)
Definition or_empty (c : string) : expr := Coalesce (Col c) (Lit "").

Definition run_exprs : list expr :=
  [Col "id"; Col "device_id"; Col "test_suite_id"; Col "status"; or_empty "vm_id"; Col "priority"; Col "created_at";
   Col "started_at"; Col "completed_at"; Col "duration_ms"; or_empty "requested_by"; Col "tags"; or_empty "error_message"].

Definition result_exprs : list expr :=
  [Col "id"; Col "test_run_id"; Col "test_name"; Col "category"; Col "status"; Col "duration_ms"; or_empty "message";
   Col "metrics"; or_empty "logs"; Col "completed_at"].

Definition vm_exprs : list expr :=
  [Col "id"; Col "status"; Col "device_id"; or_empty "qemu_device_name"; or_empty "qmp_socket_path"; Col "serial_ports";
   Col "pid"; Col "allocated_cpus"; Col "allocated_mem_mb"; or_empty "image_path"; or_empty "overlay_path";
   Col "created_at"; Col "agent_status"; Col "last_heartbeat"; or_empty "current_test_run_id"].

(** ** The methods *)

Definition ErrNoRows : string := "no rows in result set".

(** Making and closing a pool: the configuration that a connection string
    stands for is its limit of connections. *)
Class Pools (W : Type) := {
  pgxpool_ParseConfig : string → result Z;
  pgxpool_NewWithConfig : ctx → string → Z → M W (result unit);
  pool_Close : M W unit;
  pool_open : W → bool;
}.

Module PostgresStore.
Section methods.
Context {W : Type} `{!Database W, !Runtime W, !FloatText, !NilSlices}.

(** [pool.QueryRow(...).Scan(...)]; no row is [None]. *)
Definition QueryRow {A : Type} (scan : list value → option A) (c : ctx) (q : statement) (args : list value) :
    M W (result (option A)) :=
  r ← pool_Do c q args;
  mret (let! ae := r in
        match ae.2, a_rows ae.1 with
        | Some e, _ => Err e
        | None, [] => Ok None
        | None, v :: _ => match scan v with Some x => Ok (Some x) | None => Err (scan_error v) end
        end).

(** [pool.Exec(...)], with the rows affected. *)
Definition Exec (c : ctx) (q : statement) (args : list value) : M W (result nat) :=
  r ← pool_Do c q args;
  mret (let! ae := r in match ae.2 with Some e => Err e | None => Ok (a_affected ae.1) end).

(** The loop over [rows.Next()], and [rows.Err()] at its end. *)
Fixpoint scan_rows {A : Type} (scan : list value → option A) (what : string) (rows : list (list value))
    (e : option string) : result (list A) :=
  match rows with
  | [] => match e with Some e => Err e | None => Ok [] end
  | v :: rows' =>
    match scan v with
    | None => Err (what +:+ ": " +:+ scan_error v)
    | Some x => let! xs := scan_rows scan what rows' e in Ok (x :: xs)
    end
  end.

Definition Query {A : Type} (scan : list value → option A) (query_what scan_what : string) (c : ctx) (q : statement)
    (args : list value) : M W (result (list A)) :=
  r ← pool_Do c q args;
  mret (match r with
        | Err e => Err (query_what +:+ ": " +:+ e)
        | Ok (a, e) => scan_rows scan scan_what (a_rows a) e
        end).

Definition ensureSchema (c : ctx) : M W (result unit) :=
  r ← Exec c ddl [];
  mret (let! _ := r in Ok tt).

(** *** Test runs *)

Definition insert_run : statement :=
  Insert "test_runs"
    ["device_id"; "test_suite_id"; "status"; "vm_id"; "priority"; "created_at"; "requested_by"; "tags"; "error_message"]
    [Arg 1; Arg 2; Arg 3; Arg 4; Arg 5; Arg 6; Arg 7; Arg 8; Arg 9] None ["id"; "created_at"].

Definition scan_created (l : list value) : option (string * Z) :=
  match l with
  | [id; created] => id ← text_of id; created ← scan_time created; Some (id, created)
  | _ => None
  end.

Definition CreateTestRun (c : ctx) (run : TestRun) : M W (result TestRun) :=
  now ← rt_Now;
  let status := if decide (tr_Status run = TestRunStatusUnset) then TestRunStatusPending else tr_Status run in
  r ← QueryRow scan_created c insert_run
    [VText (tr_DeviceID run); VText (tr_TestSuiteID run); VText (TestRunStatus_string status); nullableStr (tr_VMID run);
     VInt (tr_Priority run); time_arg now; nullableStr (tr_RequestedBy run); VText (strings_text (nil_tags run) (tr_Tags run));
     nullableStr (tr_ErrorMessage run)];
  mret (match r with
        | Err e => Err ("inserting test run: " +:+ e)
        | Ok None => Err ("inserting test run: " +:+ ErrNoRows)
        | Ok (Some (id, created)) =>
          Ok (mkTestRun id (tr_DeviceID run) (tr_TestSuiteID run) status (tr_VMID run) (tr_Priority run) created
                (tr_StartedAt run) (tr_CompletedAt run) (tr_DurationMs run) (tr_RequestedBy run) (tr_Tags run)
                (tr_ErrorMessage run))
        end).

Definition GetTestRun (c : ctx) (id : string) : M W (result TestRun) :=
  r ← QueryRow (scan_run jsonb_out) c (Select run_exprs "test_runs" [ColEq "id" 1] None None None) [VText id];
  mret (match r with
        | Err e => Err ("querying test run: " +:+ e)
        | Ok None => Err (run_not_found id)
        | Ok (Some run) => Ok run
        end).

(** The statement of each case of the switch, with its arguments. *)
Definition update_status (now : Z) (id : string) (status : TestRunStatus) (errMsg : string) : statement * list value :=
  match status with
  | TestRunStatusRunning =>
    (Update "test_runs" [("status", Arg 1); ("started_at", Arg 2); ("error_message", Nullif (Arg 3) (Lit ""))] [ColEq "id" 4],
     [VText (TestRunStatus_string status); time_arg now; VText errMsg; VText id])
  | TestRunStatusPassed | TestRunStatusFailed | TestRunStatusErrored | TestRunStatusCancelled | TestRunStatusTimeout =>
    (Update "test_runs"
       [("status", Arg 1); ("completed_at", Arg 2);
        ("duration_ms", EpochMs (Arg 2) (Coalesce (Col "started_at") (Col "created_at")));
        ("error_message", Nullif (Arg 3) (Lit ""))] [ColEq "id" 4],
     [VText (TestRunStatus_string status); time_arg now; VText errMsg; VText id])
  | _ =>
    (Update "test_runs" [("status", Arg 1); ("error_message", Nullif (Arg 2) (Lit ""))] [ColEq "id" 3],
     [VText (TestRunStatus_string status); VText errMsg; VText id])
  end.

Definition UpdateTestRunStatus (c : ctx) (id : string) (status : TestRunStatus) (errMsg : string) : M W (result unit) :=
  now ← rt_Now;
  let '(q, args) := update_status now id status errMsg in
  r ← Exec c q args;
  mret (match r with
        | Err e => Err ("updating test run status: " +:+ e)
        | Ok O => Err (run_not_found id)
        | Ok _ => Ok tt
        end).

(** Each filter takes the next argument number. *)
Definition add_filter (use : bool) (col_ : string) (v : value) (w : list cond * list value) : list cond * list value :=
  if use then (w.1 ++ [ColEq col_ (S (length w.2))], w.2 ++ [v]) else w.

Definition add_count (n : Z) (w : option nat * list value) : option nat * list value :=
  if decide (0 < n) then (Some (S (length w.2)), w.2 ++ [VInt n]) else (None, w.2).

Definition list_runs (req : ListTestRunsRequest) : statement * list value :=
  let '(where_, args1) :=
    add_filter (bool_decide (ltr_Status req ≠ TestRunStatusUnset)) "status" (VText (TestRunStatus_string (ltr_Status req)))
      (add_filter (bool_decide (ltr_DeviceID req ≠ "")) "device_id" (VText (ltr_DeviceID req)) ([], [])) in
  let '(limit, args2) := add_count (ltr_Limit req) (None, args1) in
  let '(offset, args3) := add_count (ltr_Offset req) (None, args2) in
  (Select run_exprs "test_runs" where_ (Some ("created_at", true)) limit offset, args3).

Definition ListTestRuns (c : ctx) (req : ListTestRunsRequest) : M W (result (list TestRun)) :=
  let '(q, args) := list_runs req in
  Query (scan_run jsonb_out) "listing test runs" "scanning test run row" c q args.

Definition running : statement :=
  Select run_exprs "test_runs" [ColIn "status" ["RUNNING"; "QUEUED"; "PENDING"]] (Some ("created_at", false)) None None.

Definition ListRunningTestRuns (c : ctx) : M W (result (list TestRun)) :=
  Query (scan_run jsonb_out) "listing running test runs" "scanning test run" c running [].

(** *** Results *)

Definition insert_result : statement :=
  Insert "test_results"
    ["test_run_id"; "test_name"; "category"; "status"; "duration_ms"; "message"; "metrics"; "logs"; "completed_at"]
    [Arg 1; Arg 2; Arg 3; Arg 4; Arg 5; Arg 6; Arg 7; Arg 8; Arg 9] None ["id"].

Definition scan_id (l : list value) : option string := match l with [id] => text_of id | _ => None end.

(** The result as the caller sees it afterwards: its time and identifier are filled in. *)
Definition SaveTestResult (c : ctx) (r : TestResult) : M W (result TestResult) :=
  completed ← (if decide (res_CompletedAt r = 0) then rt_Now else mret (res_CompletedAt r));
  x ← QueryRow scan_id c insert_result
    [VText (res_TestRunID r); VText (res_TestName r); VText (TestCategory_string (res_Category r));
     VText (TestRunStatus_string (res_Status r)); VInt (res_DurationMs r); nullableStr (res_Message r);
     VText (metrics_text (nil_metrics r) (res_Metrics r)); nullableStr (res_Logs r); time_arg completed];
  mret (match x with
        | Err e => Err e
        | Ok None => Err ErrNoRows
        | Ok (Some id) =>
          Ok (mkTestResult id (res_TestRunID r) (res_TestName r) (res_Category r) (res_Status r) (res_DurationMs r)
                (res_Message r) (res_Metrics r) (res_Logs r) completed)
        end).

Definition GetTestResults (c : ctx) (testRunID : string) : M W (result (list TestResult)) :=
  Query (scan_result jsonb_out) "querying test results" "scanning test result" c
    (Select result_exprs "test_results" [ColEq "test_run_id" 1] (Some ("completed_at", false)) None None) [VText testRunID].

(** *** VMs *)

Definition insert_vm : statement :=
  Insert "vms"
    ["id"; "status"; "device_id"; "qemu_device_name"; "qmp_socket_path"; "serial_ports"; "pid"; "allocated_cpus";
     "allocated_mem_mb"; "image_path"; "overlay_path"; "created_at"; "agent_status"; "last_heartbeat"; "current_test_run_id"]
    [Arg 1; Arg 2; Arg 3; Arg 4; Arg 5; Arg 6; Arg 7; Arg 8; Arg 9; Arg 10; Arg 11; Arg 12; Arg 13; Arg 14; Arg 15]
    (Some ["status"; "qmp_socket_path"; "serial_ports"; "pid"; "agent_status"; "last_heartbeat"; "current_test_run_id"]) [].

Definition SaveVM (c : ctx) (v : VMInstance) : M W (result unit) :=
  created ← (if decide (vm_CreatedAt v = 0) then rt_Now else mret (vm_CreatedAt v));
  r ← Exec c insert_vm
    [VText (vm_ID v); VText (VMStatus_string (vm_Status v)); VText (vm_DeviceID v); nullableStr (vm_QEMUDeviceName v);
     nullableStr (vm_QMPSocketPath v); VText (strings_text (nil_ports v) (vm_SerialPorts v)); VInt (vm_PID v); VInt (vm_AllocatedCPUs v);
     VInt (vm_AllocatedMemMB v); nullableStr (vm_ImagePath v); nullableStr (vm_OverlayPath v); time_arg created;
     VText (AgentStatus_string (vm_AgentStatus v)); nullable_time (vm_LastHeartbeat v); nullableStr (vm_CurrentTestRunID v)];
  mret (let! _ := r in Ok tt).

Definition GetVM (c : ctx) (id : string) : M W (result VMInstance) :=
  r ← QueryRow (scan_vm jsonb_out) c (Select vm_exprs "vms" [ColEq "id" 1] None None None) [VText id];
  mret (match r with
        | Err e => Err ("querying vm: " +:+ e)
        | Ok None => Err (vm_not_found id)
        | Ok (Some v) => Ok v
        end).

Definition UpdateVMStatus (c : ctx) (id : string) (status : VMStatus) : M W (result unit) :=
  r ← Exec c (Update "vms" [("status", Arg 1)] [ColEq "id" 2]) [VText (VMStatus_string status); VText id];
  mret (match r with
        | Err e => Err ("updating vm status: " +:+ e)
        | Ok O => Err (vm_not_found id)
        | Ok _ => Ok tt
        end).

Definition list_vms (req : ListVMsRequest) : statement * list value :=
  let '(where_, args) :=
    add_filter (bool_decide (lvm_DeviceID req ≠ "")) "device_id" (VText (lvm_DeviceID req))
      (add_filter (bool_decide (lvm_Status req ≠ VMStatusUnset)) "status" (VText (VMStatus_string (lvm_Status req))) ([], [])) in
  (Select vm_exprs "vms" where_ (Some ("created_at", true)) None None, args).

Definition ListVMs (c : ctx) (req : ListVMsRequest) : M W (result (list VMInstance)) :=
  let '(q, args) := list_vms req in
  Query (scan_vm jsonb_out) "listing vms" "scanning vm row" c q args.

Definition DeleteVM (c : ctx) (id : string) : M W (result unit) :=
  r ← Exec c (Delete "vms" [ColEq "id" 1]) [VText id];
  mret (let! _ := r in Ok tt).

Definition orphaned : statement :=
  Select vm_exprs "vms" [ColIn "status" ["CREATING"; "BOOTING"; "RUNNING_TEST"]] (Some ("created_at", false)) None None.

Definition ListOrphanedVMs (c : ctx) : M W (result (list VMInstance)) :=
  Query (scan_vm jsonb_out) "listing orphaned vms" "scanning orphaned vm" c orphaned [].

Definition Ping (c : ctx) : M W (result unit) := pool_Ping c.

(** *** The connection *)

Context `{!Pools W}.

Definition NewPostgresStore (c : ctx) (dsn : string) (maxConns : Z) : M W (result unit) :=
  match pgxpool_ParseConfig dsn with
  | Err e => mret (Err ("parsing postgres DSN: " +:+ e))
  | Ok default_conns =>
    r ← pgxpool_NewWithConfig c dsn (if decide (0 < maxConns) then int32 maxConns else default_conns);
    match r with
    | Err e => mret (Err ("creating postgres pool: " +:+ e))
    | Ok _ =>
      p ← pool_Ping c;
      match p with
      | Err e => _ ← pool_Close; mret (Err ("pinging postgres: " +:+ e))
      | Ok _ =>
        m ← ensureSchema c;
        match m with
        | Err e => _ ← pool_Close; mret (Err ("ensuring schema: " +:+ e))
        | Ok _ => mret (Ok tt)
        end
      end
    end
  end.

Definition Close : M W (result unit) :=
  _ ← pool_Close;
  mret (Ok tt).

End methods.
End PostgresStore.
