(* ===== verification/PostgresSpec.v ===== *)
(** * What the PostgreSQL store does

    The methods of [PostgresStore] against any server with the laws of
    [DatabaseLaws]: they keep the schema, what they read is what the tables
    hold, and what they write is read back. *)
From Stdlib Require Import Ascii SpecFloat.
From stdpp Require Import sorting options.
Set Default Proof Using "Type*".
From S2P Require Import Prelude GoStd GoChan Types Scheduler Effects MemoryStore Recovery Json Marshal JsonText JsonStruct JsonPrint.
From S2P Require Import StepExec Sql Postgres.
Open Scope string_scope.
Open Scope list_scope.
Open Scope Z_scope.

(** The statements of the store are of the kind that keeps keys and columns. *)
Create HintDb statements.

(** ** The schema *)

Definition has_columns (db : database) (name : string) (cols : list column) : Prop := t_columns <$> db !! name = Some cols.

Record schema (db : database) : Prop := mkSchema {
  sc_sound : sound db;
  sc_runs : has_columns db "test_runs" test_runs;
  sc_results : has_columns db "test_results" test_results;
  sc_vms : has_columns db "vms" vms_table;
}.

Lemma schema_columns : Forall columns_ok [test_runs; test_results; vms_table].
Proof.
  assert (H : ∀ cols, bool_decide (NoDup (c_name <$> cols)) = true →
    forallb (λ k, match c_default k, c_type k with
                  | DefaultNull, _ | DefaultUuid, TEXT | DefaultNow, TIMESTAMPTZ => true
                  | DefaultValue v, t => fits_type t v
                  | _, _ => false
                  end) cols = true → columns_ok cols).
  { intros cols Hn Hd. split; [by apply bool_decide_eq_true in Hn|]. apply Forall_forall. intros k Hk%list_elem_of_In.
    rewrite forallb_forall in Hd. apply Hd in Hk. by destruct (c_default k), (c_type k). }
  repeat (apply Forall_cons_2; [apply H; vm_compute; reflexivity|]). apply Forall_nil_2.
Qed.

Lemma create_columns ts db name cols :
  has_columns db name cols →
  has_columns (foldl (λ db '(name, cols), match db !! name with Some _ => db | None => <[name := mkTable cols ∅]> db end) db ts)
    name cols.
Proof.
  revert db. induction ts as [|[name' cols'] ts IH]; intros db Hdb; [done|]. simpl. apply IH.
  destruct (db !! name') as [t|] eqn:E; [done|]. unfold has_columns in *. rewrite lookup_insert_ne; [done|].
  intros ->. by rewrite E in Hdb.
Qed.

Lemma allowed_columns db q args a db' name cols :
  allowed db q args a db' → sound db → statement_ok q → has_columns db name cols → has_columns db' name cols.
Proof.
  intros (ch & _ & Hr) Hdb [Hk _] Hc. pose proof (run_sql_rows _ _ _ _ _ _ Hr Hdb Hk) as Hrows.
  destruct q; [injection Hr as _ <-; by apply create_columns|..];
    (destruct Hrows as [->|(name' & t' & rows & _ & Ht & -> & Hrows)]; [done|]);
    (unfold has_columns in *; destruct (decide (name = name')) as [->|Hne]; [|by rewrite lookup_insert_ne]);
    rewrite lookup_insert_eq; rewrite Ht in Hc; exact Hc.
Qed.

Lemma allowed_schema db q args a db' : allowed db q args a db' → statement_ok q → schema db → schema db'.
Proof.
  intros Ha Hq [Hs H1 H2 H3]. split; [by eapply allowed_sound|by eapply allowed_columns..].
Qed.

(** ** Rows as Go values *)

Definition or_text (v : value) : value := match v with VNull => VText "" | _ => v end.

Lemma eval_or_empty args r c : eval args r (or_empty c) = Some (or_text (column_of r c)).
Proof. simpl. by destruct (column_of r c). Qed.

Ltac solve_exprs := apply mapM_Some_2; repeat (apply Forall2_cons_2; [first [reflexivity | apply eval_or_empty]|]); apply Forall2_nil_2.

Definition run_values (r : row) : list value :=
  [column_of r "id"; column_of r "device_id"; column_of r "test_suite_id"; column_of r "status"; or_text (column_of r "vm_id");
   column_of r "priority"; column_of r "created_at"; column_of r "started_at"; column_of r "completed_at";
   column_of r "duration_ms"; or_text (column_of r "requested_by"); column_of r "tags"; or_text (column_of r "error_message")].

Definition result_values (r : row) : list value :=
  [column_of r "id"; column_of r "test_run_id"; column_of r "test_name"; column_of r "category"; column_of r "status";
   column_of r "duration_ms"; or_text (column_of r "message"); column_of r "metrics"; or_text (column_of r "logs");
   column_of r "completed_at"].

Definition vm_values (r : row) : list value :=
  [column_of r "id"; column_of r "status"; column_of r "device_id"; or_text (column_of r "qemu_device_name");
   or_text (column_of r "qmp_socket_path"); column_of r "serial_ports"; column_of r "pid"; column_of r "allocated_cpus";
   column_of r "allocated_mem_mb"; or_text (column_of r "image_path"); or_text (column_of r "overlay_path");
   column_of r "created_at"; column_of r "agent_status"; column_of r "last_heartbeat";
   or_text (column_of r "current_test_run_id")].

Lemma eval_run args r : mapM (eval args r) run_exprs = Some (run_values r).
Proof. solve_exprs. Qed.
Lemma eval_result args r : mapM (eval args r) result_exprs = Some (result_values r).
Proof. solve_exprs. Qed.
Lemma eval_vm args r : mapM (eval args r) vm_exprs = Some (vm_values r).
Proof. solve_exprs. Qed.

(** What a column of each kind holds. *)
Section fits.
Context (k : column) (v : value).
Hypothesis (Hfits : fits k v).

Lemma fits_text : c_type k = TEXT → c_notnull k = true → ∃ s, v = VText s.
Proof. intros Ht Hn. destruct Hfits as [Hf Hv]. rewrite Ht in Hf. specialize (Hv Hn). destruct v; naive_solver. Qed.

Lemma fits_text_or : c_type k = TEXT → ∃ s, or_text v = VText s.
Proof. intros Ht. destruct Hfits as [Hf _]. rewrite Ht in Hf. destruct v; naive_solver. Qed.

Lemma fits_int : c_type k = INTEGER ∨ c_type k = BIGINT → c_notnull k = true → ∃ n, v = VInt n.
Proof. intros Ht Hn. destruct Hfits as [Hf Hv]. specialize (Hv Hn). destruct Ht as [Ht|Ht]; rewrite Ht in Hf; destruct v; naive_solver. Qed.

Lemma fits_time : c_type k = TIMESTAMPTZ → c_notnull k = true → ∃ t, v = VTime t.
Proof. intros Ht Hn. destruct Hfits as [Hf Hv]. rewrite Ht in Hf. specialize (Hv Hn). destruct v; naive_solver. Qed.

Lemma fits_time_or : c_type k = TIMESTAMPTZ → ∃ o, v = match o with Some t => VTime t | None => VNull end.
Proof. intros Ht. destruct Hfits as [Hf _]. rewrite Ht in Hf. destruct v as [| | |t| |]; try done; [by exists None|by exists (Some t)]. Qed.

Lemma fits_json : c_type k = JSONB → c_notnull k = true → ∃ j, v = VJson j.
Proof. intros Ht Hn. destruct Hfits as [Hf Hv]. rewrite Ht in Hf. specialize (Hv Hn). destruct v; naive_solver. Qed.

End fits.

(** The kinds of all columns of a row. *)
Ltac column_kinds H :=
  unfold row_typed in H; destruct H as [_ H]; cbv [test_runs test_results vms_table required col c_name] in H; rewrite !Forall_cons in H;
  repeat match type of H with
  | fits _ _ ∧ _ =>
    let H1 := fresh "Hk" in destruct H as [H1 H];
    first [ destruct (fits_text _ _ H1 eq_refl eq_refl) as [? ?]
          | destruct (fits_text_or _ _ H1 eq_refl) as [? ?]
          | destruct (fits_int _ _ H1 ltac:(by (left + right)) eq_refl) as [? ?]
          | destruct (fits_time _ _ H1 eq_refl eq_refl) as [? ?]
          | destruct (fits_time_or _ _ H1 eq_refl) as [? ?]
          | destruct (fits_json _ _ H1 eq_refl eq_refl) as [? ?] ]; clear H1
  end.

Lemma scan_time_ptr_or o :
  scan_time_ptr (match o with Some t => VTime t | None => VNull end) = Some ((λ us, us * 1000) <$> o).
Proof. by destruct o. Qed.

Definition whole (ns : Z) : Z := ns / 1000 * 1000.

Lemma scan_time_ptr_nullable t : scan_time_ptr (nullable_time t) = Some (whole <$> t).
Proof. by destruct t. Qed.

Lemma or_text_nullable s : or_text (nullableStr s) = VText s.
Proof. unfold nullableStr. by case_decide; subst. Qed.

Lemma TestRunStatus_of_string st : TestRunStatus_of (TestRunStatus_string st) = st.
Proof. by destruct st. Qed.
Lemma VMStatus_of_string st : VMStatus_of (VMStatus_string st) = st.
Proof. by destruct st. Qed.
Lemma AgentStatus_of_string st : AgentStatus_of (AgentStatus_string st) = st.
Proof. by destruct st. Qed.
Lemma TestCategory_of_string c : TestCategory_of (TestCategory_string c) = c.
Proof. by destruct c. Qed.

(** [Scan] of a row whose columns are known. *)
Ltac scan_columns :=
  repeat match goal with
  | E : column_of ?r ?c = _ |- context [column_of ?r ?c] => rewrite E
  | E : or_text (column_of ?r ?c) = _ |- context [or_text (column_of ?r ?c)] => rewrite E
  | E : scan_json ?o ?d ?z ?v = _ |- context [scan_json ?o ?d ?z ?v] => rewrite E
  end;
  rewrite ?or_text_nullable;
  cbn [text_of scan_int scan_time scan_json mbind option_bind or_text];
  rewrite ?scan_time_ptr_or, ?scan_time_ptr_nullable; cbn [mbind option_bind];
  rewrite ?TestRunStatus_of_string, ?VMStatus_of_string, ?AgentStatus_of_string, ?TestCategory_of_string.

Section readers.
Context {W : Type} `{!Database W}.

Definition read_run (r : row) : option TestRun := scan_run jsonb_out (run_values r).
Definition read_result (r : row) : option TestResult := scan_result jsonb_out (result_values r).
Definition read_vm (r : row) : option VMInstance := scan_vm jsonb_out (vm_values r).

End readers.

Definition bare (cols : list column) : table := mkTable cols ∅.

Lemma coerce_nullable s : coerce TEXT (nullableStr s) = Some (nullableStr s).
Proof. unfold nullableStr. by case_decide. Qed.

Lemma coerce_nullable_time t : coerce TIMESTAMPTZ (nullable_time t) = Some (nullable_time t).
Proof. by destruct t. Qed.

(** The columns that [set_columns] sets, one hypothesis each. *)
Ltac written_from H Hnd i :=
  first [ let E := fresh "Hw" in
          pose proof (set_columns_at _ _ _ _ i _ _ H Hnd eq_refl) as E;
          erewrite coerce_col in E by reflexivity; cbn [c_type required col prod_map fst snd id] in E;
          rewrite ?coerce_nullable, ?coerce_nullable_time in E; cbn [coerce] in E; written_from H Hnd (S i)
        | idtac ].
Ltac written H :=
  let Hnd := fresh "Hnd" in
  match type of H with set_columns _ ?cvs _ = _ =>
    assert (Hnd : NoDup cvs.*1) by (cbn [fmap list_fmap fst zip zip_with]; apply (bool_decide_unpack _); vm_compute; exact I)
  end;
  written_from H Hnd 0%nat; simplify_eq; clear Hnd;
  repeat match goal with E : _ = column_of _ _ |- _ => symmetry in E end.

(** A column it does not set. *)
Ltac untouched H c :=
  let E := fresh "Hu" in
  match type of H with set_columns _ ?cvs ?old = Some ?r =>
    assert (E : column_of r c = column_of old c) by (apply (set_columns_other _ _ _ _ c H); cbn [fmap list_fmap fst];
      apply (bool_decide_unpack _); vm_compute; exact I)
  end.

Ltac untouched_cols H l :=
  match l with
  | [] => idtac
  | ?c :: ?l' => try untouched H c; untouched_cols H l'
  end.

(** The row after an update, from the row before. *)
Ltac updated_row Hrow Hread Hset cols :=
  column_kinds Hrow; unfold read_run, run_values, scan_run, read_vm, vm_values, scan_vm in Hread; revert Hread; scan_columns;
  intros [= <-]; written Hset;
  let l := eval cbv in (c_name <$> cols) in untouched_cols Hset l;
  unfold read_run, run_values, scan_run, read_vm, vm_values, scan_vm; scan_columns.

Section store.
Context {W : Type} `{!Database W, !Runtime W} {FT : FloatText} {NS : NilSlices} `{!DatabaseLaws W}.

Lemma read_run_typed id r : row_typed test_runs id r → ∃ run, read_run r = Some run ∧ tr_ID run = id.
Proof.
  intros Hrow. pose proof (proj1 Hrow) as Hid. column_kinds Hrow. unfold read_run, run_values, scan_run. scan_columns.
  eexists. split; [done|]. simpl. congruence.
Qed.

Lemma read_result_typed id r : row_typed test_results id r → ∃ res, read_result r = Some res ∧ res_ID res = id.
Proof.
  intros Hrow. pose proof (proj1 Hrow) as Hid. column_kinds Hrow. unfold read_result, result_values, scan_result. scan_columns.
  eexists. split; [done|]. simpl. congruence.
Qed.

Lemma read_vm_typed id r : row_typed vms_table id r → ∃ v, read_vm r = Some v ∧ vm_ID v = id.
Proof.
  intros Hrow. pose proof (proj1 Hrow) as Hid. column_kinds Hrow. unfold read_vm, vm_values, scan_vm. scan_columns.
  eexists. split; [done|]. simpl. congruence.
Qed.

(** ** What the tables hold *)

Definition rows_of (db : database) (name : string) : gmap string row :=
  match db !! name with Some t => t_rows t | None => ∅ end.

Definition runs_of (db : database) : gmap string TestRun := omap read_run (rows_of db "test_runs").
Definition results_of (db : database) : gmap string TestResult := omap read_result (rows_of db "test_results").
Definition vms_of (db : database) : gmap string VMInstance := omap read_vm (rows_of db "vms").

Lemma rows_typed db name cols id r :
  sound db → has_columns db name cols → rows_of db name !! id = Some r → row_typed cols id r.
Proof.
  intros [Hty _] Hc Hr. unfold has_columns, rows_of in *. destruct (db !! name) as [t|] eqn:E; [|done].
  injection Hc as <-. by apply (Hty name t E).
Qed.

(** The runs of the tables have their keys, and every row is a run. *)
Lemma runs_key db id run : schema db → runs_of db !! id = Some run → tr_ID run = id.
Proof.
  intros Hdb. unfold runs_of. rewrite lookup_omap. intros (r & Hr & Hx)%bind_Some.
  destruct (read_run_typed id r) as (run' & E & <-); [by eapply rows_typed; [apply Hdb..|]|congruence].
Qed.

Lemma vms_key db id v : schema db → vms_of db !! id = Some v → vm_ID v = id.
Proof.
  intros Hdb. unfold vms_of. rewrite lookup_omap. intros (r & Hr & Hx)%bind_Some.
  destruct (read_vm_typed id r) as (v' & E & <-); [by eapply rows_typed; [apply Hdb..|]|congruence].
Qed.

(** ** Statements *)

Lemma select_spec db exprs name where_ order limit offset args a db' :
  allowed db (Select exprs name where_ order limit offset) args a db' →
  db' = db ∧ ∃ l, l ≡ₚ (map_to_list (filter (λ kr, matches args where_ kr.2 = true) (rows_of db name))).*2 ∧
    ordered order l = true ∧
    mapM (λ r, mapM (eval args r) exprs) (page (count_arg args limit) (count_arg args offset) l) = Some (a_rows a).
Proof.
  intros (ch & Hlegal & Hr). simpl in Hr. unfold rows_of. destruct (db !! name) as [t|] eqn:Et; [|done]. simpl in Hr.
  specialize (Hlegal name t eq_refl Et). case_match eqn:Eo; [|done]. destruct (mapM _ _) as [rows|] eqn:Em; [|done].
  injection Hr as <- <-. split; [done|]. eexists. split_and!; [|exact Eo|exact Em].
  rewrite map_to_list_filter_perm, (map_range_permutation _ _ Hlegal).
  induction (map_to_list (t_rows t)) as [|[k r] l IH]; [done|]. csimpl. rewrite !filter_cons. simpl.
  case_decide; csimpl; by rewrite IH.
Qed.

(** An update of the row with one key. *)
Lemma matches_id db name cols id r args n where_ :
  sound db → has_columns db name cols → rows_of db name !! id = Some r →
  args !! pred n = Some (VText where_) → matches args [ColEq "id" n] r = bool_decide (id = where_).
Proof.
  intros Hs Hc Hr Ha. destruct (rows_typed _ _ _ _ _ Hs Hc Hr) as [Hid _]. unfold matches. simpl. by rewrite Hid, Ha, andb_true_r.
Qed.

Lemma filter_id db name cols args n id :
  sound db → has_columns db name cols → args !! pred n = Some (VText id) →
  filter (λ kr, matches args [ColEq "id" n] kr.2 = true) (rows_of db name) =
  match rows_of db name !! id with Some r => {[id := r]} | None => ∅ end.
Proof.
  intros Hs Hc Ha. apply map_eq. intros k. apply option_eq. intros r. rewrite map_lookup_filter_Some. cbn [snd].
  assert (Hm : rows_of db name !! k = Some r → matches args [ColEq "id" n] r = true ↔ k = id).
  { intros Hk. by rewrite (matches_id _ _ _ _ _ _ _ _ Hs Hc Hk Ha), bool_decide_eq_true. }
  destruct (rows_of db name !! id) as [r'|] eqn:E; rewrite ?lookup_singleton_Some, ?lookup_empty; naive_solver.
Qed.

Lemma update_spec db name cols sets n id args a db' :
  sound db → has_columns db name cols → args !! pred n = Some (VText id) →
  allowed db (Update name sets [ColEq "id" n]) args a db' →
  (∀ name', name' ≠ name → db' !! name' = db !! name') ∧
  match rows_of db name !! id with
  | None => a_affected a = 0%nat ∧ rows_of db' name = rows_of db name
  | Some r => a_affected a = 1%nat ∧ ∃ vs r', mapM (eval args r) sets.*2 = Some vs ∧
      set_columns (bare cols) (zip sets.*1 vs) r = Some r' ∧ rows_of db' name = <[id := r']> (rows_of db name)
  end.
Proof.
  intros Hs Hc Ha (ch & _ & Hr). pose proof (filter_id _ _ _ _ _ _ Hs Hc Ha) as Hf.
  assert (Hm : ∀ k r, rows_of db name !! k = Some r → matches args [ColEq "id" n] r = bool_decide (k = id)).
  { intros k r Hk. by eapply matches_id. }
  cbn [run_sql] in Hr. unfold has_columns, rows_of in *. destruct (db !! name) as [[cols' rows]|] eqn:Et; [|done].
  injection Hc as ->. cbn [mbind option_bind t_rows] in *. case_decide as Hall; [|done]. injection Hr as <- <-. cbn [a_affected].
  split; [intros name' Hn; by rewrite lookup_insert_ne|]. rewrite lookup_insert_eq. cbn [set_rows t_rows]. rewrite Hf. clear Hf.
  set (upd := update_row _ _ _ _ _) in *.
  assert (Hout : ∀ k r, k ≠ id → rows !! k = Some r → upd r = Some r).
  { intros k r Hne Hk. unfold upd, update_row. by rewrite (Hm _ _ Hk), bool_decide_false. }
  destruct (rows !! id) as [r|] eqn:Er.
  - rewrite map_size_singleton. split; [done|]. destruct (Hall _ _ Er) as [r' Hu].
    assert (Hrows : omap upd rows = <[id := r']> rows).
    { apply map_eq. intros k. rewrite lookup_omap, lookup_insert. case_decide as Hk; [subst; by rewrite Er|].
      destruct (rows !! k) as [x|] eqn:Ek; [|done]. simpl. by eapply Hout. }
    unfold upd, update_row in Hu. rewrite (Hm _ _ Er), bool_decide_true in Hu by done. cbn [t_columns] in Hu.
    destruct (mapM (eval args r) sets.*2) as [vs|]; [|done]. cbn [mbind option_bind] in Hu. exists vs.
    destruct (set_columns _ (zip sets.*1 vs) r) as [r1|] eqn:Es; [|done]. cbn [mbind option_bind] in Hu.
    case_match; [|done]. injection Hu as ->. exists r'. split_and!; [done|done|exact Hrows].
  - split; [done|]. apply map_eq. intros k. rewrite lookup_omap. destruct (rows !! k) as [x|] eqn:Ek; [|done]. simpl.
    eapply Hout; [|exact Ek]. intros ->. congruence.
Qed.

Lemma insert_spec db name cols names vals conflict returning args a db' :
  has_columns db name cols → allowed db (Insert name names vals conflict returning) args a db' →
  (∀ name', name' ≠ name → db' !! name' = db !! name') ∧
  ∃ ch vs r id r', mapM (eval args ∅) vals = Some vs ∧
    set_columns (bare cols) (zip names vs) (default_row ch (bare cols)) = Some r ∧ column_of r "id" = VText id ∧
    rows_of db' name = <[id := r']> (rows_of db name) ∧ a = mkAnswer [column_of r' <$> returning] 1 ∧
    forallb (satisfies db r') cols = true ∧
    match rows_of db name !! id with
    | None => r' = r
    | Some old => ∃ cs, conflict = Some cs ∧ r' = foldl (λ o c, <[c := column_of r c]> o) old cs
    end.
Proof.
  intros Hc (ch & _ & Hr). cbn [run_sql] in Hr. unfold has_columns, rows_of in *.
  destruct (db !! name) as [[cols' rows]|] eqn:Et; [|done]. injection Hc as ->. cbn [mbind option_bind] in Hr.
  destruct (mapM (eval args ∅) vals) as [vs|] eqn:Ev; [|done]. cbn [mbind option_bind] in Hr.
  destruct (set_columns _ _ _) as [r|] eqn:Es; [|done]. cbn [mbind option_bind] in Hr.
  apply insert_row_spec in Hr as (id & r' & Hid & -> & -> & Hsat & Hold).
  split; [intros name' Hn; by rewrite lookup_insert_ne|]. rewrite lookup_insert_eq.
  exists ch, vs, r, id, r'. split_and!; done.
Qed.

(** ** The pool *)

Definition perhaps (db : database) (q : statement) (args : list value) (db' : database) : Prop :=
  db' = db ∨ ∃ a, allowed db q args a db'.

Lemma Exec_outcome c q args w r w' :
  PostgresStore.Exec c q args w = Done (r, w') →
  match r with
  | Ok n => ∃ a, allowed (pool_tables w) q args a (pool_tables w') ∧ n = a_affected a
  | Err _ => perhaps (pool_tables w) q args (pool_tables w')
  end.
Proof.
  unfold PostgresStore.Exec, mbind, M_bind. destruct (pool_Do c q args w) as [[[[a e]|e] w1]|] eqn:E; [| |done].
  - intros [= <- <-]. destruct (do_ok _ _ _ _ _ _ _ E) as (a' & Ha & He). destruct e as [e|]; simpl; [right; eauto|].
    rewrite He by done. eauto.
  - intros [= <- <-]. by apply (do_err _ _ _ _ _ _ E).
Qed.

Lemma QueryRow_outcome {A : Type} (scan : list value → option A) c q args w r w' :
  PostgresStore.QueryRow scan c q args w = Done (r, w') →
  match r with
  | Ok o => ∃ a, allowed (pool_tables w) q args a (pool_tables w') ∧
      match a_rows a with [] => o = None | v :: _ => is_Some o ∧ scan v = o end
  | Err _ => perhaps (pool_tables w) q args (pool_tables w')
  end.
Proof.
  unfold PostgresStore.QueryRow, mbind, M_bind. destruct (pool_Do c q args w) as [[[[a e]|e] w1]|] eqn:E; [| |done].
  - intros [= <- <-]. destruct (do_ok _ _ _ _ _ _ _ E) as (a' & Ha & He). destruct e as [e|]; simpl; [right; eauto|].
    rewrite He in * by done. destruct (a_rows a') as [|v l] eqn:El; simpl; [exists a'; by rewrite El|].
    destruct (scan v) eqn:Es; simpl; [exists a'; rewrite El; eauto|right; eauto].
  - intros [= <- <-]. by apply (do_err _ _ _ _ _ _ E).
Qed.

Lemma scan_rows_ok {A : Type} (scan : list value → option A) what rows e xs :
  PostgresStore.scan_rows scan what rows e = Ok xs → e = None ∧ mapM scan rows = Some xs.
Proof.
  revert xs. induction rows as [|v rows IH]; intros xs; simpl; [destruct e; naive_solver|].
  destruct (scan v) as [x|]; [|done]. destruct (PostgresStore.scan_rows scan what rows e) as [ys|]; [|done].
  intros [= <-]. destruct (IH ys eq_refl) as [-> ->]. done.
Qed.

Lemma Query_outcome {A : Type} (scan : list value → option A) qw sw c q args w r w' :
  PostgresStore.Query scan qw sw c q args w = Done (r, w') →
  match r with
  | Ok xs => ∃ a, allowed (pool_tables w) q args a (pool_tables w') ∧ mapM scan (a_rows a) = Some xs
  | Err _ => perhaps (pool_tables w) q args (pool_tables w')
  end.
Proof.
  unfold PostgresStore.Query, mbind, M_bind. destruct (pool_Do c q args w) as [[[[a e]|e] w1]|] eqn:E; [| |done].
  - intros [= <- <-]. destruct (do_ok _ _ _ _ _ _ _ E) as (a' & Ha & He).
    destruct (PostgresStore.scan_rows scan sw (a_rows a) e) as [xs|] eqn:Er; simpl; [|right; eauto].
    apply scan_rows_ok in Er as [-> Er]. rewrite He in * by done. eauto.
  - intros [= <- <-]. by apply (do_err _ _ _ _ _ _ E).
Qed.

(** A read leaves the tables as they are. *)
Lemma perhaps_select db exprs name where_ order limit offset args db' :
  perhaps db (Select exprs name where_ order limit offset) args db' → db' = db.
Proof. by intros [?|(a & [? _]%select_spec)]. Qed.

Lemma perhaps_schema db q args db' : perhaps db q args db' → statement_ok q → schema db → schema db'.
Proof. intros [->|(a & Ha)] Hq Hdb; [done|by eapply allowed_schema]. Qed.

(** ** The schema is kept *)

(** A computation that keeps the schema. *)
Definition keeps_schema {A : Type} (c : M W A) : Prop :=
  ∀ w r w', c w = Done (r, w') → schema (pool_tables w) → schema (pool_tables w').

Lemma keeps_schema_bind {A B : Type} (c : M W A) (k : A → M W B) :
  keeps_schema c → (∀ a, keeps_schema (k a)) → keeps_schema (c ≫= k).
Proof.
  intros Hc Hk w r w' E Hw. unfold mbind, M_bind in E. destruct (c w) as [[a w1]|] eqn:E1; [|done].
  eapply Hk; [exact E|]. by eapply Hc.
Qed.

Lemma keeps_schema_tables {A : Type} (c : M W A) : Keeps pool_tables c → keeps_schema c.
Proof. intros Hc w r w' E Hw. by rewrite (keeps pool_tables c _ _ _ E). Qed.

Lemma keeps_schema_Do c q args : statement_ok q → keeps_schema (pool_Do c q args).
Proof.
  intros Hq w [[a e]|e] w' E Hw.
  - destruct (do_ok _ _ _ _ _ _ _ E) as (a' & Ha & _). by eapply allowed_schema.
  - eapply (perhaps_schema _ q args); [by apply (do_err _ _ _ _ _ _ E)|done..].
Qed.

Lemma ok_select exprs name where_ order limit offset : statement_ok (Select exprs name where_ order limit offset).
Proof. done. Qed.

Lemma ok_insert_run : statement_ok PostgresStore.insert_run.
Proof. done. Qed.

Lemma ok_insert_result : statement_ok PostgresStore.insert_result.
Proof. done. Qed.

Lemma ok_insert_vm : statement_ok PostgresStore.insert_vm.
Proof. split; [|done]. apply (bool_decide_unpack _). vm_compute. exact I. Qed.

Lemma ok_update_status now id st msg : statement_ok (PostgresStore.update_status now id st msg).1.
Proof. split; destruct st; try done; apply (bool_decide_unpack _); vm_compute; exact I. Qed.

Lemma ok_update_vm : statement_ok (Update "vms" [("status", Arg 1)] [ColEq "id" 2]).
Proof. split; [|done]. apply (bool_decide_unpack _). vm_compute. exact I. Qed.

Lemma ok_delete_vm : statement_ok (Delete "vms" [ColEq "id" 1]).
Proof. done. Qed.

Lemma ok_ddl : statement_ok ddl.
Proof.
  split; [done|]. pose proof schema_columns as Hs. rewrite !Forall_cons in Hs.
  repeat (apply Forall_cons_2; [apply Hs|]). apply Forall_nil_2.
Qed.

Lemma keeps_schema_Exec c q args : statement_ok q → keeps_schema (PostgresStore.Exec c q args).
Proof. intros Hq. apply keeps_schema_bind; [by apply keeps_schema_Do|]. intros a. apply keeps_schema_tables, _. Qed.

Lemma keeps_schema_QueryRow {A : Type} (scan : list value → option A) c q args :
  statement_ok q → keeps_schema (PostgresStore.QueryRow scan c q args).
Proof. intros Hq. apply keeps_schema_bind; [by apply keeps_schema_Do|]. intros a. apply keeps_schema_tables, _. Qed.

Lemma keeps_schema_Query {A : Type} (scan : list value → option A) qw sw c q args :
  statement_ok q → keeps_schema (PostgresStore.Query scan qw sw c q args).
Proof. intros Hq. apply keeps_schema_bind; [by apply keeps_schema_Do|]. intros a. apply keeps_schema_tables, _. Qed.

Hint Resolve ok_select ok_insert_run ok_insert_result ok_insert_vm ok_update_status ok_update_vm ok_delete_vm ok_ddl : statements.

Ltac solve_schema :=
  repeat first
    [ apply keeps_schema_tables; apply _
    | apply keeps_schema_Exec; solve [auto with statements]
    | apply keeps_schema_QueryRow; solve [auto with statements]
    | apply keeps_schema_Query; solve [auto with statements]
    | apply keeps_schema_bind; [|intros ?]
    | case_decide ].

Lemma list_runs_shape req :
  ∃ where_ limit offset args,
    PostgresStore.list_runs req = (Select run_exprs "test_runs" where_ (Some ("created_at", true)) limit offset, args).
Proof. unfold PostgresStore.list_runs. repeat case_match. eauto. Qed.

Lemma list_vms_shape req :
  ∃ where_ args, PostgresStore.list_vms req = (Select vm_exprs "vms" where_ (Some ("created_at", true)) None None, args).
Proof. unfold PostgresStore.list_vms. case_match. eauto. Qed.

Lemma ensureSchema_creates c w w' :
  sound (pool_tables w) → (∀ name, name ∈ ["test_runs"; "test_results"; "vms"] → pool_tables w !! name = None) →
  PostgresStore.ensureSchema c w = Done (Ok tt, w') → schema (pool_tables w').
Proof.
  intros Hs Hn. unfold PostgresStore.ensureSchema, mbind, M_bind.
  destruct (PostgresStore.Exec c ddl [] w) as [[[n|e] w1]|] eqn:E; try done. intros [= <-].
  apply Exec_outcome in E as (a & Ha & _). pose proof (allowed_sound _ _ _ _ _ Ha Hs ok_ddl) as Hs'.
  destruct Ha as (ch & _ & [= _ Hdb]). rewrite (Hn "test_runs") in Hdb by set_solver. simpl in Hdb.
  rewrite lookup_insert_ne, (Hn "test_results") in Hdb by (done || set_solver). simpl in Hdb.
  rewrite !lookup_insert_ne, (Hn "vms") in Hdb by (done || set_solver).
  split; [done|..]; unfold has_columns; rewrite <- Hdb; by simplify_map_eq.
Qed.

(** On a server that has them, the tables stay as they are. *)
Lemma ensureSchema_leaves c w r w' :
  schema (pool_tables w) → PostgresStore.ensureSchema c w = Done (r, w') → pool_tables w' = pool_tables w.
Proof.
  intros [_ H1 H2 H3]. unfold has_columns in *. unfold PostgresStore.ensureSchema, mbind, M_bind.
  assert (Hrun : ∀ a db', allowed (pool_tables w) ddl [] a db' → db' = pool_tables w).
  { intros a db' (ch & _ & [= _ <-]). destruct (pool_tables w !! "test_runs"); [|done].
    destruct (pool_tables w !! "test_results"); [|done]. by destruct (pool_tables w !! "vms"). }
  destruct (PostgresStore.Exec c ddl [] w) as [[[n|e] w1]|] eqn:E; try done; intros [= <- <-]; apply Exec_outcome in E.
  - destruct E as (a & Ha & _). by eapply Hrun.
  - destruct E as [E|(a & Ha)]; [done|by eapply Hrun].
Qed.

Lemma keeps_schema_update_run c id st msg : keeps_schema (PostgresStore.UpdateTestRunStatus c id st msg).
Proof.
  apply keeps_schema_bind; [apply keeps_schema_tables, _|]. intros now. pose proof (ok_update_status now id st msg) as Hq.
  destruct (PostgresStore.update_status now id st msg) as [q args]. apply keeps_schema_bind; [by apply keeps_schema_Exec|].
  intros a. apply keeps_schema_tables, _.
Qed.

Lemma keeps_schema_update_vm c id st : keeps_schema (PostgresStore.UpdateVMStatus c id st).
Proof. unfold PostgresStore.UpdateVMStatus. solve_schema. Qed.

Lemma keeps_schema_ensure c : keeps_schema (PostgresStore.ensureSchema c).
Proof. unfold PostgresStore.ensureSchema. solve_schema. Qed.

Lemma keeps_schema_create c run : keeps_schema (PostgresStore.CreateTestRun c run).
Proof. unfold PostgresStore.CreateTestRun. solve_schema. Qed.

Lemma keeps_schema_save_result c res : keeps_schema (PostgresStore.SaveTestResult c res).
Proof. unfold PostgresStore.SaveTestResult. solve_schema. Qed.

Lemma keeps_schema_save_vm c v : keeps_schema (PostgresStore.SaveVM c v).
Proof. unfold PostgresStore.SaveVM. solve_schema. Qed.

(** [ensureSchema] on a server without the tables creates the schema, and
    every method of the store, whatever it answers, keeps it: the three tables
    have their columns, and every row has a value of the right type in every
    column, none missing where it is required, under the key it names. *)
Theorem store_keeps_schema :
  (∀ c w w', sound (pool_tables w) → (∀ name, name ∈ ["test_runs"; "test_results"; "vms"] → pool_tables w !! name = None) →
     PostgresStore.ensureSchema c w = Done (Ok tt, w') → schema (pool_tables w')) ∧
  (∀ c, keeps_schema (PostgresStore.ensureSchema c)) ∧
  (∀ c run, keeps_schema (PostgresStore.CreateTestRun c run)) ∧ (∀ c id, keeps_schema (PostgresStore.GetTestRun c id)) ∧
  (∀ c id st msg, keeps_schema (PostgresStore.UpdateTestRunStatus c id st msg)) ∧
  (∀ c req, keeps_schema (PostgresStore.ListTestRuns c req)) ∧ (∀ c, keeps_schema (PostgresStore.ListRunningTestRuns c)) ∧
  (∀ c res, keeps_schema (PostgresStore.SaveTestResult c res)) ∧ (∀ c id, keeps_schema (PostgresStore.GetTestResults c id)) ∧
  (∀ c v, keeps_schema (PostgresStore.SaveVM c v)) ∧ (∀ c id, keeps_schema (PostgresStore.GetVM c id)) ∧
  (∀ c id st, keeps_schema (PostgresStore.UpdateVMStatus c id st)) ∧ (∀ c req, keeps_schema (PostgresStore.ListVMs c req)) ∧
  (∀ c id, keeps_schema (PostgresStore.DeleteVM c id)) ∧ (∀ c, keeps_schema (PostgresStore.ListOrphanedVMs c)) ∧
  (∀ c, keeps_schema (PostgresStore.Ping c)).
Proof.
  split; [exact ensureSchema_creates|]. split_and!; intros;
    unfold PostgresStore.GetTestRun, PostgresStore.ListRunningTestRuns, PostgresStore.GetTestResults,
    PostgresStore.GetVM, PostgresStore.DeleteVM, PostgresStore.ListOrphanedVMs, PostgresStore.Ping;
    first [apply keeps_schema_ensure | apply keeps_schema_create | apply keeps_schema_save_result | apply keeps_schema_save_vm | apply keeps_schema_update_run
          | apply keeps_schema_update_vm | solve [solve_schema] | idtac].
  - unfold PostgresStore.ListTestRuns. destruct (list_runs_shape req) as (? & ? & ? & ? & ->). solve_schema.
  - unfold PostgresStore.ListVMs. destruct (list_vms_shape req) as (? & ? & ->). solve_schema.
Qed.

(** ** Values that are written *)

(** The strings of a [jsonb] column. *)
Lemma strings_back isnil l :
  Forall valid_string l →
  ∃ j, parse (strings_text isnil l) = Ok j ∧ scan_json jsonb_out dec_strings [] (VJson j) = Some l.
Proof.
  intros Hl. assert (Hback : ∀ j j', parse (jsonb_out j) = Ok j' → dec_strings at_top j' [] = Ok l →
    scan_json jsonb_out dec_strings [] (VJson j) = Some l).
  { intros j j' Hp Hd. cbn [scan_json]. rewrite decide_False by (intros E; by rewrite E in Hp).
    unfold Unmarshal. by rewrite Hp; simpl; rewrite Hd. }
  unfold strings_text. case_decide as Hnil.
  - destruct Hnil as [-> _]. exists JNull. split; [done|]. destruct (jsonb_law 0 JNull I ltac:(lia) I) as (j' & Hp & Hs).
    apply (Hback _ j'); [done|]. by destruct j'.
  - exists (JArr (JStr <$> l)). split; [by apply parse_strings|].
    destruct (jsonb_law 1 (JArr (JStr <$> l))) as (j' & Hp & Hs).
    { cbn [printable]. by apply Forall_fmap. }
    { lia. }
    { cbn [jsonb_keeps]. clear. by induction l. }
    apply (Hback _ j'); [done|]. destruct j' as [| | | |l2|]; try done.
    assert (l2 = JStr <$> l) as ->.
    { cbn [same_json] in Hs. clear -Hs. revert l2 Hs. induction l as [|x l IH]; intros [|y l2]; try done. cbn.
      intros [Hy Hs]. rewrite (IH l2 Hs). by destruct y; simplify_eq. }
    unfold dec_strings. rewrite (dec_slice_ok _ _ _ id) by (by apply Forall_forall). by rewrite list_fmap_id.
Qed.

Lemma inserted_run ch device suite status vm priority us by_ isnil tags message r :
  Forall valid_string tags →
  set_columns (bare test_runs)
    (zip ["device_id"; "test_suite_id"; "status"; "vm_id"; "priority"; "created_at"; "requested_by"; "tags"; "error_message"]
       [VText device; VText suite; VText (TestRunStatus_string status); nullableStr vm; VInt priority; VTime us;
        nullableStr by_; VText (strings_text isnil tags); nullableStr message]) (default_row ch (bare test_runs)) = Some r →
  column_of r "id" = VText (ch_uuid ch) ∧ column_of r "created_at" = VTime us ∧
  read_run r = Some (mkTestRun (ch_uuid ch) device suite status vm priority (us * 1000)
    None None 0 by_ tags message).
Proof.
  intros Htags Hset. destruct (strings_back isnil tags Htags) as (j & Hp & Hj). cbn [zip zip_with] in Hset.
  written Hset.
  untouched Hset "id". untouched Hset "started_at". untouched Hset "completed_at". untouched Hset "duration_ms".
  change (column_of (default_row ch (bare test_runs)) "id") with (VText (ch_uuid ch)) in Hu.
  change (column_of (default_row ch (bare test_runs)) "started_at") with VNull in Hu0.
  change (column_of (default_row ch (bare test_runs)) "completed_at") with VNull in Hu1.
  change (column_of (default_row ch (bare test_runs)) "duration_ms") with (VInt 0) in Hu2.
  rewrite Hp in Hw6. injection Hw6 as Hw6. symmetry in Hw6. split_and!; [done..|].
  unfold read_run, run_values, scan_run. by scan_columns.
Qed.

(** ** Test runs *)

Definition same_but (name : string) (db db' : database) : Prop := ∀ name', name' ≠ name → db' !! name' = db !! name'.

(** The tables differ in at most one, whose entries are given. *)
Definition only_runs (db db' : database) (runs : gmap string TestRun) : Prop :=
  runs_of db' = runs ∧ results_of db' = results_of db ∧ vms_of db' = vms_of db.

Lemma only_runs_intro db db' id run r :
  same_but "test_runs" db db' → rows_of db' "test_runs" = <[id := r]> (rows_of db "test_runs") → read_run r = Some run →
  only_runs db db' (<[id := run]> (runs_of db)).
Proof.
  intros Hb Hr Hx. unfold only_runs, runs_of, results_of, vms_of. rewrite Hr. split_and!; [by apply omap_insert_Some|..];
    unfold rows_of; by rewrite Hb.
Qed.

Lemma only_runs_refl db : only_runs db db (runs_of db).
Proof. done. Qed.

(** The run that [CreateTestRun] makes of its argument, and its row. *)
Definition created_run (id : string) (us : Z) (run : TestRun) : TestRun :=
  mkTestRun id (tr_DeviceID run) (tr_TestSuiteID run)
    (if decide (tr_Status run = TestRunStatusUnset) then TestRunStatusPending else tr_Status run) (tr_VMID run)
    (tr_Priority run) (us * 1000) (tr_StartedAt run) (tr_CompletedAt run) (tr_DurationMs run) (tr_RequestedBy run)
    (tr_Tags run) (tr_ErrorMessage run).

Definition new_row (run : TestRun) : TestRun :=
  mkTestRun (tr_ID run) (tr_DeviceID run) (tr_TestSuiteID run) (tr_Status run) (tr_VMID run) (tr_Priority run)
    (tr_CreatedAt run) None None 0 (tr_RequestedBy run) (tr_Tags run) (tr_ErrorMessage run).

Definition creates (run : TestRun) (db : database) (run' : TestRun) (db' : database) : Prop :=
  runs_of db !! tr_ID run' = None ∧ run' = created_run (tr_ID run') (tr_CreatedAt run' / 1000) run ∧
  only_runs db db' (<[tr_ID run' := new_row run']> (runs_of db)).

Lemma insert_run_spec db now run a db' :
  schema db → Forall valid_string (tr_Tags run) →
  allowed db PostgresStore.insert_run
    [VText (tr_DeviceID run); VText (tr_TestSuiteID run);
     VText (TestRunStatus_string (if decide (tr_Status run = TestRunStatusUnset) then TestRunStatusPending else tr_Status run));
     nullableStr (tr_VMID run); VInt (tr_Priority run); time_arg now; nullableStr (tr_RequestedBy run);
     VText (strings_text (nil_tags run) (tr_Tags run)); nullableStr (tr_ErrorMessage run)] a db' →
  ∃ id, a = mkAnswer [[VText id; VTime (now / 1000)]] 1 ∧ creates run db (created_run id (now / 1000) run) db'.
Proof.
  intros Hdb Htags Ha. apply (insert_spec _ _ test_runs) in Ha; [|apply Hdb].
  destruct Ha as (Hb & ch & vs & r & id & r' & Hvs & Hset & Hid & Hrows & -> & _ & Hold).
  cbn in Hvs. injection Hvs as <-. unfold time_arg in Hset. apply inserted_run in Hset as (Hid' & Hcr & Hread); [|done].
  assert (id = ch_uuid ch) as -> by congruence.
  destruct (rows_of db "test_runs" !! ch_uuid ch) as [old|] eqn:Eo; [by destruct Hold as (cs & ? & _)|]. subst r'.
  exists (ch_uuid ch). cbn [fmap list_fmap]. rewrite Hid', Hcr. split; [done|]. unfold creates. cbn [created_run tr_ID tr_CreatedAt].
  rewrite Z.div_mul by done. split_and!; [by unfold runs_of; rewrite lookup_omap, Eo|done|].
  by eapply only_runs_intro.
Qed.

Lemma CreateTestRun_spec c run w r w' :
  schema (pool_tables w) → Forall valid_string (tr_Tags run) → PostgresStore.CreateTestRun c run w = Done (r, w') →
  match r with
  | Ok run' => creates run (pool_tables w) run' (pool_tables w')
  | Err _ => pool_tables w' = pool_tables w ∨ ∃ run', creates run (pool_tables w) run' (pool_tables w')
  end.
Proof.
  intros Hdb Htags. unfold PostgresStore.CreateTestRun. unfold mbind at 1, M_bind at 1.
  destruct (rt_Now w) as [[now w1]|] eqn:En; [|done]. pose proof (keeps pool_tables rt_Now _ _ _ En) as Hw1. rewrite <- Hw1 in *.
  unfold mbind at 1, M_bind at 1. destruct (PostgresStore.QueryRow _ _ _ _ w1) as [[o w2]|] eqn:E; [|done].
  apply QueryRow_outcome in E. intros [= <- <-]. destruct o as [o|e].
  - destruct E as (a & Ha & Ho). destruct (insert_run_spec _ _ _ _ _ Hdb Htags Ha) as (id & -> & Hc).
    simpl in Ho. destruct Ho as [_ <-]. done.
  - destruct E as [->|(a & Ha)]; [by left|]. right. destruct (insert_run_spec _ _ _ _ _ Hdb Htags Ha) as (id & _ & Hc). eauto.
Qed.

(** What [UpdateTestRunStatus] makes of a run. *)
Definition pg_update (now : Z) (st : TestRunStatus) (msg : string) (run : TestRun) : TestRun :=
  let base started completed duration :=
    mkTestRun (tr_ID run) (tr_DeviceID run) (tr_TestSuiteID run) st (tr_VMID run) (tr_Priority run) (tr_CreatedAt run)
      started completed duration (tr_RequestedBy run) (tr_Tags run) msg in
  match st with
  | TestRunStatusRunning => base (Some (whole now)) (tr_CompletedAt run) (tr_DurationMs run)
  | TestRunStatusPassed | TestRunStatusFailed | TestRunStatusErrored | TestRunStatusCancelled | TestRunStatusTimeout =>
    base (tr_StartedAt run) (Some (whole now))
      (round_thousandths (now / 1000 - default (tr_CreatedAt run) (tr_StartedAt run) / 1000))
  | _ => base (tr_StartedAt run) (tr_CompletedAt run) (tr_DurationMs run)
  end.

Lemma eval_nullif args r n s : args !! pred n = Some (VText s) → eval args r (Nullif (Arg n) (Lit "")) = Some (nullableStr s).
Proof. intros Ha. cbn [eval]. rewrite Ha. cbn. unfold nullableStr. by case_decide. Qed.

(** The three statements, on the row of a run. *)
Lemma status_row id r r' run st msg :
  row_typed test_runs id r → read_run r = Some run →
  set_columns (bare test_runs) [("status", VText (TestRunStatus_string st)); ("error_message", nullableStr msg)] r = Some r' →
  read_run r' = Some (mkTestRun (tr_ID run) (tr_DeviceID run) (tr_TestSuiteID run) st (tr_VMID run) (tr_Priority run)
    (tr_CreatedAt run) (tr_StartedAt run) (tr_CompletedAt run) (tr_DurationMs run) (tr_RequestedBy run) (tr_Tags run) msg).
Proof. intros Hrow Hread Hset. by updated_row Hrow Hread Hset test_runs. Qed.

Lemma started_row id r r' run st us msg :
  row_typed test_runs id r → read_run r = Some run →
  set_columns (bare test_runs)
    [("status", VText (TestRunStatus_string st)); ("started_at", VTime us); ("error_message", nullableStr msg)] r = Some r' →
  read_run r' = Some (mkTestRun (tr_ID run) (tr_DeviceID run) (tr_TestSuiteID run) st (tr_VMID run) (tr_Priority run)
    (tr_CreatedAt run) (Some (us * 1000)) (tr_CompletedAt run) (tr_DurationMs run) (tr_RequestedBy run) (tr_Tags run) msg).
Proof. intros Hrow Hread Hset. by updated_row Hrow Hread Hset test_runs. Qed.

Lemma finished_row id r r' run st us n msg :
  row_typed test_runs id r → read_run r = Some run →
  set_columns (bare test_runs)
    [("status", VText (TestRunStatus_string st)); ("completed_at", VTime us); ("duration_ms", VMillis n);
     ("error_message", nullableStr msg)] r = Some r' →
  read_run r' = Some (mkTestRun (tr_ID run) (tr_DeviceID run) (tr_TestSuiteID run) st (tr_VMID run) (tr_Priority run)
    (tr_CreatedAt run) (tr_StartedAt run) (Some (us * 1000)) (round_thousandths n) (tr_RequestedBy run) (tr_Tags run) msg).
Proof. intros Hrow Hread Hset. by updated_row Hrow Hread Hset test_runs. Qed.

(** The interval that becomes the duration. *)
Lemma eval_duration args id r run us :
  row_typed test_runs id r → read_run r = Some run → args !! 1%nat = Some (VTime us) →
  eval args r (EpochMs (Arg 2) (Coalesce (Col "started_at") (Col "created_at"))) =
  Some (VMillis (us - default (tr_CreatedAt run) (tr_StartedAt run) / 1000)).
Proof.
  intros Hrow Hread Ha. column_kinds Hrow. unfold read_run, run_values, scan_run in Hread. revert Hread. scan_columns.
  intros [= <-]. cbn [eval pred]. rewrite Ha. cbn [mbind option_bind tr_StartedAt tr_CreatedAt].
  scan_columns. match goal with |- context [match ?o with Some t => VTime t | None => VNull end] => destruct o as [us'|] end;
    simpl; by rewrite Z.div_mul.
Qed.

Lemma updated_run now id st msg r r' vs run sets where_ args :
  PostgresStore.update_status now id st msg = (Update "test_runs" sets where_, args) →
  row_typed test_runs id r → read_run r = Some run →
  mapM (eval args r) sets.*2 = Some vs → set_columns (bare test_runs) (zip sets.*1 vs) r = Some r' →
  read_run r' = Some (pg_update now st msg run).
Proof.
  intros Hst Hrow Hread Hvs Hset. unfold pg_update, whole.
  assert (Hd : ∀ args', args' !! 1%nat = Some (VTime (now / 1000)) → eval args' r _ = _) by (intros args'; by eapply eval_duration).
  destruct st; cbn [PostgresStore.update_status] in Hst; injection Hst as <- <- <-; cbn [fmap list_fmap fst snd] in *;
    (erewrite mapM_Some_2 in Hvs; [|repeat (apply Forall2_cons_2; [first [by apply eval_nullif | by apply Hd | reflexivity]|]);
       apply Forall2_nil_2]); injection Hvs as <-; cbn [zip zip_with] in Hset;
    first [by eapply status_row | by eapply started_row | by eapply finished_row].
Qed.

Lemma update_status_shape now id st msg :
  ∃ sets n args, PostgresStore.update_status now id st msg = (Update "test_runs" sets [ColEq "id" n], args) ∧
    args !! pred n = Some (VText id).
Proof. destruct st; eexists _, _, _; split; reflexivity. Qed.

Definition updates (now : Z) (id : string) (st : TestRunStatus) (msg : string) (db db' : database) : Prop :=
  ∃ run, runs_of db !! id = Some run ∧ only_runs db db' (<[id := pg_update now st msg run]> (runs_of db)).

(** The statement of [UpdateTestRunStatus]: the run is updated, or there is none. *)
Lemma update_run_spec now id st msg db a db' :
  schema db → allowed db (PostgresStore.update_status now id st msg).1 (PostgresStore.update_status now id st msg).2 a db' →
  (a_affected a = 1%nat ∧ updates now id st msg db db') ∨
  (a_affected a = 0%nat ∧ runs_of db !! id = None ∧ only_runs db db' (runs_of db)).
Proof.
  intros Hdb Ha. destruct (update_status_shape now id st msg) as (sets & n & args & Hq & Hn). rewrite Hq in Ha.
  destruct (update_spec _ _ test_runs _ _ _ _ _ _ (sc_sound _ Hdb) (sc_runs _ Hdb) Hn Ha) as [Hb Hr].
  destruct (rows_of db "test_runs" !! id) as [r|] eqn:Er.
  - left. destruct Hr as (Haff & vs & r' & Hvs & Hset & Hrows). split; [done|].
    pose proof (rows_typed _ _ _ _ _ (sc_sound _ Hdb) (sc_runs _ Hdb) Er) as Hrow.
    destruct (read_run_typed _ _ Hrow) as (run & Hread & _). exists run. split; [by unfold runs_of; rewrite lookup_omap, Er|].
    eapply only_runs_intro; [done..|]. by eapply updated_run.
  - right. destruct Hr as [Haff Hrows]. split_and!; [done|by unfold runs_of; rewrite lookup_omap, Er|].
    unfold only_runs, runs_of, results_of, vms_of. rewrite Hrows. split_and!; [done|..]; unfold rows_of; by rewrite Hb.
Qed.

Lemma pg_UpdateTestRunStatus_spec c id st msg w r w' :
  schema (pool_tables w) → PostgresStore.UpdateTestRunStatus c id st msg w = Done (r, w') →
  ∃ now, match r with
  | Ok _ => updates now id st msg (pool_tables w) (pool_tables w')
  | Err _ => only_runs (pool_tables w) (pool_tables w') (runs_of (pool_tables w)) ∨
             updates now id st msg (pool_tables w) (pool_tables w')
  end.
Proof.
  intros Hdb. unfold PostgresStore.UpdateTestRunStatus. unfold mbind at 1, M_bind at 1.
  destruct (rt_Now w) as [[now w1]|] eqn:En; [|done]. pose proof (keeps pool_tables rt_Now _ _ _ En) as Hw1. rewrite <- Hw1 in *.
  intros E. exists now. pose proof (update_run_spec now id st msg (pool_tables w1)) as Hspec.
  destruct (PostgresStore.update_status now id st msg) as [q args]. cbn [fst snd] in Hspec.
  unfold mbind, M_bind in E. destruct (PostgresStore.Exec c q args w1) as [[o w2]|] eqn:Ex; [|done].
  apply Exec_outcome in Ex. injection E as <- <-. destruct o as [n|e].
  - destruct Ex as (a & Ha & ->). destruct (Hspec _ _ Hdb Ha) as [[Haff Hu]|(Haff & _ & Hu)]; rewrite Haff; [done|by left].
  - destruct Ex as [->|(a & Ha)]; [by left|]. destruct (Hspec _ _ Hdb Ha) as [[_ Hu]|(_ & _ & Hu)]; [by right|by left].
Qed.

(** ** Reading *)

Lemma read_rows {A : Type} (exprs : list expr) (values : row → list value) (scan : list value → option A) args l rows xs :
  (∀ args r, mapM (eval args r) exprs = Some (values r)) →
  mapM (λ r, mapM (eval args r) exprs) l = Some rows → mapM scan rows = Some xs →
  mapM (λ r, scan (values r)) l = Some xs.
Proof using.
  intros He. revert rows xs. induction l as [|r l IH]; intros rows xs; [by intros [= <-] [= <-]|]. simpl. rewrite He. simpl.
  destruct (mapM (λ r, mapM (eval args r) exprs) l) as [rows'|] eqn:El; [|done]. intros [= <-]. simpl.
  destruct (scan (values r)) as [x|]; [|done]. simpl. destruct (mapM scan rows') as [xs'|] eqn:Ex; [|done]. simpl.
  intros [= <-]. by rewrite (IH rows' xs' eq_refl Ex).
Qed.

Lemma Query_select {A : Type} (scan : list value → option A) (values : row → list value) exprs name where_ order limit offset
    qw sw c args w r w' :
  (∀ args r, mapM (eval args r) exprs = Some (values r)) →
  PostgresStore.Query scan qw sw c (Select exprs name where_ order limit offset) args w = Done (r, w') →
  pool_tables w' = pool_tables w ∧
  match r with
  | Ok xs => ∃ l, l ≡ₚ (map_to_list (filter (λ kr, matches args where_ kr.2 = true) (rows_of (pool_tables w) name))).*2 ∧
      ordered order l = true ∧ mapM (λ r, scan (values r)) (page (count_arg args limit) (count_arg args offset) l) = Some xs
  | Err _ => True
  end.
Proof.
  intros He E%Query_outcome. destruct r as [xs|e]; [|by apply perhaps_select in E].
  destruct E as (a & [Hdb (l & Hl & Ho & Hrows)]%select_spec & Hscan). split; [done|]. exists l. split_and!; [done..|].
  by eapply read_rows.
Qed.

(** The values read from the rows that pass a test, by their keys. *)
Lemma read_keyed {A : Type} (read : row → option A) (key : A → string) (P : row → bool) (Q : A → bool) (rows : gmap string row)
    l xs :
  (∀ id r, rows !! id = Some r → ∃ x, read r = Some x ∧ key x = id ∧ Q x = P r) →
  l ≡ₚ (map_to_list (filter (λ kr, P kr.2 = true) rows)).*2 → mapM read l = Some xs →
  NoDup (key <$> xs) ∧ ∀ x, x ∈ xs ↔ (omap read rows) !! key x = Some x ∧ Q x = true.
Proof using.
  intros Hread Hl Hxs%mapM_Some_1. destruct (Permutation_Forall2 Hl Hxs) as (xs' & Hp & Hxs').
  assert (Hm : ∀ k r, (k, r) ∈ map_to_list (filter (λ kr, P kr.2 = true) rows) ↔ rows !! k = Some r ∧ P r = true).
  { intros k r. by rewrite elem_of_map_to_list, map_lookup_filter_Some. }
  assert (Hkeys : key <$> xs' = (map_to_list (filter (λ kr, P kr.2 = true) rows)).*1).
  { revert Hxs'. assert (Hin : ∀ k r, (k, r) ∈ map_to_list (filter (λ kr, P kr.2 = true) rows) → rows !! k = Some r)
      by (intros k r Hk; by apply Hm in Hk as []). clear -Hread Hin. revert xs'.
    induction (map_to_list (filter (λ kr, P kr.2 = true) rows)) as [|[k r] m IH]; intros xs' Hxs'; [by inversion Hxs'|].
    apply Forall2_cons_inv_l in Hxs' as (x & xs2 & Hx & Hxs' & ->). simpl in Hx |- *.
    destruct (Hread k r (Hin k r ltac:(left))) as (x' & Hx' & <- & _). f_equal; [congruence|].
    apply IH; [|done]. intros k' r' Hk'. apply Hin. by right. }
  split; [rewrite Hp, Hkeys; apply NoDup_fst_map_to_list|]. intros x. rewrite Hp, lookup_omap. split.
  - intros [i Hi]%list_elem_of_lookup. destruct (Forall2_lookup_r _ _ _ _ _ Hxs' Hi) as (r & Hr & Hx).
    apply list_elem_of_lookup_2, list_elem_of_fmap in Hr as ([k r'] & -> & [Hk HP]%Hm). simpl in *.
    destruct (Hread k r' Hk) as (x' & Hx' & Hkey & HQ). assert (x' = x) as -> by congruence. rewrite Hkey, Hk. simpl. split; congruence.
  - intros [(r & Hr & Hx)%bind_Some HQ]. destruct (Hread _ _ Hr) as (x' & Hx' & _ & HP). assert (x' = x) as -> by congruence.
    assert (Hin : r ∈ (map_to_list (filter (λ kr, P kr.2 = true) rows)).*2).
    { apply list_elem_of_fmap. exists (key x, r). split; [done|]. apply Hm. split; congruence. }
    apply list_elem_of_lookup in Hin as [i Hi]. destruct (Forall2_lookup_l _ _ _ _ _ Hxs' Hi) as (y & Hy & Hry).
    assert (y = x) as -> by congruence. by eapply list_elem_of_lookup_2.
Qed.

(** The order of the rows is the order of the values. *)
Lemma read_ordered {A : Type} (read : row → option A) (time : A → Z) col_ desc l xs :
  (∀ r x, r ∈ l → read r = Some x → time x = time_in col_ r * 1000) → in_order col_ desc l = true → mapM read l = Some xs →
  Sorted (λ x y, if desc then time y ≤ time x else time x ≤ time y) xs.
Proof using.
  intros Ht Ho Hxs%mapM_Some_1. revert Ht Ho. induction Hxs as [|r x l xs Hx Hxs IH]; intros Ht Ho; [constructor|]. constructor.
  - apply IH; [intros r' y Hr'; apply Ht; by right|]. destruct l; [done|]. simpl in Ho. by apply andb_prop in Ho as [_ Ho].
  - destruct Hxs as [|r' x' l xs Hx' _]; constructor. simpl in Ho. apply andb_prop in Ho as [Ho _].
    rewrite (Ht r x), (Ht r' x') by (done || left || right; left). destruct desc; apply Z.leb_le in Ho; lia.
Qed.

Lemma run_time id r run : row_typed test_runs id r → read_run r = Some run → tr_CreatedAt run = time_in "created_at" r * 1000.
Proof.
  intros Hrow Hread. column_kinds Hrow. unfold read_run, run_values, scan_run in Hread. revert Hread. scan_columns.
  intros [= <-]. simpl. unfold time_in. by scan_columns.
Qed.

Lemma vm_time id r v : row_typed vms_table id r → read_vm r = Some v → vm_CreatedAt v = time_in "created_at" r * 1000.
Proof.
  intros Hrow Hread. column_kinds Hrow. unfold read_vm, vm_values, scan_vm in Hread. revert Hread. scan_columns.
  intros [= <-]. simpl. unfold time_in. by scan_columns.
Qed.

Lemma TestRunStatus_of_text s st : TestRunStatus_of s = st → st ≠ TestRunStatusUnset → s = TestRunStatus_string st.
Proof.
  unfold TestRunStatus_of. destruct (list_find _ _) as [[i st']|] eqn:E; simpl; [|naive_solver].
  intros -> _. by apply list_find_Some in E as (_ & <- & _).
Qed.

Lemma VMStatus_of_text s st : VMStatus_of s = st → st ≠ VMStatusUnset → s = VMStatus_string st.
Proof.
  unfold VMStatus_of. destruct (list_find _ _) as [[i st']|] eqn:E; simpl; [|naive_solver].
  intros -> _. by apply list_find_Some in E as (_ & <- & _).
Qed.

(** The filters on the status are the predicates of the in-memory store. *)
Lemma running_rows id r run :
  row_typed test_runs id r → read_run r = Some run →
  in_flight run = matches [] [ColIn "status" ["RUNNING"; "QUEUED"; "PENDING"]] r.
Proof.
  intros Hrow Hread. column_kinds Hrow. unfold read_run, run_values, scan_run in Hread. revert Hread. scan_columns.
  intros [= <-]. unfold matches, in_flight. cbn [forallb holds_for tr_Status]. scan_columns. rewrite andb_true_r.
  match goal with |- context [TestRunStatus_of ?s] =>
    case_bool_decide as Hs; [rewrite !elem_of_cons, elem_of_nil in Hs; by destruct Hs as [->|[->|[->|[]]]]|];
    destruct (TestRunStatus_of s) eqn:E; try done; apply TestRunStatus_of_text in E; try done; subst s; set_solver
  end.
Qed.

Lemma orphaned_rows id r v :
  row_typed vms_table id r → read_vm r = Some v →
  transient v = matches [] [ColIn "status" ["CREATING"; "BOOTING"; "RUNNING_TEST"]] r.
Proof.
  intros Hrow Hread. column_kinds Hrow. unfold read_vm, vm_values, scan_vm in Hread. revert Hread. scan_columns.
  intros [= <-]. unfold matches, transient. cbn [forallb holds_for vm_Status]. scan_columns. rewrite andb_true_r.
  match goal with |- context [VMStatus_of ?s] =>
    case_bool_decide as Hs; [rewrite !elem_of_cons, elem_of_nil in Hs; by destruct Hs as [->|[->|[->|[]]]]|];
    destruct (VMStatus_of s) eqn:E; try done; apply VMStatus_of_text in E; try done; subst s; set_solver
  end.
Qed.

(** A listing of all rows that pass a test, in the order of their times. *)
Lemma listing {A : Type} (scan : list value → option A) (values : row → list value) (key : A → string) (time : A → Z) (Q : A → bool)
    cols exprs name where_ tcol desc qw sw c args w r w' :
  (∀ args r, mapM (eval args r) exprs = Some (values r)) →
  (∀ id r, rows_of (pool_tables w) name !! id = Some r → row_typed cols id r) →
  (∀ id r, row_typed cols id r → ∃ x, scan (values r) = Some x ∧ key x = id) →
  (∀ id r x, row_typed cols id r → scan (values r) = Some x → Q x = matches args where_ r) →
  (∀ id r x, row_typed cols id r → scan (values r) = Some x → time x = time_in tcol r * 1000) →
  PostgresStore.Query scan qw sw c (Select exprs name where_ (Some (tcol, desc)) None None) args w = Done (r, w') →
  pool_tables w' = pool_tables w ∧
  match r with
  | Ok xs => NoDup (key <$> xs) ∧ Sorted (λ x y, if desc then time y ≤ time x else time x ≤ time y) xs ∧
      ∀ x, x ∈ xs ↔ (omap (λ r, scan (values r)) (rows_of (pool_tables w) name)) !! key x = Some x ∧ Q x = true
  | Err _ => True
  end.
Proof.
  intros He Hty Hread HQ Htime E. destruct (Query_select _ values _ _ _ _ _ _ _ _ _ _ _ _ _ He E) as [Hw Hr]. split; [done|].
  destruct r as [xs|]; [|done]. destruct Hr as (l & Hl & Ho & Hxs). cbn [page] in Hxs.
  destruct (read_keyed (λ r, scan (values r)) key (matches args where_) Q (rows_of (pool_tables w) name) l xs) as [Hnd Hin]; [|done..|].
  { intros id r Hr. destruct (Hread id r (Hty _ _ Hr)) as (x & Hx & Hid). eauto 10. }
  split_and!; [done| |done]. eapply (read_ordered (λ r, scan (values r)) time tcol desc); [|done..].
  intros r x Hr Hx. rewrite Hl in Hr. apply list_elem_of_fmap in Hr as ([k r'] & -> & Hk%elem_of_map_to_list).
  apply map_lookup_filter_Some in Hk as [Hk _]. by eapply Htime; [apply Hty|].
Qed.

Lemma ListRunningTestRuns_spec c w r w' :
  schema (pool_tables w) → PostgresStore.ListRunningTestRuns c w = Done (r, w') →
  pool_tables w' = pool_tables w ∧
  match r with
  | Ok runs => NoDup (tr_ID <$> runs) ∧ Sorted (λ x y, tr_CreatedAt x ≤ tr_CreatedAt y) runs ∧
      ∀ run, run ∈ runs ↔ runs_of (pool_tables w) !! tr_ID run = Some run ∧ in_flight run = true
  | Err _ => True
  end.
Proof.
  intros Hdb. apply (listing _ run_values tr_ID tr_CreatedAt in_flight test_runs); [apply eval_run| |apply read_run_typed|..].
  - intros id r0. eapply rows_typed; apply Hdb.
  - apply running_rows.
  - apply run_time.
Qed.

Lemma ListOrphanedVMs_spec c w r w' :
  schema (pool_tables w) → PostgresStore.ListOrphanedVMs c w = Done (r, w') →
  pool_tables w' = pool_tables w ∧
  match r with
  | Ok vs => NoDup (vm_ID <$> vs) ∧ Sorted (λ x y, vm_CreatedAt x ≤ vm_CreatedAt y) vs ∧
      ∀ v, v ∈ vs ↔ vms_of (pool_tables w) !! vm_ID v = Some v ∧ transient v = true
  | Err _ => True
  end.
Proof.
  intros Hdb. apply (listing _ vm_values vm_ID vm_CreatedAt transient vms_table); [apply eval_vm| |apply read_vm_typed|..].
  - intros id r0. eapply rows_typed; apply Hdb.
  - apply orphaned_rows.
  - apply vm_time.
Qed.

(** Reading one row by its key. *)
Lemma QueryRow_key {A : Type} (scan : list value → option A) (values : row → list value) cols exprs name c id w r w' :
  (∀ args r, mapM (eval args r) exprs = Some (values r)) →
  schema (pool_tables w) → has_columns (pool_tables w) name cols →
  PostgresStore.QueryRow scan c (Select exprs name [ColEq "id" 1] None None None) [VText id] w = Done (r, w') →
  pool_tables w' = pool_tables w ∧
  match r with
  | Ok o => (omap (λ r, scan (values r)) (rows_of (pool_tables w) name)) !! id = o
  | Err _ => True
  end.
Proof.
  intros He Hdb Hc E%QueryRow_outcome. destruct r as [o|e]; [|by apply perhaps_select in E].
  destruct E as (a & [Hw (l & Hl & _ & Hrows)]%select_spec & Ho). split; [done|]. cbn [page count_arg] in Hrows.
  rewrite (filter_id _ _ cols _ _ id) in Hl by (done || apply Hdb). rewrite lookup_omap.
  destruct (rows_of (pool_tables w) name !! id) as [r|].
  - rewrite map_to_list_singleton in Hl. csimpl in Hl. apply Permutation_singleton_r in Hl as ->. cbn in Hrows. rewrite He in Hrows.
    injection Hrows as Hrows. rewrite <- Hrows in Ho. by destruct Ho as [_ Ho].
  - rewrite map_to_list_empty in Hl. csimpl in Hl. apply Permutation_nil_r in Hl as ->. injection Hrows as Hrows.
    by rewrite <- Hrows in Ho.
Qed.

Lemma GetTestRun_spec c id w r w' :
  schema (pool_tables w) → PostgresStore.GetTestRun c id w = Done (r, w') →
  pool_tables w' = pool_tables w ∧
  match r with
  | Ok run => runs_of (pool_tables w) !! id = Some run
  | Err e => (∃ e', e = "querying test run: " +:+ e') ∨ (e = run_not_found id ∧ runs_of (pool_tables w) !! id = None)
  end.
Proof.
  intros Hdb. unfold PostgresStore.GetTestRun, mbind, M_bind. destruct (PostgresStore.QueryRow _ _ _ _ w) as [[o w1]|] eqn:E; [|done].
  apply (QueryRow_key _ run_values test_runs) in E as [Hw Ho]; [|apply eval_run|done|apply Hdb].
  intros [= <- <-]. split; [done|]. destruct o as [[run|]|e]; eauto.
Qed.

Lemma GetVM_spec c id w r w' :
  schema (pool_tables w) → PostgresStore.GetVM c id w = Done (r, w') →
  pool_tables w' = pool_tables w ∧
  match r with
  | Ok v => vms_of (pool_tables w) !! id = Some v
  | Err e => (∃ e', e = "querying vm: " +:+ e') ∨ (e = vm_not_found id ∧ vms_of (pool_tables w) !! id = None)
  end.
Proof.
  intros Hdb. unfold PostgresStore.GetVM, mbind, M_bind. destruct (PostgresStore.QueryRow _ _ _ _ w) as [[o w1]|] eqn:E; [|done].
  apply (QueryRow_key _ vm_values vms_table) in E as [Hw Ho]; [|apply eval_vm|done|apply Hdb].
  intros [= <- <-]. split; [done|]. destruct o as [[v|]|e]; eauto.
Qed.

End store.
