(* ===== verification/PostgresRecover.v ===== *)
(** * The PostgreSQL store: VMs, results and crash recovery

    The remaining methods of [PostgresStore] on what the tables hold, and
    [RecoverState] on it: which runs are queued again when the program comes
    back, also when the server fails on some statements. *)
From Stdlib Require Import Ascii SpecFloat.
From stdpp Require Import sorting options.
Set Default Proof Using "Type*".
From S2P Require Import Prelude GoStd GoChan Types Scheduler Effects MemoryStore Recovery Json Marshal JsonText JsonStruct JsonPrint.
From S2P Require Import StoreContract StepExec Sql Postgres PostgresSpec.
Open Scope string_scope.
Open Scope list_scope.
Open Scope Z_scope.

Section store.
Context {W : Type} `{!Database W, !Runtime W} {FT : FloatText} {NS : NilSlices} `{!DatabaseLaws W}.

(** ** VMs *)

Definition only_vms (db db' : database) (vs : gmap string VMInstance) : Prop :=
  vms_of db' = vs ∧ runs_of db' = runs_of db ∧ results_of db' = results_of db.

Lemma only_vms_intro db db' id v r :
  same_but "vms" db db' → rows_of db' "vms" = <[id := r]> (rows_of db "vms") → read_vm r = Some v →
  only_vms db db' (<[id := v]> (vms_of db)).
Proof.
  intros Hb Hr Hx. unfold only_vms, runs_of, results_of, vms_of. rewrite Hr. split_and!; [by apply omap_insert_Some|..];
    unfold rows_of; by rewrite Hb.
Qed.

Lemma vm_status_row id r r' v st :
  row_typed vms_table id r → read_vm r = Some v →
  set_columns (bare vms_table) [("status", VText (VMStatus_string st))] r = Some r' → read_vm r' = Some (set_vm_Status st v).
Proof. intros Hrow Hread Hset. by updated_row Hrow Hread Hset vms_table. Qed.

Definition vm_updates (id : string) (st : VMStatus) (db db' : database) : Prop :=
  ∃ v, vms_of db !! id = Some v ∧ only_vms db db' (<[id := set_vm_Status st v]> (vms_of db)).

Lemma update_vm_spec id st db a db' :
  schema db → allowed db (Update "vms" [("status", Arg 1)] [ColEq "id" 2]) [VText (VMStatus_string st); VText id] a db' →
  (a_affected a = 1%nat ∧ vm_updates id st db db') ∨
  (a_affected a = 0%nat ∧ vms_of db !! id = None ∧ only_vms db db' (vms_of db)).
Proof.
  intros Hdb Ha. apply (update_spec _ _ vms_table _ _ id) in Ha as [Hb Hr]; [|apply Hdb|apply Hdb|done].
  destruct (rows_of db "vms" !! id) as [r|] eqn:Er.
  - left. destruct Hr as (Haff & vs & r' & [= <-] & Hset & Hrows). split; [done|].
    pose proof (rows_typed _ _ _ _ _ (sc_sound _ Hdb) (sc_vms _ Hdb) Er) as Hrow.
    destruct (read_vm_typed _ _ Hrow) as (v & Hread & _). exists v. split; [by unfold vms_of; rewrite lookup_omap, Er|].
    eapply only_vms_intro; [done..|]. by eapply vm_status_row.
  - right. destruct Hr as [Haff Hrows]. split_and!; [done|by unfold vms_of; rewrite lookup_omap, Er|].
    unfold only_vms, runs_of, results_of, vms_of. rewrite Hrows. split_and!; [done|..]; unfold rows_of; by rewrite Hb.
Qed.

Lemma UpdateVMStatus_spec c id st w r w' :
  schema (pool_tables w) → PostgresStore.UpdateVMStatus c id st w = Done (r, w') →
  match r with
  | Ok _ => vm_updates id st (pool_tables w) (pool_tables w')
  | Err _ => only_vms (pool_tables w) (pool_tables w') (vms_of (pool_tables w)) ∨ vm_updates id st (pool_tables w) (pool_tables w')
  end.
Proof.
  intros Hdb. unfold PostgresStore.UpdateVMStatus, mbind, M_bind.
  destruct (PostgresStore.Exec c _ _ w) as [[o w1]|] eqn:Ex; [|done]. apply Exec_outcome in Ex. intros [= <- <-].
  destruct o as [n|e].
  - destruct Ex as (a & Ha & ->). destruct (update_vm_spec _ _ _ _ _ Hdb Ha) as [[Haff Hu]|(Haff & _ & Hu)]; rewrite Haff; [done|by left].
  - destruct Ex as [->|(a & Ha)]; [by left|]. destruct (update_vm_spec _ _ _ _ _ Hdb Ha) as [[_ Hu]|(_ & _ & Hu)]; [by right|by left].
Qed.

(** The row that [SaveVM] writes for a new VM, and what it changes in the row
    of one it knows: the columns of the [ON CONFLICT] clause only. *)
Definition saved_vm (created : Z) (v : VMInstance) : VMInstance :=
  mkVMInstance (vm_ID v) (vm_Status v) (vm_DeviceID v) (vm_QEMUDeviceName v) (vm_QMPSocketPath v) (vm_SerialPorts v) (vm_PID v)
    (vm_AllocatedCPUs v) (vm_AllocatedMemMB v) (vm_ImagePath v) (vm_OverlayPath v) (whole created) (vm_AgentStatus v)
    (whole <$> vm_LastHeartbeat v) (vm_CurrentTestRunID v).

Definition resaved_vm (old v : VMInstance) : VMInstance :=
  mkVMInstance (vm_ID old) (vm_Status v) (vm_DeviceID old) (vm_QEMUDeviceName old) (vm_QMPSocketPath v) (vm_SerialPorts v) (vm_PID v)
    (vm_AllocatedCPUs old) (vm_AllocatedMemMB old) (vm_ImagePath old) (vm_OverlayPath old) (vm_CreatedAt old) (vm_AgentStatus v)
    (whole <$> vm_LastHeartbeat v) (vm_CurrentTestRunID v).

(** The columns after [ON CONFLICT DO UPDATE], one hypothesis each. *)
Lemma overwritten r cs old c :
  column_of (foldl (λ o c, <[c := column_of r c]> o) old cs) c =
  if existsb (String.eqb c) cs then column_of r c else column_of old c.
Proof using.
  rewrite column_overwrite. destruct (existsb (String.eqb c) cs) eqn:E.
  - rewrite decide_True; [done|]. apply existsb_exists in E as (x & Hx & ->%String.eqb_eq). by apply list_elem_of_In.
  - rewrite decide_False; [done|]. intros Hc%list_elem_of_In. assert (existsb (String.eqb c) cs = true); [|congruence].
    apply existsb_exists. exists c. by rewrite String.eqb_refl.
Qed.

Lemma inserted_vm ch created v r :
  Forall valid_string (vm_SerialPorts v) →
  set_columns (bare vms_table)
    (zip ["id"; "status"; "device_id"; "qemu_device_name"; "qmp_socket_path"; "serial_ports"; "pid"; "allocated_cpus";
     "allocated_mem_mb"; "image_path"; "overlay_path"; "created_at"; "agent_status"; "last_heartbeat"; "current_test_run_id"]
    [VText (vm_ID v); VText (VMStatus_string (vm_Status v)); VText (vm_DeviceID v); nullableStr (vm_QEMUDeviceName v);
     nullableStr (vm_QMPSocketPath v); VText (strings_text (nil_ports v) (vm_SerialPorts v)); VInt (vm_PID v); VInt (vm_AllocatedCPUs v);
     VInt (vm_AllocatedMemMB v); nullableStr (vm_ImagePath v); nullableStr (vm_OverlayPath v); VTime (created / 1000);
     VText (AgentStatus_string (vm_AgentStatus v)); nullable_time (vm_LastHeartbeat v); nullableStr (vm_CurrentTestRunID v)])
    (default_row ch (bare vms_table)) = Some r →
  column_of r "id" = VText (vm_ID v) ∧ read_vm r = Some (saved_vm created v) ∧
  ∀ old o id, row_typed vms_table id old → read_vm old = Some o →
    read_vm (foldl (λ o c, <[c := column_of r c]> o) old
      ["status"; "qmp_socket_path"; "serial_ports"; "pid"; "agent_status"; "last_heartbeat"; "current_test_run_id"]) =
    Some (resaved_vm o v).
Proof.
  intros Hports Hset. destruct (strings_back (nil_ports v) _ Hports) as (j & Hp & Hj). cbn [zip zip_with] in Hset. written Hset.
  rewrite Hp in Hw4. injection Hw4 as Hw4. symmetry in Hw4.
  split_and!; [done|unfold read_vm, vm_values, scan_vm; by scan_columns|].
  intros old o id Hrow Hread. column_kinds Hrow. unfold read_vm, vm_values, scan_vm in Hread. revert Hread. scan_columns.
  intros [= <-]. unfold read_vm, vm_values, scan_vm. rewrite !overwritten.
  cbn [existsb String.eqb Ascii.eqb Bool.eqb orb]. by scan_columns.
Qed.

Definition saves (v : VMInstance) (db db' : database) : Prop :=
  ∃ created, (vm_CreatedAt v ≠ 0 → created = vm_CreatedAt v) ∧
    only_vms db db' (<[vm_ID v := match vms_of db !! vm_ID v with Some old => resaved_vm old v | None => saved_vm created v end]>
      (vms_of db)).

Lemma insert_vm_spec db created v a db' :
  schema db → Forall valid_string (vm_SerialPorts v) → (vm_CreatedAt v ≠ 0 → created = vm_CreatedAt v) →
  allowed db PostgresStore.insert_vm
    [VText (vm_ID v); VText (VMStatus_string (vm_Status v)); VText (vm_DeviceID v); nullableStr (vm_QEMUDeviceName v);
     nullableStr (vm_QMPSocketPath v); VText (strings_text (nil_ports v) (vm_SerialPorts v)); VInt (vm_PID v); VInt (vm_AllocatedCPUs v);
     VInt (vm_AllocatedMemMB v); nullableStr (vm_ImagePath v); nullableStr (vm_OverlayPath v); time_arg created;
     VText (AgentStatus_string (vm_AgentStatus v)); nullable_time (vm_LastHeartbeat v); nullableStr (vm_CurrentTestRunID v)] a db' →
  saves v db db'.
Proof.
  intros Hdb Hports Hcr Ha. apply (insert_spec _ _ vms_table) in Ha; [|apply Hdb].
  destruct Ha as (Hb & ch & vs & r & id & r' & Hvs & Hset & Hid & Hrows & _ & _ & Hold).
  cbn in Hvs. injection Hvs as <-. unfold time_arg in Hset. apply inserted_vm in Hset as (Hid' & Hread & Hre); [|done].
  assert (id = vm_ID v) as -> by congruence. exists created. split; [done|].
  assert (vms_of db !! vm_ID v = rows_of db "vms" !! vm_ID v ≫= read_vm) as -> by (unfold vms_of; by rewrite lookup_omap).
  destruct (rows_of db "vms" !! vm_ID v) as [old|] eqn:Eo; [|subst r'; by eapply only_vms_intro].
  pose proof (rows_typed _ _ _ _ _ (sc_sound _ Hdb) (sc_vms _ Hdb) Eo) as Hrow.
  destruct (read_vm_typed _ _ Hrow) as (o & Ho & _). destruct Hold as (cs & [= <-] & ->). cbn [mbind option_bind]. rewrite Ho.
  eapply only_vms_intro; [done..|]. by eapply Hre.
Qed.

Lemma SaveVM_spec c v w r w' :
  schema (pool_tables w) → Forall valid_string (vm_SerialPorts v) → PostgresStore.SaveVM c v w = Done (r, w') →
  match r with
  | Ok _ => saves v (pool_tables w) (pool_tables w')
  | Err _ => pool_tables w' = pool_tables w ∨ saves v (pool_tables w) (pool_tables w')
  end.
Proof.
  intros Hdb Hports. unfold PostgresStore.SaveVM. unfold mbind at 1, M_bind at 1.
  destruct ((if decide (vm_CreatedAt v = 0) then rt_Now else mret (vm_CreatedAt v)) w) as [[created w1]|] eqn:En; [|done].
  assert (pool_tables w1 = pool_tables w ∧ (vm_CreatedAt v ≠ 0 → created = vm_CreatedAt v)) as [Hw1 Hcr].
  { case_decide; [split; [by apply (keeps pool_tables rt_Now _ _ _ En)|done]|by injection En as <- <-]. }
  rewrite <- Hw1 in *. unfold mbind, M_bind. destruct (PostgresStore.Exec _ _ _ w1) as [[o w2]|] eqn:E; [|done].
  apply Exec_outcome in E. intros [= <- <-]. destruct o as [n|e]; cbn [result_bind].
  - destruct E as (a & Ha & _). by eapply insert_vm_spec.
  - destruct E as [->|(a & Ha)]; [by left|right]. by eapply insert_vm_spec.
Qed.

(** ** Results *)

(** A metric whose text is read back as it is: [strconv] writes a finite
    number so, and [jsonb] keeps all but the negative zero. *)
Definition kept_metric (f : float64) : Prop :=
  finite f = true ∧ number_literal (FormatFloat f) = true ∧ ParseFloat (FormatFloat f) = Some f ∧ f ≠ S754_zero true.

Definition metrics_kept (m : gmap string float64) : Prop := map_Forall (λ k f, valid_string k ∧ kept_metric f) m.

Lemma dec_entries_each {A : Type} (d : decoder A) zero p l (l2 : list (string * A)) acc :
  Forall2 (λ kx kf, kx.1 = kf.1 ∧ d p kx.2 zero = Ok kf.2) l l2 →
  dec_entries d zero p l acc = Ok (foldl (λ m kv, <[kv.1 := kv.2]> m) acc l2).
Proof using.
  intros Hl. revert acc. induction Hl as [|[k x] [k' f] l l2 [Hk Hd] _ IH]; intros acc; [done|]. simpl in *. subst k'.
  rewrite Hd. simpl. apply IH.
Qed.

Lemma dec_map_entries {A : Type} (d : decoder A) zero p l (m : gmap string A) :
  NoDup l.*1 → (∀ k, k ∈ l.*1 ↔ is_Some (m !! k)) → (∀ k x f, (k, x) ∈ l → m !! k = Some f → d p x zero = Ok f) →
  dec_entries d zero p l ∅ = Ok m.
Proof using.
  intros Hnd Hkeys Hd. set (l2 := (λ kx, (kx.1, default zero (m !! kx.1))) <$> l).
  assert (H2 : l2.*1 = l.*1) by (unfold l2; by rewrite <- list_fmap_compose).
  rewrite (dec_entries_each _ _ _ _ l2).
  - rewrite foldl_insert_map, right_id_L by (apply _ || by rewrite H2). f_equal. apply map_eq. intros k.
    destruct (m !! k) as [f|] eqn:Ek.
    + apply elem_of_list_to_map_1; [by rewrite H2|]. assert (Hin : k ∈ l.*1) by (apply Hkeys; eauto).
      apply list_elem_of_fmap in Hin as ([k' x] & -> & Hin). apply list_elem_of_fmap. exists (k', x). split; [|done].
      simpl in *. by rewrite Ek.
    + apply not_elem_of_list_to_map_1. rewrite H2, Hkeys, Ek. by intros [].
  - apply Forall2_fmap_r, Forall_Forall2_diag, Forall_forall. intros [k x] Hin. split; [done|]. simpl.
    assert (Hk : is_Some (m !! k)) by (apply Hkeys, list_elem_of_fmap; by exists (k, x)). destruct Hk as [f Hf]. rewrite Hf.
    by eapply Hd.
Qed.

Lemma metrics_printable m : metrics_kept m → printable 1 (metrics_json m) ∧ jsonb_keeps (metrics_json m).
Proof.
  intros Hm. unfold metrics_json. split.
  - cbn [printable]. apply Forall_fmap, sorted_Forall. intros k f Hf. destruct (Hm k f Hf) as (Hk & _ & Hlit & _). done.
  - cbn [jsonb_keeps]. split.
    + rewrite <- list_fmap_compose. change (fst ∘ prod_map id _) with (fst (A := string) (B := float64)). apply sorted_keys.
    + assert (Hf : Forall (λ kf, kept_metric kf.2) (sorted m)) by (apply sorted_Forall; intros k f Hf; by destruct (Hm k f Hf)).
      induction Hf as [|[k f] l (_ & _ & Hp & Hz) _ IH]; [done|]. cbn. eauto.
Qed.

Lemma same_object l v' :
  NoDup l.*1 → same_json (JObj l) v' →
  ∃ l', v' = JObj l' ∧ NoDup l'.*1 ∧ l.*1 ≡ₚ l'.*1 ∧ ∀ k x', (k, x') ∈ l' → ∃ x, (k, x) ∈ l ∧ same_json x x'.
Proof using.
  intros Hnd Hs. destruct v' as [| | | | |l']; try done. exists l'. cbn [same_json] in Hs. destruct Hs as (Hnd' & Hlen & Hall).
  assert (Hin : ∀ k x, (k, x) ∈ l → ∃ x', (k, x') ∈ l' ∧ same_json x x').
  { clear -Hall. induction l as [|[k x] l IH]; intros k' x' Hin; [by apply not_elem_of_nil in Hin|].
    destruct Hall as [Hx Hall]. apply elem_of_cons in Hin as [[= -> ->]|Hin]; [done|by apply IH]. }
  assert (Hp : l.*1 ≡ₚ l'.*1).
  { apply submseteq_length_Permutation; [|by rewrite !length_fmap, Hlen]. apply NoDup_submseteq; [done|].
    intros k ([k' x] & -> & Hk)%list_elem_of_fmap. destruct (Hin _ _ Hk) as (x' & Hx' & _). apply list_elem_of_fmap. by exists (k', x'). }
  split_and!; [done..|]. intros k x' Hk'. assert (Hk : k ∈ l.*1) by (rewrite Hp; apply list_elem_of_fmap; by exists (k, x')).
  apply list_elem_of_fmap in Hk as ([k0 x] & -> & Hk). exists x. split; [done|]. destruct (Hin _ _ Hk) as (x2 & Hx2 & Hsame).
  cbn [fst] in *. assert (x2 = x') as ->; [|done].
  eapply (elem_of_list_to_map_1 (M := gmap string)) in Hx2, Hk'; [congruence|done..].
Qed.

(** The metrics of a [jsonb] column. *)
Lemma metrics_back isnil m :
  metrics_kept m → ∃ j, parse (metrics_text isnil m) = Ok j ∧ scan_json jsonb_out dec_metrics ∅ (VJson j) = Some m.
Proof.
  intros Hm. assert (Hback : ∀ j j', parse (jsonb_out j) = Ok j' → dec_metrics at_top j' ∅ = Ok m →
    scan_json jsonb_out dec_metrics ∅ (VJson j) = Some m).
  { intros j j' Hp Hd. cbn [scan_json]. rewrite decide_False by (intros E; by rewrite E in Hp).
    unfold Unmarshal. by rewrite Hp; simpl; rewrite Hd. }
  unfold metrics_text. rewrite decide_True by (intros k f Hf; by destruct (Hm k f Hf) as (_ & ? & _)). case_decide as Hemp.
  - destruct Hemp as [-> _]. exists JNull. split; [done|]. destruct (jsonb_law 0 JNull I ltac:(lia) I) as (j' & Hp & Hs).
    apply (Hback _ j'); [done|]. by destruct j'.
  - destruct (metrics_printable m Hm) as [Hpr Hk]. exists (metrics_json m). split; [by apply (parse_print 1); [done|lia]|].
    destruct (jsonb_law 1 _ Hpr ltac:(lia) Hk) as (j' & Hp & Hs). apply (Hback _ j'); [done|]. clear Hback Hp.
    unfold metrics_json in Hs, Hk. destruct Hk as [Hnd _]. apply same_object in Hs as (l' & -> & Hnd' & Hperm & Hin); [|done].
    unfold dec_metrics. cbn [dec_map]. apply dec_map_entries; [done|..].
    + intros k. rewrite <- Hperm, <- list_fmap_compose. change (fst ∘ prod_map id _) with (fst (A := string) (B := float64)).
      rewrite list_elem_of_fmap. split; [intros ([k' f] & -> & Hf%elem_of_sorted); eauto|].
      intros [f Hf]. exists (k, f). by rewrite elem_of_sorted.
    + intros k x' f Hx' Hf. destruct (Hin _ _ Hx') as (x & Hx & Hsame).
      apply list_elem_of_fmap in Hx as ([k0 f0] & [= -> ->] & Hf0%elem_of_sorted). simpl in Hf0. assert (f0 = f) as -> by congruence.
      destruct (Hm _ _ Hf) as (_ & _ & _ & Hparse & _). destruct x'; try done. cbn [same_json] in Hsame.
      cbn [dec_float64]. by rewrite <- Hsame, Hparse.
Qed.

Definition only_results (db db' : database) (rs : gmap string TestResult) : Prop :=
  results_of db' = rs ∧ runs_of db' = runs_of db ∧ vms_of db' = vms_of db.

Definition saved_result (id : string) (completed : Z) (r : TestResult) : TestResult :=
  mkTestResult id (res_TestRunID r) (res_TestName r) (res_Category r) (res_Status r) (res_DurationMs r) (res_Message r)
    (res_Metrics r) (res_Logs r) completed.

Lemma inserted_result ch completed res r :
  metrics_kept (res_Metrics res) →
  set_columns (bare test_results)
    (zip ["test_run_id"; "test_name"; "category"; "status"; "duration_ms"; "message"; "metrics"; "logs"; "completed_at"]
    [VText (res_TestRunID res); VText (res_TestName res); VText (TestCategory_string (res_Category res));
     VText (TestRunStatus_string (res_Status res)); VInt (res_DurationMs res); nullableStr (res_Message res);
     VText (metrics_text (nil_metrics res) (res_Metrics res)); nullableStr (res_Logs res); VTime (completed / 1000)])
    (default_row ch (bare test_results)) = Some r →
  column_of r "id" = VText (ch_uuid ch) ∧ column_of r "test_run_id" = VText (res_TestRunID res) ∧
  read_result r = Some (saved_result (ch_uuid ch) (whole completed) res).
Proof.
  intros Hm Hset. destruct (metrics_back (nil_metrics res) _ Hm) as (j & Hp & Hj). cbn [zip zip_with] in Hset. written Hset.
  rewrite Hp in Hw5. injection Hw5 as Hw5. symmetry in Hw5. untouched Hset "id".
  change (column_of (default_row ch (bare test_results)) "id") with (VText (ch_uuid ch)) in Hu.
  split_and!; [done..|]. unfold read_result, result_values, scan_result. by scan_columns.
Qed.

(** A result is saved under a new identifier, for a run that is there. *)
Definition saves_result (res : TestResult) (db : database) (res' : TestResult) (db' : database) : Prop :=
  is_Some (runs_of db !! res_TestRunID res) ∧ results_of db !! res_ID res' = None ∧
  res' = saved_result (res_ID res') (res_CompletedAt res') res ∧ (res_CompletedAt res ≠ 0 → res_CompletedAt res' = res_CompletedAt res) ∧
  only_results db db' (<[res_ID res' := saved_result (res_ID res') (whole (res_CompletedAt res')) res]> (results_of db)).

Lemma reference_kept db r :
  schema db → forallb (satisfies db r) test_results = true → ∀ id, column_of r "test_run_id" = VText id → is_Some (runs_of db !! id).
Proof.
  intros Hdb Hs id Hid. cbn [test_results forallb] in Hs. apply andb_prop in Hs as [_ [Hs _]%andb_prop].
  unfold satisfies in Hs. cbn [c_notnull c_name c_references] in Hs. rewrite Hid in Hs. simpl in Hs.
  unfold runs_of. rewrite lookup_omap. destruct (rows_of db "test_runs" !! id) as [r'|] eqn:E.
  - simpl. destruct (read_run_typed id r') as (run & -> & _); [by eapply rows_typed; [apply Hdb..|]|eauto].
  - unfold rows_of in E. destruct (db !! "test_runs"); [|done]. apply bool_decide_eq_true in Hs as [? Hs]. congruence.
Qed.

Lemma insert_result_spec db completed res a db' :
  schema db → metrics_kept (res_Metrics res) → (res_CompletedAt res ≠ 0 → completed = res_CompletedAt res) →
  allowed db PostgresStore.insert_result
    [VText (res_TestRunID res); VText (res_TestName res); VText (TestCategory_string (res_Category res));
     VText (TestRunStatus_string (res_Status res)); VInt (res_DurationMs res); nullableStr (res_Message res);
     VText (metrics_text (nil_metrics res) (res_Metrics res)); nullableStr (res_Logs res); time_arg completed] a db' →
  ∃ id, a = mkAnswer [[VText id]] 1 ∧ saves_result res db (saved_result id completed res) db'.
Proof.
  intros Hdb Hm Hc Ha. apply (insert_spec _ _ test_results) in Ha; [|apply Hdb].
  destruct Ha as (Hb & ch & vs & r & id & r' & Hvs & Hset & Hid & Hrows & -> & Hsat & Hold).
  cbn in Hvs. injection Hvs as <-. unfold time_arg in Hset. apply inserted_result in Hset as (Hid' & Href & Hread); [|done].
  assert (id = ch_uuid ch) as -> by congruence.
  destruct (rows_of db "test_results" !! ch_uuid ch) as [old|] eqn:Eo; [by destruct Hold as (cs & ? & _)|]. subst r'.
  exists (ch_uuid ch). cbn [fmap list_fmap]. rewrite Hid'. split; [done|]. unfold saves_result. cbn [saved_result res_ID res_CompletedAt].
  split_and!; [by eapply reference_kept|by unfold results_of; rewrite lookup_omap, Eo|done|done|].
  unfold only_results, runs_of, results_of, vms_of. rewrite Hrows. split_and!; [by apply omap_insert_Some|..];
    unfold rows_of; by rewrite Hb.
Qed.

Lemma SaveTestResult_spec c res w r w' :
  schema (pool_tables w) → metrics_kept (res_Metrics res) → PostgresStore.SaveTestResult c res w = Done (r, w') →
  match r with
  | Ok res' => saves_result res (pool_tables w) res' (pool_tables w')
  | Err _ => pool_tables w' = pool_tables w ∨ ∃ res', saves_result res (pool_tables w) res' (pool_tables w')
  end.
Proof.
  intros Hdb Hm. unfold PostgresStore.SaveTestResult. unfold mbind at 1, M_bind at 1.
  destruct ((if decide (res_CompletedAt res = 0) then rt_Now else mret (res_CompletedAt res)) w) as [[completed w1]|] eqn:En; [|done].
  assert (pool_tables w1 = pool_tables w ∧ (res_CompletedAt res ≠ 0 → completed = res_CompletedAt res)) as [Hw1 Hcr].
  { case_decide; [split; [by apply (keeps pool_tables rt_Now _ _ _ En)|done]|by injection En as <- <-]. }
  rewrite <- Hw1 in *. unfold mbind, M_bind. destruct (PostgresStore.QueryRow _ _ _ _ w1) as [[o w2]|] eqn:E; [|done].
  apply QueryRow_outcome in E. intros [= <- <-]. destruct o as [o|e].
  - destruct E as (a & Ha & Ho). destruct (insert_result_spec _ _ _ _ _ Hdb Hm Hcr Ha) as (id & -> & Hc). by destruct Ho as [_ <-].
  - destruct E as [->|(a & Ha)]; [by left|]. right. destruct (insert_result_spec _ _ _ _ _ Hdb Hm Hcr Ha) as (id & _ & Hc). eauto.
Qed.

Lemma result_rows id runID r res :
  row_typed test_results id r → read_result r = Some res →
  bool_decide (res_TestRunID res = runID) = matches [VText runID] [ColEq "test_run_id" 1] r.
Proof.
  intros Hrow Hread. column_kinds Hrow. unfold read_result, result_values, scan_result in Hread. revert Hread. scan_columns.
  intros [= <-]. unfold matches. cbn [forallb holds_for pred lookup list_lookup res_TestRunID]. scan_columns. by rewrite andb_true_r.
Qed.

Lemma result_time id r res :
  row_typed test_results id r → read_result r = Some res → res_CompletedAt res = time_in "completed_at" r * 1000.
Proof.
  intros Hrow Hread. column_kinds Hrow. unfold read_result, result_values, scan_result in Hread. revert Hread. scan_columns.
  intros [= <-]. simpl. unfold time_in. by scan_columns.
Qed.

Lemma GetTestResults_spec c runID w r w' :
  schema (pool_tables w) → PostgresStore.GetTestResults c runID w = Done (r, w') →
  pool_tables w' = pool_tables w ∧
  match r with
  | Ok rs => NoDup (res_ID <$> rs) ∧ Sorted (λ x y, res_CompletedAt x ≤ res_CompletedAt y) rs ∧
      ∀ res, res ∈ rs ↔ results_of (pool_tables w) !! res_ID res = Some res ∧ res_TestRunID res = runID
  | Err _ => True
  end.
Proof.
  intros Hdb E. apply (listing _ result_values res_ID res_CompletedAt (λ res, bool_decide (res_TestRunID res = runID)) test_results) in E.
  - destruct E as [Hw Hr]. split; [done|]. destruct r as [rs|]; [|done]. destruct Hr as (Hnd & Hs & Hin). split_and!; [done..|].
    intros res. rewrite Hin. by rewrite bool_decide_eq_true.
  - apply eval_result.
  - intros id r0. eapply rows_typed; apply Hdb.
  - apply read_result_typed.
  - intros id r0 res. apply result_rows.
  - apply result_time.
Qed.

(** ** The filters of the listings *)

Lemma count_add n limit args k more :
  PostgresStore.add_count n (None, args) = (limit, args ++ k) →
  count_arg ((args ++ k) ++ more) limit = (if decide (0 < n) then Some (Z.to_nat n) else None).
Proof using.
  unfold PostgresStore.add_count. case_decide; intros [= <- Hk]; [|done].
  apply app_inv_head in Hk. subst k. unfold count_arg. cbn [mbind option_bind pred].
  rewrite lookup_app_l by (rewrite length_app; simpl; lia). by rewrite list_lookup_middle.
Qed.

Lemma add_count_args n args : ∃ limit k, PostgresStore.add_count n (None, args) = (limit, args ++ k).
Proof using. unfold PostgresStore.add_count. case_decide; eexists _, _; [done|]. by rewrite app_nil_r. Qed.

(** Two filters: each compares its column with its own argument, whichever of them are used. *)
Lemma filters_match use1 c1 s1 use2 c2 s2 more r :
  let '(where_, args) := PostgresStore.add_filter use2 c2 (VText s2) (PostgresStore.add_filter use1 c1 (VText s1) ([], [])) in
  matches (args ++ more) where_ r =
    (negb use1 || bool_decide (text_of (column_of r c1) = Some s1)) && (negb use2 || bool_decide (text_of (column_of r c2) = Some s2)).
Proof using.
  unfold PostgresStore.add_filter, matches. destruct use1, use2; cbn; rewrite ?andb_true_r; try done;
    repeat match goal with |- context [column_of r ?c] => destruct (column_of r c) end; cbn;
    repeat case_bool_decide; simplify_eq; try done.
Qed.

Lemma mapM_page {A B : Type} (f : A → option B) limit offset l xs :
  mapM f l = Some xs → mapM f (page limit offset l) = Some (page limit offset xs).
Proof using.
  intros Hl%mapM_Some_1. apply mapM_Some_2. unfold page. destruct limit, offset; try done; by repeat first [apply Forall2_take | apply Forall2_drop].
Qed.

Lemma run_filter req id r run :
  row_typed test_runs id r → read_run r = Some run →
  run_matches req run =
  (negb (bool_decide (ltr_DeviceID req ≠ "")) || bool_decide (text_of (column_of r "device_id") = Some (ltr_DeviceID req))) &&
  (negb (bool_decide (ltr_Status req ≠ TestRunStatusUnset)) ||
   bool_decide (text_of (column_of r "status") = Some (TestRunStatus_string (ltr_Status req)))).
Proof.
  intros Hrow Hread. column_kinds Hrow. unfold read_run, run_values, scan_run in Hread. revert Hread. scan_columns.
  intros [= <-]. unfold run_matches. cbn [tr_DeviceID tr_Status]. scan_columns. rewrite !negb_andb. f_equal.
  - f_equal. repeat case_bool_decide; simplify_eq; done.
  - destruct (decide (ltr_Status req = TestRunStatusUnset)) as [Eu|Eu]; [by rewrite Eu|].
    match goal with |- context [TestRunStatus_of ?s] =>
      assert (Hs : TestRunStatus_of s = ltr_Status req ↔ s = TestRunStatus_string (ltr_Status req))
        by (split; [intros E; by apply TestRunStatus_of_text in E|intros ->; apply TestRunStatus_of_string]) end.
    f_equal. repeat case_bool_decide; naive_solver.
Qed.

(** The page of a listing. *)
Definition wanted (n : Z) : option nat := if decide (0 < n) then Some (Z.to_nat n) else None.

Lemma list_runs_spec req :
  ∃ where_ limit offset args,
    PostgresStore.list_runs req = (Select run_exprs "test_runs" where_ (Some ("created_at", true)) limit offset, args) ∧
    count_arg args limit = wanted (ltr_Limit req) ∧ count_arg args offset = wanted (ltr_Offset req) ∧
    ∀ r, matches args where_ r =
      (negb (bool_decide (ltr_DeviceID req ≠ "")) || bool_decide (text_of (column_of r "device_id") = Some (ltr_DeviceID req))) &&
      (negb (bool_decide (ltr_Status req ≠ TestRunStatusUnset)) ||
       bool_decide (text_of (column_of r "status") = Some (TestRunStatus_string (ltr_Status req)))).
Proof using.
  unfold PostgresStore.list_runs.
  pose proof (filters_match (bool_decide (ltr_DeviceID req ≠ "")) "device_id" (ltr_DeviceID req)
    (bool_decide (ltr_Status req ≠ TestRunStatusUnset)) "status" (TestRunStatus_string (ltr_Status req))) as Hm.
  destruct (PostgresStore.add_filter _ _ _ _) as [where_ args]. destruct (add_count_args (ltr_Limit req) args) as (limit & k1 & El).
  rewrite El. destruct (add_count_args (ltr_Offset req) (args ++ k1)) as (offset & k2 & Eo). rewrite Eo.
  eexists where_, limit, offset, _. split_and!; [done| | |].
  - by apply (count_add _ _ _ _ k2) in El.
  - apply (count_add _ _ _ _ []) in Eo. by rewrite app_nil_r in Eo.
  - intros r. by rewrite <- app_assoc, Hm.
Qed.

Lemma ListTestRuns_spec c req w r w' :
  schema (pool_tables w) → PostgresStore.ListTestRuns c req w = Done (r, w') →
  pool_tables w' = pool_tables w ∧
  match r with
  | Ok runs => ∃ all, NoDup (tr_ID <$> all) ∧ Sorted (λ x y, tr_CreatedAt y ≤ tr_CreatedAt x) all ∧
      (∀ run, run ∈ all ↔ runs_of (pool_tables w) !! tr_ID run = Some run ∧ run_matches req run = true) ∧
      runs = page (wanted (ltr_Limit req)) (wanted (ltr_Offset req)) all
  | Err _ => True
  end.
Proof.
  intros Hdb. unfold PostgresStore.ListTestRuns. destruct (list_runs_spec req) as (where_ & limit & offset & args & -> & <- & <- & Hm).
  intros E. apply (Query_select _ run_values) in E as [Hw Hr]; [|apply eval_run]. split; [done|].
  destruct r as [runs|]; [|done]. destruct Hr as (l & Hl & Ho & Hruns).
  assert (Hty : ∀ id r, rows_of (pool_tables w) "test_runs" !! id = Some r → row_typed test_runs id r)
    by (intros id r; eapply rows_typed; apply Hdb).
  assert (Hin : ∀ r, r ∈ l → ∃ id, row_typed test_runs id r).
  { intros r Hr. rewrite Hl in Hr. apply list_elem_of_fmap in Hr as ([k r'] & -> & Hk%elem_of_map_to_list).
    apply map_lookup_filter_Some in Hk as [Hk _]. eauto. }
  destruct (mapM read_run l) as [all|] eqn:Eall.
  2: { exfalso. apply mapM_None, Exists_exists in Eall as (r & Hr & Hn). destruct (Hin r Hr) as [id Hid].
       by destruct (read_run_typed id r Hid) as (run & ? & _); simplify_eq. }
  exists all. destruct (read_keyed read_run tr_ID (matches args where_) (run_matches req)
    (rows_of (pool_tables w) "test_runs") l all) as [Hnd Helem]; [|done..|].
  { intros id r Hr. destruct (read_run_typed id r (Hty _ _ Hr)) as (run & Hread & Hid). exists run. split_and!; [done..|].
    rewrite Hm. by eapply run_filter; [apply Hty|]. }
  split_and!; [done| |done|].
  - eapply (read_ordered read_run tr_CreatedAt "created_at" true); [|done..]. intros r run Hr Hread. destruct (Hin r Hr) as [id Hid].
    by eapply run_time.
  - apply (mapM_page _ (count_arg args limit) (count_arg args offset)) in Eall. change (λ r, scan_run jsonb_out (run_values r)) with read_run in Hruns.
    congruence.
Qed.

Lemma vm_filter req id r v :
  row_typed vms_table id r → read_vm r = Some v →
  vm_matches req v =
  (negb (bool_decide (lvm_Status req ≠ VMStatusUnset)) ||
   bool_decide (text_of (column_of r "status") = Some (VMStatus_string (lvm_Status req)))) &&
  (negb (bool_decide (lvm_DeviceID req ≠ "")) || bool_decide (text_of (column_of r "device_id") = Some (lvm_DeviceID req))).
Proof.
  intros Hrow Hread. column_kinds Hrow. unfold read_vm, vm_values, scan_vm in Hread. revert Hread. scan_columns.
  intros [= <-]. unfold vm_matches. cbn [vm_DeviceID vm_Status]. scan_columns. rewrite !negb_andb. f_equal.
  - destruct (decide (lvm_Status req = VMStatusUnset)) as [Eu|Eu]; [by rewrite Eu|].
    match goal with |- context [VMStatus_of ?s] =>
      assert (Hs : VMStatus_of s = lvm_Status req ↔ s = VMStatus_string (lvm_Status req))
        by (split; [intros E; by apply VMStatus_of_text in E|intros ->; apply VMStatus_of_string]) end.
    f_equal. repeat case_bool_decide; naive_solver.
  - f_equal. repeat case_bool_decide; simplify_eq; done.
Qed.

Lemma ListVMs_spec c req w r w' :
  schema (pool_tables w) → PostgresStore.ListVMs c req w = Done (r, w') →
  pool_tables w' = pool_tables w ∧
  match r with
  | Ok vs => NoDup (vm_ID <$> vs) ∧ Sorted (λ x y, vm_CreatedAt y ≤ vm_CreatedAt x) vs ∧
      ∀ v, v ∈ vs ↔ vms_of (pool_tables w) !! vm_ID v = Some v ∧ vm_matches req v = true
  | Err _ => True
  end.
Proof.
  intros Hdb. unfold PostgresStore.ListVMs, PostgresStore.list_vms.
  pose proof (filters_match (bool_decide (lvm_Status req ≠ VMStatusUnset)) "status" (VMStatus_string (lvm_Status req))
    (bool_decide (lvm_DeviceID req ≠ "")) "device_id" (lvm_DeviceID req) []) as Hm.
  destruct (PostgresStore.add_filter _ _ _ _) as [where_ args]. rewrite app_nil_r in Hm.
  apply (listing _ vm_values vm_ID vm_CreatedAt (vm_matches req) vms_table); [apply eval_vm| |apply read_vm_typed|..|apply vm_time].
  - intros id r0. eapply rows_typed; apply Hdb.
  - intros id r0 v Hrow Hread. rewrite Hm. by eapply vm_filter.
Qed.

Lemma DeleteVM_spec c id w r w' :
  schema (pool_tables w) → PostgresStore.DeleteVM c id w = Done (r, w') →
  match r with
  | Ok _ => only_vms (pool_tables w) (pool_tables w') (delete id (vms_of (pool_tables w)))
  | Err _ => pool_tables w' = pool_tables w ∨ only_vms (pool_tables w) (pool_tables w') (delete id (vms_of (pool_tables w)))
  end.
Proof.
  intros Hdb. assert (Hdel : ∀ a db', allowed (pool_tables w) (Delete "vms" [ColEq "id" 1]) [VText id] a db' →
    only_vms (pool_tables w) db' (delete id (vms_of (pool_tables w)))).
  { intros a db' (ch & _ & Hr). assert (Hm : ∀ k r, rows_of (pool_tables w) "vms" !! k = Some r →
      matches [VText id] [ColEq "id" 1] r = bool_decide (k = id)) by (intros k r0 Hk; by eapply (matches_id _ _ vms_table); [apply Hdb|apply Hdb|..]).
    pose proof (sc_vms _ Hdb) as Hc. unfold only_vms, runs_of, results_of, vms_of, rows_of, has_columns in *. cbn [run_sql] in Hr.
    destruct (pool_tables w !! "vms") as [t|] eqn:Et; [|done]. injection Hr as <- <-. rewrite lookup_insert_eq, !lookup_insert_ne by done.
    split_and!; [|done..]. cbn [set_rows t_rows]. rewrite <- omap_delete. f_equal. apply map_eq. intros k. apply option_eq. intros r0.
    rewrite map_lookup_filter_Some, lookup_delete_Some. cbn [snd]. split.
    - intros [Hk Hf]. rewrite (Hm _ _ Hk) in Hf. apply bool_decide_eq_false in Hf. naive_solver.
    - intros [Hne Hk]. rewrite (Hm _ _ Hk). rewrite bool_decide_eq_false. naive_solver. }
  unfold PostgresStore.DeleteVM, mbind, M_bind. destruct (PostgresStore.Exec c _ _ w) as [[o w1]|] eqn:Ex; [|done].
  apply Exec_outcome in Ex. intros [= <- <-]. destruct o as [n|e]; cbn [result_bind].
  - destruct Ex as (a & Ha & _). by eapply Hdel.
  - destruct Ex as [->|(a & Ha)]; [by left|right]. by eapply Hdel.
Qed.

(** ** Recovery *)

Local Instance pg_recovery : RecoveryStore W := {|
  rec_ListRunningTestRuns := PostgresStore.ListRunningTestRuns;
  rec_UpdateTestRunStatus := PostgresStore.UpdateTestRunStatus;
  rec_ListOrphanedVMs := PostgresStore.ListOrphanedVMs;
  rec_UpdateVMStatus := PostgresStore.UpdateVMStatus;
|}.

Local Instance pg_recoverable : RecoverableStore W := {|
  rs_ok w := schema (pool_tables w);
  rs_runs w := runs_of (pool_tables w);
  rs_vms w := vms_of (pool_tables w);
|}.

Lemma updates_touched now id st msg db db' :
  updates now id st msg db db' → vms_of db' = vms_of db ∧ touched id st (runs_of db) (runs_of db').
Proof.
  intros (run & Hrun & Hr & _ & Hv). split; [done|]. exists run, (pg_update now st msg run). rewrite Hr. split_and!; [done..| | | |];
    by destruct st.
Qed.

Lemma vm_updates_touched id st db db' :
  vm_updates id st db db' → runs_of db' = runs_of db ∧ vm_touched id st (vms_of db) (vms_of db').
Proof. intros (v & Hv & Hvs & Hr & _). split; [done|]. exists v. by rewrite Hvs. Qed.

Global Instance total_update_status c id st msg : Total (PostgresStore.UpdateTestRunStatus c id st msg).
Proof. apply total_bind; [apply _|]. intros now. destruct (PostgresStore.update_status now id st msg). apply _. Qed.

Lemma pg_contract `{!Recovery.Processes W} :
  (∀ pid, Total (os_SIGKILL pid)) → (∀ pid, Keeps pool_tables (os_SIGKILL pid)) → RecoverableLaws W.
Proof.
  intros Hkill Hkeep. split; try apply _.
  - intros w id run Hw. by apply runs_key.
  - intros c w r w' Hw E. simpl in *. destruct (ListRunningTestRuns_spec c w r w' Hw E) as [Htab Hr]. rewrite Htab.
    split_and!; [done..|]. destruct r; [|done]. naive_solver.
  - intros c id st msg w r w' Hw _ E. simpl in *. split; [by eapply keeps_schema_update_run|].
    destruct (pg_UpdateTestRunStatus_spec c id st msg w r w' Hw E) as [now Hr].
    destruct r as [u|e]; [by eapply updates_touched|]. destruct Hr as [(-> & _ & ->)|Hr]; [by split; [|left]|].
    apply updates_touched in Hr as [-> Hr]. split; [done|by right].
  - intros c w r w' Hw E. simpl in *. destruct (ListOrphanedVMs_spec c w r w' Hw E) as [Htab Hr]. rewrite Htab.
    split_and!; [done..|]. destruct r; [|done]. naive_solver.
  - intros c id st w r w' Hw E. simpl in *. split; [by eapply keeps_schema_update_vm|].
    pose proof (UpdateVMStatus_spec c id st w r w' Hw E) as Hr.
    destruct r as [u|e]; [by eapply vm_updates_touched|]. destruct Hr as [(-> & -> & _)|Hr]; [by split; [|left]|].
    apply vm_updates_touched in Hr as [-> Hr]. split; [done|by right].
  - intros pid w r w' Hw E. simpl in *. by rewrite (Hkeep pid w r w' E).
Qed.

(** C15: the PostgreSQL store, on any server with the documented behaviour,
    implements what recovery relies on: it returns from every call and keeps
    its schema; a listing gives exactly the runs in flight, and the VMs in a
    transient state, of its tables, each once; an update that succeeds changes
    the one row to the new status, and one that fails has done that or nothing. *)
Theorem postgres_keeps_contract `{!Recovery.Processes W} :
  (∀ pid, Total (os_SIGKILL pid)) → (∀ pid, Keeps pool_tables (os_SIGKILL pid)) → RecoverableLaws W.
Proof. apply pg_contract. Qed.

End store.
