(* ===== verification/PostgresBench.v ===== *)
(** * Properties of the PostgreSQL store, and a server to try it on

    A server that carries out the statements one by one, which shows that the
    laws the theorems assume can hold; the store's methods as steps on what
    the tables hold; the connection; and where the two stores differ. *)
From Stdlib Require Import Ascii SpecFloat.
From stdpp Require Import sorting options.
Set Default Proof Using "Type*".
From S2P Require Import Prelude GoStd GoChan Types Scheduler Effects MemoryStore Recovery Json Marshal JsonText JsonStruct JsonPrint.
From S2P Require Import StoreContract StepExec Sql Postgres PostgresSpec PostgresRecover.
Open Scope string_scope.
Open Scope list_scope.
Open Scope Z_scope.

(** ** The two stores *)

(** Fields of a run other than its duration. *)
Definition but_duration (r : TestRun) : TestRun :=
  mkTestRun (tr_ID r) (tr_DeviceID r) (tr_TestSuiteID r) (tr_Status r) (tr_VMID r) (tr_Priority r) (tr_CreatedAt r) (tr_StartedAt r)
    (tr_CompletedAt r) 0 (tr_RequestedBy r) (tr_Tags r) (tr_ErrorMessage r).

Lemma durations_close d : Z.abs (round_thousandths d - Z.quot d 1000) ≤ 1.
Proof.
  unfold round_thousandths. destruct (Z.sgn_spec d) as [[Hd ->]|[[Hd ->]|[Hd ->]]]; [| |];
    Z.to_euclidean_division_equations; lia.
Qed.

Lemma whole_fix ns : ns mod 1000 = 0 → whole ns = ns.
Proof. intros H. unfold whole. pose proof (Z.div_mod ns 1000 ltac:(done)). lia. Qed.

(** For times in whole microseconds, a run that was started, and a
    message or none before, the two stores make the same of a change of
    status, but for the duration, which PostgreSQL rounds and the in-memory
    store cuts off; in the other cases they differ: without a new message
    PostgreSQL removes the old one and the in-memory store keeps it, and a run
    that ends before it was started lasts from its creation in PostgreSQL and
    keeps its old duration in memory. *)
Theorem stores_agree_on_status now st msg run :
  (now mod 1000 = 0 → (∀ s, tr_StartedAt run = Some s → s mod 1000 = 0 ∧ - max_int64 ≤ now - s ≤ max_int64) →
   is_Some (tr_StartedAt run) → msg ≠ "" ∨ tr_ErrorMessage run = "" →
   but_duration (pg_update now st msg run) = but_duration (update_run now st msg run) ∧
   Z.abs (tr_DurationMs (pg_update now st msg run) - tr_DurationMs (update_run now st msg run)) ≤ 1) ∧
  tr_ErrorMessage (pg_update now st "" run) = "" ∧ tr_ErrorMessage (update_run now st "" run) = tr_ErrorMessage run ∧
  (terminal st = true → tr_StartedAt run = None →
   tr_DurationMs (pg_update now st msg run) = round_thousandths (now / 1000 - tr_CreatedAt run / 1000) ∧
   tr_DurationMs (update_run now st msg run) = tr_DurationMs run).
Proof.
  split_and!; [|by destruct st|by destruct st|intros Ht Hs; destruct st; try done; unfold pg_update, update_run; simpl; by rewrite Hs].
  intros Hnow Hs [s Es] Hmsg. destruct (Hs s Es) as [Hs0 Hrange].
  assert (Hm : (if decide (msg ≠ "") then msg else tr_ErrorMessage run) = msg) by (case_decide; naive_solver).
  assert (Hd : Z.abs (round_thousandths (now / 1000 - s / 1000) - Milliseconds (time_Sub now s)) ≤ 1).
  { unfold Milliseconds, time_Sub. replace (Z.max min_int64 (Z.min max_int64 (now - s))) with (now - s)
      by (unfold min_int64, max_int64 in *; lia).
    pose proof (durations_close (now / 1000 - s / 1000)). pose proof (Z.div_mod now 1000 ltac:(done)).
    pose proof (Z.div_mod s 1000 ltac:(done)).
    assert (Z.quot (now - s) 1000000 = Z.quot (now / 1000 - s / 1000) 1000) as ->; [|done].
    replace (now - s) with ((now / 1000 - s / 1000) * 1000) by lia. by rewrite <- (Z.quot_mul_cancel_r _ 1000 1000). }
  unfold pg_update, update_run, but_duration. rewrite Hm, Es, (whole_fix now Hnow). destruct st; simpl; split; try done; lia.
Qed.

(** ** A server *)

Record pg_world : Type := mkPgWorld {
  pw_db : database;
  pw_clock : Z;
  pw_next : nat;
  pw_open : bool;
}.

Definition by_time (order : option (string * bool)) (x y : string * row) : Prop :=
  match order with
  | Some (c, true) => time_in c y.2 ≤ time_in c x.2
  | Some (c, false) => time_in c x.2 ≤ time_in c y.2
  | None => True
  end.

Global Instance by_time_dec order : RelDecision (by_time order).
Proof. intros x y. unfold by_time. destruct order as [[c []]|]; apply _. Defined.

(** The rows in the order that the statement asks for. *)
Definition visit (db : database) (q : statement) : list string :=
  match table_of q with
  | Some name =>
    match db !! name with
    | Some t => (merge_sort (by_time (match q with Select _ _ _ o _ _ => o | _ => None end)) (map_to_list (t_rows t))).*1
    | None => []
    end
  | None => []
  end.

Definition choose (w : pg_world) (q : statement) : choice :=
  mkChoice (sprint_id "uuid" (Z.of_nat (pw_next w))) (pw_clock w) (visit (pw_db w) q).

Global Instance pg_database : Database pg_world := {|
  pool_Do _ q args w :=
    Done (match run_sql (choose w q) (pw_db w) q args with
          | Some (a, db') => (Ok (a, None), mkPgWorld db' (pw_clock w) (S (pw_next w)) (pw_open w))
          | None => (Err "statement failed", w)
          end);
  pool_Ping _ := mret (Ok tt);
  pool_tables := pw_db;
  jsonb_out := print;
  scan_error _ := "cannot scan";
|}.

Global Instance pg_runtime : Runtime pg_world := {|
  rt_Now w := Done (pw_clock w, mkPgWorld (pw_db w) (pw_clock w + 1500) (pw_next w) (pw_open w));
  rt_cancelled _ _ := false;
  rt_clock := pw_clock;
  rt_Sleep _ := mret tt;
  rt_ResubmitLater _ := mret tt;
|}.

Global Instance pg_pools : Pools pg_world := {|
  pgxpool_ParseConfig dsn := if decide (dsn = "") then Err "empty" else Ok 4;
  pgxpool_NewWithConfig _ _ _ w := Done (Ok tt, mkPgWorld (pw_db w) (pw_clock w) (pw_next w) true);
  pool_Close w := Done (tt, mkPgWorld (pw_db w) (pw_clock w) (pw_next w) false);
  pool_open := pw_open;
|}.

Global Instance zero_text : FloatText := λ _, "0".

Global Instance nil_slices : NilSlices := {| nil_tags _ := true; nil_ports _ := true; nil_metrics _ := true |}.

Lemma same_object_intro l l' :
  NoDup l'.*1 → length l = length l' → (∀ k x, (k, x) ∈ l → ∃ x', (k, x') ∈ l' ∧ same_json x x') → same_json (JObj l) (JObj l').
Proof.
  intros Hnd Hlen Hin. cbn [same_json]. split_and!; [done..|]. clear Hlen. induction l as [|[k x] l IH]; [done|]. split.
  - apply Hin. left.
  - apply IH. intros k' x' Hx. apply Hin. by right.
Qed.

Lemma keeps_member l k x : jsonb_keeps (JObj l) → (k, x) ∈ l → jsonb_keeps x.
Proof.
  intros [_ Hk]. induction l as [|[k' x'] l IH]; intros Hin; [by apply not_elem_of_nil in Hin|]. destruct Hk as [Hx Hk].
  apply elem_of_cons in Hin as [[= -> ->]|Hin]; [done|by apply IH].
Qed.

Lemma same_json_refl d v : printable d v → jsonb_keeps v → same_json v v.
Proof.
  revert v. induction d as [|d IH]; intros [|b|lit|s|l|l] Hp Hk; try done.
  - cbn [printable same_json jsonb_keeps] in *. revert Hp Hk. induction l as [|x l IHl]; [done|].
    intros [Hx Hl]%Forall_cons [Hkx Hkl]. split; [by apply IH|by apply IHl].
  - apply same_object_intro; [apply Hk|done|]. intros k x Hx. exists x. split; [done|]. apply IH; [|by eapply keeps_member].
    cbn [printable] in Hp. rewrite Forall_forall in Hp. by apply (Hp (k, x)).
Qed.

Lemma visit_legal w q : legal (choose w q) (pw_db w) q.
Proof.
  intros name t Hq Ht. unfold choose, visit, iteration_of. cbn [ch_order]. rewrite Hq, Ht. by rewrite merge_sort_Permutation.
Qed.

(** The server has the documented behaviour. *)
Global Instance pg_laws : DatabaseLaws pg_world.
Proof.
  split; try apply _.
  - intros c q args w. simpl. destruct (run_sql _ _ _ _) as [[a db']|]; eauto.
  - intros w. simpl. eauto.
  - intros c q args w a e w'. simpl. destruct (run_sql _ _ _ _) as [[a' db']|] eqn:E; [|done]. intros [= <- <- <-]. exists a'.
    split; [|done]. exists (choose w q). split; [apply visit_legal|exact E].
  - intros c q args w e w'. simpl. destruct (run_sql _ _ _ _) as [[a' db']|] eqn:E; [done|]. intros [= <- <-]. by left.
  - intros w a w' [= <- <-]. done.
  - intros d v Hp Hd Hk. exists v. split; [by apply (parse_print d)|by eapply same_json_refl].
Qed.

(** ** What the store promises *)

Section store.
Context {W : Type} `{!Database W, !Runtime W} {FT : FloatText} {NS : NilSlices} `{!DatabaseLaws W}.

(** C11: the methods of the PostgreSQL store are steps on three maps, of runs,
    results and VMs.  A read answers from them and changes nothing.  A write
    that succeeds changes the one entry it names: a new run or result gets an
    identifier no other has, a result belongs to a run that is there, a change
    of status updates one run, a VM that is saved again keeps the columns that
    do not change.  A write that fails has done this or nothing. *)
Theorem postgres_store_refines c w :
  schema (pool_tables w) →
  let db := pool_tables w in
  (∀ run r w', Forall valid_string (tr_Tags run) → PostgresStore.CreateTestRun c run w = Done (r, w') →
     match r with
     | Ok run' => creates run db run' (pool_tables w')
     | Err _ => pool_tables w' = db ∨ ∃ run', creates run db run' (pool_tables w')
     end) ∧
  (∀ id r w', PostgresStore.GetTestRun c id w = Done (r, w') →
     pool_tables w' = db ∧
     match r with
     | Ok run => runs_of db !! id = Some run
     | Err e => (∃ e', e = "querying test run: " +:+ e') ∨ (e = run_not_found id ∧ runs_of db !! id = None)
     end) ∧
  (∀ id st msg r w', PostgresStore.UpdateTestRunStatus c id st msg w = Done (r, w') →
     ∃ now, match r with
            | Ok _ => updates now id st msg db (pool_tables w')
            | Err _ => only_runs db (pool_tables w') (runs_of db) ∨ updates now id st msg db (pool_tables w')
            end) ∧
  (∀ req r w', PostgresStore.ListTestRuns c req w = Done (r, w') →
     pool_tables w' = db ∧
     match r with
     | Ok runs => ∃ all, NoDup (tr_ID <$> all) ∧ Sorted (λ x y, tr_CreatedAt y ≤ tr_CreatedAt x) all ∧
         (∀ run, run ∈ all ↔ runs_of db !! tr_ID run = Some run ∧ run_matches req run = true) ∧
         runs = page (wanted (ltr_Limit req)) (wanted (ltr_Offset req)) all
     | Err _ => True
     end) ∧
  (∀ res r w', metrics_kept (res_Metrics res) → PostgresStore.SaveTestResult c res w = Done (r, w') →
     match r with
     | Ok res' => saves_result res db res' (pool_tables w')
     | Err _ => pool_tables w' = db ∨ ∃ res', saves_result res db res' (pool_tables w')
     end) ∧
  (∀ runID r w', PostgresStore.GetTestResults c runID w = Done (r, w') →
     pool_tables w' = db ∧
     match r with
     | Ok rs => NoDup (res_ID <$> rs) ∧ Sorted (λ x y, res_CompletedAt x ≤ res_CompletedAt y) rs ∧
         ∀ res, res ∈ rs ↔ results_of db !! res_ID res = Some res ∧ res_TestRunID res = runID
     | Err _ => True
     end) ∧
  (∀ v r w', Forall valid_string (vm_SerialPorts v) → PostgresStore.SaveVM c v w = Done (r, w') →
     match r with
     | Ok _ => saves v db (pool_tables w')
     | Err _ => pool_tables w' = db ∨ saves v db (pool_tables w')
     end) ∧
  (∀ id r w', PostgresStore.DeleteVM c id w = Done (r, w') →
     match r with
     | Ok _ => only_vms db (pool_tables w') (delete id (vms_of db))
     | Err _ => pool_tables w' = db ∨ only_vms db (pool_tables w') (delete id (vms_of db))
     end) ∧
  (∀ req r w', PostgresStore.ListVMs c req w = Done (r, w') →
     pool_tables w' = db ∧
     match r with
     | Ok vs => NoDup (vm_ID <$> vs) ∧ Sorted (λ x y, vm_CreatedAt y ≤ vm_CreatedAt x) vs ∧
         ∀ v, v ∈ vs ↔ vms_of db !! vm_ID v = Some v ∧ vm_matches req v = true
     | Err _ => True
     end).
Proof.
  intros Hdb db. split_and!; intros.
  - by eapply CreateTestRun_spec.
  - by eapply GetTestRun_spec.
  - by eapply pg_UpdateTestRunStatus_spec.
  - by eapply ListTestRuns_spec.
  - by eapply SaveTestResult_spec.
  - by eapply GetTestResults_spec.
  - by eapply SaveVM_spec.
  - by eapply DeleteVM_spec.
  - by eapply ListVMs_spec.
Qed.

(** C28: what the PostgreSQL store has written, it reads back, when both calls
    succeed: a created run as [CreateTestRun] returned it but for the times of
    its start and end and its duration, which a new row does not have; a saved
    result, with the identifier and the time it was given, among the results of
    its run; a VM with a new identifier and a time of creation as it was saved;
    all times in whole microseconds.  The tags and ports and the names of the
    metrics are valid UTF-8, and the metrics finite numbers other than -0 whose
    text is read back as the number. *)
Theorem postgres_reads_back c c' w :
  schema (pool_tables w) →
  (∀ run run' w1 r w2, Forall valid_string (tr_Tags run) → PostgresStore.CreateTestRun c run w = Done (Ok run', w1) →
     PostgresStore.GetTestRun c' (tr_ID run') w1 = Done (Ok r, w2) → r = new_row run') ∧
  (∀ res res' w1 rs w2, metrics_kept (res_Metrics res) → PostgresStore.SaveTestResult c res w = Done (Ok res', w1) →
     PostgresStore.GetTestResults c' (res_TestRunID res) w1 = Done (Ok rs, w2) →
     saved_result (res_ID res') (whole (res_CompletedAt res')) res ∈ rs) ∧
  (∀ v w1 r w2, Forall valid_string (vm_SerialPorts v) → vm_CreatedAt v ≠ 0 → vms_of (pool_tables w) !! vm_ID v = None →
     PostgresStore.SaveVM c v w = Done (Ok tt, w1) →
     PostgresStore.GetVM c' (vm_ID v) w1 = Done (Ok r, w2) → r = saved_vm (vm_CreatedAt v) v).
Proof.
  intros Hdb. split_and!.
  - intros run run' w1 r w2 Htags E1 E2. destruct (CreateTestRun_spec _ _ _ _ _ Hdb Htags E1) as (_ & _ & Hruns & _).
    destruct (GetTestRun_spec _ _ _ _ _ (keeps_schema_create _ _ _ _ _ E1 Hdb) E2) as [_ Hr].
    rewrite Hruns, lookup_insert_eq in Hr. congruence.
  - intros res res' w1 rs w2 Hm E1 E2. destruct (SaveTestResult_spec _ _ _ _ _ Hdb Hm E1) as (_ & _ & _ & _ & Hres & _).
    destruct (GetTestResults_spec _ _ _ _ _ (keeps_schema_save_result _ _ _ _ _ E1 Hdb) E2) as [_ (_ & _ & Hin)].
    apply Hin. rewrite Hres. cbn [saved_result res_ID res_TestRunID]. by rewrite lookup_insert_eq.
  - intros v w1 r w2 Hports Hc Hnew E1 E2. destruct (SaveVM_spec _ _ _ _ _ Hdb Hports E1) as (created & Hcr & Hvms & _).
    destruct (GetVM_spec _ _ _ _ _ (keeps_schema_save_vm _ _ _ _ _ E1 Hdb) E2) as [_ Hr].
    rewrite Hvms, lookup_insert_eq, Hnew, Hcr in Hr by done. congruence.
Qed.

(** Making and closing pools: a pool that could not be made is not open, a
    closed one is not open, and statements open and close nothing. *)
Context `{!Pools W}.

Record pool_laws : Prop := mkPoolLaws {
  pl_new c dsn n : Total (pgxpool_NewWithConfig c dsn n);
  pl_close : Total pool_Close;
  pl_new_open c dsn n w r w' : pgxpool_NewWithConfig c dsn n w = Done (r, w') →
    pool_open w' = (pool_open w || is_ok r) ∧ pool_tables w' = pool_tables w;
  pl_close_open w r w' : pool_Close w = Done (r, w') → pool_open w' = false ∧ pool_tables w' = pool_tables w;
  pl_do c q args : Keeps pool_open (pool_Do c q args);
  pl_ping c : Keeps pool_open (pool_Ping c);
}.

(** [NewPostgresStore] returns; when it fails it leaves no pool open,
    and when it succeeds the pool is open and the tables have the schema,
    which they had before or which it created. *)
Theorem connecting_leaves_nothing_open c dsn n w :
  pool_laws → pool_open w = false → sound (pool_tables w) →
  schema (pool_tables w) ∨ (∀ name, name ∈ ["test_runs"; "test_results"; "vms"] → pool_tables w !! name = None) →
  ∃ r w', PostgresStore.NewPostgresStore c dsn n w = Done (r, w') ∧ pool_open w' = is_ok r ∧ (r = Ok tt → schema (pool_tables w')) ∧
    (schema (pool_tables w) → pool_tables w' = pool_tables w).
Proof.
  intros [Hnew Hclose Hno Hco Hdo Hping] Hopen Hsound Hbefore. unfold PostgresStore.NewPostgresStore.
  destruct (pgxpool_ParseConfig dsn) as [n0|e]; [|eexists _, w; by split_and!].
  destruct (Hnew c dsn (if decide (0 < n) then int32 n else n0) w) as (r & w1 & E1). erewrite M_bind_done by exact E1.
  destruct (Hno _ _ _ _ _ _ E1) as [Ho1 Ht1]. rewrite Hopen in Ho1. destruct r as [u|e]; [|eexists _, w1; by split_and!].
  destruct (ping_total c w1) as (p & w2 & E2). erewrite M_bind_done by exact E2. pose proof (Hping c _ _ _ E2) as Ho2.
  pose proof (keeps pool_tables _ _ _ _ E2) as Ht2.
  assert (Hfail : ∀ (e : string) w0, (schema (pool_tables w) → pool_tables w0 = pool_tables w) →
    ∃ r w', (_ ← pool_Close; mret (Err (A := unit) e)) w0 = Done (r, w') ∧ pool_open w' = is_ok r ∧
    (r = Ok tt → schema (pool_tables w')) ∧ (schema (pool_tables w) → pool_tables w' = pool_tables w)).
  { intros e w0 H0. destruct (Hclose w0) as (x & w' & E). eexists _, w'. split; [by erewrite M_bind_done by exact E|].
    destruct (Hco _ _ _ E) as [-> ->]. done. }
  destruct p as [u'|e]; [|apply Hfail; congruence].
  assert (Total (PostgresStore.ensureSchema c)) as Htot by apply _. destruct (Htot w2) as (m & w3 & E3).
  assert (Ht3 : schema (pool_tables w) → pool_tables w3 = pool_tables w).
  { intros Hs. rewrite <- Ht1, <- Ht2 in *. by eapply ensureSchema_leaves. }
  erewrite M_bind_done by exact E3. destruct m as [[]|e]; [|by apply Hfail]. exists (Ok tt), w3. split; [done|].
  assert (Hk : Keeps pool_open (PostgresStore.ensureSchema c)) by (unfold PostgresStore.ensureSchema, PostgresStore.Exec; apply _).
  rewrite (keeps pool_open _ _ _ _ E3), Ho2, Ho1. split_and!; [done| |done]. intros _. clear Ht3. rewrite <- Ht1, <- Ht2 in *.
  destruct Hbefore as [Hs|Hn]; [|by eapply ensureSchema_creates]. by eapply (keeps_schema_ensure c).
Qed.

End store.

(** ** Witnesses *)

Definition fresh_server : pg_world := mkPgWorld ∅ 1000000000 0 false.

Definition final {A : Type} (r : go (A * pg_world)) : pg_world := match r with Done (_, w) => w | Panics _ => fresh_server end.

(** A server with the schema, and one on which a run was created and started and a VM booted. *)
Definition empty_server : pg_world := final (PostgresStore.ensureSchema Background fresh_server).

Definition used_server : pg_world :=
  final ((_ ← PostgresStore.CreateTestRun Background (blank_run "" "dev0" "smoke");
          _ ← PostgresStore.CreateTestRun Background (blank_run "" "dev1" "smoke");
          _ ← PostgresStore.UpdateTestRunStatus Background "uuid-2" TestRunStatusRunning "";
          PostgresStore.SaveVM Background sample_vm) empty_server).

Lemma fresh_sound : sound (pool_tables fresh_server).
Proof. split; by apply map_Forall_empty. Qed.

Lemma empty_schema : schema (pool_tables empty_server).
Proof. apply (ensureSchema_creates Background fresh_server); [apply fresh_sound|done|]. vm_compute. reflexivity. Qed.

Lemma final_schema {A : Type} (c : M pg_world A) w :
  keeps_schema c → schema (pool_tables w) → is_ok (match c w with Done _ => Ok tt | Panics why => Err why end) = true →
  schema (pool_tables (final (c w))).
Proof. intros Hc Hw Hd. destruct (c w) as [[a w']|] eqn:E; [by eapply Hc|done]. Qed.

Lemma used_schema : schema (pool_tables used_server).
Proof.
  apply final_schema; [|apply empty_schema|vm_compute; reflexivity].
  repeat (apply keeps_schema_bind; [first [apply keeps_schema_create | apply keeps_schema_update_run]|intros ?]). apply keeps_schema_save_vm.
Qed.

Lemma store_keeps_schema_witness : schema (pool_tables (final (PostgresStore.ListOrphanedVMs Background used_server))).
Proof.
  destruct (store_keeps_schema (W := pg_world)) as (_ & _ & _ & _ & _ & _ & _ & _ & _ & _ & _ & _ & _ & _ & H & _).
  apply (final_schema _ used_server (H Background) used_schema). vm_compute. reflexivity.
Defined.

(** A server that is not asked to kill anything. *)
Local Instance no_processes : Recovery.Processes pg_world := {| os_SIGKILL _ := mret (Ok tt) |}.

Local Existing Instance pg_recovery.
Local Existing Instance pg_recoverable.

Definition bench_listed : list TestRun :=
  match PostgresStore.ListRunningTestRuns Background used_server with Done (Ok l, _) => l | _ => [] end.

Lemma postgres_keeps_contract_witness :
  length bench_listed = 2%nat ∧ NoDup (tr_ID <$> bench_listed) ∧
  ∀ run, run ∈ bench_listed ↔ runs_of (pool_tables used_server) !! tr_ID run = Some run ∧ in_flight run = true.
Proof.
  split; [vm_compute; reflexivity|].
  pose proof (postgres_keeps_contract (W := pg_world) (λ _, total_ret _) (λ _, keeps_ret _ _)) as Hc.
  assert (E : rec_ListRunningTestRuns Background used_server = Done (Ok bench_listed, final (PostgresStore.ListRunningTestRuns Background used_server)))
    by (vm_compute; reflexivity).
  exact (proj2 (proj2 (proj2 (list_runs_law (RecoverableLaws := Hc) Background used_server _ _ used_schema E)))).
Defined.

(** What a call on the server answered. *)
Definition answered {A : Type} (d : A) (r : go (result A * pg_world)) : A := match r with Done (Ok a, _) => a | _ => d end.

Definition succeeds {A : Type} (r : go (result A * pg_world)) : bool := match r with Done (Ok _, _) => true | _ => false end.

Lemma succeeds_done {A : Type} (d : A) r : succeeds r = true → r = Done (Ok (answered d r), final r).
Proof. by destruct r as [[[a|e] w]|why]. Qed.

Definition bench_request : TestRun := blank_run "" "dev0" "smoke".

Definition bench_create : go (result TestRun * pg_world) := PostgresStore.CreateTestRun Background bench_request used_server.

Definition bench_created : TestRun := answered bench_request bench_create.

Definition bench_get : go (result TestRun * pg_world) := PostgresStore.GetTestRun Background (tr_ID bench_created) (final bench_create).

Lemma postgres_store_refines_witness : creates bench_request (pool_tables used_server) bench_created (pool_tables (final bench_create)).
Proof.
  assert (E : bench_create = Done (Ok bench_created, final bench_create)) by (apply succeeds_done; vm_compute; reflexivity).
  exact (proj1 (postgres_store_refines Background used_server used_schema) bench_request _ _ (Forall_nil_2 _) E).
Defined.

Lemma postgres_reads_back_witness : answered bench_request bench_get = new_row bench_created.
Proof.
  assert (E1 : bench_create = Done (Ok bench_created, final bench_create)) by (apply succeeds_done; vm_compute; reflexivity).
  assert (E2 : bench_get = Done (Ok (answered bench_request bench_get), final bench_get)) by (apply succeeds_done; vm_compute; reflexivity).
  exact (proj1 (postgres_reads_back Background Background used_server used_schema) bench_request _ _ _ _ (Forall_nil_2 _) E1 E2).
Defined.

Lemma connecting_leaves_nothing_open_witness :
  ∃ r w', PostgresStore.NewPostgresStore Background "postgres://dvf" 10 fresh_server = Done (r, w') ∧ pool_open w' = is_ok r.
Proof.
  destruct (connecting_leaves_nothing_open Background "postgres://dvf" 10 fresh_server) as (r & w' & E & Ho & _); [|done|apply fresh_sound|by right|eauto].
  split; try done.
  - intros c dsn n w. simpl. eauto.
  - intros w. simpl. eauto.
  - intros c dsn n w r w' [= <- <-]. simpl. by rewrite orb_true_r.
  - intros w r w' [= <- <-]. done.
  - intros c q args w r w'. simpl. by destruct (run_sql _ _ _ _) as [[a db']|]; intros [= <- <-].
  - intros c w r w' [= <- <-]. done.
Defined.
