(* ===== verification/Interfaces.v ===== *)
(** * What the execution engine calls

    The interfaces of [core/execution_engine.go] that mention devices and
    allocations, the lifecycle events of [telemetry/event_bus.go], and two
    kinds of worlds: [logged W], which is any world [W] with the record of
    every call the engine makes and of its answer, and [sim], a concrete
    world with the in-memory store, the allocator and scripted answers of the
    VMs and their agents, on which definitions can be evaluated. *)
From stdpp Require Import options.
From S2P Require Import Prelude GoStd Types Allocator MemoryStore Effects Config StepExec.
Open Scope string_scope.
Open Scope list_scope.
Open Scope Z_scope.

(** ** Events *)

Inductive EventType : Set :=
| EventTestRunSubmitted
| EventTestRunStarted
| EventTestRunCompleted
| EventTestRunCancelled
| EventVMCreated
| EventVMReady
| EventVMDestroyed
| EventDriverLoaded
| EventTestResultSaved.

Inductive payload : Type :=
| PayString (s : string)
| PayInt (z : Z)
| PayStrings (l : list string).

Record Event : Type := mkEvent {
  ev_Type : EventType;
  ev_EntityID : string;
  ev_DeviceID : string;
  ev_Status : string;
  ev_Payload : list (string * payload);
}.

(** ** Interfaces *)

(** [VMManagerInterface]; the configuration the engine passes is the device. *)
Class VMManagerInterface (W : Type) := {
  CreateVM : ctx → DeviceEntry → M W (result VMInstance);
  StartVM : ctx → string → M W (result unit);
  StopVM : ctx → string → M W (result unit);
  DestroyVM : ctx → string → M W (result unit);
}.

(** The engine's [*ResourceAllocator]. *)
Class AllocatorInterface (W : Type) := {
  al_TryAcquire : Allocation → M W bool;
  al_Release : Allocation → M W unit;
}.

(** The engine's [*Scheduler], as those who submit runs see it. *)
Class SchedulerInterface (W : Type) := {
  sched_Enqueue : TestRun → M W unit;
}.

(** The engine's [*telemetry.EventBus] and [*observability.AuditLogger]. *)
Class Telemetry (W : Type) := {
  Publish : ctx → Event → M W (result unit);
  LogCancel : string → string → M W unit;
  LogComplete : string → string → Z → M W unit;
  LogVMEvent : string → string → string → string → M W unit;
}.

Class SafeVMs (W : Type) `{!VMManagerInterface W} : Prop := {
  #[global] safe_create c d :: Total (CreateVM c d);
  #[global] safe_start c id :: Total (StartVM c id);
  #[global] safe_stop c id :: Total (StopVM c id);
  #[global] safe_destroy c id :: Total (DestroyVM c id);
}.

Class SafeAllocator (W : Type) `{!AllocatorInterface W} : Prop := {
  #[global] safe_acquire a :: Total (al_TryAcquire a);
  #[global] safe_release a :: Total (al_Release a);
}.

Class SafeTelemetry (W : Type) `{!Telemetry W} : Prop := {
  #[global] safe_publish c ev :: Total (Publish c ev);
  #[global] safe_cancel id who :: Total (LogCancel id who);
  #[global] safe_complete id st d :: Total (LogComplete id st d);
  #[global] safe_vm_event what vm dev run :: Total (LogVMEvent what vm dev run);
}.

(** ** Logged worlds *)

(** A call and its answer. *)
Inductive log_event : Type :=
| LgStatus (id : string) (st : TestRunStatus) (msg : string) (r : result unit)
| LgResults (id : string) (r : result (list TestResult))
| LgSave (res : TestResult) (r : result unit)
| LgCreateVM (device : DeviceEntry) (r : result VMInstance)
| LgStartVM (vmID : string) (r : result unit)
| LgStopVM (c : ctx) (vmID : string) (r : result unit)
| LgDestroyVM (c : ctx) (vmID : string) (r : result unit)
| LgRegister (vmID : string)
| LgUnregister (vmID : string)
| LgWait (vmID : string) (r : result unit)
| LgSend (vmID : string) (cmd : AgentCommand) (r : result AgentResult)
| LgAcquire (a : Allocation) (granted : bool)
| LgRelease (a : Allocation)
| LgPublish (e : Event)
| LgAudit (what : string) (id : string)
| LgResubmit (run : TestRun).

Definition logged (W : Type) : Type := (W * list log_event)%type.

Definition log_call {W A : Type} (c : M W A) (mk : A → log_event) : M (logged W) A := λ '(w, tr),
  match c w with
  | Done (a, w') => Done (a, (w', tr ++ [mk a]))
  | Panics why => Panics why
  end.

(** A call that leaves no record. *)
Definition silent {W A : Type} (c : M W A) : M (logged W) A := λ '(w, tr),
  match c w with
  | Done (a, w') => Done (a, (w', tr))
  | Panics why => Panics why
  end.

Section logged.
Context {W : Type} `{!EngineStore W, !Runtime W, !AgentCoordinatorInterface W, !VMManagerInterface W,
  !AllocatorInterface W, !Telemetry W, !FileSystem W}.

Global Instance logged_store : EngineStore (logged W) := {|
  UpdateTestRunStatus c id st msg := log_call (UpdateTestRunStatus c id st msg) (LgStatus id st msg);
  GetTestResults c id := log_call (GetTestResults c id) (LgResults id);
  SaveTestResult c res := log_call (SaveTestResult c res) (LgSave res);
|}.

Global Instance logged_runtime : Runtime (logged W) := {|
  rt_Now := silent rt_Now;
  rt_cancelled r x := rt_cancelled r x.1;
  rt_clock x := rt_clock x.1;
  rt_Sleep d := silent (rt_Sleep d);
  rt_ResubmitLater run := log_call (rt_ResubmitLater run) (λ _, LgResubmit run);
|}.

Global Instance logged_agents : AgentCoordinatorInterface (logged W) := {|
  RegisterVM id := log_call (RegisterVM id) (λ _, LgRegister id);
  UnregisterVM id := log_call (UnregisterVM id) (λ _, LgUnregister id);
  WaitForAgent c id := log_call (WaitForAgent c id) (LgWait id);
  SendCommand c id cmd := log_call (SendCommand c id cmd) (LgSend id cmd);
|}.

Global Instance logged_vms : VMManagerInterface (logged W) := {|
  CreateVM c d := log_call (CreateVM c d) (LgCreateVM d);
  StartVM c id := log_call (StartVM c id) (LgStartVM id);
  StopVM c id := log_call (StopVM c id) (LgStopVM c id);
  DestroyVM c id := log_call (DestroyVM c id) (LgDestroyVM c id);
|}.

Global Instance logged_allocator : AllocatorInterface (logged W) := {|
  al_TryAcquire a := log_call (al_TryAcquire a) (LgAcquire a);
  al_Release a := log_call (al_Release a) (λ _, LgRelease a);
|}.

Global Instance logged_telemetry : Telemetry (logged W) := {|
  Publish c e := log_call (Publish c e) (λ _, LgPublish e);
  LogCancel id by_ := log_call (LogCancel id by_) (λ _, LgAudit "test_run.cancelled" id);
  LogComplete id st d := log_call (LogComplete id st d) (λ _, LgAudit "test_run.completed" id);
  LogVMEvent what vm dev run := log_call (LogVMEvent what vm dev run) (λ _, LgAudit what vm);
|}.

Global Instance logged_files : FileSystem (logged W) := {|
  os_Getwd := silent os_Getwd;
  os_Stat p := silent (os_Stat p);
  os_ReadFile p := silent (os_ReadFile p);
|}.

End logged.

Global Instance total_log_call {W A : Type} (c : M W A) mk : Total c → Total (log_call c mk).
Proof. intros Hc [w tr]. destruct (Hc w) as (a & w' & E). simpl. rewrite E. eauto. Qed.

Global Instance total_silent {W A : Type} (c : M W A) : Total c → Total (silent c).
Proof. intros Hc [w tr]. destruct (Hc w) as (a & w' & E). simpl. rewrite E. eauto. Qed.

(** Recording the calls does not make them panic. *)
Section safe_logged.
Context {W : Type} `{!EngineStore W, !Runtime W, !AgentCoordinatorInterface W, !VMManagerInterface W,
  !AllocatorInterface W, !Telemetry W, !FileSystem W}.

Global Instance logged_safe_store `{!SafeStore W} : SafeStore (logged W).
Proof. split; intros; apply total_log_call, _. Qed.
Global Instance logged_safe_runtime `{!SafeRuntime W} : SafeRuntime (logged W).
Proof. split; intros; [apply total_silent, _..|apply total_log_call, _]. Qed.
Global Instance logged_safe_agents `{!SafeAgents W} : SafeAgents (logged W).
Proof. split; intros; apply total_log_call, _. Qed.
Global Instance logged_safe_vms `{!SafeVMs W} : SafeVMs (logged W).
Proof. split; intros; apply total_log_call, _. Qed.
Global Instance logged_safe_allocator `{!SafeAllocator W} : SafeAllocator (logged W).
Proof. split; intros; apply total_log_call, _. Qed.
Global Instance logged_safe_telemetry `{!SafeTelemetry W} : SafeTelemetry (logged W).
Proof. split; intros; apply total_log_call, _. Qed.
Global Instance logged_safe_files `{!SafeFiles W} : SafeFiles (logged W).
Proof. split; intros; apply total_silent, _. Qed.

End safe_logged.

Lemma wp_log_call {W A : Type} (c : M W A) mk (Q : A → logged W → Prop) w tr :
  (∀ a w', Q a (w', tr ++ [mk a])) → wp (log_call c mk) Q (w, tr).
Proof.
  intros H. apply wp_intro. intros a [w' tr'] E. simpl in E.
  destruct (c w) as [[a0 w0]|]; [|done]. injection E as <- <- <-. apply H.
Qed.

Lemma wp_silent {W A : Type} (c : M W A) (Q : A → logged W → Prop) w tr :
  (∀ a w', Q a (w', tr)) → wp (silent c) Q (w, tr).
Proof.
  intros H. apply wp_intro. intros a [w' tr'] E. simpl in E.
  destruct (c w) as [[a0 w0]|]; [|done]. injection E as <- <- <-. apply H.
Qed.

(** ** A concrete world *)

(** The answers of what lies outside: the VM manager, the agents, the file
    system, and how long a command takes. *)
Record script : Type := mkScript {
  sc_create : DeviceEntry → result VMInstance;
  sc_start : result unit;
  sc_wait : result unit;
  sc_reply : AgentCommand → result AgentResult;
  sc_delay : Z;
  sc_cwd : string;
  sc_files : gmap string string;
}.

Record sim : Type := mkSim {
  sim_script : script;
  sim_store : MemoryStore;
  sim_now : Z;
  sim_budget : ResourceBudget;
  sim_resubmitted : list TestRun;
}.

Definition sim_set_store (m : MemoryStore) (w : sim) : sim :=
  mkSim (sim_script w) m (sim_now w) (sim_budget w) (sim_resubmitted w).
Definition sim_set_now (t : Z) (w : sim) : sim :=
  mkSim (sim_script w) (sim_store w) t (sim_budget w) (sim_resubmitted w).
Definition sim_set_budget (b : ResourceBudget) (w : sim) : sim :=
  mkSim (sim_script w) (sim_store w) (sim_now w) b (sim_resubmitted w).

Definition answer {W A : Type} (f : W → A) : M W A := λ w, Done (f w, w).

Global Instance sim_engine_store : EngineStore sim := {|
  UpdateTestRunStatus _ id st msg := λ w,
    let '(r, m) := MemoryStore.UpdateTestRunStatus (sim_now w) id st msg (sim_store w) in
    Done (r, sim_set_store m w);
  GetTestResults _ id := answer (λ w, Ok (MemoryStore.GetTestResults id (sim_store w)));
  SaveTestResult _ res := λ w,
    Done (Ok tt, sim_set_store (MemoryStore.SaveTestResult res (sim_store w)).2 w);
|}.

Global Instance sim_runtime : Runtime sim := {|
  rt_Now := answer sim_now;
  rt_cancelled _ _ := false;
  rt_clock := sim_now;
  rt_Sleep d := λ w, Done (tt, sim_set_now (sim_now w + d) w);
  rt_ResubmitLater run := λ w,
    Done (tt, mkSim (sim_script w) (sim_store w) (sim_now w) (sim_budget w) (sim_resubmitted w ++ [run]));
|}.

Global Instance sim_agents : AgentCoordinatorInterface sim := {|
  RegisterVM _ := mret tt;
  UnregisterVM _ := mret tt;
  WaitForAgent _ _ := answer (λ w, sc_wait (sim_script w));
  SendCommand _ _ cmd := λ w,
    Done (sc_reply (sim_script w) cmd, sim_set_now (sim_now w + sc_delay (sim_script w)) w);
|}.

Global Instance sim_vms : VMManagerInterface sim := {|
  CreateVM _ d := answer (λ w, sc_create (sim_script w) d);
  StartVM _ _ := answer (λ w, sc_start (sim_script w));
  StopVM _ _ := mret (Ok tt);
  DestroyVM _ _ := mret (Ok tt);
|}.

Global Instance sim_allocator : AllocatorInterface sim := {|
  al_TryAcquire a := λ w,
    let '(ok, b) := TryAcquire a (sim_budget w) in Done (ok, sim_set_budget b w);
  al_Release a := λ w, Done (tt, sim_set_budget (Release a (sim_budget w)) w);
|}.

Global Instance sim_telemetry : Telemetry sim := {|
  Publish _ _ := mret (Ok tt);
  LogCancel _ _ := mret tt;
  LogComplete _ _ _ := mret tt;
  LogVMEvent _ _ _ _ := mret tt;
|}.

Global Instance sim_files : FileSystem sim := {|
  os_Getwd := answer (λ w, Ok (sc_cwd (sim_script w)));
  os_Stat p := answer (λ w, match sc_files (sim_script w) !! p with
                            | Some _ => Ok tt
                            | None => Err ("stat " +:+ p +:+ ": no such file or directory")
                            end);
  os_ReadFile p := answer (λ w, match sc_files (sim_script w) !! p with
                                | Some data => Ok data
                                | None => Err ("open " +:+ p +:+ ": no such file or directory")
                                end);
|}.

(** None of the answers of the concrete world is a panic. *)
Global Instance sim_safe_store : SafeStore sim.
Proof. split; repeat intros ?; simpl; [by case_match; eauto|eauto..]. Qed.
Global Instance sim_safe_runtime : SafeRuntime sim.
Proof. split; repeat intros ?; simpl; eauto. Qed.
Global Instance sim_safe_agents : SafeAgents sim.
Proof. split; repeat intros ?; simpl; unfold mret, M_ret; eauto. Qed.
Global Instance sim_safe_vms : SafeVMs sim.
Proof. split; repeat intros ?; simpl; unfold mret, M_ret; eauto. Qed.
Global Instance sim_safe_allocator : SafeAllocator sim.
Proof. split; repeat intros ?; simpl; [by case_match; eauto|eauto]. Qed.
Global Instance sim_safe_telemetry : SafeTelemetry sim.
Proof. split; repeat intros ?; simpl; unfold mret, M_ret; eauto. Qed.
Global Instance sim_safe_files : SafeFiles sim.
Proof. split; repeat intros ?; simpl; eauto. Qed.

(** A host with eight CPUs where every agent answers as [reply] says. *)
Definition sample_device : DeviceEntry :=
  mkDeviceEntry "gpu0" "GPU" "0x10ee" "0x9038" "0x030200" "dvf-gpgpu" "gpgpu_drv"
    "/mnt/share/gpgpu_drv.ko" "/dev/gpgpu0" "" [] [] ∅ [] ∅ "" "" "".

Definition sample_instance : VMInstance :=
  mkVMInstance "vm-gpu0-1" VMStatusCreating "gpu0" "dvf-gpgpu" "" [] 0 2 2048 "" "" 0
    AgentStatusUnset None "".

Definition reply_all (status output : string) : AgentCommand → result AgentResult := λ cmd,
  Ok (mkAgentResult (ac_ID cmd) status output "" 5).

Definition sample_script (reply : AgentCommand → result AgentResult) : script :=
  mkScript (λ _, Ok sample_instance) (Ok tt) (Ok tt) reply 1000000 "/srv/dvf" ∅.

Definition sample_run : TestRun := blank_run "tr-1" "gpu0" "vishwa/opencl/vecadd".

Definition sample_world (reply : AgentCommand → result AgentResult) : sim :=
  mkSim (sample_script reply) (store_run [OpCreate 0 (blank_run "" "gpu0" "vishwa/opencl/vecadd")])
    0 (mkBudget 8 16384 0 0) [].
