(* ===== verification/TestReports.v ===== *)
(** * From a test binary to the stored results

    The JSON a test binary prints ([TestFramework]) is found by the agent's
    parser ([AgentParser]) whatever else the binary printed, and what the
    agent sends on is read by the engine ([StepExec]) as the results the
    binary recorded. *)
From Stdlib Require Import Ascii SpecFloat.
From stdpp Require Import options.
Set Default Proof Using "Type*".
From S2P Require Import Prelude GoStd Types Effects Json Marshal JsonText Numbers PyText StepExec TestFramework AgentParser Interfaces.
Open Scope string_scope.
Open Scope list_scope.
Open Scope nat_scope.

(** ** The value a suite is *)

Definition test_json (r : TestFramework.TestResult) : json :=
  JObj [("test", JStr (r_test_name r)); ("status", JStr (if r_passed r then "PASS" else "FAIL"));
        ("duration_ms", JNum (fmt_2f (r_duration_ms r))); ("message", JStr (r_message r))].

Definition suite_summary (g : TestFramework.TestSuite) : json :=
  JObj [("total", int_json (s_count g)); ("passed", int_json (s_passed g)); ("failed", int_json (s_failed g));
        ("duration_ms", JNum (fmt_2f (s_total_duration_ms g)))].

Definition suite_json (g : TestFramework.TestSuite) : json :=
  JObj [("suite", JStr (s_suite_name g)); ("results", JArr (test_json <$> s_results g)); ("summary", suite_summary g)].

(** A result as the framework stores it, with a message it can print. *)
Record reportable (r : TestFramework.TestResult) : Prop := mkReportable {
  rp_name : plain (r_test_name r);
  rp_duration : duration (r_duration_ms r);
  rp_message : clean (r_message r);
  rp_short : String.length (r_message r) ≤ 511;
}.

Record suite_reportable (g : TestFramework.TestSuite) : Prop := mkSuiteReportable {
  sp_name : plain (s_suite_name g);
  sp_results : Forall reportable (s_results g);
  sp_duration : duration (s_total_duration_ms g);
  sp_counts : (0 ≤ s_passed g ∧ 0 ≤ s_failed g)%Z;
}.

Lemma plain_check s :
  forallb (λ c, (32 <=? code c) && (code c <? 128) && negb (code c =? 34) && negb (code c =? 92))%N (bytes s) = true → plain s.
Proof.
  intros Hs. apply Forall_forall. intros c Hc%list_elem_of_In. rewrite forallb_forall in Hs. apply Hs in Hc.
  rewrite !andb_true_iff, !negb_true_iff, N.leb_le, N.ltb_lt, !N.eqb_neq in Hc. tauto.
Qed.

(** ** The texts of the parts *)

(** The text of a result, without indentation and comma. *)
Definition object_text (r : TestFramework.TestResult) : string :=
  "{" +:+ "" +:+ commas " " (field_text " " <$>
    [(quoted "test", quoted (r_test_name r)); (quoted "status", quoted (if r_passed r then "PASS" else "FAIL"));
     (quoted "duration_ms", fmt_2f (r_duration_ms r)); (quoted "message", quoted (json_escape (r_message r) 1024))]) +:+ "" +:+ "}".

Lemma result_line_text r last : result_line r last = "  " +:+ object_text r +:+ (if last then "" else ",").
Proof.
  unfold result_line, object_text, commas, field_text. cbn [fmap list_fmap join_with fst snd].
  rewrite !str_app_assoc. reflexivity.
Qed.

Definition summary_text (g : TestFramework.TestSuite) : string :=
  "{" +:+ "" +:+ commas " " (field_text " " <$>
    [(quoted "total", fmt_d (s_count g)); (quoted "passed", fmt_d (s_passed g)); (quoted "failed", fmt_d (s_failed g));
     (quoted "duration_ms", fmt_2f (s_total_duration_ms g))]) +:+ "" +:+ "}".

Lemma summary_line_text g : summary_line g = "], " +:+ quoted "summary" +:+ ": " +:+ summary_text g +:+ "}".
Proof.
  unfold summary_line, summary_text, commas, field_text. cbn [fmap list_fmap join_with fst snd].
  rewrite !str_app_assoc. reflexivity.
Qed.

Lemma blank_space : blank " ".
Proof. by repeat constructor. Qed.

Lemma names_key s : forallb (λ c, (32 <=? code c) && (code c <? 128) && negb (code c =? 34) && negb (code c =? 92))%N (bytes s) = true →
  names (quoted s) s.
Proof. intros H. by apply names_plain, plain_check. Qed.

Lemma object_text_spells r d : reportable r → spells (S d) (object_text r) (test_json r).
Proof.
  intros []. apply spells_object; [apply blank_nil|apply blank_nil|apply blank_space|apply blank_space|].
  repeat constructor; simpl; try (by apply names_key).
  - by apply spells_string, names_plain.
  - apply spells_string. by destruct (r_passed r); apply names_key.
  - by apply spells_number, fmt_2f_number.
  - by apply spells_string, names_message.
Qed.

Lemma summary_text_spells g d : suite_reportable g → spells (S d) (summary_text g) (suite_summary g).
Proof.
  intros []. apply spells_object; [apply blank_nil|apply blank_nil|apply blank_space|apply blank_space|].
  repeat constructor; simpl; try (by apply names_key).
  1-3: apply spells_number, int_literal_number, fmt_d_literal; unfold s_count; lia.
  by apply spells_number, fmt_2f_number.
Qed.

(** ** Stripping *)

Lemma lstrip_prefix p a l : Forall (λ c, p c = true) a → lstrip_by p (a ++ l) = lstrip_by p l.
Proof. induction 1 as [|c a Hc _ IH]; [done|]. simpl. by rewrite Hc. Qed.

Lemma lstrip_stop p c l : p c = false → lstrip_by p (c :: l) = c :: l.
Proof. intros Hc. simpl. by rewrite Hc. Qed.

Lemma strip_between sp s c m d :
  Forall (λ c, py_space c = true) (bytes sp) → bytes s = c :: m ++ [d] → py_space c = false → py_space d = false →
  strip (sp +:+ s) = s.
Proof.
  intros Hsp Hs Hc Hd. unfold strip. rewrite bytes_app, lstrip_prefix, Hs, lstrip_stop by done.
  unfold rstrip_by. change (c :: m ++ [d]) with ((c :: m) ++ [d]). rewrite rev_app_distr. cbn [rev app].
  rewrite lstrip_stop by done. cbn [rev]. rewrite rev_app_distr, rev_involutive. cbn [rev app].
  rewrite <- str_bytes. f_equal. by rewrite Hs.
Qed.

Lemma bytes_ends c m d : bytes (String c (m +:+ String d "")) = c :: bytes m ++ [d].
Proof. change (bytes (String c ?x)) with (c :: bytes x). by rewrite bytes_app. Qed.

Lemma bytes_object x : bytes (("{" +:+ "" +:+ x +:+ "" +:+ "}") +:+ ",") = "{"%char :: bytes (x +:+ "}") ++ [","%char].
Proof. rewrite <- bytes_ends. by rewrite !str_app_assoc. Qed.

Lemma strip_result_line r last : strip (result_line r last) = object_text r +:+ (if last then "" else ",").
Proof.
  rewrite result_line_text. destruct last.
  - cbv iota. rewrite !str_app_nil. eapply (strip_between "  "); [by repeat constructor|exact (bytes_ends "{" _ "}")|done|done].
  - cbv iota. refine (strip_between "  " _ "{" _ "," _ _ eq_refl eq_refl); [by repeat constructor|].
    apply bytes_object.
Qed.

Lemma strip_first_line g : strip (first_line g) = first_line g.
Proof.
  change (first_line g) with ("" +:+ first_line g) at 1. refine (strip_between "" _ "{" _ "[" _ _ eq_refl eq_refl); [constructor|].
  etrans; [|exact (bytes_ends "{" (quoted "suite" +:+ ": " +:+ quoted (s_suite_name g) +:+ ", " +:+ quoted "results" +:+ ": ") "[")].
  unfold first_line. by rewrite !str_app_assoc.
Qed.

Lemma strip_summary_line g : strip (summary_line g) = summary_line g.
Proof.
  change (summary_line g) with ("" +:+ summary_line g) at 1. refine (strip_between "" _ "]" _ "}" _ _ eq_refl eq_refl); [constructor|].
  rewrite summary_line_text.
  etrans; [|exact (bytes_ends "]" (", " +:+ quoted "summary" +:+ ": " +:+ summary_text g) "}")]. by rewrite !str_app_assoc.
Qed.

(** ** Collecting the lines *)

(** The lines collected so far, and what they amount to. *)
Definition collected (js : list string) (s : scanner) : Prop :=
  js ≠ [] ∧ scan (join_with " " js +:+ " ") (mkScanner [] AtValue None) = Ok s ∧ takes_space (sc_phase s) = true.

Lemma join_snoc sep js x : js ≠ [] → join_with sep (js ++ [x]) = join_with sep js +:+ sep +:+ x.
Proof.
  induction js as [|j js IH]; [done|]. intros _. destruct js as [|j' js]; [done|].
  cbn [app]. rewrite !join_cons, !str_app_assoc. do 2 f_equal. by apply IH.
Qed.

Lemma collected_snoc js s x s' :
  collected js s → scan (x +:+ " ") s = Ok s' → takes_space (sc_phase s') = true → collected (js ++ [x]) s'.
Proof.
  intros (Hne & Hs & Hp) Hx Hp'. split; [by destruct js|]. split; [|done].
  rewrite join_snoc, str_app_assoc, str_app_assoc by done. rewrite <- (str_app_assoc _ " "), scan_app, Hs. exact Hx.
Qed.

Lemma collected_open js f st ph top : collected js (mkScanner (f :: st) ph top) → loads (join_with " " js) = None.
Proof.
  intros (_ & Hs & _). rewrite scan_app in Hs. unfold loads. destruct (scan (join_with " " js) _) as [s|] eqn:E; [|done].
  rewrite (py_scan_extends _ _ _ E). cbn [result_bind scan] in Hs. unfold scan_eof. change (byte_of 32) with " "%char.
  destruct (scan_step " " s) as [s'|]; [|done]. cbn [result_bind] in Hs. by injection Hs as ->.
Qed.

Lemma collected_done js v :
  collected js (mkScanner [] AtAfter (Some v)) → loads (join_with " " js) = Some (py_value v).
Proof. intros (_ & Hs & _). by apply loads_parse, parse_space. Qed.

(** Inside the list of results. *)
Definition in_results (g : TestFramework.TestSuite) (es : list json) (ph : phase) : scanner :=
  mkScanner [FArr es; FObj [("suite", JStr (s_suite_name g))] (Some "results")] ph None.

Lemma collected_first g : plain (s_suite_name g) → collected [first_line g] (in_results g [] AtValueOrEnd).
Proof.
  intros Hn. split; [done|]. split; [|done]. unfold first_line. cbn [join_with]. rewrite !str_app_assoc.
  change ("{" +:+ ?x) with (String "{"%char x). rewrite (scan_open _ (FObj [] None) AtKeyOrEnd) by (done || simpl; lia || by left).
  rewrite (scan_name "suite") by (by apply names_key || by right). change (": " +:+ ?x) with (String ":"%char (" " +:+ x)).
  erewrite scan_cons by done. rewrite scan_blank by (apply blank_space || done). unfold in_phase. cbn [sc_stack sc_top].
  rewrite (spells_string 0 (s_suite_name g)); [|by apply names_plain|split; [by left|split; [done|simpl; lia]]|by eexists _, _].
  cbn [complete]. change (", " +:+ ?x) with (String ","%char (" " +:+ x)). erewrite scan_cons by done.
  rewrite scan_blank by (apply blank_space || done). rewrite (scan_name "results") by (by apply names_key || by left). done.
Qed.

(** A result line that is not the last. *)
Lemma collected_result g js es ph r (last : bool) :
  reportable r → ph = AtValue ∨ ph = AtValueOrEnd → collected js (in_results g es ph) →
  collected (js ++ [object_text r +:+ (if last then "" else ",")])
    (in_results g (es ++ [test_json r]) (if last then AtAfter else AtValue)).
Proof.
  intros Hr Hph Hc. eapply collected_snoc; [exact Hc| |by destruct last]. rewrite str_app_assoc.
  assert (Hd : delimits ((if last then "" else ",") +:+ " ")) by (destruct last; by eexists _, _).
  unfold in_results. rewrite (object_text_spells r 0); [|done|split; [done|split; [done|simpl; lia]]|done]. by destruct last.
Qed.

Lemma collected_summary g js es ph :
  suite_reportable g → ph = AtAfter ∨ ph = AtValueOrEnd → collected js (in_results g es ph) →
  collected (js ++ [summary_line g])
    (mkScanner [] AtAfter (Some (JObj [("suite", JStr (s_suite_name g)); ("results", JArr es); ("summary", suite_summary g)]))).
Proof.
  intros Hg Hph Hc. eapply collected_snoc; [exact Hc| |done]. rewrite summary_line_text, !str_app_assoc. unfold in_results.
  change ("], " +:+ ?x) with (String "]"%char (String ","%char (" " +:+ x))).
  erewrite scan_cons by (destruct Hph as [-> | ->]; reflexivity). cbn [complete]. erewrite scan_cons by done.
  rewrite scan_blank by (apply blank_space || done). rewrite (scan_name "summary") by (by apply names_key || by left).
  change (": " +:+ ?x) with (String ":"%char (" " +:+ x)). erewrite scan_cons by done.
  rewrite scan_blank by (apply blank_space || done). unfold in_phase. cbn [sc_stack sc_top].
  rewrite (summary_text_spells g 0); [done|done|split; [by left|split; [done|simpl; lia]]|by eexists _, _].
Qed.

Lemma find_object_skip pre lines :
  Forall (λ l, HasPrefix (strip l) suite_start = false) pre → find_object (pre ++ lines) None = find_object lines None.
Proof. induction 1 as [|l pre Hl _ IH]; [done|]. cbn [app find_object]. by rewrite Hl. Qed.

Lemma find_object_results g post :
  suite_reportable g → ∀ rs es js ph, Forall reportable rs →
  match rs with [] => ph = AtAfter ∨ ph = AtValueOrEnd | _ => ph = AtValue ∨ ph = AtValueOrEnd end →
  collected js (in_results g es ph) →
  find_object (result_lines rs ++ summary_line g :: post) (Some js) =
  Some (py_value (JObj [("suite", JStr (s_suite_name g)); ("results", JArr (es ++ (test_json <$> rs))); ("summary", suite_summary g)])).
Proof.
  intros Hg rs. induction rs as [|r rs IH]; intros es js ph Hrs Hph Hc.
  - cbn [result_lines app find_object]. rewrite strip_summary_line.
    rewrite (collected_done _ _ (collected_summary _ _ _ _ Hg Hph Hc)), app_nil_r. done.
  - apply Forall_cons in Hrs as [Hr Hrs]. set (last := match rs with [] => true | _ => false end).
    assert (Hline : result_lines (r :: rs) = result_line r last :: result_lines rs) by (by destruct rs).
    rewrite Hline. cbn [app find_object]. rewrite strip_result_line.
    assert (Hp : HasPrefix (object_text r +:+ (if last then "" else ",")) suite_start = false) by done. rewrite Hp.
    pose proof (collected_result g js es ph r last Hr Hph Hc) as Hc'. rewrite (collected_open _ _ _ _ _ Hc').
    erewrite IH; [|done| |exact Hc']; [|by destruct rs; left]. by rewrite <- app_assoc.
Qed.

Lemma suite_json_dict g : py_value (suite_json g) = suite_json g.
Proof.
  apply (py_value_id 3). simpl. split; [by apply (bool_decide_unpack _)|].
  repeat constructor; simpl; try (by apply (bool_decide_unpack _)).
  apply Forall_fmap, Forall_true. intros r. simpl. split; [by apply (bool_decide_unpack _)|by repeat constructor].
Qed.

Lemma find_object_suite g pre post :
  suite_reportable g → Forall (λ l, HasPrefix (strip l) suite_start = false) pre →
  find_object (pre ++ json_lines g ++ post) None = Some (suite_json g).
Proof.
  intros Hg Hpre. rewrite find_object_skip by done. unfold json_lines. cbn [app find_object]. rewrite strip_first_line.
  assert (Hp : HasPrefix (first_line g) suite_start = true) by done. rewrite Hp, <- app_assoc. cbn [app].
  rewrite (find_object_results g post Hg _ [] _ AtValueOrEnd).
  - cbn [app]. by rewrite <- (suite_json_dict g).
  - apply Hg.
  - destruct (s_results g); by right.
  - apply collected_first, Hg.
Qed.

(** The parser finds the suite a framework binary printed. *)
Lemma framework_output_found g pre post output name ms :
  suite_reportable g → Forall (λ l, HasPrefix (strip l) suite_start = false) pre →
  split_lines output = pre ++ json_lines g ++ post →
  parse_vishwa_output output (JStr name) ms =
  Ok (JObj [("suite", JStr name); ("results", JArr (test_json <$> s_results g)); ("summary", suite_summary g)]).
Proof.
  intros Hg Hpre Ho. unfold parse_vishwa_output, parse_results. rewrite Ho, find_object_suite by done. done.
Qed.

(** ** What the engine reads *)

(** [json.dumps(parsed)] *)
Definition json_output `{!PyFloat} (parsed : json) : string := dumps py_num " " " " parsed.

Section engine.
Context `{!PyFloat, !PyFloatLaw}.

Definition readable (lit : string) : Prop := number_literal lit = true ∧ is_Some (ParseFloat lit) ∧ lit ≠ "-0".

Lemma py_num_literal lit : readable lit → number_literal (py_num lit) = true ∧ ParseFloat (py_num lit) = ParseFloat lit.
Proof.
  intros (Hn & [f Hf] & Hz). unfold py_num. destruct (is_float lit).
  - destruct (float_repr_law lit f Hn Hf) as [H1 H2]. by rewrite H2, Hf.
  - by rewrite decide_False.
Qed.

Definition ms_of (r : TestFramework.TestResult) : float64 :=
  match ParseFloat (fmt_2f (r_duration_ms r)) with Some f => f | None => S754_zero false end.

(** The item the engine's decoder makes of a result. *)
Definition raw_of (r : TestFramework.TestResult) : rawResultItem :=
  mkRaw (r_test_name r) (if r_passed r then "PASS" else "FAIL") (ms_of r) (r_message r) ∅.

Definition in_range (r : TestFramework.TestResult) : Prop := is_Some (ParseFloat (fmt_2f (r_duration_ms r))).

Lemma fmt_2f_not_zero f : duration f → fmt_2f f ≠ "-0".
Proof.
  intros Hf E. assert (Hs : ∃ a b, int_literal a = true ∧ fmt_2f f = a +:+ b).
  { destruct f as [[]|[]| |[] m e]; try done.
    exists (fmt_d (hundredths m e / 100)). eexists. split; [|reflexivity].
    apply fmt_d_literal, Z.div_pos; [apply hundredths_nonneg|lia]. }
  destruct Hs as (a & b & Ha & Hab). rewrite Hab in E. apply (f_equal bytes) in E. rewrite bytes_app in E.
  unfold int_literal in Ha. destruct (bytes a) as [|c l]; [done|]. injection E as -> _. done.
Qed.

Lemma fmt_2f_readable f : duration f → is_Some (ParseFloat (fmt_2f f)) → readable (fmt_2f f).
Proof. intros Hf Hp. split_and!; [by apply fmt_2f_number|done|by apply fmt_2f_not_zero]. Qed.

Lemma dec_raw_fields a b lit m f p :
  ParseFloat lit = Some f →
  dec_raw p (JObj [("test", JStr a); ("status", JStr b); ("duration_ms", JNum lit); ("message", JStr m)]) raw_zero =
  Ok (mkRaw a b f m ∅).
Proof.
  intros Hf. unfold dec_raw, dec_struct. cbn [dec_fields].
  assert (find_field raw_fields "test" = raw_fields !! 0) as -> by reflexivity.
  assert (find_field raw_fields "status" = raw_fields !! 1) as -> by reflexivity.
  assert (find_field raw_fields "duration_ms" = raw_fields !! 2) as -> by reflexivity.
  assert (find_field raw_fields "message" = raw_fields !! 3) as -> by reflexivity.
  cbn [raw_fields lookup list_lookup dec_string dec_float64 result_bind]. by rewrite Hf.
Qed.

Lemma dec_test_json r p :
  duration (r_duration_ms r) → in_range r → dec_raw p (renumber py_num (test_json r)) raw_zero = Ok (raw_of r).
Proof.
  intros Hd Hr. destruct (py_num_literal _ (fmt_2f_readable _ Hd Hr)) as [_ Hp]. destruct Hr as [f Hf].
  unfold raw_of, ms_of. rewrite Hf in *. by apply dec_raw_fields.
Qed.

Lemma dec_tests_json rs p :
  Forall (λ r, duration (r_duration_ms r) ∧ in_range r) rs →
  dec_elems dec_raw raw_zero p (renumber py_num <$> (test_json <$> rs)) [] = Ok (raw_of <$> rs).
Proof.
  induction 1 as [|r rs [Hd Hr] _ IH]; [done|]. cbn [fmap list_fmap dec_elems hd tl]. rewrite dec_test_json by done.
  cbn [result_bind]. by rewrite IH.
Qed.

(** A number [json.dumps] writes as JSON. *)
Definition writable (lit : string) : Prop := number_literal (py_num lit) = true.

Lemma readable_writable lit : readable lit → writable lit.
Proof. intros Hl. by apply py_num_literal. Qed.

Lemma int_writable n : (0 ≤ n)%Z → writable (fmt_d n).
Proof. intros _. unfold writable. rewrite py_num_int. apply fmt_d_number. Qed.

Lemma plain_valid s : plain s → valid_string s.
Proof. unfold plain, valid_string. induction 1 as [|c l (Hc & _) _ IH]; [constructor|]. apply valid_one; [lia|done]. Qed.

Lemma test_dumpable r d : reportable r → in_range r → dumpable writable (S d) (test_json r).
Proof.
  intros [] Hr. unfold test_json. cbn [dumpable]. rewrite !Forall_cons, Forall_nil. cbn [fst snd].
  split_and!; try (by apply valid_ascii); try done; try apply dumpable_str.
  - by apply plain_valid.
  - by destruct (r_passed r); apply valid_ascii.
  - by apply dumpable_num, readable_writable, fmt_2f_readable.
  - apply rp_message0.
Qed.

Lemma summary_dumpable g d :
  suite_reportable g → is_Some (ParseFloat (fmt_2f (s_total_duration_ms g))) → dumpable writable (S d) (suite_summary g).
Proof.
  intros [] Ht. unfold suite_summary, int_json. cbn [dumpable]. rewrite !Forall_cons, Forall_nil. cbn [fst snd].
  split_and!; try (by apply valid_ascii); try done; apply dumpable_num.
  1-3: apply int_writable; unfold s_count; lia.
  by apply readable_writable, fmt_2f_readable.
Qed.

(** A suite as the agent sends it. *)
Lemma report_dumpable g name :
  valid_string name → suite_reportable g → Forall in_range (s_results g) → is_Some (ParseFloat (fmt_2f (s_total_duration_ms g))) →
  dumpable writable 3
    (JObj [("suite", JStr name); ("results", JArr (test_json <$> s_results g)); ("summary", suite_summary g)]).
Proof.
  intros Hn Hg Hr Ht. change (dumpable writable 3 (JObj ?l)) with (Forall (λ kv, valid_string kv.1 ∧ dumpable writable 2 kv.2) l).
  rewrite !Forall_cons, Forall_nil. cbn [fst snd].
  split_and!; try (by apply valid_ascii); try done.
  - change (dumpable writable 2 (JArr ?l)) with (Forall (dumpable writable 1) l). apply Forall_fmap. pose proof (sp_results _ Hg) as Hs. apply Forall_forall. intros r Hin. rewrite Forall_forall in Hs, Hr.
    apply test_dumpable; auto.
  - by apply summary_dumpable.
Qed.

(** The engine's view of a report. *)
Lemma raw_results_report g name :
  valid_string name → suite_reportable g → Forall in_range (s_results g) → is_Some (ParseFloat (fmt_2f (s_total_duration_ms g))) →
  s_results g ≠ [] →
  raw_results (json_output (JObj [("suite", JStr name); ("results", JArr (test_json <$> s_results g)); ("summary", suite_summary g)])) =
  Some (raw_of <$> s_results g).
Proof.
  intros Hn Hg Hr Ht Hne. unfold raw_results, json_output, Unmarshal.
  rewrite <- (str_app_nil (dumps _ _ _ _)).
  rewrite (parse_dumps _ _ _ blank_space blank_space writable 3) by (done || lia || apply blank_nil || by apply report_dumpable).
  cbn [result_bind renumber fmap list_fmap fst snd]. unfold dec_obj_result, dec_struct. cbn [dec_fields].
  assert (find_field [("results", dec_raws)] "suite" = None) as -> by reflexivity.
  assert (find_field [("results", dec_raws)] "results" = Some ("results", dec_raws)) as -> by reflexivity.
  assert (find_field [("results", dec_raws)] "summary" = None) as -> by reflexivity.
  unfold dec_raws, dec_slice. rewrite dec_tests_json; [by destruct (s_results g)|].
  pose proof (sp_results _ Hg) as Hs. apply Forall_forall. intros r Hin. rewrite Forall_forall in Hs, Hr.
  split; [by apply (rp_duration _ (Hs r Hin))|auto].
Qed.

(** ** Properties *)

(** C29: the results of a test binary survive the way to the store.  For
    every suite the C framework recorded, with at least one test, and
    whatever lines the binary printed before and after its JSON (none of the
    former looking like the start of a suite), the agent's parser finds
    exactly the recorded results and counts, and the engine, given what the
    agent sends, stores one result per test, in order, with its name, its
    verdict and its message, and its duration as printed, rounded to hundredths
    of a millisecond, and then cut to whole milliseconds.  The names are ASCII
    without quotes, backslashes and control characters; the messages are UTF-8
    of at most 511 bytes with no control characters but line breaks and tabs;
    the durations are not negative and within the range of numbers Go reads. *)
Theorem test_results_reach_store {W : Type} `{!EngineStore W, !Runtime W} (g : TestFramework.TestSuite)
    (pre post : list string) (output name ms : string) :
  suite_reportable g → s_results g ≠ [] → Forall in_range (s_results g) →
  is_Some (ParseFloat (fmt_2f (s_total_duration_ms g))) → valid_string name →
  Forall (λ l, HasPrefix (strip l) suite_start = false) pre →
  split_lines output = pre ++ json_lines g ++ post →
  ∃ parsed, parse_vishwa_output output (JStr name) ms = Ok parsed ∧
    get parsed "summary" JNull = Ok (suite_summary g) ∧
    ∀ c run step id status logs dur,
      processResultsForStep (W := W) c run step (Some (mkAgentResult id status (json_output parsed) logs dur)) =
      (_ ← for_each (s_results g) (λ r,
             now ← rt_Now;
             _ ← SaveTestResult c (item_result run logs now (raw_of r));
             mret tt);
       mret (Ok tt)).
Proof.
  intros Hg Hne Hr Ht Hn Hpre Ho. eexists. split; [by eapply framework_output_found|]. split; [done|]. intros.
  unfold processResultsForStep, process_results. cbn [ar_Output ar_Logs]. rewrite decide_False by done.
  rewrite raw_results_report by done. by rewrite for_each_fmap.
Qed.

(** The verdict the engine stores for a test is the binary's: PASSED
    exactly when the test function returned 0 without a failed assertion and
    without a signal, FAILED otherwise, and never ERRORED. *)
Theorem test_verdict_preserved (t : string * test_outcome * float64) (run : TestRun) (logs : string) (now : Z) :
  res_Status (item_result run logs now (raw_of (result_of_test t))) =
  match t.1.2 with TReturns 0%Z None => TestRunStatusPassed | _ => TestRunStatusFailed end.
Proof.
  destruct t as [[func o] dur]. unfold item_result, raw_of, result_of_test. cbn [res_Status raw_Status r_passed].
  destruct o as [rc [msg|]|sig]; [by destruct rc|by destruct rc|done].
Qed.

End engine.

(** ** Witnesses *)

(** A [repr] that keeps the literal as it is satisfies the law. *)
Definition bench_repr : PyFloat := λ lit, lit.

Lemma bench_repr_law : PyFloatLaw (H := bench_repr).
Proof. intros lit f H1 H2. by split. Qed.

Definition bench_suite : TestFramework.TestSuite :=
  mkTestSuite "vecadd"
    [TestFramework.mkTestResult "test_open" true (S754_finite false 3 (-1)) "";
     TestFramework.mkTestResult "test_add" false (S754_finite false 5 0) ("got " +:+ quoted "7" +:+ nl +:+ "expected 8")]
    1 1 (S754_finite false 13 (-1)) [].

Lemma clean_ascii s :
  forallb (λ c, (code c <? 128) && ((32 <=? code c) || (code c =? 9) || (code c =? 10)))%N (bytes s) = true → clean s.
Proof.
  intros Hs. rewrite forallb_forall in Hs. split.
  - apply valid_ascii, forallb_forall. intros c Hc. by apply Hs, andb_prop in Hc as [? _].
  - apply Forall_forall. intros c Hc%list_elem_of_In. apply Hs, andb_prop in Hc as [_ Hc].
    rewrite !orb_true_iff, N.leb_le, !N.eqb_eq in Hc. tauto.
Qed.

Lemma bench_reportable : Forall reportable (s_results bench_suite).
Proof.
  apply Forall_cons_2; [|apply Forall_cons_2; [|apply Forall_nil_2]]; apply mkReportable.
  all: first [apply plain_check; vm_compute; reflexivity | exact I | apply clean_ascii; vm_compute; reflexivity
             | apply Nat.leb_le; vm_compute; reflexivity].
Qed.

Lemma bench_suite_reportable : suite_reportable bench_suite.
Proof.
  apply mkSuiteReportable; [|exact bench_reportable|exact I|split; vm_compute; discriminate].
  apply plain_check. vm_compute. reflexivity.
Qed.

Lemma bench_in_range : Forall in_range (s_results bench_suite).
Proof.
  apply Forall_cons_2; [|apply Forall_cons_2; [|apply Forall_nil_2]]; eexists; vm_compute; reflexivity.
Qed.

Definition bench_lines : list string := ["starting"] ++ json_lines bench_suite ++ [""; "--- vecadd: 1/2 passed ---"].

Lemma test_results_reach_store_witness :
  ∃ parsed, parse_vishwa_output (join_lines bench_lines) (JStr "vecadd") "1.0" = Ok parsed ∧
    get parsed "summary" JNull = Ok (suite_summary bench_suite).
Proof.
  destruct (test_results_reach_store (H := bench_repr) (H0 := bench_repr_law) (W := sim) bench_suite ["starting"]
    [""; "--- vecadd: 1/2 passed ---"] (join_lines bench_lines) "vecadd" "1.0") as (parsed & H1 & H2 & _).
  - exact bench_suite_reportable.
  - discriminate.
  - exact bench_in_range.
  - eexists. vm_compute. reflexivity.
  - apply valid_ascii. vm_compute. reflexivity.
  - apply Forall_cons_2; [vm_compute; reflexivity|apply Forall_nil_2].
  - vm_compute. reflexivity.
  - exists parsed. split; [exact H1|exact H2].
Defined.
