(* ===== verification/RunWorkflow.v ===== *)
(** * The driver of a workflow ([runWorkflow] of [core/execution_engine.go])

    The loop that starts ready steps in goroutines of their own and collects
    their results from a channel, as a transition system: a move is a turn of
    the main loop, one of the two cases of its select, or a step of one
    goroutine (a command and the wait for its answer, the storing of one
    result, the pause before a retry, or the send of the step's result).  Any
    world that implements the interfaces answers the calls, so what the rest
    of the program does between two moves is part of the world.  [runWorkflow]
    resolves the choices with a scheduling function and is total.  When the
    context ends it returns while goroutines are still at work; it hands them
    to [rt_LeaveRunning], and StepGoroutines says what becomes of them. *)
From stdpp Require Import options.
From S2P Require Import Prelude GoStd GoChan Types Topo Workflow WorkflowRun Effects Config StepExec Interfaces.
Open Scope string_scope.
Open Scope list_scope.
Open Scope nat_scope.

(** The error of [runWorkflow]: none, [ErrWorkflowFailed] or another one. *)
Inductive wf_outcome : Type :=
| WfOk
| WfFailed (failed skipped : nat)
| WfErr (e : string).

(** [ErrWorkflowFailed.Error()] *)
Definition wf_error_text (failed skipped : nat) : string :=
  "workflow execution completed with failures: " +:+ fmt_d (Z.of_nat failed) +:+ " failed, " +:+
  fmt_d (Z.of_nat skipped) +:+ " skipped".

Record stepResult : Type := mkStepResult {
  sr_stepID : string;
  sr_status : StepStatus;
  sr_err : option string;
}.

(** A result of an attempt that is still to be stored: an item of the agent's
    output, or the output as a whole. *)
Inductive pending : Type :=
| PItem (logs : string) (raw : rawResultItem)
| PWhole (name : string) (res : AgentResult).

(** Where a step's goroutine stands: in front of an attempt, with results to
    store before it goes on, in front of the pause before a retry, or in
    front of the send. *)
Inductive gphase : Type :=
| GAttempt (attempt : Z)
| GStore (todo : list pending) (next : gphase)
| GPause (attempt : Z)
| GSend (status : StepStatus) (err : option string).

Record goroutine : Type := mkG { g_def : WorkflowStep; g_phase : gphase }.

Inductive main_pc : Type :=
| MainLoop
| MainSelect
| MainReturned (out : wf_outcome).

Record rw_state (W : Type) : Type := mkRW {
  rw_wf : Workflow;
  rw_running : gset string;
  rw_gs : gmap string goroutine;
  rw_chan : chan stepResult;
  rw_pc : main_pc;
  rw_world : W;
}.
Arguments mkRW {W}.
Arguments rw_wf {W}.
Arguments rw_running {W}.
Arguments rw_gs {W}.
Arguments rw_chan {W}.
Arguments rw_pc {W}.
Arguments rw_world {W}.

(** [maxAttempts]: the retries of a step, at least none. *)
Definition max_attempts (def : WorkflowStep) : Z :=
  if decide (ws_RetryMax def < 0)%Z then 0%Z else ws_RetryMax def.

(** [time.Duration(1<<attempt) * time.Second], in machine arithmetic. *)
Definition backoff (attempt : Z) : Z :=
  seconds (if decide (attempt < 64)%Z then int64 (2 ^ attempt) else 0)%Z.

(** What [processResultsForStep] stores of an answer. *)
Definition to_store (name : string) (r : AgentResult) : list pending :=
  if decide (ar_Output r = "") then []
  else match raw_results (ar_Output r) with
       | None => [PWhole name r]
       | Some raws => PItem (ar_Logs r) <$> raws
       end.

Definition pending_result (run : TestRun) (now : Z) (p : pending) : TestResult :=
  match p with
  | PItem logs raw => item_result run logs now raw
  | PWhole name r => whole_result run name r now
  end.

Definition store_then (todo : list pending) (next : gphase) : gphase :=
  match todo with [] => next | _ => GStore todo next end.

(** The end of the body of the attempts loop after a failure. *)
Definition retry_or_fail (def : WorkflowStep) (attempt : Z) (err : string) : gphase :=
  if decide (attempt < max_attempts def)%Z then GPause attempt else GSend StepStatusFailed (Some err).

(** What follows the answer to an attempt's command. *)
Definition after_reply (def : WorkflowStep) (attempt : Z) (res : result AgentResult) : gphase :=
  match res with
  | Ok r =>
    if decide (ar_Status r = "passed") then store_then (to_store (ws_ID def) r) (GSend StepStatusPassed None)
    else store_then (to_store (ws_ID def) r)
           (retry_or_fail def attempt ("step failed with status: " +:+ ar_Status r +:+ ", output: " +:+ ar_Output r))
  | Err e => retry_or_fail def attempt e
  end.

(** The goroutines that are at work when [runWorkflow] returns, with what
    their closure holds and the channel they will send to. *)
Record crew : Type := mkCrew {
  cr_ctx : ctx;
  cr_run : TestRun;
  cr_device : DeviceEntry;
  cr_vm : string;
  cr_gs : gmap string goroutine;
  cr_chan : chan stepResult;
}.

(** Goroutines that outlive the function that started them. *)
Class Goroutines (W : Type) := rt_LeaveRunning : crew → M W unit.

Section run_workflow.
Context {W : Type} `{!EngineStore W} `{!Runtime W} `{!AgentCoordinatorInterface W}.
Context (c : ctx) (run : TestRun) (device : DeviceEntry) (vmID : string).

Definition lift {A : Type} (r : go A) : M W A := λ w,
  match r with Done a => Done (a, w) | Panics why => Panics why end.

(** The command of an attempt, up to its answer. *)
Definition attempt_send (def : WorkflowStep) (attempt : Z) : M W (result AgentResult) :=
  cmd ← lift (step_command run device def attempt);
  now ← rt_Now;
  SendCommand (WithTimeout c now (seconds (int64 (ws_TimeoutSec def + 10)))) vmID cmd.

Definition store_one (p : pending) : M W unit :=
  now ← rt_Now;
  _ ← SaveTestResult c (pending_result run now p);
  mret tt.

(** The body of the attempts loop as the code has it: the phase it ends in. *)
Definition attempt_step (def : WorkflowStep) (attempt : Z) : M W gphase :=
  res ← attempt_send def attempt;
  match res with
  | Ok r =>
    if decide (ar_Status r = "passed") then
      _ ← processResultsForStep c run (ws_ID def) (Some r);
      mret (GSend StepStatusPassed None)
    else
      let err := "step failed with status: " +:+ ar_Status r +:+ ", output: " +:+ ar_Output r in
      _ ← processResultsForStep c run (ws_ID def) (Some r);
      if decide (attempt < max_attempts def)%Z
      then _ ← rt_Sleep (backoff attempt); mret (GAttempt (attempt + 1))
      else mret (GSend StepStatusFailed (Some err))
  | Err e =>
    if decide (attempt < max_attempts def)%Z
    then _ ← rt_Sleep (backoff attempt); mret (GAttempt (attempt + 1))
    else mret (GSend StepStatusFailed (Some e))
  end.

(** One step of a goroutine: a call that others may be scheduled after, or
    the result it sends. *)
Definition phase_move (def : WorkflowStep) (ph : gphase) : M W gphase + (StepStatus * option string) :=
  match ph with
  | GAttempt k => inl (res ← attempt_send def k; mret (after_reply def k res))
  | GStore [] next => inl (mret next)
  | GStore (p :: todo) next => inl (_ ← store_one p; mret (store_then todo next))
  | GPause k => inl (_ ← rt_Sleep (backoff k); mret (GAttempt (k + 1)))
  | GSend st err => inr (st, err)
  end.

(** The steps of an attempt after the answer, without a break. *)
Fixpoint settle (ph : gphase) : M W gphase :=
  match ph with
  | GStore todo next => _ ← for_each todo store_one; settle next
  | GPause k => _ ← rt_Sleep (backoff k); mret (GAttempt (k + 1))
  | _ => mret ph
  end.

(** A step of the goroutine [sid]; [None] when there is none, or when it
    would block. *)
Definition goroutine_move (sid : string) (gs : gmap string goroutine) (q : chan stepResult) (x : W) :
    option (go (gmap string goroutine * chan stepResult * W)) :=
  match gs !! sid with
  | None => None
  | Some g =>
    match phase_move (g_def g) (g_phase g) with
    | inl calls =>
      Some (match calls x with
            | Done (ph, x') => Done (<[sid := mkG (g_def g) ph]> gs, q, x')
            | Panics why => Panics why
            end)
    | inr (st, err) =>
      match chan_send q (mkStepResult (ws_ID (g_def g)) st err) with
      | Sent q' => Some (Done (delete sid gs, q', x))
      | _ => None
      end
    end
  end.

(** The loop over the ready steps: what is started and marked. *)
Definition start_step (acc : Workflow * gset string * gmap string goroutine) (stepID : string) :
    Workflow * gset string * gmap string goroutine :=
  let '(w, running, gs) := acc in
  if decide (stepID ∈ running) then acc
  else
    let def := default step_zero (StepDef stepID w) in
    let w' := match MarkRunning stepID w with Ok w' => w' | Err _ => w end in
    (w', {[stepID]} ∪ running, <[stepID := mkG def (GAttempt 0)]> gs).

Definition finish (w : Workflow) : wf_outcome :=
  let '(p, f, sk) := Summary w in
  if decide (0 < f ∨ 0 < sk) then WfFailed f sk else WfOk.

Inductive move : Type :=
| MoveLoop
| MoveReceive
| MoveCtxDone
| MoveStep (stepID : string).

(** The effect of a move that is enabled; [None] when it is not.  A turn of
    the loop either ends it or starts the ready steps. *)
Definition loop_move (s : rw_state W) : rw_state W :=
  if IsDone (rw_wf s)
  then mkRW (rw_wf s) (rw_running s) (rw_gs s) (rw_chan s) (MainReturned (finish (rw_wf s))) (rw_world s)
  else
    let '(w, running, gs) := foldl start_step (rw_wf s, rw_running s, rw_gs s) (Ready (rw_wf s)) in
    mkRW w running gs (rw_chan s) MainSelect (rw_world s).

(** [case res := <-resultsChan] *)
Definition receive_move (s : rw_state W) : option (rw_state W) :=
  match chan_recv (rw_chan s) with
  | Received res q =>
    let w := match Advance (sr_stepID res) (sr_status res) (rw_wf s) with
             | Ok w' => w'
             | Err _ => rw_wf s
             end in
    Some (mkRW w (rw_running s ∖ {[sr_stepID res]}) (rw_gs s) q MainLoop (rw_world s))
  | _ => None
  end.

(** [case <-ctx.Done()] *)
Definition done_move (s : rw_state W) : option (rw_state W) :=
  e ← ctx_Err c (rw_world s);
  Some (mkRW (rw_wf s) (rw_running s) (rw_gs s) (rw_chan s) (MainReturned (WfErr e)) (rw_world s)).

(** A goroutine makes a step. *)
Definition step_move (sid : string) (s : rw_state W) : option (go (rw_state W)) :=
  match goroutine_move sid (rw_gs s) (rw_chan s) (rw_world s) with
  | None => None
  | Some (Panics why) => Some (Panics why)
  | Some (Done (gs, q, x)) => Some (Done (mkRW (rw_wf s) (rw_running s) gs q (rw_pc s) x))
  end.

Definition rw_exec (m : move) (s : rw_state W) : option (go (rw_state W)) :=
  match m with
  | MoveLoop => match rw_pc s with MainLoop => Some (Done (loop_move s)) | _ => None end
  | MoveReceive => match rw_pc s with MainSelect => Done <$> receive_move s | _ => None end
  | MoveCtxDone => match rw_pc s with MainSelect => Done <$> done_move s | _ => None end
  | MoveStep sid => step_move sid s
  end.

Definition rw_step (s s' : rw_state W) : Prop := ∃ m, rw_exec m s = Some (Done s').

(** The state after the workflow and the channel were made. *)
Definition rw_init (n : nat) (w : Workflow) (x : W) : rw_state W :=
  mkRW w ∅ ∅ (make_chan n) MainLoop x.

(** ** The function *)

(** The moves that may be enabled. *)
Definition candidates (s : rw_state W) : list move :=
  [MoveLoop; MoveReceive; MoveCtxDone] ++ (MoveStep <$> map_keys (rw_gs s)).

Definition enabled (s : rw_state W) : list move :=
  filter (λ m, is_Some (rw_exec m s)) (candidates s).

(** The choice among the enabled moves at a turn. *)
Definition choose (pick : nat → nat) (turn : nat) (s : rw_state W) : option move :=
  let ms := enabled s in ms !! (pick turn mod length ms).

Definition returned (pc : main_pc) : option wf_outcome :=
  match pc with MainReturned out => Some out | _ => None end.

(** How many results a goroutine has to store, the step to the next phase
    included. *)
Fixpoint stores_in (ph : gphase) : nat :=
  match ph with GStore todo next => S (length todo) + stores_in next | _ => 0 end.

Definition rw_stores (s : rw_state W) : nat :=
  sum_list ((λ x, match rw_gs s !! x with Some g => stores_in (g_phase g) | None => 0 end) <$> wf_order (rw_wf s)).

(** A move that stores a result. *)
Definition is_store (m : move) (s : rw_state W) : bool :=
  match m with
  | MoveStep sid => match rw_gs s !! sid with Some (mkG _ (GStore _ _)) => true | _ => false end
  | _ => false
  end.

(** The loop, to the state in which it returns.  The number of results an
    answer holds is not known beforehand: the moves that store are counted by
    [n], which is set anew after every other move, and those by [fuel]. *)
Fixpoint rw_loop (pick : nat → nat) (fuel turn : nat) (s : rw_state W) {struct fuel} : go (option (rw_state W)) :=
  (fix go_on (n turn : nat) (s : rw_state W) {struct n} : go (option (rw_state W)) :=
     match returned (rw_pc s) with
     | Some _ => Done (Some s)
     | None =>
       match choose pick turn s with
       | None => Done None
       | Some m =>
         match rw_exec m s with
         | None => Done None
         | Some (Panics why) => Panics why
         | Some (Done s') =>
           if is_store m s
           then match n with O => Done None | S n' => go_on n' (S turn) s' end
           else match fuel with O => Done None | S fuel' => rw_loop pick fuel' (S turn) s' end
         end
       end
     end) (rw_stores s) turn s.

(** How many moves other than stores a step can cause: to be started, its
    attempts and pauses, to send and to be received. *)
Definition step_cost (def : WorkflowStep) : nat := 2 * Z.to_nat (max_attempts def) + 5.

Definition rw_fuel (defs : list WorkflowStep) : nat := sum_list (step_cost <$> defs) + 2.

(** [None] stands for a loop that ran out of fuel. *)
Definition runWorkflow `{!Goroutines W} (v : visits) (pick : nat → nat) (suite : TestSuite) : M W (option wf_outcome) := λ x,
  match NewWorkflow v (ts_ID suite) (tr_ID run) (ts_Steps suite) with
  | Err e => Done (Some (WfErr ("failed to create workflow: " +:+ e)), x)
  | Ok w =>
    match rw_loop pick (rw_fuel (ts_Steps suite)) 0 (rw_init (length (ts_Steps suite)) w x) with
    | Panics why => Panics why
    | Done None => Done (None, x)
    | Done (Some s) =>
      (_ ← (if decide (size (rw_gs s) = 0) then mret tt
            else rt_LeaveRunning (mkCrew c run device vmID (rw_gs s) (rw_chan s)));
       mret (returned (rw_pc s))) (rw_world s)
    end
  end.

End run_workflow.

(** ** The phases of a goroutine are the loop of the code *)

Section phases.
Context {W : Type} `{!EngineStore W} `{!Runtime W} `{!AgentCoordinatorInterface W}.
Context (c : ctx) (run : TestRun) (device : DeviceEntry) (vmID : string).

Lemma bind_ext {A B} (m : M W A) (k k' : A → M W B) x : (∀ a y, k a y = k' a y) → (m ≫= k) x = (m ≫= k') x.
Proof. intros H. unfold mbind, M_bind. destruct (m x) as [[a y]|]; [apply H|done]. Qed.

Lemma bind_assoc {A B C} (m : M W A) (k : A → M W B) (l : B → M W C) x :
  ((m ≫= k) ≫= l) x = (m ≫= λ a, k a ≫= l) x.
Proof. unfold mbind, M_bind. by destruct (m x) as [[a y]|]. Qed.

(** Storing the results of an answer one by one is [processResultsForStep]. *)
Lemma stores_process {A} name r (k : M W A) x :
  (_ ← processResultsForStep c run name (Some r); k) x = (_ ← for_each (to_store name r) (store_one c run); k) x.
Proof.
  unfold processResultsForStep, process_results, to_store. case_decide; [done|].
  destruct (raw_results (ar_Output r)) as [raws|].
  - rewrite bind_assoc. revert x. induction raws as [|raw raws IH]; intros x; [done|]. csimpl. cbn [for_each].
    rewrite !bind_assoc. unfold store_one. rewrite !bind_assoc. apply bind_ext. intros now y. rewrite !bind_assoc.
    apply bind_ext. intros u y'. apply IH.
  - csimpl. cbn [for_each]. rewrite !bind_assoc. unfold store_one. rewrite !bind_assoc. apply bind_ext. intros now y.
    rewrite !bind_assoc. apply bind_ext. intros u y'. done.
Qed.

Lemma settle_store todo next x : settle c run (store_then todo next) x = (_ ← for_each todo (store_one c run); settle c run next) x.
Proof. by destruct todo. Qed.

(** A goroutine that is not interrupted does what the body of the loop does. *)
Lemma attempt_phases def k x :
  attempt_step c run device vmID def k x =
  (res ← attempt_send c run device vmID def k; settle c run (after_reply def k res)) x.
Proof.
  unfold attempt_step. apply bind_ext. intros res y. unfold after_reply, retry_or_fail. destruct res as [r|e].
  - case_decide; rewrite settle_store, stores_process; [done|]. apply bind_ext. intros u z. by case_decide.
  - by case_decide.
Qed.

End phases.

(** ** Invariant *)

Definition settled (st : StepStatus) : Prop := st = StepStatusPassed ∨ st = StepStatusFailed.

Fixpoint phase_of (def : WorkflowStep) (ph : gphase) : Prop :=
  match ph with
  | GAttempt k => (0 ≤ k ≤ max_attempts def)%Z
  | GStore _ next => phase_of def next ∧ ∀ k, next ≠ GAttempt k
  | GPause k => (0 ≤ k < max_attempts def)%Z
  | GSend st _ => settled st
  end.

Definition phase_ok (g : goroutine) : Prop := phase_of (g_def g) (g_phase g).

(** The workflow, the goroutines and the results agree: a step is running
    exactly while its goroutine lives or its result is in the channel. *)
Record sync_inv (defs : list WorkflowStep) (w : Workflow) (running : gset string)
    (gs : gmap string goroutine) (buf : list stepResult) : Prop := mkSync {
  sy_wf : wf_inv w;
  sy_order : wf_order w ≡ₚ ids defs;
  sy_ids : ∀ x s, wf_steps w !! x = Some s → ws_ID (st_def s) = x;
  sy_live : ∀ x, status_of (wf_steps w) x = Some StepStatusRunning ↔
    is_Some (gs !! x) ∨ x ∈ sr_stepID <$> buf;
  sy_disjoint : ∀ x, is_Some (gs !! x) → x ∉ sr_stepID <$> buf;
  sy_nodup : NoDup (sr_stepID <$> buf);
  sy_running : ∀ x, x ∈ running ↔ status_of (wf_steps w) x = Some StepStatusRunning;
  sy_gs : ∀ x g, gs !! x = Some g →
    (∃ s, wf_steps w !! x = Some s ∧ g_def g = st_def s) ∧ phase_ok g;
  sy_buf : ∀ r, r ∈ buf → settled (sr_status r);
}.

Definition pc_ok (w : Workflow) (pc : main_pc) : Prop :=
  match pc with
  | MainLoop => True
  | MainSelect => IsDone w = false ∧ Ready w = []
  | MainReturned out => (IsDone w = true ∧ out = finish w) ∨ ∃ e, out = WfErr e
  end.

Record rw_inv {W : Type} (defs : list WorkflowStep) (s : rw_state W) : Prop := mkRwInv {
  ri_sync : sync_inv defs (rw_wf s) (rw_running s) (rw_gs s) (ch_buf (rw_chan s));
  ri_cap : ch_cap (rw_chan s) = length defs;
  ri_open : ch_closed (rw_chan s) = false;
  ri_pc : pc_ok (rw_wf s) (rw_pc s);
}.

(** What is left to do for a step, but for what it has to store. *)
Fixpoint phase_cost (def : WorkflowStep) (ph : gphase) : nat :=
  match ph with
  | GAttempt k => 2 * Z.to_nat (max_attempts def - k) + 4
  | GStore _ next => phase_cost def next
  | GPause k => 2 * Z.to_nat (max_attempts def - k) + 3
  | GSend _ _ => 3
  end.

Definition cost (w : Workflow) (gs : gmap string goroutine) (x : string) : nat :=
  match gs !! x with
  | Some g => phase_cost (g_def g) (g_phase g)
  | None =>
    match wf_steps w !! x with
    | Some s =>
      match st_status s with
      | StepStatusPending => step_cost (st_def s)
      | StepStatusRunning => 2
      | _ => 0
      end
    | None => 0
    end
  end.

Definition pc_cost (pc : main_pc) : nat :=
  match pc with MainLoop => 2 | MainSelect => 1 | MainReturned _ => 0 end.

Definition rw_measure {W : Type} (s : rw_state W) : nat :=
  pc_cost (rw_pc s) + sum_list (cost (rw_wf s) (rw_gs s) <$> wf_order (rw_wf s)).

Lemma sum_list_le (f g : string → nat) (l : list string) :
  (∀ y, y ∈ l → f y ≤ g y) → sum_list (f <$> l) ≤ sum_list (g <$> l).
Proof.
  induction l as [|y l IH]; intros H; csimpl; [done|].
  pose proof (H y ltac:(left)). assert (sum_list (f <$> l) ≤ sum_list (g <$> l)) by (apply IH; set_solver).
  lia.
Qed.

Lemma sum_list_drop2 (f g : string → nat) (l : list string) x :
  x ∈ l → (∀ y, y ∈ l → f y ≤ g y) → g x = 2 → f x = 0 →
  sum_list (f <$> l) + 2 ≤ sum_list (g <$> l).
Proof.
  intros Hx Hle Hg Hf. induction l as [|y l IH]; [by apply not_elem_of_nil in Hx|]. csimpl.
  apply elem_of_cons in Hx as [->|Hx].
  - pose proof (sum_list_le f g l ltac:(set_solver)). lia.
  - pose proof (Hle y ltac:(left)). specialize (IH Hx ltac:(set_solver)). lia.
Qed.

(** ** Starting the ready steps *)

Lemma MarkRunning_ready w x :
  x ∈ Ready w → ∃ s, wf_steps w !! x = Some s ∧ st_status s = StepStatusPending ∧
    MarkRunning x w = Ok (set_steps (<[x := mkStep (st_def s) StepStatusRunning (st_attempts s + 1)]>
                                       (wf_steps w)) w).
Proof.
  intros (_ & Hp & _)%elem_of_Ready. apply status_of_Some in Hp as (s & Hs & Hst).
  exists s. unfold MarkRunning. by rewrite Hs.
Qed.

Lemma Ready_after_mark w w' x y :
  wf_inv w → x ∈ Ready w → MarkRunning x w = Ok w' → y ∈ Ready w' ↔ y ∈ Ready w ∧ y ≠ x.
Proof.
  intros Hinv Hx Hm. destruct (MarkRunning_ready w x Hx) as (s & Hs & Hp & He).
  rewrite He in Hm. injection Hm as <-. apply elem_of_Ready in Hx as (_ & _ & Hxd).
  rewrite !elem_of_Ready. simpl. rewrite (deps_of_insert _ _ s) by done.
  assert (Hst : ∀ z, z ≠ x → status_of (<[x := mkStep (st_def s) StepStatusRunning (st_attempts s + 1)]>
    (wf_steps w)) z = status_of (wf_steps w) z).
  { intros z Hz. by rewrite status_of_insert, decide_False. }
  rewrite status_of_insert. destruct (decide (x = y)) as [<-|Hne]; [naive_solver|].
  assert (Hdx : ∀ d, d ∈ deps_of (wf_steps w) y → status_of (wf_steps w) d = Some StepStatusPassed → d ≠ x).
  { intros d _ Hd ->. unfold status_of in Hd. rewrite Hs in Hd. simpl in Hd. congruence. }
  split.
  - intros (Ho & Hy & Hd). split; [|done]. split_and!; [done..|]. intros d Hin. specialize (Hd d Hin).
    destruct (decide (d = x)) as [->|Hdne]; [|by rewrite Hst in Hd].
    rewrite status_of_insert, decide_True in Hd by done. done.
  - intros ((Ho & Hy & Hd) & _). split_and!; [done..|]. intros d Hin. specialize (Hd d Hin).
    rewrite Hst; [done|]. by eapply Hdx.
Qed.

Lemma running_not_done w x : status_of (wf_steps w) x = Some StepStatusRunning → IsDone w = false.
Proof.
  intros Hx. destruct (IsDone w) eqn:Hd; [|done].
  destruct (proj1 (IsDone_spec w) Hd x _ Hx) as [_ []]. done.
Qed.

Lemma start_step_sync defs w running gs buf x :
  sync_inv defs w running gs buf → x ∈ Ready w →
  let '(w', running', gs') := start_step (w, running, gs) x in
  sync_inv defs w' running' gs' buf ∧
  (∀ y, y ∈ Ready w' ↔ y ∈ Ready w ∧ y ≠ x) ∧ IsDone w' = false ∧ wf_order w' = wf_order w ∧
  (∀ y, cost w' gs' y ≤ cost w gs y).
Proof.
  intros Hsync Hx. pose proof Hsync as [Hwf Ho Hids Hlive Hdis Hnd Hrun Hgs Hbuf].
  destruct (MarkRunning_ready w x Hx) as (s & Hs & Hp & Hm).
  assert (Hnr : status_of (wf_steps w) x ≠ Some StepStatusRunning).
  { unfold status_of. rewrite Hs. simpl. congruence. }
  assert (Hng : gs !! x = None ∧ x ∉ sr_stepID <$> buf).
  { destruct (gs !! x) eqn:E; [|split; [done|]]; rewrite Hlive in Hnr; [|tauto].
    destruct Hnr. left. eauto. }
  unfold start_step. rewrite decide_False by (by rewrite Hrun).
  unfold StepDef. rewrite Hm, Hs. simpl default.
  set (w' := set_steps _ w). set (g := mkG (st_def s) (GAttempt 0)).
  assert (Hst : ∀ y, status_of (wf_steps w') y =
    if decide (x = y) then Some StepStatusRunning else status_of (wf_steps w) y).
  { intros y. unfold w'. simpl. by rewrite status_of_insert. }
  split_and!.
  - split.
    + by eapply MarkRunning_inv.
    + done.
    + intros y s' Hy. unfold w' in Hy. simpl in Hy.
      apply lookup_insert_Some in Hy as [[<- <-]|[_ Hy]]; simpl; by apply Hids.
    + intros y. rewrite Hst, lookup_insert. destruct (decide (x = y)) as [<-|]; [|apply Hlive]. naive_solver.
    + intros y. rewrite lookup_insert. destruct (decide (x = y)) as [<-|]; [naive_solver|apply Hdis].
    + done.
    + intros y. rewrite Hst, elem_of_union, elem_of_singleton, Hrun.
      destruct (decide (x = y)) as [<-|]; naive_solver.
    + intros y g' [[<- <-]|[Hne Hy]]%lookup_insert_Some.
      * split; [|unfold phase_ok, phase_of, max_attempts; simpl; case_decide; lia].
        unfold w'. simpl. rewrite lookup_insert_eq. eauto.
      * destruct (Hgs y g' Hy) as [(s' & ? & ?) ?]. split; [|done]. exists s'.
        unfold w'. simpl. by rewrite lookup_insert_ne.
    + done.
  - intros y. by eapply Ready_after_mark.
  - apply (running_not_done _ x). by rewrite Hst, decide_True.
  - done.
  - intros y. unfold cost, w'. simpl. rewrite !lookup_insert.
    destruct (decide (x = y)) as [<-|]; [|done]. simpl. rewrite (proj1 Hng), Hs, Hp.
    unfold step_cost. rewrite Z.sub_0_r. simpl. lia.
Qed.

Lemma start_all_sync defs buf l w running gs :
  sync_inv defs w running gs buf → NoDup l → (∀ x, x ∈ l → x ∈ Ready w) →
  let '(w', running', gs') := foldl start_step (w, running, gs) l in
  sync_inv defs w' running' gs' buf ∧ (∀ y, y ∈ Ready w' ↔ y ∈ Ready w ∧ y ∉ l) ∧
  (IsDone w = false → IsDone w' = false) ∧ wf_order w' = wf_order w ∧
  (∀ y, cost w' gs' y ≤ cost w gs y).
Proof.
  revert w running gs. induction l as [|x l IH]; intros w running gs Hsync Hnd Hl.
  { cbn. split_and!; [done| |done..]. set_solver. }
  apply NoDup_cons in Hnd as [Hx Hnd]. cbn [foldl].
  pose proof (start_step_sync defs w running gs buf x Hsync (Hl x ltac:(left))) as H.
  destruct (start_step (w, running, gs) x) as [[w1 r1] g1]. destruct H as (Hs1 & Hr1 & Hd1 & Ho1 & Hc1).
  specialize (IH w1 r1 g1 Hs1 Hnd). destruct (foldl start_step (w1, r1, g1) l) as [[w2 r2] g2].
  destruct IH as (Hs2 & Hr2 & Hd2 & Ho2 & Hc2).
  { intros y Hy. apply Hr1. split; [apply Hl; by right|]. intros ->. done. }
  split_and!; [done| |by auto|congruence|].
  - intros y. rewrite Hr2, Hr1, not_elem_of_cons. tauto.
  - intros y. etrans; [apply Hc2|apply Hc1].
Qed.

(** ** Receiving a result *)

Lemma Advance_view x st w w' y s :
  wf_inv w → Advance x st w = Ok w' → wf_steps w !! y = Some s →
  ∃ s', wf_steps w' !! y = Some s' ∧ st_def s' = st_def s ∧
    (y = x → settled st → st_status s' = st) ∧
    (y ≠ x → st_status s' = st_status s ∨
             st_status s = StepStatusPending ∧ st_status s' = StepStatusSkipped).
Proof.
  intros Hinv H Hy. unfold Advance in H. destruct (wf_steps w !! x) as [sx|] eqn:Ex; [|done].
  set (steps1 := <[x := set_status st sx]> (wf_steps w)) in *.
  assert (H1 : ∃ s1, steps1 !! y = Some s1 ∧ st_def s1 = st_def s ∧
    (y = x → st_status s1 = st) ∧ (y ≠ x → s1 = s)).
  { unfold steps1. rewrite lookup_insert. destruct (decide (x = y)) as [<-|Hne]; simplify_eq; eexists;
      split_and!; done. }
  destruct H1 as (s1 & Hs1 & Hd1 & Hx1 & Hn1).
  destruct (decide (st = StepStatusFailed)) as [->|Hf]; injection H as <-; simpl; last first.
  { exists s1. split_and!; [done..|by auto|]. intros Hne. left. by rewrite Hn1. }
  assert (Hsh1 : wf_shape (wf_order w) steps1).
  { eapply shape_ext; [apply Hinv|]. intros z. unfold steps1. rewrite lookup_insert.
    destruct (decide (x = z)) as [<-|]; [by rewrite Ex|done]. }
  pose proof (propagateSkip_done _ _ Hsh1 y) as Hm. rewrite Hs1 in Hm.
  destruct Hm as (s' & -> & [[-> _]|(-> & _ & Hp & _)]); (eexists; split; [done|]).
  - split_and!; [done|by auto|]. intros Hne. left. by rewrite Hn1.
  - simpl. split_and!; [done| |].
    + intros ->. rewrite Hx1 in Hp; done.
    + intros Hne. right. split; [|done]. by rewrite <- (Hn1 Hne).
Qed.

Lemma Advance_none x st w w' y :
  wf_inv w → Advance x st w = Ok w' → wf_steps w !! y = None → wf_steps w' !! y = None.
Proof.
  intros Hinv H Hy. unfold Advance in H. destruct (wf_steps w !! x) as [sx|] eqn:Ex; [|done].
  assert (Hsh1 : wf_shape (wf_order w) (<[x := set_status st sx]> (wf_steps w))).
  { eapply shape_ext; [apply Hinv|]. intros z. rewrite lookup_insert.
    destruct (decide (x = z)) as [<-|]; [by rewrite Ex|done]. }
  assert (Hne : x ≠ y) by congruence.
  destruct (decide (st = StepStatusFailed)); injection H as <-; simpl; [|by rewrite lookup_insert_ne].
  pose proof (propagateSkip_done _ _ Hsh1 y) as Hm. by rewrite lookup_insert_ne, Hy in Hm.
Qed.

Lemma receive_sync defs w running gs r buf :
  sync_inv defs w running gs (r :: buf) →
  ∃ w', Advance (sr_stepID r) (sr_status r) w = Ok w' ∧
    sync_inv defs w' (running ∖ {[sr_stepID r]}) gs buf ∧ wf_order w' = wf_order w ∧
    wf_step w w' ∧ (∀ y, cost w' gs y ≤ cost w gs y) ∧ sr_stepID r ∈ wf_order w ∧
    cost w gs (sr_stepID r) = 2 ∧ cost w' gs (sr_stepID r) = 0.
Proof.
  intros [Hwf Ho Hids Hlive Hdis Hnd Hrun Hgs Hbuf]. set (x := sr_stepID r) in *.
  assert (Hx : status_of (wf_steps w) x = Some StepStatusRunning) by (apply Hlive; right; left).
  assert (Hset : settled (sr_status r)) by (apply Hbuf; left).
  rewrite fmap_cons, NoDup_cons in Hnd. destruct Hnd as [Hni Hnd]. fold x in Hni.
  assert (Hgx : gs !! x = None).
  { destruct (gs !! x) eqn:E; [|done]. destruct (Hdis x ltac:(eauto)). left. }
  pose proof Hx as (sx & Hsx & Hstx)%status_of_Some.
  assert (Ha : ∃ w', Advance x (sr_status r) w = Ok w' ∧ wf_order w' = wf_order w).
  { unfold Advance. rewrite Hsx. eexists. split; [done|]. done. }
  destruct Ha as (w' & Ha & How). exists w'.
  assert (Hstep : wf_step w w') by (by eapply wf_advance).
  assert (Hview : ∀ y s, wf_steps w !! y = Some s → _) by (intros y s; by apply (Advance_view x (sr_status r) w w')).
  assert (Hnone : ∀ y, wf_steps w !! y = None → _) by (intros y; by apply (Advance_none x (sr_status r) w w')).
  assert (Hrun' : ∀ y, status_of (wf_steps w') y = Some StepStatusRunning ↔
    status_of (wf_steps w) y = Some StepStatusRunning ∧ y ≠ x).
  { intros y. unfold status_of. destruct (wf_steps w !! y) as [s|] eqn:Ey; last first.
    { rewrite (Hnone y Ey). split; [done|by intros [? _]]. }
    destruct (Hview y s Ey) as (s' & -> & _ & H1 & H2). simpl. destruct (decide (y = x)) as [->|Hne].
    - rewrite (H1 eq_refl Hset). destruct Hset as [-> | ->]; (split; [done|by intros [_ []]]).
    - destruct (H2 Hne) as [->|[-> ->]]; [tauto|]. split; [done|by intros [? _]]. }
  split_and!; [done| |done|done| |by apply (sh_dom _ _ (inv_shape _ Hwf)); eauto| |].
  - split.
    + by eapply wf_inv_step.
    + by rewrite How.
    + intros y s' Hy. destruct (wf_steps w !! y) as [s|] eqn:Ey; [|by rewrite (Hnone y Ey) in Hy].
      destruct (Hview y s Ey) as (s'' & Hy' & Hd & _). simplify_eq. rewrite Hd. by apply Hids.
    + intros y. rewrite Hrun', Hlive. csimpl. rewrite elem_of_cons. fold x.
      split; [tauto|]. intros [Hg|Hy]; split; auto; intros ->; [|done].
      rewrite Hgx in Hg. by destruct Hg.
    + intros y Hy Hin. apply (Hdis y Hy). by right.
    + done.
    + intros y. rewrite elem_of_difference, elem_of_singleton, Hrun, Hrun'. tauto.
    + intros y g Hg. destruct (Hgs y g Hg) as [(s & Hs & Hd) ?]. split; [|done].
      destruct (Hview y s Hs) as (s' & ? & ? & _). exists s'. split; [done|congruence].
    + intros r' Hr'. apply Hbuf. by right.
  - intros y. unfold cost. destruct (gs !! y); [done|].
    destruct (wf_steps w !! y) as [s|] eqn:Ey; [|by rewrite (Hnone y Ey)].
    destruct (Hview y s Ey) as (s' & -> & Hd & H1 & H2). rewrite Hd. destruct (decide (y = x)) as [->|Hne].
    + rewrite (H1 eq_refl Hset). destruct Hset as [-> | ->]; simpl; lia.
    + destruct (H2 Hne) as [->|[-> ->]]; lia.
  - unfold cost. by rewrite Hgx, Hsx, Hstx.
  - unfold cost. rewrite Hgx. destruct (Hview x sx Hsx) as (s' & -> & _ & H1 & _).
    rewrite (H1 eq_refl Hset). by destruct Hset as [-> | ->].
Qed.

(** ** The goroutines *)

Lemma send_sync defs w running gs buf x def st err :
  sync_inv defs w running gs buf → gs !! x = Some (mkG def (GSend st err)) →
  length buf < length defs ∧ ws_ID def = x ∧
  sync_inv defs w running (delete x gs) (buf ++ [mkStepResult (ws_ID def) st err]) ∧
  (∀ y, cost w (delete x gs) y ≤ cost w gs y) ∧ x ∈ wf_order w ∧
  cost w (delete x gs) x < cost w gs x.
Proof.
  intros [Hwf Ho Hids Hlive Hdis Hnd Hrun Hgs Hbuf] Hg.
  destruct (Hgs _ _ Hg) as [(s & Hs & Hd) Hph]. simpl in Hd. subst def.
  assert (Hid : ws_ID (st_def s) = x) by by apply Hids.
  assert (Hx : status_of (wf_steps w) x = Some StepStatusRunning) by (apply Hlive; eauto).
  assert (Hxs : st_status s = StepStatusRunning) by (unfold status_of in Hx; rewrite Hs in Hx; by injection Hx).
  assert (Hni : x ∉ sr_stepID <$> buf) by (apply Hdis; eauto).
  assert (Hord : x ∈ wf_order w) by (apply (sh_dom _ _ (inv_shape _ Hwf)); eauto).
  assert (Hnd' : NoDup ((sr_stepID <$> buf) ++ [x])).
  { apply NoDup_app. split_and!; [done| |apply NoDup_singleton]. set_solver. }
  assert (Hcost : cost w (delete x gs) x = 2 ∧ cost w gs x = 3).
  { unfold cost. rewrite lookup_delete_eq, Hg, Hs, Hxs. done. }
  split_and!; [|done| | |done|lia].
  - enough (length ((sr_stepID <$> buf) ++ [x]) ≤ length (ids defs)) as H.
    { unfold ids in H. rewrite length_app, !length_fmap in H. simpl in H. lia. }
    rewrite <- Ho. apply submseteq_length, NoDup_submseteq; [done|].
    intros y [Hy| ->%list_elem_of_singleton]%elem_of_app; [|done].
    apply (sh_dom _ _ (inv_shape _ Hwf)).
    assert (status_of (wf_steps w) y = Some StepStatusRunning) as (? & ? & _)%status_of_Some
      by (apply Hlive; by right). eauto.
  - split; try done.
    + intros y. rewrite Hlive, fmap_app, elem_of_app. cbn. rewrite Hid, list_elem_of_singleton.
      destruct (decide (y = x)) as [->|Hne]; [rewrite Hg; split; eauto|].
      rewrite lookup_delete_ne by done. tauto.
    + intros y Hy. rewrite fmap_app, elem_of_app. cbn. rewrite Hid, list_elem_of_singleton.
      destruct (decide (x = y)) as [<-|Hne]; [rewrite lookup_delete_eq in Hy; by destruct Hy|].
      rewrite lookup_delete_ne in Hy by done. intros [?|?]; [by apply (Hdis y)|congruence].
    + rewrite fmap_app. cbn. by rewrite Hid.
    + intros y g [_ Hy]%lookup_delete_Some. by apply Hgs.
    + intros r [Hr| ->%list_elem_of_singleton]%elem_of_app; [by apply Hbuf|]. apply Hph.
  - intros y. destruct (decide (x = y)) as [<-|Hne]; [lia|]. unfold cost. by rewrite lookup_delete_ne.
Qed.

(** What a phase can lead to: its cost falls, or it stores. *)
Definition phase_step (def : WorkflowStep) (ph ph' : gphase) : Prop :=
  phase_of def ph' ∧
  match ph with
  | GStore _ _ => phase_cost def ph' = phase_cost def ph ∧ stores_in ph' < stores_in ph
  | _ => phase_cost def ph' < phase_cost def ph
  end.

Lemma phase_sync defs w running gs buf x def ph ph' :
  sync_inv defs w running gs buf → gs !! x = Some (mkG def ph) → phase_step def ph ph' →
  sync_inv defs w running (<[x := mkG def ph']> gs) buf ∧
  (∀ y, cost w (<[x := mkG def ph']> gs) y ≤ cost w gs y) ∧ x ∈ wf_order w ∧
  cost w (<[x := mkG def ph']> gs) x = phase_cost def ph' ∧ cost w gs x = phase_cost def ph.
Proof.
  intros [Hwf Ho Hids Hlive Hdis Hnd Hrun Hgs Hbuf] Hg [Hok Hstep].
  destruct (Hgs _ _ Hg) as [(s & Hs & Hd) Hk]. simpl in Hd. subst def.
  assert (Hdom : ∀ y, is_Some (<[x := mkG (st_def s) ph']> gs !! y) ↔ is_Some (gs !! y)).
  { intros y. rewrite lookup_insert. destruct (decide (x = y)) as [<-|]; [|done]. rewrite Hg. split; eauto. }
  assert (Hx' : cost w (<[x := mkG (st_def s) ph']> gs) x = phase_cost (st_def s) ph')
    by (unfold cost; by rewrite lookup_insert_eq).
  assert (Hx : cost w gs x = phase_cost (st_def s) ph) by (unfold cost; by rewrite Hg).
  split_and!; [| |by apply (sh_dom _ _ (inv_shape _ Hwf)); eauto|done|done].
  - split; try done.
    + intros y. by rewrite Hlive, Hdom.
    + intros y Hy. apply Hdis. by apply Hdom.
    + intros y g [[<- <-]|[_ Hy]]%lookup_insert_Some; [|by apply Hgs]. split; [eauto|done].
  - intros y. destruct (decide (x = y)) as [<-|Hne]; [destruct ph; lia|]. unfold cost. by rewrite lookup_insert_ne.
Qed.

(** The results a goroutine has to store, as a sum over the steps. *)
Lemma stores_fall (gs gs' : gmap string goroutine) (l : list string) x :
  (∀ y, y ≠ x → gs' !! y = gs !! y) → x ∈ l →
  (from_option (stores_in ∘ g_phase) 0 (gs' !! x) < from_option (stores_in ∘ g_phase) 0 (gs !! x)) →
  sum_list ((λ y, match gs' !! y with Some g => stores_in (g_phase g) | None => 0 end) <$> l) <
  sum_list ((λ y, match gs !! y with Some g => stores_in (g_phase g) | None => 0 end) <$> l).
Proof.
  intros Hne Hx Hlt.
  assert (Hlt' : match gs' !! x with Some g => stores_in (g_phase g) | None => 0 end <
                 match gs !! x with Some g => stores_in (g_phase g) | None => 0 end)
    by (by destruct (gs' !! x), (gs !! x)).
  apply (sum_list_lt _ _ _ x); [|done|done].
  intros y _. destruct (decide (y = x)) as [->|Hy]; [lia|]. by rewrite Hne.
Qed.

(** ** The whole driver *)

Section driver.
Context {W : Type} `{!EngineStore W} `{!Runtime W} `{!AgentCoordinatorInterface W}.
Context (c : ctx) (run : TestRun) (device : DeviceEntry) (vmID : string).
Context (defs : list WorkflowStep).
Implicit Types (s : rw_state W) (x : W).

Abbreviation exec := (rw_exec (W:=W) c run device vmID).
Abbreviation step_rel := (rw_step (W:=W) c run device vmID).

Lemma store_then_step def todo next :
  phase_of def next → (∀ k, next ≠ GAttempt k) →
  phase_of def (store_then todo next) ∧ phase_cost def (store_then todo next) = phase_cost def next ∧
  stores_in (store_then todo next) ≤ S (length todo) + stores_in next.
Proof. destruct todo as [|p todo]; simpl; [intros; split_and!; [done..|lia]|done]. Qed.

Lemma retry_step def k err :
  (0 ≤ k ≤ max_attempts def)%Z → let ph := retry_or_fail def k err in
  phase_of def ph ∧ (∀ j, ph ≠ GAttempt j) ∧ phase_cost def ph < phase_cost def (GAttempt k).
Proof.
  intros Hk. unfold retry_or_fail. case_decide; simpl; split_and!; try done; [lia|lia|by right|lia].
Qed.

Lemma after_reply_step def k res :
  (0 ≤ k ≤ max_attempts def)%Z → phase_step def (GAttempt k) (after_reply def k res).
Proof.
  intros Hk. unfold phase_step, after_reply. destruct res as [r|err].
  - case_decide.
    + destruct (store_then_step def (to_store (ws_ID def) r) (GSend StepStatusPassed None)) as (H1 & H2 & _);
        [by left|done|]. split; [done|]. rewrite H2. simpl. lia.
    + match goal with |- context [retry_or_fail def k ?e] => destruct (retry_step def k e Hk) as (R1 & R2 & R3) end.
      match goal with |- context [store_then ?t ?n] => destruct (store_then_step def t n R1 R2) as (H1 & H2 & _) end.
      split; [done|]. by rewrite H2.
  - destruct (retry_step def k err Hk) as (R1 & R2 & R3). done.
Qed.

(** The calls of a phase lead to a next phase. *)
Lemma phase_moves def ph calls x :
  phase_of def ph → phase_move c run device vmID def ph = inl calls → wp calls (λ ph' _, phase_step def ph ph') x.
Proof.
  intros Hok E. destruct ph as [k|[|p todo] next|k|st err]; simpl in E; [..|done]; injection E as <-.
  - apply wp_bind. eapply wp_mono; [apply wp_true|]. intros res x1 _. apply wp_ret. by apply after_reply_step.
  - apply wp_ret. destruct Hok as [Hn _]. split; [done|]. simpl. lia.
  - apply wp_bind. eapply wp_mono; [apply wp_true|]. intros u x1 _. apply wp_ret. destruct Hok as [Hn Hna].
    destruct (store_then_step def todo next Hn Hna) as (H1 & H2 & H3). split; [done|]. simpl. split; [done|lia].
  - apply wp_bind. eapply wp_mono; [apply wp_true|]. intros u x1 _. apply wp_ret. simpl in Hok.
    split; simpl; lia.
Qed.

(** A move keeps the invariant and brings the driver closer to its end: the
    measure falls, or, when it stores a result, there is less to store. *)
Definition good_move (store : bool) (s s' : rw_state W) : Prop :=
  rw_inv defs s' ∧
  if store then rw_measure s' ≤ rw_measure s ∧ rw_stores s' < rw_stores s else rw_measure s' < rw_measure s.

Lemma loop_move_good s : rw_inv defs s → rw_pc s = MainLoop → good_move false s (loop_move s).
Proof.
  intros [Hsync Hcap Hopen Hpc] Epc. unfold loop_move, good_move, rw_measure. rewrite Epc.
  destruct (IsDone (rw_wf s)) eqn:Ed.
  - split; [split; simpl; [done..|by left]|simpl; lia].
  - pose proof (start_all_sync defs _ (Ready (rw_wf s)) _ _ _ Hsync) as H.
    destruct (foldl start_step _ _) as [[w r] gs].
    destruct H as (Hs & Hr & Hd & Ho & Hc); [|done|].
    { apply NoDup_filter, (sh_nodup _ _ (inv_shape _ (sy_wf _ _ _ _ _ Hsync))). }
    split; [split; simpl; [done..|]|].
    + split; [auto|]. apply elem_of_nil_inv. intros y [? ?]%Hr. done.
    + simpl. rewrite Ho. pose proof (sum_list_le _ _ (wf_order (rw_wf s)) (λ y _, Hc y)). lia.
Qed.

Lemma receive_move_good s s' :
  rw_inv defs s → rw_pc s = MainSelect → receive_move s = Some s' → good_move false s s'.
Proof.
  intros [Hsync Hcap Hopen Hpc] Epc Hm. unfold receive_move, chan_recv in Hm.
  destruct (ch_buf (rw_chan s)) as [|r buf] eqn:Eb; [by destruct (ch_closed (rw_chan s))|].
  destruct (receive_sync _ _ _ _ _ _ Hsync) as (w' & Ha & Hs & Ho & Hst & Hc & Hin & H2 & H0).
  rewrite Ha in Hm. injection Hm as <-.
  split; [split; simpl; done|]. unfold rw_measure. rewrite Epc. simpl. rewrite Ho.
  pose proof (sum_list_drop2 _ _ _ _ Hin (λ y _, Hc y) H2 H0). lia.
Qed.

Lemma done_move_good s s' :
  rw_inv defs s → rw_pc s = MainSelect → done_move c s = Some s' → good_move false s s'.
Proof.
  intros [Hsync Hcap Hopen Hpc] Epc Hm. unfold done_move in Hm.
  destruct (ctx_Err c (rw_world s)) as [e|]; [|done]. injection Hm as <-.
  split; [split; simpl; [done..|right; eauto]|]. unfold rw_measure. rewrite Epc. simpl. lia.
Qed.

Lemma step_move_good sid s s' :
  rw_inv defs s → step_move c run device vmID sid s = Some (Done s') → good_move (is_store (MoveStep sid) s) s s'.
Proof.
  intros [Hsync Hcap Hopen Hpc] Hm. unfold step_move, goroutine_move in Hm. unfold good_move, rw_measure, is_store.
  destruct (rw_gs s !! sid) as [[def ph]|] eqn:Eg; [|done]. cbn [g_def g_phase] in Hm.
  pose proof (sy_gs _ _ _ _ _ Hsync _ _ Eg) as [_ Hok]. unfold phase_ok in Hok. cbn [g_def g_phase] in Hok.
  destruct (phase_move c run device vmID def ph) as [calls|[st err]] eqn:Em.
  - destruct (calls (rw_world s)) as [[ph' w']|] eqn:Ea; [|done]. injection Hm as <-.
    pose proof (wp_returns _ _ _ _ _ (phase_moves def ph calls (rw_world s) Hok Em) Ea) as Hps.
    destruct (phase_sync defs _ _ _ _ sid def ph ph' Hsync Eg Hps) as (Hs & Hc & Hin & Hx' & Hx).
    split; [by split|]. cbn [rw_pc rw_wf rw_gs].
    pose proof (sum_list_le _ _ (wf_order (rw_wf s)) (λ y _, Hc y)) as Hle.
    destruct Hps as [_ Hps]. destruct ph as [k|todo next|k|st err].
    2: { split; [lia|]. unfold rw_stores. cbn [rw_gs rw_wf]. apply (stores_fall _ _ _ sid); [|done|].
         - intros y Hy. by rewrite lookup_insert_ne.
         - rewrite lookup_insert_eq, Eg. simpl. by apply Hps. }
    all: assert (Hlt : cost (rw_wf s) (<[sid := mkG def ph']> (rw_gs s)) sid < cost (rw_wf s) (rw_gs s) sid)
           by (rewrite Hx', Hx; exact Hps).
    all: pose proof (sum_list_lt _ _ _ sid (λ y _, Hc y) Hin Hlt); lia.
  - destruct ph as [k|[|p todo] next|k|st' err']; try done. injection Em as -> ->.
    destruct (send_sync defs _ _ _ _ sid def st err Hsync Eg) as (Hlen & Hid & Hs & Hc & Hin & Hlt).
    unfold chan_send in Hm. rewrite Hopen, decide_True in Hm by lia. injection Hm as <-.
    split; [by split|]. simpl. pose proof (sum_list_lt _ _ _ sid (λ y _, Hc y) Hin Hlt). lia.
Qed.

Lemma rw_exec_good m s s' : rw_inv defs s → exec m s = Some (Done s') → good_move (is_store m s) s s'.
Proof.
  intros Hinv Hm. destruct m as [| | |sid]; simpl in Hm; [destruct (rw_pc s) eqn:Epc; try done..|].
  - injection Hm as <-. by apply loop_move_good.
  - destruct (receive_move s) eqn:E; [|done]. injection Hm as <-. by apply receive_move_good.
  - destruct (done_move c s) eqn:E; [|done]. injection Hm as <-. by eapply done_move_good.
  - by eapply step_move_good.
Qed.

Lemma rw_step_inv s s' : rw_inv defs s → step_rel s s' → rw_inv defs s'.
Proof. intros Hinv [m Hm]. by apply (rw_exec_good m s s'). Qed.

(** No sequence of moves is infinite. *)
Lemma rw_step_acc s : rw_inv defs s → Acc (flip step_rel) s.
Proof.
  remember (rw_measure s) as n eqn:En. revert s En.
  induction (lt_wf n) as [n _ IHn]. intros s. remember (rw_stores s) as k eqn:Ek. revert s Ek.
  induction (lt_wf k) as [k _ IHk]. intros s -> -> Hinv. constructor. intros s' [m Hm].
  destruct (rw_exec_good m s s' Hinv Hm) as [Hinv' Hg]. destruct (is_store m s).
  - destruct Hg as [Hle Hst]. destruct (decide (rw_measure s' < rw_measure s)) as [Hlt|Hge]; [by eapply IHn|].
    eapply IHk; [exact Hst|done|lia|done].
  - by eapply IHn.
Qed.

Lemma rw_reach_inv s s' : rw_inv defs s → rtc step_rel s s' → rw_inv defs s'.
Proof. intros Hinv Hr. eapply rtc_invariant; [|exact Hr|done]. intros y z Hy Hz. by apply (rw_step_inv y z). Qed.

(** The channel has room for every goroutine: sending never blocks. *)
Lemma send_enabled s sid def st err :
  rw_inv defs s → rw_gs s !! sid = Some (mkG def (GSend st err)) →
  ∃ s', exec (MoveStep sid) s = Some (Done s').
Proof.
  intros [Hsync Hcap Hopen _] Hg. simpl. unfold step_move, goroutine_move. rewrite Hg. simpl.
  destruct (send_sync defs _ _ _ _ sid def st err Hsync Hg) as (Hlen & _).
  unfold chan_send. rewrite Hopen, decide_True by lia. eauto.
Qed.

(** Until it returns, the driver always has a move. *)
Lemma driver_enabled s :
  rw_inv defs s → (∀ out, rw_pc s ≠ MainReturned out) → ∃ m, m ∈ enabled c run device vmID s.
Proof.
  intros Hinv Hpc.
  assert (Hsome : ∃ m, m ∈ candidates s ∧ is_Some (exec m s)).
  { destruct (rw_pc s) as [| |out] eqn:Epc; [|..|by destruct (Hpc out)].
    - exists MoveLoop. split; [set_solver|]. simpl. rewrite Epc. eauto.
    - pose proof (ri_pc _ _ Hinv) as H. rewrite Epc in H. destruct H as [Hd Hr].
      destruct (progress (rw_wf s)) as [[y Hy]|Hne]; [apply Hinv|done| |done].
      apply (sy_live _ _ _ _ _ (ri_sync _ _ Hinv)) in Hy as [[[def ph] Hg]|Hb].
      + exists (MoveStep y). split.
        { unfold candidates. apply elem_of_app. right. apply list_elem_of_fmap_2.
          rewrite (iteration_of_elem (rw_gs s)); [eauto|apply iteration_of_keys]. }
        destruct (phase_move c run device vmID def ph) as [calls|[st err]] eqn:Em.
        * simpl. unfold step_move, goroutine_move. rewrite Hg. simpl. rewrite Em.
          destruct (calls (rw_world s)) as [[ph' x']|]; eauto.
        * destruct ph as [k|[|p todo] next|k|st' err']; try done.
          destruct (send_enabled _ _ _ _ _ Hinv Hg) as [s' ->]. eauto.
      + exists MoveReceive. split; [set_solver|]. simpl. rewrite Epc.
        unfold receive_move, chan_recv. destruct (ch_buf (rw_chan s)); [by apply not_elem_of_nil in Hb|].
        eauto. }
  destruct Hsome as (m & Hm & He). exists m. by apply list_elem_of_filter.
Qed.

Lemma choose_enabled pick turn s :
  (∃ m, m ∈ enabled c run device vmID s) →
  ∃ m r, choose c run device vmID pick turn s = Some m ∧ exec m s = Some r.
Proof.
  intros [m Hm]. unfold choose. set (ms := enabled c run device vmID s) in *.
  assert (Hlt : pick turn mod length ms < length ms).
  { apply Nat.mod_upper_bound. by destruct ms; [apply not_elem_of_nil in Hm|]. }
  destruct (lookup_lt_is_Some_2 _ _ Hlt) as [m' Hm']. rewrite Hm'.
  apply list_elem_of_lookup_2, list_elem_of_filter in Hm' as [[r Hr] _]. eauto.
Qed.

(** The driver returns an error of its own only for a context that is done. *)
Definition done_reason (s : rw_state W) : Prop :=
  ∀ e, rw_pc s = MainReturned (WfErr e) → ctx_Err c (rw_world s) = Some e.

Lemma finish_not_err w e : finish w ≠ WfErr e.
Proof. unfold finish. destruct (Summary w) as [[? ?] ?]. by case_decide. Qed.

Lemma done_reason_step s s' :
  returned (rw_pc s) = None → step_rel s s' → done_reason s'.
Proof.
  intros Hret [m Hm] e He. destruct m as [| | |sid]; simpl in Hm; [destruct (rw_pc s) eqn:Epc; try done..|].
  - injection Hm as <-. unfold loop_move in *. destruct (IsDone (rw_wf s)).
    + simpl in He. injection He as He. by apply finish_not_err in He.
    + by destruct (foldl start_step _ _) as [[? ?] ?].
  - unfold receive_move in Hm. destruct (chan_recv (rw_chan s)); try done. injection Hm as <-. done.
  - unfold done_move in Hm. destruct (ctx_Err c (rw_world s)) eqn:Ee; [|done]. injection Hm as <-.
    simpl in *. by injection He as <-.
  - unfold step_move in Hm. destruct (goroutine_move _ _ _ _ _ _ _ _) as [[[[gs q] x]|]|]; [|done..].
    injection Hm as <-. simpl in He. by rewrite He in Hret.
Qed.

(** The inner loop of [rw_loop]. *)
Definition go_on (pick : nat → nat) (next : nat → rw_state W → go (option (rw_state W))) :=
  fix go_on (n turn : nat) (s : rw_state W) {struct n} : go (option (rw_state W)) :=
    match returned (rw_pc s) with
    | Some _ => Done (Some s)
    | None =>
      match choose c run device vmID pick turn s with
      | None => Done None
      | Some m =>
        match exec m s with
        | None => Done None
        | Some (Panics why) => Panics why
        | Some (Done s') =>
          if is_store m s then match n with O => Done None | S n' => go_on n' (S turn) s' end
          else next (S turn) s'
        end
      end
    end.

Lemma rw_loop_eq pick fuel turn s :
  rw_loop c run device vmID pick fuel turn s =
  go_on pick (λ turn' s', match fuel with O => Done None | S fuel' => rw_loop c run device vmID pick fuel' turn' s' end)
    (rw_stores s) turn s.
Proof. by destruct fuel. Qed.

Lemma go_on_eq pick next n turn s :
  go_on pick next n turn s =
    match returned (rw_pc s) with
    | Some _ => Done (Some s)
    | None =>
      match choose c run device vmID pick turn s with
      | None => Done None
      | Some m =>
        match exec m s with
        | None => Done None
        | Some (Panics why) => Panics why
        | Some (Done s') =>
          if is_store m s then match n with O => Done None | S n' => go_on pick next n' (S turn) s' end
          else next (S turn) s'
        end
      end
    end.
Proof. by destruct n. Qed.

(** How the loop ends: it panics with the world, or returns. *)
Definition loop_ends (s : rw_state W) (out : go (option (rw_state W))) : Prop :=
  (∃ why, out = Panics why) ∨
  ∃ s', rtc step_rel s s' ∧ is_Some (returned (rw_pc s')) ∧ done_reason s' ∧ out = Done (Some s').

Lemma loop_ends_step s s1 out : step_rel s s1 → loop_ends s1 out → loop_ends s out.
Proof. intros Hs [?|(s' & Hr & H)]; [by left|]. right. exists s'. split; [by eapply rtc_l|done]. Qed.

(** With the measure as fuel the loop returns, unless the world panics. *)
Lemma rw_loop_returns pick fuel turn s :
  rw_inv defs s → rw_measure s ≤ fuel → done_reason s →
  loop_ends s (rw_loop c run device vmID pick fuel turn s).
Proof.
  revert turn s. induction fuel as [|fuel IH]; intros turn s Hinv Hle Hdr.
  - rewrite rw_loop_eq, go_on_eq. unfold rw_measure in Hle. destruct (rw_pc s) as [| |out] eqn:Epc; simpl in *; [lia|lia|].
    right. exists s. split_and!; [done|by rewrite Epc; eauto|done|done].
  - rewrite rw_loop_eq. set (next := λ turn' s', _). remember (rw_stores s) as n eqn:En.
    assert (Hn : rw_stores s ≤ n) by lia. clear En. revert turn s Hinv Hle Hdr Hn.
    induction n as [|n IHn]; intros turn s Hinv Hle Hdr Hn; rewrite go_on_eq;
      (destruct (returned (rw_pc s)) as [out|] eqn:Epc; [right; exists s; rewrite Epc; split_and!; [done|eauto|done|done]|]);
      (destruct (choose_enabled pick turn s) as (m & r & Hch & Hex);
       [apply driver_enabled; [done|]; intros o E; by rewrite E in Epc|]);
      rewrite Hch, Hex; (destruct r as [s1|why]; [|by left; exists why]);
      (assert (Hs : step_rel s s1) by (by exists m)); destruct (rw_exec_good m s s1 Hinv Hex) as [H1 Hg];
      (assert (Hdr1 : done_reason s1) by (by eapply done_reason_step)); destruct (is_store m s).
    + lia.
    + eapply loop_ends_step; [exact Hs|]. apply IH; [done|lia|done].
    + eapply loop_ends_step; [exact Hs|]. apply IHn; [done|lia|done|lia].
    + eapply loop_ends_step; [exact Hs|]. apply IH; [done|lia|done].
Qed.

(** In a world that does not panic no move does. *)
Lemma total_attempt_send `{!SafeRuntime W, !SafeAgents W} def k :
  names_binary (tr_TestSuiteID run) → Total (W:=W) (attempt_send c run device vmID def k).
Proof.
  intros Hb. assert (Hl : Total (W:=W) (lift (step_command run device def k))).
  { intros w. destruct (step_command_ok run device def k Hb) as [cmd E]. unfold lift. rewrite E. eauto. }
  unfold attempt_send. solve_total.
Qed.

Lemma total_phase_move `{!SafeStore W, !SafeRuntime W, !SafeAgents W} def ph calls :
  names_binary (tr_TestSuiteID run) → phase_move (W:=W) c run device vmID def ph = inl calls → Total calls.
Proof.
  intros Hb E. destruct ph as [k|[|p todo] next|k|st err]; simpl in E; [..|done]; injection E as <-.
  - pose proof (total_attempt_send def k Hb). solve_total.
  - apply _.
  - unfold store_one. solve_total.
  - solve_total.
Qed.

Lemma goroutine_move_safe `{!SafeStore W, !SafeRuntime W, !SafeAgents W} sid gs q (x : W) why :
  names_binary (tr_TestSuiteID run) → goroutine_move c run device vmID sid gs q x ≠ Some (Panics why).
Proof.
  intros Hb E. unfold goroutine_move in E. destruct (gs !! sid) as [[def ph]|]; [|done]. cbn [g_def g_phase] in E.
  destruct (phase_move c run device vmID def ph) as [calls|[st err]] eqn:Em.
  - destruct (total_phase_move def ph calls Hb Em x) as (ph' & x' & Ea). by rewrite Ea in E.
  - by destruct (chan_send _ _).
Qed.

Lemma rw_exec_safe `{!SafeStore W, !SafeRuntime W, !SafeAgents W} m s why :
  names_binary (tr_TestSuiteID run) → exec m s ≠ Some (Panics why).
Proof.
  intros Hb E. destruct m as [| | |sid]; simpl in E.
  - by destruct (rw_pc s).
  - destruct (rw_pc s); try done. by destruct (receive_move s).
  - destruct (rw_pc s); try done. by destruct (done_move c s).
  - unfold step_move in E. destruct (goroutine_move _ _ _ _ _ _ _ _) as [[[[gs q] x]|why']|] eqn:Eg; [done| |done].
    by apply goroutine_move_safe in Eg.
Qed.

Lemma go_on_safe `{!SafeStore W, !SafeRuntime W, !SafeAgents W} pick next n turn s why :
  names_binary (tr_TestSuiteID run) → (∀ turn' s', next turn' s' ≠ Panics why) → go_on pick next n turn s ≠ Panics why.
Proof.
  intros Hb Hnext. revert turn s. induction n as [|n IH]; intros turn s; rewrite go_on_eq;
    (destruct (returned (rw_pc s)); [done|]; destruct (choose _ _ _ _ _ _ _) as [m|]; [|done];
     destruct (exec m s) as [[s'|why']|] eqn:E; [|by apply rw_exec_safe in E|done]; destruct (is_store m s); auto).
Qed.

Lemma rw_loop_safe `{!SafeStore W, !SafeRuntime W, !SafeAgents W} pick fuel turn s why :
  names_binary (tr_TestSuiteID run) → rw_loop c run device vmID pick fuel turn s ≠ Panics why.
Proof.
  intros Hb. revert turn s. induction fuel as [|fuel IH]; intros turn s; rewrite rw_loop_eq; by apply go_on_safe.
Qed.

(** What the calls of every phase keep holds in every state. *)
Definition calls_keep (P : W → Prop) : Prop :=
  ∀ def ph calls x, phase_move c run device vmID def ph = inl calls → P x → wp calls (λ _, P) x.

Lemma goroutine_move_world (P : W → Prop) sid gs q x gs' q' x' :
  calls_keep P → goroutine_move c run device vmID sid gs q x = Some (Done (gs', q', x')) → P x → P x'.
Proof.
  intros HP E Hx. unfold goroutine_move in E. destruct (gs !! sid) as [[def ph]|]; [|done]. cbn [g_def g_phase] in E.
  destruct (phase_move c run device vmID def ph) as [calls|[st err]] eqn:Em.
  - destruct (calls x) as [[ph' x1]|] eqn:Ea; [|done]. injection E as <- <- <-.
    exact (wp_returns _ _ _ _ _ (HP def ph calls x Em Hx) Ea).
  - destruct (chan_send _ _); try done. by injection E as _ _ <-.
Qed.

Lemma rw_reach_world (P : W → Prop) s s' :
  calls_keep P → rtc step_rel s s' → P (rw_world s) → P (rw_world s').
Proof.
  intros HP Hr. induction Hr as [s|s s1 s2 [m Hm] _ IH]; [done|]. intros Hs. apply IH. clear IH.
  destruct m as [| | |sid]; simpl in Hm; [destruct (rw_pc s) eqn:Epc; try done..|].
  - injection Hm as <-. unfold loop_move. destruct (IsDone _); [done|].
    by destruct (foldl start_step _ _) as [[? ?] ?].
  - unfold receive_move in Hm. destruct (chan_recv (rw_chan s)); try done. by injection Hm as <-.
  - unfold done_move in Hm. destruct (ctx_Err c (rw_world s)); [|done]. by injection Hm as <-.
  - unfold step_move in Hm. destruct (goroutine_move _ _ _ _ _ _ _ _) as [[[[gs q] x]|]|] eqn:Eg; [|done..].
    injection Hm as <-. by eapply goroutine_move_world.
Qed.

Lemma rw_init_inv v id runID w x :
  legal_visits defs v → NewWorkflow v id runID defs = Ok w →
  rw_inv defs (rw_init (length defs) w x) ∧ rw_measure (rw_init (length defs) w x) = rw_fuel defs.
Proof.
  intros Hv Hw. pose proof (wf_inv_new _ _ _ _ _ Hv Hw) as Hinv.
  destruct (NewWorkflow_cases v id runID defs Hv) as [(Hwf & o & E & Hp & _)|(_ & e & E)];
    rewrite E in Hw; [|done]. injection Hw as <-.
  assert (Hlook : ∀ y t, steps_of defs ∅ !! y = Some t → ∃ d, d ∈ defs ∧ ws_ID d = y ∧ t = new_step d).
  { intros y t Hs. apply indexed_lookup in Hs as (d & ? & ? & ?); [eauto|apply Hwf]. }
  assert (Hnr : ∀ y, status_of (steps_of defs ∅) y ≠ Some StepStatusRunning).
  { intros y (s & Hs & Hst)%status_of_Some. destruct (Hlook y s Hs) as (d & _ & _ & ->). done. }
  split; [split; simpl; try done; split; simpl; try done|].
  - intros y s Hs. destruct (Hlook y s Hs) as (d & _ & <- & ->). done.
  - intros y. split; [by intros ?%Hnr|]. intros [[? ?]|Hin]; [by simplify_map_eq|].
    by apply not_elem_of_nil in Hin.
  - intros y _. apply not_elem_of_nil.
  - apply NoDup_nil_2.
  - intros y. split; [set_solver|]. by intros ?%Hnr.
  - intros r Hr. by apply not_elem_of_nil in Hr.
  - unfold rw_measure, rw_fuel. cbn [rw_init rw_wf rw_gs rw_pc pc_cost wf_order].
    set (f := cost _ _). rewrite Hp. unfold ids, f. rewrite <- list_fmap_compose.
    rewrite Nat.add_comm. f_equal. f_equal. apply list_fmap_ext. intros i d Hd.
    apply list_elem_of_lookup_2 in Hd. cbn [compose]. unfold compose, cost. cbn [wf_steps]. rewrite lookup_empty.
    destruct (steps_of defs ∅ !! ws_ID d) as [s|] eqn:Es.
    + destruct (Hlook _ s Es) as (d' & Hd' & Hid & ->). simpl.
      by rewrite (NoDup_fmap_inj _ _ d' d (wfd_nodup _ Hwf) Hd' Hd Hid).
    + exfalso. assert (is_Some (steps_of defs ∅ !! ws_ID d)) as [? ?]; [|congruence].
      apply indexed_dom; [apply Hwf|]. by apply list_elem_of_fmap_2.
Qed.

End driver.

(** ** Properties *)

Section properties.
Context {W : Type} `{!EngineStore W} `{!Runtime W} `{!AgentCoordinatorInterface W}.

(** A state of the driver of the steps [defs]. *)
Definition rw_reachable (c : ctx) (run : TestRun) (device : DeviceEntry) (vmID : string)
    (v : visits) (id : string) (defs : list WorkflowStep) (s : rw_state W) : Prop :=
  legal_visits defs v ∧ ∃ w x, NewWorkflow v id (tr_ID run) defs = Ok w ∧
    rtc (rw_step c run device vmID) (rw_init (length defs) w x) s.

Lemma rw_reachable_inv c run device vmID v id defs s :
  rw_reachable c run device vmID v id defs s → rw_inv defs s.
Proof.
  intros (Hv & w & x & Hw & Hr). eapply rw_reach_inv; [|exact Hr]. by eapply (rw_init_inv defs v).
Qed.

(** The statuses the outcome of the driver stands for. *)
Definition outcome_of (w : Workflow) (out : wf_outcome) : Prop :=
  match out with
  | WfOk => ∀ x, x ∈ wf_order w → status_of (wf_steps w) x = Some StepStatusPassed
  | WfFailed f sk => 0 < f + sk ∧ IsDone w = true ∧
      ∃ p, Summary w = (p, f, sk) ∧ p + f + sk = size (wf_steps w)
  | WfErr _ => True
  end.

Lemma finish_outcome w : wf_inv w → IsDone w = true → outcome_of w (finish w).
Proof.
  intros Hinv Hd. pose proof (Summary_sum w _ (iteration_of_keys _) Hd) as Hsum.
  unfold finish. fold (Summary w) in Hsum. destruct (Summary w) as [[p f] sk] eqn:Es.
  case_decide as Hpos; simpl.
  - split_and!; [lia|done|]. exists p. split; [done|lia].
  - intros x Hx. apply (sh_dom _ _ (inv_shape _ Hinv)) in Hx as [s Hs].
    assert (Hst : status_of (wf_steps w) x = Some (st_status s)) by (unfold status_of; by rewrite Hs).
    destruct (proj1 (IsDone_spec w) Hd x _ Hst) as [Hp Hr].
    unfold Summary, Summary_visit in Es. injection Es as _ Hf Hk.
    destruct (st_status s); try done; apply count_status_pos in Hst; lia.
Qed.

(** A workflow that has ended has no goroutine left. *)
Lemma ended_no_goroutines c run device vmID v id defs s out :
  rw_reachable c run device vmID v id defs s → rw_pc s = MainReturned out → (∀ e, out ≠ WfErr e) → rw_gs s = ∅.
Proof.
  intros Hinv%rw_reachable_inv Hp Hne. pose proof (ri_pc _ _ Hinv) as Hpc. rewrite Hp in Hpc.
  destruct Hpc as [[Hd _]|[e ->]]; [|by destruct (Hne e)]. apply map_empty. intros x.
  destruct (rw_gs s !! x) as [g|] eqn:E; [|done].
  assert (Hx : status_of (wf_steps (rw_wf s)) x = Some StepStatusRunning)
    by (apply (sy_live _ _ _ _ _ (ri_sync _ _ Hinv)); eauto).
  apply running_not_done in Hx. congruence.
Qed.

Context `{!Goroutines W}.

(** What [runWorkflow] does with the state its loop returns in. *)
Definition hands_on (c : ctx) (run : TestRun) (device : DeviceEntry) (vmID : string) (s : rw_state W) (x' : W) : Prop :=
  (rw_gs s = ∅ ∧ x' = rw_world s) ∨
  rt_LeaveRunning (mkCrew c run device vmID (rw_gs s) (rw_chan s)) (rw_world s) = Done (tt, x').

(** Leaving goroutines of a run that names its binary does not panic. *)
Class SafeGoroutines : Prop :=
  safe_leave k : names_binary (tr_TestSuiteID (cr_run k)) → Total (W:=W) (rt_LeaveRunning k).

Lemma runWorkflow_done `{!SafeStore W, !SafeRuntime W, !SafeAgents W, !SafeGoroutines} c run device vmID v pick suite (x : W) :
  legal_visits (ts_Steps suite) v → names_binary (tr_TestSuiteID run) →
  (∃ e, NewWorkflow v (ts_ID suite) (tr_ID run) (ts_Steps suite) = Err e ∧
     runWorkflow c run device vmID v pick suite x = Done (Some (WfErr ("failed to create workflow: " +:+ e)), x)) ∨
  ∃ s out x', rw_reachable c run device vmID v (ts_ID suite) (ts_Steps suite) s ∧
    rw_pc s = MainReturned out ∧ done_reason c s ∧ hands_on c run device vmID s x' ∧
    runWorkflow c run device vmID v pick suite x = Done (Some out, x').
Proof.
  intros Hv Hb. unfold runWorkflow.
  destruct (NewWorkflow v (ts_ID suite) (tr_ID run) (ts_Steps suite)) as [w|e] eqn:Ew; [right|left; eauto].
  destruct (rw_init_inv (ts_Steps suite) v _ _ w x Hv Ew) as [Hinv Hm].
  destruct (rw_loop_returns c run device vmID (ts_Steps suite) pick (rw_fuel (ts_Steps suite)) 0 _ Hinv)
    as [[why E]|(s & Hr & [out Hp] & Hd & ->)]; [by rewrite Hm|done|by apply rw_loop_safe in E|].
  assert (Epc : rw_pc s = MainReturned out) by (destruct (rw_pc s); by simplify_eq/=).
  assert (Hreach : rw_reachable c run device vmID v (ts_ID suite) (ts_Steps suite) s) by (split; [done|eauto]).
  rewrite Epc. case_decide as Hz.
  - exists s, out, (rw_world s). split_and!; [done..| |done]. left. split; [by apply map_size_empty_inv|done].
  - destruct (safe_leave (mkCrew c run device vmID (rw_gs s) (rw_chan s)) Hb (rw_world s)) as ([] & x' & El).
    exists s, out, x'. split_and!; [done..|by right|]. by rewrite (M_bind_done _ _ _ _ _ El).
Qed.

(** C6: the workflow driver returns: in every world whose components do not
    panic, for every scheduling of the goroutines, every suite, and every run
    whose suite identifier names a binary (one that is not a Vishwa
    identifier, or a Vishwa one with a segment; the engine panics on the
    others when it looks the suite up), it returns the error of the suite's
    validation, or the outcome of a finished workflow (success exactly when
    every step passed, otherwise the numbers of failed and skipped steps,
    which with the passed ones add up to all steps) with no goroutine left,
    or the error of its context when that is done, leaving the goroutines
    that are still at work to run on. *)
Theorem runWorkflow_returns `{!SafeStore W, !SafeRuntime W, !SafeAgents W, !SafeGoroutines}
    c run device vmID v pick suite (x : W) :
  legal_visits (ts_Steps suite) v → names_binary (tr_TestSuiteID run) →
  ∃ out x', runWorkflow c run device vmID v pick suite x = Done (Some out, x') ∧
    ((∃ e, NewWorkflow v (ts_ID suite) (tr_ID run) (ts_Steps suite) = Err e ∧ x' = x ∧
        out = WfErr ("failed to create workflow: " +:+ e)) ∨
     (∃ s, rw_reachable c run device vmID v (ts_ID suite) (ts_Steps suite) s ∧
        rw_pc s = MainReturned out ∧ outcome_of (rw_wf s) out ∧ hands_on c run device vmID s x' ∧
        (∀ e, out = WfErr e → ctx_Err c (rw_world s) = Some e) ∧
        ((∀ e, out ≠ WfErr e) → rw_gs s = ∅))).
Proof.
  intros Hv Hb. destruct (runWorkflow_done c run device vmID v pick suite x Hv Hb)
    as [(e & He & ->)|(s & out & x' & Hr & Hp & Hd & Hx & ->)]; [by eauto 10|].
  exists out, x'. split; [done|]. right. exists s.
  pose proof (rw_reachable_inv _ _ _ _ _ _ _ _ Hr) as Hinv. split_and!; [done..| |done| |].
  - pose proof (ri_pc _ _ Hinv) as Hpc. rewrite Hp in Hpc. destruct Hpc as [[Hdone ->]|[e ->]]; [|done].
    apply finish_outcome; [apply Hinv|done].
  - intros e ->. by apply Hd.
  - intros Hne. by eapply ended_no_goroutines.
Qed.

(** The goroutines of a workflow cannot go on forever, also after the driver
    has returned: no sequence of moves is infinite. *)
Theorem driver_halts c run device vmID v id defs (s : rw_state W) :
  rw_reachable c run device vmID v id defs s → Acc (flip (rw_step c run device vmID)) s.
Proof. intros Hinv%rw_reachable_inv. by eapply rw_step_acc. Qed.

(** C10: there is no deadlock and no goroutine is ever stuck: until the driver
    returns it or a step's goroutine can move, and a goroutine that has a
    result to send can always send it, because the channel has a place for
    every step; this also holds after the driver has returned early. *)
Theorem driver_never_stuck c run device vmID v id defs (s : rw_state W) :
  rw_reachable c run device vmID v id defs s →
  ((∀ out, rw_pc s ≠ MainReturned out) → enabled c run device vmID s ≠ []) ∧
  (∀ sid def st err, rw_gs s !! sid = Some (mkG def (GSend st err)) →
     ∃ s', rw_exec c run device vmID (MoveStep sid) s = Some (Done s')).
Proof.
  intros Hinv%rw_reachable_inv. split.
  - intros Hpc. destruct (driver_enabled c run device vmID defs s Hinv Hpc) as [m Hm].
    intros E. rewrite E in Hm. by apply not_elem_of_nil in Hm.
  - intros sid def st err Hg. by eapply send_enabled.
Qed.

(** C23: a step runs only when everything it depends on has passed, and at
    most once at a time: in every reachable state a step with a goroutine is
    marked running, all steps it depends on, directly or not, have passed,
    and its attempt number is within its retries. *)
Theorem goroutine_dependencies_passed c run device vmID v id defs (s : rw_state W) x g :
  rw_reachable c run device vmID v id defs s → rw_gs s !! x = Some g →
  status_of (wf_steps (rw_wf s)) x = Some StepStatusRunning ∧ ws_ID (g_def g) = x ∧
  (∀ d, tc (depends (deps_of (wf_steps (rw_wf s)))) d x →
     status_of (wf_steps (rw_wf s)) d = Some StepStatusPassed) ∧
  (∀ k, g_phase g = GAttempt k → (0 ≤ k ≤ max_attempts (g_def g))%Z).
Proof.
  intros Hinv%rw_reachable_inv Hg. destruct (ri_sync _ _ Hinv) as [Hwf _ Hids Hlive _ _ _ Hgs _].
  assert (Hx : status_of (wf_steps (rw_wf s)) x = Some StepStatusRunning) by (apply Hlive; eauto).
  destruct (Hgs x g Hg) as [(t & Ht & Hd) Hph]. split_and!; [done|rewrite Hd; by apply Hids| |].
  - intros d Hd'. eapply started_deps; [done..|]. by left.
  - intros k Hk. unfold phase_ok in Hph. by rewrite Hk in Hph.
Qed.

End properties.

(** The pause before a retry doubles only up to the thirty-fourth attempt:
    there the number of nanoseconds overflows, and the pause is negative,
    that is, none. *)
Lemma backoff_overflows : (backoff 33 > 0 ∧ backoff 34 < 0)%Z.
Proof. by vm_compute. Qed.

(** ** Witnesses: the diamond workflow on the concrete world *)

Definition diamond_suite : TestSuite := mkTestSuite "wf" "" "" TestCategoryUnset "" "" diamond 0 [].
Definition all_pass : sim := sample_world (reply_all "passed" "").
Definition diamond_run : TestRun := blank_run "run" "gpu0" "smoke".

Definition diamond_started : rw_state sim := loop_move (rw_init 4 diamond_new all_pass).

Lemma diamond_started_reachable :
  rw_reachable Background diamond_run sample_device "vm" (same_visits diamond) "wf" diamond diamond_started.
Proof.
  split; [apply same_visits_legal|]. exists diamond_new, all_pass. split; [apply diamond_new_ok|].
  eapply rtc_l; [|apply rtc_refl]. by exists MoveLoop.
Qed.

Lemma driver_halts_witness : Acc (flip (rw_step Background diamond_run sample_device "vm")) diamond_started.
Proof. exact (driver_halts _ _ _ _ _ _ _ _ diamond_started_reachable). Defined.

Lemma driver_never_stuck_witness :
  enabled Background diamond_run sample_device "vm" diamond_started ≠ [].
Proof.
  apply (driver_never_stuck Background diamond_run sample_device "vm" (same_visits diamond) "wf" diamond
    diamond_started diamond_started_reachable).
  intros out H. vm_compute in H. discriminate H.
Defined.

Lemma goroutine_dependencies_passed_witness :
  status_of (wf_steps (rw_wf diamond_started)) "probe" = Some StepStatusRunning.
Proof.
  apply (goroutine_dependencies_passed Background diamond_run sample_device "vm" (same_visits diamond)
    "wf" diamond diamond_started "probe" (mkG (mk_def "probe" []) (GAttempt 0)) diamond_started_reachable).
  by vm_compute.
Defined.
