(* ===== verification/StepGoroutines.v ===== *)
(** * The step goroutines that outlive their workflow

    [runWorkflow] returns as soon as the context of the run is done, and the
    goroutines of its steps go on: they wait for the answer to their command,
    store what it holds, retry, and send a result nobody receives, while
    [executeTestRun] writes the status, tears the VM down and returns, and
    after that.  [crewed W] is any world [W] with these goroutines: before
    every call the engine makes, those left behind make the steps a schedule
    gives them.  The engine is verified over such a world, for every
    schedule. *)
From stdpp Require Import options.
Set Default Proof Using "Type*".
From S2P Require Import Prelude GoStd GoChan Types Topo Workflow WorkflowRun Effects Config StepExec Interfaces RunWorkflow.
Open Scope string_scope.
Open Scope list_scope.
Open Scope nat_scope.

(** A schedule names, for the [n]-th call of the engine, the steps that come
    before it: the crew and the step whose goroutine moves. *)
Record crewed (W : Type) : Type := mkCrewed {
  cw_world : W;
  cw_crews : list crew;
  cw_sched : nat → list (nat * string);
  cw_turn : nat;
}.
Arguments mkCrewed {W}.
Arguments cw_world {W}.
Arguments cw_crews {W}.
Arguments cw_sched {W}.
Arguments cw_turn {W}.

Definition crewed_start {W : Type} (sched : nat → list (nat * string)) (w : W) : crewed W := mkCrewed w [] sched 0.

Definition with_world {W : Type} (w : W) (x : crewed W) : crewed W := mkCrewed w (cw_crews x) (cw_sched x) (cw_turn x).

(** The run of a crew names its binary: the engine would have panicked
    before it had a workflow. *)
Definition crew_named (k : crew) : Prop := names_binary (tr_TestSuiteID (cr_run k)).

Global Instance crew_named_dec k : Decision (crew_named k).
Proof. unfold crew_named, names_binary. apply _. Defined.

Section crews.
Context {W : Type} `{!EngineStore W, !Runtime W, !AgentCoordinatorInterface W}.

(** The goroutine of step [sid] of the [i]-th crew makes a step, if it can. *)
Definition crew_move (i : nat) (sid : string) : M (crewed W) unit := λ x,
  match cw_crews x !! i with
  | None => Done (tt, x)
  | Some k =>
    if decide (crew_named k) then
      match goroutine_move (cr_ctx k) (cr_run k) (cr_device k) (cr_vm k) sid (cr_gs k) (cr_chan k) (cw_world x) with
      | None => Done (tt, x)
      | Some (Panics why) => Panics why
      | Some (Done (gs, q, w)) =>
        Done (tt, mkCrewed w (<[i := mkCrew (cr_ctx k) (cr_run k) (cr_device k) (cr_vm k) gs q]> (cw_crews x))
                    (cw_sched x) (cw_turn x))
      end
    else Done (tt, x)
  end.

Definition late_moves (l : list (nat * string)) : M (crewed W) unit :=
  for_each l (λ m, crew_move m.1 m.2).

(** The steps that come before a call. *)
Definition tick : M (crewed W) unit := λ x,
  late_moves (cw_sched x (cw_turn x)) (mkCrewed (cw_world x) (cw_crews x) (cw_sched x) (S (cw_turn x))).

Definition beneath {A : Type} (c : M W A) : M (crewed W) A := λ x,
  match c (cw_world x) with
  | Done (a, w) => Done (a, with_world w x)
  | Panics why => Panics why
  end.

Definition among {A : Type} (c : M W A) : M (crewed W) A := _ ← tick; beneath c.

Global Instance crewed_goroutines : Goroutines (crewed W) := λ k x,
  if decide (crew_named k) then Done (tt, mkCrewed (cw_world x) (cw_crews x ++ [k]) (cw_sched x) (cw_turn x))
  else Panics "index out of range [-1]".

Global Instance crewed_store : EngineStore (crewed W) := {|
  UpdateTestRunStatus c id st msg := among (UpdateTestRunStatus c id st msg);
  GetTestResults c id := among (GetTestResults c id);
  SaveTestResult c res := among (SaveTestResult c res);
|}.

Global Instance crewed_runtime : Runtime (crewed W) := {|
  rt_Now := among rt_Now;
  rt_cancelled r x := rt_cancelled r (cw_world x);
  rt_clock x := rt_clock (cw_world x);
  rt_Sleep d := among (rt_Sleep d);
  rt_ResubmitLater run := among (rt_ResubmitLater run);
|}.

Global Instance crewed_agents : AgentCoordinatorInterface (crewed W) := {|
  RegisterVM id := among (RegisterVM id);
  UnregisterVM id := among (UnregisterVM id);
  WaitForAgent c id := among (WaitForAgent c id);
  SendCommand c id cmd := among (SendCommand c id cmd);
|}.

Global Instance crewed_vms `{!VMManagerInterface W} : VMManagerInterface (crewed W) := {|
  CreateVM c d := among (CreateVM c d);
  StartVM c id := among (StartVM c id);
  StopVM c id := among (StopVM c id);
  DestroyVM c id := among (DestroyVM c id);
|}.

Global Instance crewed_allocator `{!AllocatorInterface W} : AllocatorInterface (crewed W) := {|
  al_TryAcquire a := among (al_TryAcquire a);
  al_Release a := among (al_Release a);
|}.

Global Instance crewed_telemetry `{!Telemetry W} : Telemetry (crewed W) := {|
  Publish c e := among (Publish c e);
  LogCancel id by_ := among (LogCancel id by_);
  LogComplete id st d := among (LogComplete id st d);
  LogVMEvent what vm dev run := among (LogVMEvent what vm dev run);
|}.

Global Instance crewed_files `{!FileSystem W} : FileSystem (crewed W) := {|
  os_Getwd := among os_Getwd;
  os_Stat p := among (os_Stat p);
  os_ReadFile p := among (os_ReadFile p);
|}.

(** A step of a goroutine that was left behind. *)
Definition late_step (x x' : crewed W) : Prop := ∃ i sid, crew_move i sid x = Done (tt, x').

Lemma late_moves_steps l x x' : late_moves l x = Done (tt, x') → rtc late_step x x'.
Proof.
  revert x. induction l as [|[i sid] l IH]; intros x E; [by injection E as <-|].
  unfold late_moves in E. cbn [for_each] in E. unfold mbind, M_bind in E. cbn [fst snd] in E.
  destruct (crew_move i sid x) as [[[] x1]|] eqn:E1; [|done]. eapply rtc_l; [by exists i, sid|]. by apply IH.
Qed.

(** What the steps of goroutines keep. *)
Lemma late_step_keeps (P : crewed W → Prop) x x' :
  (∀ i sid k gs q w y, P y → cw_crews y !! i = Some k → crew_named k →
     goroutine_move (cr_ctx k) (cr_run k) (cr_device k) (cr_vm k) sid (cr_gs k) (cr_chan k) (cw_world y) = Some (Done (gs, q, w)) →
     P (mkCrewed w (<[i := mkCrew (cr_ctx k) (cr_run k) (cr_device k) (cr_vm k) gs q]> (cw_crews y)) (cw_sched y) (cw_turn y))) →
  rtc late_step x x' → P x → P x'.
Proof.
  intros HP Hr. induction Hr as [x|x x1 x2 (i & sid & E) _ IH]; [done|]. intros Hx. apply IH. clear IH.
  unfold crew_move in E. destruct (cw_crews x !! i) as [k|] eqn:Ek; [|by injection E as <-].
  case_decide as Hn; [|by injection E as <-].
  destruct (goroutine_move _ _ _ _ _ _ _ _) as [[[[gs q] w]|]|] eqn:Eg; [|done|by injection E as <-].
  injection E as <-. by eapply HP.
Qed.

(** The calls of the engine: steps of goroutines, then the call. *)
Lemma among_steps {A} (c : M W A) x a x' :
  among c x = Done (a, x') →
  ∃ x1 w, rtc late_step (mkCrewed (cw_world x) (cw_crews x) (cw_sched x) (S (cw_turn x))) x1 ∧
    c (cw_world x1) = Done (a, w) ∧ x' = with_world w x1.
Proof.
  unfold among, mbind, M_bind, tick. intros E. destruct (late_moves _ _) as [[[] x1]|] eqn:E1; [|done].
  unfold beneath in E. destruct (c (cw_world x1)) as [[b w]|] eqn:Ec; [|done]. injection E as <- <-.
  exists x1, w. split; [by eapply late_moves_steps|done].
Qed.

End crews.

(** ** The goroutines left behind do not make a world panic *)

Section safe.
Context {W : Type} `{!EngineStore W, !Runtime W, !AgentCoordinatorInterface W, !SafeStore W, !SafeRuntime W, !SafeAgents W}.

Global Instance total_crew_move i sid : Total (W:=crewed W) (crew_move i sid).
Proof.
  intros x. unfold crew_move. destruct (cw_crews x !! i) as [k|]; [|eauto]. case_decide as Hn; [|eauto].
  destruct (goroutine_move _ _ _ _ _ _ _ _) as [[[[gs q] w]|why]|] eqn:E; [eauto| |eauto].
  by apply goroutine_move_safe in E.
Qed.

Global Instance total_late_moves l : Total (W:=crewed W) (late_moves l).
Proof. unfold late_moves. apply _. Qed.

Global Instance total_among {A} (c : M W A) : Total c → Total (among c).
Proof.
  intros Hc. unfold among. apply total_bind; [|intros _].
  - intros x. unfold tick. apply total_late_moves.
  - intros x. destruct (Hc (cw_world x)) as (a & w & E). unfold beneath. rewrite E. eauto.
Qed.

Global Instance crewed_safe_goroutines : SafeGoroutines (W:=crewed W).
Proof. intros k Hk x. unfold rt_LeaveRunning, crewed_goroutines. rewrite decide_True by done. eauto. Qed.
Global Instance crewed_safe_store : SafeStore (crewed W).
Proof. split; intros; apply total_among, _. Qed.
Global Instance crewed_safe_runtime : SafeRuntime (crewed W).
Proof. split; intros; apply total_among, _. Qed.
Global Instance crewed_safe_agents : SafeAgents (crewed W).
Proof. split; intros; apply total_among, _. Qed.
Global Instance crewed_safe_vms `{!VMManagerInterface W, !SafeVMs W} : SafeVMs (crewed W).
Proof. split; intros; apply total_among, _. Qed.
Global Instance crewed_safe_allocator `{!AllocatorInterface W, !SafeAllocator W} : SafeAllocator (crewed W).
Proof. split; intros; apply total_among, _. Qed.
Global Instance crewed_safe_telemetry `{!Telemetry W, !SafeTelemetry W} : SafeTelemetry (crewed W).
Proof. split; intros; apply total_among, _. Qed.
Global Instance crewed_safe_files `{!FileSystem W, !SafeFiles W} : SafeFiles (crewed W).
Proof. split; intros; apply total_among, _. Qed.

End safe.

(** ** Witness: the diamond workflow *)

Lemma runWorkflow_returns_witness : ∃ x',
  runWorkflow Background diamond_run sample_device "vm" (same_visits diamond) id diamond_suite
    (crewed_start (λ _, []) all_pass) = Done (Some WfOk, x').
Proof.
  destruct (runWorkflow_returns Background diamond_run sample_device "vm" (same_visits diamond) id
    diamond_suite (crewed_start (λ _, []) all_pass) (same_visits_legal diamond) ltac:(done)) as (out & x' & H & _).
  exists x'. rewrite H. vm_compute in H. injection H as <- <-. reflexivity.
Defined.
