(* ===== verification/Engine.v ===== *)
(** * The execution engine ([core/execution_engine.go])

    [executeTestRun], from the status RUNNING to the final status, against
    any world that implements the store, the VM manager, the agent
    coordinator, the allocator, the event bus and the file system.  It is cut
    at its early returns and deferred calls: [prepare] up to the allocation,
    [run_on_vm] with the VM's teardown, [agent_stage] with the commands and
    the workflow, [final_stage] with the verdict.  Spans and log lines have
    no effect on the run and are left out.  What it asks of its components is
    a life of a run; the goroutines of a workflow that was cut short by the
    context of the run go on among these calls. *)
From stdpp Require Import options.
Set Default Proof Using "Type*".
From S2P Require Import Prelude GoStd GoChan Types Topo Scheduler Allocator Workflow WorkflowRun MemoryStore.
From S2P Require Import Effects Config Json StepExec Interfaces RunWorkflow StepGoroutines.
Open Scope string_scope.
Open Scope list_scope.
Open Scope nat_scope.

(** The engine's configuration; a nil pointer to an optional component is
    [false]. *)
Record ExecutionEngine : Type := mkEngine {
  en_registry : DeviceRegistry;
  en_cfg : GlobalConfig;
  en_agentCoord : bool;
  en_allocator : bool;
  en_eventBus : bool;
  en_audit : bool;
}.

(** What the Go runtime chooses: the orders of the visits of maps, and the
    goroutine that moves next. *)
Record choices : Type := mkChoices {
  ch_visits : list WorkflowStep → visits;
  ch_pick : nat → nat;
}.

Definition choices_ok (ch : choices) : Prop := ∀ defs, legal_visits defs (ch_visits ch defs).

Section engine.
Context {W : Type} `{!EngineStore W, !Runtime W, !AgentCoordinatorInterface W, !VMManagerInterface W,
  !AllocatorInterface W, !Telemetry W, !FileSystem W, !Goroutines W}.
Context (e : ExecutionEngine) (ch : choices).

(** [if cond { ... }] around calls whose result is ignored. *)
Definition when (b : bool) {A : Type} (c : M W A) : M W unit :=
  if b then _ ← c; mret tt else mret tt.

Definition publish (c : ctx) (ev : Event) : M W unit := when (en_eventBus e) (Publish c ev).

Definition update_status (c : ctx) (run : TestRun) (st : TestRunStatus) (msg : string) : M W unit :=
  _ ← UpdateTestRunStatus c (tr_ID run) st msg; mret tt.

(** The verdict over the stored results; a store that cannot be read counts
    as one without results. *)
Definition verdict (results : result (list TestResult)) : TestRunStatus :=
  let l := match results with Ok l => l | Err _ => [] end in
  if existsb (λ r, bool_decide (res_Status r = TestRunStatusFailed ∨ res_Status r = TestRunStatusErrored)) l
  then TestRunStatusFailed else TestRunStatusPassed.

(** Step 7: the final status. *)
Definition final_stage (runCtx : ctx) (startTime : Z) (run : TestRun) : M W (result unit) :=
  results ← GetTestResults runCtx (tr_ID run);
  let finalStatus := verdict results in
  _ ← update_status runCtx run finalStatus "";
  now ← rt_Now;
  let durationMs := Milliseconds (time_Sub now startTime) in
  _ ← publish runCtx (mkEvent EventTestRunCompleted (tr_ID run) (tr_DeviceID run)
        (TestRunStatus_string finalStatus) [("duration_ms", PayInt durationMs)]);
  _ ← when (en_audit e) (LogComplete (tr_ID run) (TestRunStatus_string finalStatus) durationMs);
  mret (Ok tt).

(** A command that must pass: the error text when it does not. *)
Definition must_pass (c : ctx) (vmID : string) (cmd : AgentCommand) (what : string) : M W (result unit) :=
  r ← SendCommand c vmID cmd;
  match r with
  | Err err => mret (Err err)
  | Ok res =>
    if decide (ar_Status res = "passed") then mret (Ok tt)
    else mret (Err (what +:+ " status: " +:+ ar_Status res))
  end.

(** Step 6, with the outcomes that end the run. *)
Definition workflow_stage (runCtx : ctx) (run : TestRun) (device : DeviceEntry) (vm : VMInstance)
    (suite : TestSuite) : M W (result unit) :=
  out ← runWorkflow runCtx run device (vm_ID vm) (ch_visits ch (ts_Steps suite)) (ch_pick ch) suite;
  match out with
  | None => panic "out of fuel"
  | Some (WfErr err) =>
    _ ← update_status runCtx run TestRunStatusErrored ("workflow execution failed: " +:+ err);
    mret (Err ("executing workflow: " +:+ err))
  | Some _ => mret (Ok tt)
  end.

(** Steps 4 to 6: an error ends the run, the status being written. *)
Definition agent_stage (runCtx : ctx) (run : TestRun) (device : DeviceEntry) (vm : VMInstance)
    (suite : TestSuite) : M W (result unit) :=
  now ← rt_Now;
  let agentCtx := WithTimeout runCtx now (seconds (vmd_BootTimeoutSeconds (cfg_VMDefaults (en_cfg e)))) in
  w ← WaitForAgent agentCtx (vm_ID vm);
  match w with
  | Err err =>
    _ ← update_status runCtx run TestRunStatusErrored ("agent registration timeout: " +:+ err);
    mret (Err ("waiting for agent: " +:+ err))
  | Ok _ =>
    _ ← publish runCtx (mkEvent EventVMReady (vm_ID vm) (tr_DeviceID run) ""
          [("test_run_id", PayString (tr_ID run))]);
    l ← must_pass runCtx (vm_ID vm) (load_command run device) "driver load";
    match l with
    | Err errMsg =>
      _ ← update_status runCtx run TestRunStatusErrored errMsg;
      mret (Err ("loading driver: " +:+ errMsg))
    | Ok _ =>
      _ ← publish runCtx (mkEvent EventDriverLoaded (tr_ID run) (tr_DeviceID run) ""
            [("module_name", PayString (de_DriverModule device))]);
      v ← (if isVishwaSuite (tr_TestSuiteID run)
           then must_pass runCtx (vm_ID vm) (verify_command run device) "verify"
           else mret (Ok tt));
      match v with
      | Err errMsg =>
        _ ← update_status runCtx run TestRunStatusErrored errMsg;
        mret (Err ("verifying device: " +:+ errMsg))
      | Ok _ => workflow_stage runCtx run device vm suite
      end
    end
  end.

(** The deferred teardown, under [context.Background()]. *)
Definition teardown (run : TestRun) (vm : VMInstance) : M W unit :=
  _ ← when (en_agentCoord e) (UnregisterVM (vm_ID vm));
  _ ← StopVM Background (vm_ID vm);
  _ ← DestroyVM Background (vm_ID vm);
  _ ← publish Background (mkEvent EventVMDestroyed (vm_ID vm) (tr_DeviceID run) ""
        [("test_run_id", PayString (tr_ID run))]);
  when (en_audit e) (LogVMEvent "vm.destroyed" (vm_ID vm) (tr_DeviceID run) (tr_ID run)).

(** The part of the run with a started VM, up to the return. *)
Definition started_stage (runCtx : ctx) (startTime : Z) (run : TestRun) (device : DeviceEntry)
    (vm : VMInstance) (suite : TestSuite) : M W (result unit) :=
  r ← (if en_agentCoord e then agent_stage runCtx run device vm suite else mret (Ok tt));
  match r with
  | Err err => mret (Err err)
  | Ok _ => final_stage runCtx startTime run
  end.

(** Step 3 to the end. *)
Definition run_on_vm (runCtx : ctx) (startTime : Z) (run : TestRun) (device : DeviceEntry)
    (suite : TestSuite) : M W (result unit) :=
  v ← CreateVM runCtx device;
  match v with
  | Err err =>
    _ ← update_status runCtx run TestRunStatusErrored ("VM creation failed: " +:+ err);
    mret (Err ("creating VM: " +:+ err))
  | Ok vm =>
    let run := set_tr_VMID (vm_ID vm) run in
    _ ← publish runCtx (mkEvent EventVMCreated (vm_ID vm) (tr_DeviceID run)
          (VMStatus_string (vm_Status vm)) [("test_run_id", PayString (tr_ID run))]);
    _ ← when (en_audit e) (LogVMEvent "vm.created" (vm_ID vm) (tr_DeviceID run) (tr_ID run));
    _ ← when (en_agentCoord e) (RegisterVM (vm_ID vm));
    s ← StartVM runCtx (vm_ID vm);
    match s with
    | Err err =>
      _ ← when (en_agentCoord e) (UnregisterVM (vm_ID vm));
      _ ← DestroyVM runCtx (vm_ID vm);
      _ ← update_status runCtx run TestRunStatusErrored ("VM start failed: " +:+ err);
      mret (Err ("starting VM: " +:+ err))
    | Ok _ =>
      r ← started_stage runCtx startTime run device vm suite;
      _ ← teardown run vm;
      mret r
    end
  end.

(** Step 2c: the budget, with the deferred release. *)
Definition allocation : Allocation :=
  mkAllocation (qemu_DefaultCPUs (cfg_QEMU (en_cfg e))) (qemu_DefaultMemoryMB (cfg_QEMU (en_cfg e))).

Definition with_budget (runCtx : ctx) (startTime : Z) (run : TestRun) (device : DeviceEntry)
    (suite : TestSuite) : M W (result unit) :=
  if en_allocator e then
    ok ← al_TryAcquire allocation;
    if (ok : bool) then
      r ← run_on_vm runCtx startTime run device suite;
      _ ← al_Release allocation;
      mret r
    else
      _ ← update_status runCtx run TestRunStatusPending "waiting for resources";
      _ ← rt_ResubmitLater run;
      mret (Ok tt)
  else run_on_vm runCtx startTime run device suite.

Definition skip_message (device : DeviceEntry) : string :=
  "skipped: device " +:+ fmt_q (de_ID device) +:+ " target_modes " +:+
  fmt_v_strings (de_TargetModes device) +:+
  " does not include 'qemu'; physical hardware passthrough required".

(** Step 2a: a device that needs real hardware. *)
Definition skip_device (runCtx : ctx) (run : TestRun) (device : DeviceEntry) : M W (result unit) :=
  _ ← update_status runCtx run TestRunStatusCancelled (skip_message device);
  _ ← publish runCtx (mkEvent EventTestRunCancelled (tr_ID run) (tr_DeviceID run)
        (TestRunStatus_string TestRunStatusCancelled) [("reason", PayString (skip_message device))]);
  _ ← when (en_audit e) (LogCancel (tr_ID run) (tr_RequestedBy run));
  mret (Ok tt).

(** Step 2: the device and its suite. *)
Definition prepare (runCtx : ctx) (startTime : Z) (run : TestRun) : M W (result unit) :=
  match FindDevice (en_registry e) (tr_DeviceID run) with
  | Err err =>
    _ ← update_status runCtx run TestRunStatusErrored ("device not found: " +:+ err);
    mret (Err ("device lookup: " +:+ err))
  | Ok device =>
    if deviceSupportsQEMU (de_TargetModes device) then
      s ← loadTestSuite (tr_TestSuiteID run) device;
      match s with
      | Err err =>
        _ ← update_status runCtx run TestRunStatusErrored ("failed to load test suite: " +:+ err);
        mret (Err ("failed to load test suite: " +:+ err))
      | Ok suite => with_budget runCtx startTime run device suite
      end
    else skip_device runCtx run device
  end.

Definition executeTestRun (c : ctx) (run : TestRun) : M W (result unit) :=
  now ← rt_Now;
  let runCtx := WithTimeout c now (seconds (vmd_TestTimeoutSeconds (cfg_VMDefaults (en_cfg e)))) in
  startTime ← rt_Now;
  r ← UpdateTestRunStatus runCtx (tr_ID run) TestRunStatusRunning "";
  match r with
  | Err err => mret (Err ("updating status to RUNNING: " +:+ err))
  | Ok _ =>
    _ ← publish runCtx (mkEvent EventTestRunStarted (tr_ID run) (tr_DeviceID run)
          (TestRunStatus_string TestRunStatusRunning) []);
    prepare runCtx startTime run
  end.

(** [SubmitTestRun]: the queue first, then the event. *)
Definition SubmitTestRun `{!SchedulerInterface W} (run : TestRun) : M W unit :=
  _ ← sched_Enqueue run;
  publish Background (mkEvent EventTestRunSubmitted (tr_ID run) (tr_DeviceID run)
    (TestRunStatus_string TestRunStatusPending)
    [("priority", PayInt (tr_Priority run)); ("requested_by", PayString (tr_RequestedBy run));
     ("tags", PayStrings (tr_Tags run))]).

End engine.

(** ** What a run does

    The calls in the log of a world, but for those that only inform observers
    (the event bus and the audit log). *)

Definition is_core (ev : log_event) : bool :=
  match ev with LgPublish _ | LgAudit _ _ => false | _ => true end.

Definition core_log (tr : list log_event) : list log_event := filter (λ ev, is_core ev = true) tr.

Lemma core_app a b : core_log (a ++ b) = core_log a ++ core_log b.
Proof. apply filter_app. Qed.

(** What the goroutine of a step does: tests on the run's VM, and results of
    the run. *)
Definition step_event (rid vm : string) (ev : log_event) : Prop :=
  (∃ cmd r, ev = LgSend vm cmd r ∧ ac_Type cmd = "start_test") ∨
  (∃ res r, ev = LgSave res r ∧ res_TestRunID res = rid).

(** An interleaving of two sequences. *)
Inductive mix {A : Type} : list A → list A → list A → Prop :=
| mix_nil : mix [] [] []
| mix_left x l r m : mix l r m → mix (x :: l) r (x :: m)
| mix_right x l r m : mix l r m → mix l (x :: r) (x :: m).

Lemma mix_only_left {A} (l : list A) : mix l [] l.
Proof. induction l; by constructor. Qed.

Lemma mix_only_right {A} (r : list A) : mix [] r r.
Proof. induction r; by constructor. Qed.

Lemma mix_app {A} (l r m l' r' m' : list A) : mix l r m → mix l' r' m' → mix (l ++ l') (r ++ r') (m ++ m').
Proof. induction 1; intros Hm; simpl; [done|constructor; auto..]. Qed.

(** The calls of a run: all its own, or with the workflow cut short after
    [pre] by the context of the run, so that the goroutines of its steps on
    the VM [vm] may act among the engine's calls in [tail], and after them. *)
Inductive life_log : Type :=
| Calm (evs : list log_event)
| Cut (vm : string) (pre tail : list log_event).

Definition ll_before (evs : list log_event) (l : life_log) : life_log :=
  match l with Calm a => Calm (evs ++ a) | Cut vm pre tail => Cut vm (evs ++ pre) tail end.

Definition ll_after (l : life_log) (evs : list log_event) : life_log :=
  match l with Calm a => Calm (a ++ evs) | Cut vm pre tail => Cut vm pre (tail ++ evs) end.

Infix "+>" := ll_before (at level 51, right associativity).
Infix "<+" := ll_after (at level 52, left associativity).

Lemma ll_before_nil l : [] +> l = l.
Proof. by destruct l. Qed.
Lemma ll_after_nil l : l <+ [] = l.
Proof. destruct l; simpl; by rewrite app_nil_r. Qed.
Lemma ll_before_app a b l : (a ++ b) +> l = a +> b +> l.
Proof. destruct l; simpl; by rewrite app_assoc. Qed.
Lemma ll_after_app l a b : l <+ (a ++ b) = l <+ a <+ b.
Proof. destruct l; simpl; by rewrite app_assoc. Qed.
Lemma ll_before_after a l b : a +> (l <+ b) = a +> l <+ b.
Proof. destruct l; simpl; by rewrite ?app_assoc. Qed.
Lemma ll_calm_after a b : Calm a <+ b = Calm (a ++ b).
Proof. done. Qed.

(** A log that shows these calls of the run [rid]. *)
Definition reads (rid : string) (l : life_log) (tr : list log_event) : Prop :=
  match l with
  | Calm evs => tr = evs
  | Cut vm pre tail => ∃ late mixed, tr = pre ++ mixed ∧ mix tail late mixed ∧ Forall (step_event rid vm) late
  end.

(** ** The life of a run, abstractly *)

Section life.
Context (e : ExecutionEngine) (run : TestRun).

(** The reply a command must get, and the error of any other. *)
Definition reply_passed (r : result AgentResult) : Prop :=
  ∃ a, r = Ok a ∧ ar_Status a = "passed".

Definition reply_failed (what : string) (r : result AgentResult) (errMsg : string) : Prop :=
  r = Err errMsg ∨ ∃ a, r = Ok a ∧ ar_Status a ≠ "passed" ∧ errMsg = what +:+ " status: " +:+ ar_Status a.

(** The driver is loaded, and a Vishwa device verified, before any test. *)
Definition boot_log (device : DeviceEntry) (vm : string) (boot : list log_event) : Prop :=
  ∃ l, reply_passed l ∧
    if isVishwaSuite (tr_TestSuiteID run)
    then ∃ v, reply_passed v ∧
      boot = [LgWait vm (Ok tt); LgSend vm (load_command run device) l; LgSend vm (verify_command run device) v]
    else boot = [LgWait vm (Ok tt); LgSend vm (load_command run device) l].

(** [life_workflow_cut]: the context of the run ended while steps were at
    work; from then on their goroutines may act among the engine's calls. *)
Inductive agent_life (device : DeviceEntry) (vm : string) : result unit → life_log → Prop :=
| life_no_agent err r :
    agent_life device vm (Err ("waiting for agent: " +:+ err))
      (Calm [LgWait vm (Err err);
             LgStatus (tr_ID run) TestRunStatusErrored ("agent registration timeout: " +:+ err) r])
| life_load_failed reply errMsg r :
    reply_failed "driver load" reply errMsg →
    agent_life device vm (Err ("loading driver: " +:+ errMsg))
      (Calm [LgWait vm (Ok tt); LgSend vm (load_command run device) reply;
             LgStatus (tr_ID run) TestRunStatusErrored errMsg r])
| life_verify_failed l reply errMsg r :
    isVishwaSuite (tr_TestSuiteID run) = true → reply_passed l → reply_failed "verify" reply errMsg →
    agent_life device vm (Err ("verifying device: " +:+ errMsg))
      (Calm [LgWait vm (Ok tt); LgSend vm (load_command run device) l; LgSend vm (verify_command run device) reply;
             LgStatus (tr_ID run) TestRunStatusErrored errMsg r])
| life_workflow_error boot steps err r :
    boot_log device vm boot → Forall (step_event (tr_ID run) vm) steps →
    agent_life device vm (Err ("executing workflow: " +:+ err))
      (Calm (boot ++ steps ++
             [LgStatus (tr_ID run) TestRunStatusErrored ("workflow execution failed: " +:+ err) r]))
| life_workflow_cut boot steps err r :
    boot_log device vm boot → Forall (step_event (tr_ID run) vm) steps →
    agent_life device vm (Err ("executing workflow: " +:+ err))
      (Cut vm (boot ++ steps)
             [LgStatus (tr_ID run) TestRunStatusErrored ("workflow execution failed: " +:+ err) r])
| life_workflow boot steps :
    boot_log device vm boot → Forall (step_event (tr_ID run) vm) steps →
    agent_life device vm (Ok tt) (Calm (boot ++ steps)).

(** The calls only made with an agent coordinator. *)
Definition if_agents (l : list log_event) : list log_event := if en_agentCoord e then l else [].

Definition life_started (device : DeviceEntry) (vm : VMInstance) : list log_event :=
  [LgCreateVM device (Ok vm)] ++ if_agents [LgRegister (vm_ID vm)] ++ [LgStartVM (vm_ID vm) (Ok tt)].

(** A VM that was started is stopped and then destroyed, whatever happened,
    under a context that does not expire. *)
Definition life_teardown (vm : VMInstance) (stop destroy : result unit) : list log_event :=
  if_agents [LgUnregister (vm_ID vm)] ++
  [LgStopVM Background (vm_ID vm) stop; LgDestroyVM Background (vm_ID vm) destroy].

Inductive vm_life (device : DeviceEntry) : result unit → life_log → Prop :=
| life_create_failed err r :
    vm_life device (Err ("creating VM: " +:+ err))
      (Calm [LgCreateVM device (Err err);
             LgStatus (tr_ID run) TestRunStatusErrored ("VM creation failed: " +:+ err) r])
| life_start_failed vm err c d r :
    vm_life device (Err ("starting VM: " +:+ err))
      (Calm ([LgCreateVM device (Ok vm)] ++ if_agents [LgRegister (vm_ID vm)] ++
             [LgStartVM (vm_ID vm) (Err err)] ++ if_agents [LgUnregister (vm_ID vm)] ++
             [LgDestroyVM c (vm_ID vm) d;
              LgStatus (tr_ID run) TestRunStatusErrored ("VM start failed: " +:+ err) r]))
| life_aborted vm msg agent s d :
    en_agentCoord e = true → agent_life device (vm_ID vm) (Err msg) agent →
    vm_life device (Err msg) (life_started device vm +> agent <+ life_teardown vm s d)
| life_completed vm agent results r s d :
    (if en_agentCoord e then agent_life device (vm_ID vm) (Ok tt) agent else agent = Calm []) →
    vm_life device (Ok tt)
      (life_started device vm +> agent <+
       ([LgResults (tr_ID run) results; LgStatus (tr_ID run) (verdict results) "" r] ++
        life_teardown vm s d)).

(** The budget is taken before the VM and given back after it is gone. *)
Definition with_allocation (body : life_log) : life_log :=
  if en_allocator e then [LgAcquire (allocation e) true] +> body <+ [LgRelease (allocation e)] else body.

Definition life_running : log_event := LgStatus (tr_ID run) TestRunStatusRunning "" (Ok tt).

Inductive run_life : result unit → life_log → Prop :=
| life_not_started err :
    run_life (Err ("updating status to RUNNING: " +:+ err))
      (Calm [LgStatus (tr_ID run) TestRunStatusRunning "" (Err err)])
| life_no_device err r :
    FindDevice (en_registry e) (tr_DeviceID run) = Err err →
    run_life (Err ("device lookup: " +:+ err))
      (Calm [life_running; LgStatus (tr_ID run) TestRunStatusErrored ("device not found: " +:+ err) r])
| life_skipped device r :
    FindDevice (en_registry e) (tr_DeviceID run) = Ok device →
    deviceSupportsQEMU (de_TargetModes device) = false →
    run_life (Ok tt) (Calm [life_running; LgStatus (tr_ID run) TestRunStatusCancelled (skip_message device) r])
| life_no_suite err r :
    run_life (Err ("failed to load test suite: " +:+ err))
      (Calm [life_running; LgStatus (tr_ID run) TestRunStatusErrored ("failed to load test suite: " +:+ err) r])
| life_deferred r :
    en_allocator e = true →
    run_life (Ok tt)
      (Calm [life_running; LgAcquire (allocation e) false;
             LgStatus (tr_ID run) TestRunStatusPending "waiting for resources" r; LgResubmit run])
| life_executed device res body :
    FindDevice (en_registry e) (tr_DeviceID run) = Ok device → vm_life device res body →
    run_life res ([life_running] +> with_allocation body).

End life.

(** ** What a computation emits *)

(** How the calls of a computation are recorded, on a world [X]: closed under
    the constructs of the monad, and with the effect of the calls a step's
    goroutine makes. *)
Record emitter (X : Type) `{!EngineStore X, !Runtime X, !AgentCoordinatorInterface X} : Type := mkEmitter {
  em {A : Type} : M X A → (A → list log_event → Prop) → Prop;
  em_ret {A} (a : A) (P : A → list log_event → Prop) : P a [] → em (mret a) P;
  em_mono {A} (c : M X A) (P Q : A → list log_event → Prop) : em c P → (∀ a evs, P a evs → Q a evs) → em c Q;
  em_bind {A B} (c : M X A) (k : A → M X B) P (Q : B → list log_event → Prop) :
    em c P → (∀ a evs, P a evs → em (k a) (λ b evs', Q b (evs ++ evs'))) → em (c ≫= k) Q;
  em_lift {A} (r : go A) : em (lift r) (λ a evs, evs = [] ∧ r = Done a);
  em_now : em rt_Now (λ _ evs, evs = []);
  em_sleep d : em (rt_Sleep d) (λ _ evs, evs = []);
  em_send c vm cmd : em (SendCommand c vm cmd) (λ r evs, evs = [LgSend vm cmd r]);
  em_save c res : em (SaveTestResult c res) (λ r evs, evs = [LgSave res r]);
}.
Arguments em {X _ _ _} _ {A} c P.

(** A call of a step's goroutine is an event of the step. *)
Lemma em_phase {X : Type} `{!EngineStore X, !Runtime X, !AgentCoordinatorInterface X} (E : emitter X)
    c run device vm def ph calls :
  phase_move c run device vm def ph = inl calls →
  em E calls (λ _ evs, Forall (step_event (tr_ID run) vm) evs).
Proof.
  set (S := Forall (step_event (tr_ID run) vm)). intros Em.
  assert (Hend : ∀ (ph : gphase) evs, S evs → em E (mret ph) (λ _ evs', S (evs ++ evs'))).
  { intros ph' evs Hevs. apply em_ret. by rewrite app_nil_r. }
  destruct ph as [k|[|p todo] next|k|st err]; simpl in Em; [..|done]; injection Em as <-.
  - eapply (em_bind _ E _ _ (λ _ evs, S evs)); [|intros res evs Hevs; by apply Hend]. unfold attempt_send.
    eapply em_bind; [apply em_lift|]. intros cmd evs [-> Ec]. eapply em_bind; [apply em_now|]. intros now evs ->.
    eapply em_mono; [apply em_send|]. intros r evs ->. apply Forall_singleton. left. exists cmd, r. split; [done|].
    unfold step_command in Ec. destruct (if isVishwaSuite _ then _ else _) as [p|]; [|done]. by injection Ec as <-.
  - apply em_ret. apply Forall_nil_2.
  - eapply (em_bind _ E _ _ (λ _ evs, S evs)); [|intros u evs Hevs; by apply Hend]. unfold store_one.
    eapply em_bind; [apply em_now|]. intros now evs ->. eapply em_bind; [apply em_save|]. intros r evs ->.
    apply em_ret. apply Forall_singleton. right. eexists _, r. split; [done|]. by destruct p.
  - eapply em_bind; [apply em_sleep|]. intros u evs ->. by apply (Hend _ []), Forall_nil_2.
Qed.

Section emits.
Context {W : Type} `{!EngineStore W, !Runtime W, !AgentCoordinatorInterface W}.
Implicit Types (A B : Type).

(** *** On a logged world *)

Definition adds {A} (c : M (logged W) A) (P : A → list log_event → Prop) : Prop :=
  ∀ x, wp c (λ a x', ∃ evs, core_log x'.2 = core_log x.2 ++ evs ∧ P a evs) x.

Lemma adds_silent {A} (c : M W A) : adds (silent c) (λ _ evs, evs = []).
Proof. intros [w tr]. apply wp_silent. intros a w'. exists []. by rewrite app_nil_r. Qed.

Lemma adds_call {A} (c : M W A) mk :
  adds (log_call c mk) (λ a evs, evs = if is_core (mk a) then [mk a] else []).
Proof.
  intros [w tr]. apply wp_log_call. intros a w'. eexists. split; [|done]. simpl. rewrite core_app.
  unfold core_log at 2. destruct (is_core (mk a)) eqn:Ec.
  - by rewrite filter_cons_True, filter_nil.
  - by rewrite filter_cons_False, filter_nil, app_nil_r by (by rewrite Ec).
Qed.

Lemma adds_bind {A B} (c : M (logged W) A) (k : A → M (logged W) B) P Q :
  adds c P → (∀ a evs, P a evs → adds (k a) (λ b evs', Q b (evs ++ evs'))) → adds (c ≫= k) Q.
Proof.
  intros Hc Hk x. apply wp_bind. eapply wp_mono; [apply Hc|]. intros a x1 (evs & He & HP).
  eapply wp_mono; [apply (Hk a evs HP)|]. intros b x2 (evs' & He' & HQ).
  exists (evs ++ evs'). by rewrite He', He, app_assoc.
Qed.

Definition logged_emitter : emitter (logged W).
Proof.
  refine (mkEmitter (logged W) _ _ _ (@adds) _ _ (@adds_bind) _ _ _ _ _).
  - intros A a P H x. apply wp_ret. exists []. by rewrite app_nil_r.
  - intros A c P Q Hc H x. eapply wp_mono; [apply Hc|]. intros a x' (evs & ? & ?). eauto.
  - intros A r x. apply wp_intro. intros a x' E. unfold lift in E. destruct r; [|done]. injection E as <- <-.
    exists []. by rewrite app_nil_r.
  - apply adds_silent.
  - intros d. apply adds_silent.
  - intros c vm cmd. apply adds_call.
  - intros c res. apply adds_call.
Defined.

(** *** Among the goroutines that were left behind *)

Abbreviation CW := (crewed (logged W)).

(** The log went from [tr0] on as [l] says, and whoever was left behind
    belongs to the run. *)
Definition sits (rid : string) (tr0 : list log_event) (l : life_log) (x : CW) : Prop :=
  match l with
  | Calm _ => cw_crews x = []
  | Cut vm _ _ => Forall (λ k, tr_ID (cr_run k) = rid ∧ cr_vm k = vm) (cw_crews x)
  end ∧
  ∃ tr, core_log (cw_world x).2 = tr0 ++ tr ∧ reads rid l tr.

Lemma reads_late rid vm pre tail tr evs :
  reads rid (Cut vm pre tail) tr → Forall (step_event rid vm) evs → reads rid (Cut vm pre tail) (tr ++ evs).
Proof using.
  intros (late & mixed & -> & Hm & Hl) He. exists (late ++ evs), (mixed ++ evs).
  split_and!; [by rewrite app_assoc| |by apply Forall_app]. rewrite <- (app_nil_r tail).
  apply mix_app; [done|apply mix_only_right].
Qed.

Lemma reads_own rid l tr evs : reads rid l tr → reads rid (l <+ evs) (tr ++ evs).
Proof using.
  destruct l as [a|vm pre tail]; simpl; [by intros ->|]. intros (late & mixed & -> & Hm & Hl).
  exists late, (mixed ++ evs). split_and!; [by rewrite app_assoc| |done]. rewrite <- (app_nil_r late).
  apply mix_app; [done|apply mix_only_left].
Qed.

(** Steps of goroutines show in the log as such. *)
Lemma sits_late rid tr0 l x x' : rtc late_step x x' → sits rid tr0 l x → sits rid tr0 l x'.
Proof.
  apply late_step_keeps. intros i sid k gs q w y [Hcr (tr & Htr & Hl)] Hk Hn E.
  destruct l as [a|vm pre tail]; [by rewrite Hcr in Hk|].
  pose proof (proj1 (Forall_lookup _ _) Hcr i k Hk) as [Hid Hvm]. split.
  - by apply Forall_insert.
  - enough (∃ evs, core_log w.2 = core_log (cw_world y).2 ++ evs ∧ Forall (step_event rid vm) evs) as (evs & He & Hf).
    { exists (tr ++ evs). simpl. rewrite He, Htr, app_assoc. split; [done|]. by apply reads_late. }
    refine (goroutine_move_world (cr_ctx k) (cr_run k) (cr_device k) (cr_vm k)
      (λ z, ∃ evs, core_log z.2 = core_log (cw_world y).2 ++ evs ∧ Forall (step_event rid vm) evs) _ _ _ _ _ _ _ _ E _).
    + intros def ph calls z Em (evs & Hz & Hf).
      eapply wp_mono; [apply (em_phase logged_emitter _ _ _ _ _ _ _ Em)|]. intros u z' (evs' & Hz' & Hf').
      exists (evs ++ evs'). rewrite Hz', Hz, app_assoc. split; [done|]. apply Forall_app. split; [done|].
      by rewrite Hid, Hvm in Hf'.
    + exists []. by rewrite app_nil_r.
Qed.

(** A computation that leaves no goroutine behind: its own calls follow, in
    whatever state it begins. *)
Definition emits {A} (c : M CW A) (P : A → list log_event → Prop) : Prop :=
  ∀ rid tr0 l x, sits rid tr0 l x → wp c (λ a x', ∃ evs, P a evs ∧ sits rid tr0 (l <+ evs) x') x.

Lemma emits_ret {A} (a : A) (P : A → list log_event → Prop) : P a [] → emits (mret a) P.
Proof. intros HP rid tr0 l x Hx. apply wp_ret. exists []. by rewrite ll_after_nil. Qed.

Lemma emits_panic {A} why (P : A → list log_event → Prop) : emits (panic why) P.
Proof. intros rid tr0 l x Hx. apply wp_panic. Qed.

Lemma emits_mono {A} (c : M CW A) (P Q : A → list log_event → Prop) :
  emits c P → (∀ a evs, P a evs → Q a evs) → emits c Q.
Proof. intros Hc H rid tr0 l x Hx. eapply wp_mono; [by apply Hc|]. intros a x' (evs & ? & ?). eauto. Qed.

Lemma emits_bind {A B} (c : M CW A) (k : A → M CW B) P Q :
  emits c P → (∀ a evs, P a evs → emits (k a) (λ b evs', Q b (evs ++ evs'))) → emits (c ≫= k) Q.
Proof.
  intros Hc Hk rid tr0 l x Hx. apply wp_bind. eapply wp_mono; [by apply Hc|]. intros a x1 (evs & HP & H1).
  eapply wp_mono; [by apply (Hk a evs HP)|]. intros b x2 (evs' & HQ & H2).
  exists (evs ++ evs'). by rewrite ll_after_app.
Qed.

Lemma emits_among {A} (c : M (logged W) A) P : adds c P → emits (among c) P.
Proof.
  intros Hc rid tr0 l x Hx. apply wp_intro. intros a x' E.
  apply among_steps in E as (x1 & w & Hr & Ec & ->).
  assert (H1 : sits rid tr0 l x1) by (by eapply sits_late).
  destruct (wp_returns _ _ _ _ _ (Hc (cw_world x1)) Ec) as (evs & He & HP). exists evs. split; [done|].
  destruct H1 as [Hcr (tr & Htr & Hl)]. split; [by destruct l|]. exists (tr ++ evs). simpl.
  rewrite He, Htr, app_assoc. split; [done|by apply reads_own].
Qed.

Lemma emits_call {A} (c : M W A) mk :
  (∀ a, is_core (mk a) = true) → emits (among (log_call c mk)) (λ a evs, evs = [mk a]).
Proof. intros Hc. eapply emits_mono; [apply emits_among, adds_call|]. intros a evs ->. by rewrite Hc. Qed.

Lemma emits_noise {A} (c : M W A) mk :
  (∀ a, is_core (mk a) = false) → emits (among (log_call c mk)) (λ _ evs, evs = []).
Proof. intros Hc. eapply emits_mono; [apply emits_among, adds_call|]. intros a evs ->. by rewrite Hc. Qed.

Lemma emits_silent {A} (c : M W A) : emits (among (silent c)) (λ _ evs, evs = []).
Proof. apply emits_among, adds_silent. Qed.

(** The steps of a proof: the call at the head of a computation. *)
Lemma emits_call_bind {A B} (c : M W A) mk (k : A → M CW B) Q :
  (∀ a, is_core (mk a) = true) →
  (∀ a, emits (k a) (λ b evs, Q b (mk a :: evs))) → emits (among (log_call c mk) ≫= k) Q.
Proof. intros Hc Hk. eapply emits_bind; [by apply emits_call|]. intros a evs ->. apply Hk. Qed.

Lemma emits_noise_bind {A B} (c : M W A) mk (k : A → M CW B) Q :
  (∀ a, is_core (mk a) = false) → (∀ a, emits (k a) Q) → emits (among (log_call c mk) ≫= k) Q.
Proof. intros Hc Hk. eapply emits_bind; [by apply emits_noise|]. intros a evs ->. apply Hk. Qed.

Lemma emits_silent_bind {A B} (c : M W A) (k : A → M CW B) Q :
  (∀ a, emits (k a) Q) → emits (among (silent c) ≫= k) Q.
Proof. intros Hk. eapply emits_bind; [by apply emits_silent|]. intros a evs ->. apply Hk. Qed.

Definition crewed_emitter : emitter CW.
Proof.
  refine (mkEmitter CW _ _ _ (@emits) (@emits_ret) (@emits_mono) (@emits_bind) _ _ _ _ _).
  - intros A r rid tr0 l x Hx. apply wp_intro. intros a x' E. unfold lift in E. destruct r; [|done].
    injection E as <- <-. exists []. by rewrite ll_after_nil.
  - apply emits_silent.
  - intros d. apply emits_silent.
  - intros c vm cmd. by apply emits_call.
  - intros c res. by apply emits_call.
Defined.

(** *** Computations that may leave goroutines behind *)

(** A computation of the run [rid] that begins with none. *)
Definition lives (rid : string) {A} (c : M CW A) (P : A → life_log → Prop) : Prop :=
  ∀ tr0 evs0 x, sits rid tr0 (Calm evs0) x → wp c (λ a x', ∃ l, P a l ∧ sits rid tr0 (evs0 +> l) x') x.

Lemma lives_mono rid {A} (c : M CW A) (P Q : A → life_log → Prop) :
  lives rid c P → (∀ a l, P a l → Q a l) → lives rid c Q.
Proof. intros Hc H tr0 evs0 x Hx. eapply wp_mono; [by apply Hc|]. intros a x' (l & ? & ?). eauto. Qed.

Lemma emits_lives rid {A} (c : M CW A) P :
  emits c P → lives rid c (λ a l, ∃ evs, l = Calm evs ∧ P a evs).
Proof. intros Hc tr0 evs0 x Hx. eapply wp_mono; [by apply Hc|]. intros a x' (evs & HP & Hs). eauto. Qed.

Lemma lives_ret rid {A} (a : A) (P : A → life_log → Prop) : P a (Calm []) → lives rid (mret a) P.
Proof. intros HP tr0 evs0 x Hx. apply wp_ret. exists (Calm []). simpl. by rewrite app_nil_r. Qed.

(** First calls of its own, then the rest. *)
Lemma lives_bind rid {A B} (c : M CW A) (k : A → M CW B) P Q :
  emits c P → (∀ a evs, P a evs → lives rid (k a) (λ b l, Q b (evs +> l))) → lives rid (c ≫= k) Q.
Proof.
  intros Hc Hk tr0 evs0 x Hx. apply wp_bind. eapply wp_mono; [by apply Hc|]. intros a x1 (evs & HP & H1).
  eapply wp_mono; [by apply (Hk a evs HP)|]. intros b x2 (l & HQ & H2). exists (evs +> l). split; [done|].
  by rewrite <- ll_before_app.
Qed.

(** Then, whoever was left behind, calls of its own. *)
Lemma lives_then rid {A B} (c : M CW A) (k : A → M CW B) P Q :
  lives rid c P → (∀ a l, P a l → emits (k a) (λ b evs, Q b (l <+ evs))) → lives rid (c ≫= k) Q.
Proof.
  intros Hc Hk tr0 evs0 x Hx. apply wp_bind. eapply wp_mono; [by apply Hc|]. intros a x1 (l & HP & H1).
  eapply wp_mono; [by apply (Hk a l HP)|]. intros b x2 (evs & HQ & H2). exists (l <+ evs). split; [done|].
  by rewrite ll_before_after.
Qed.

Lemma lives_call_bind rid {A B} (c : M W A) mk (k : A → M CW B) Q :
  (∀ a, is_core (mk a) = true) →
  (∀ a, lives rid (k a) (λ b l, Q b ([mk a] +> l))) → lives rid (among (log_call c mk) ≫= k) Q.
Proof. intros Hc Hk. eapply lives_bind; [by apply emits_call|]. intros a evs ->. apply Hk. Qed.

Lemma lives_silent_bind rid {A B} (c : M W A) (k : A → M CW B) Q :
  (∀ a, lives rid (k a) Q) → lives rid (among (silent c) ≫= k) Q.
Proof.
  intros Hk. eapply lives_bind; [by apply emits_silent|]. intros a evs ->.
  eapply lives_mono; [apply Hk|]. intros b l. by rewrite ll_before_nil.
Qed.

Lemma lives_quiet rid {A B} (c : M CW A) (k : A → M CW B) Q :
  emits c (λ _ evs, evs = []) → (∀ a, lives rid (k a) Q) → lives rid (c ≫= k) Q.
Proof.
  intros Hc Hk. eapply lives_bind; [exact Hc|]. intros a evs ->.
  eapply lives_mono; [apply Hk|]. intros b l. by rewrite ll_before_nil.
Qed.

End emits.

(** ** The engine implements the abstract life *)

Section refinement.
Context {W : Type} `{!EngineStore W, !Runtime W, !AgentCoordinatorInterface W, !VMManagerInterface W,
  !AllocatorInterface W, !Telemetry W, !FileSystem W}.
Context (e : ExecutionEngine) (ch : choices).

Abbreviation CW := (crewed (logged W)).

Lemma emits_update c run st msg :
  emits (W:=W) (update_status c run st msg) (λ _ evs, ∃ r, evs = [LgStatus (tr_ID run) st msg r]).
Proof. apply emits_call_bind; [done|]. intros r. apply emits_ret. eauto. Qed.

Lemma emits_publish c ev : emits (W:=W) (publish e c ev) (λ _ evs, evs = []).
Proof.
  unfold publish, when. destruct (en_eventBus e); [|by apply emits_ret].
  apply emits_noise_bind; [done|]. intros r. by apply emits_ret.
Qed.

(** [when] around a call that is recorded, or around one that is not. *)
Lemma emits_when_call b {A} (c : M W A) mk :
  (∀ a, is_core (mk a) = true) →
  emits (when b (among (log_call c mk))) (λ _ evs, if b then ∃ a, evs = [mk a] else evs = []).
Proof.
  intros Hc. unfold when. destruct b; [|by apply emits_ret].
  apply emits_call_bind; [done|]. intros a. apply emits_ret. eauto.
Qed.

Lemma emits_when_noise b {A} (c : M W A) mk :
  (∀ a, is_core (mk a) = false) → emits (when b (among (log_call c mk))) (λ _ evs, evs = []).
Proof.
  intros Hc. unfold when. destruct b; [|by apply emits_ret].
  apply emits_noise_bind; [done|]. intros a. by apply emits_ret.
Qed.

Lemma emits_climb fuel dir suiteID : emits (W:=W) (climb fuel dir suiteID) (λ _ evs, evs = []).
Proof.
  revert dir. induction fuel as [|fuel IH]; intros dir; [by apply emits_ret|].
  apply emits_silent_bind. intros [u|err]; cbv beta iota zeta; [by apply emits_ret|].
  case_decide; [by apply emits_ret|apply IH].
Qed.

Lemma emits_read_first paths last : emits (W:=W) (read_first paths last) (λ _ evs, evs = []).
Proof.
  revert last. induction paths as [|p ps IH]; intros last; [by apply emits_ret|].
  apply emits_silent_bind. intros [d|err]; [by apply emits_ret|apply IH].
Qed.

Lemma emits_load suiteID device : emits (W:=W) (loadTestSuite suiteID device) (λ _ evs, evs = []).
Proof.
  unfold loadTestSuite. destruct (isVishwaSuite suiteID).
  - intros rid tr0 l x Hx. apply wp_intro. intros a x' E. destruct (vishwa_suite suiteID device); [|done].
    injection E as <- <-. exists []. by rewrite ll_after_nil.
  - assert (Hf : emits (W:=W) (find_suite suiteID) (λ _ evs, evs = [])).
    { apply emits_silent_bind. intros [dir|err].
      - eapply emits_bind; [apply emits_climb|]. intros f evs ->; cbv beta iota zeta.
        case_decide; [apply emits_silent|apply emits_read_first].
      - eapply emits_bind; [by apply (emits_ret _ (λ _ evs, evs = []))|]. intros f evs ->; cbv beta iota zeta.
        case_decide; [apply emits_silent|apply emits_read_first]. }
    eapply emits_bind; [exact Hf|]. intros [[|c data]|err] evs ->; [by apply emits_ret| |by apply emits_ret].
    destruct (Unmarshal _ _ _); by apply emits_ret.
Qed.

(** Whatever is scheduled, the workflow makes only calls of its steps, and
    leaves goroutines behind only when the run's context cut it short. *)
Lemma lives_workflow c run device vm v pick suite :
  legal_visits (ts_Steps suite) v →
  lives (W:=W) (tr_ID run) (runWorkflow c run device vm v pick suite)
    (λ out l, out ≠ None ∧ ∃ steps, Forall (step_event (tr_ID run) vm) steps ∧
       (l = Calm steps ∨ l = Cut vm steps [] ∧ ∃ err, out = Some (WfErr err))).
Proof.
  intros Hv tr0 evs0 x Hx. apply wp_intro. intros out x' E. unfold runWorkflow in E.
  destruct (NewWorkflow v (ts_ID suite) (tr_ID run) (ts_Steps suite)) as [w|err] eqn:Ew.
  2: { injection E as <- <-. exists (Calm []). split; [split; [done|]; exists []; auto|]. simpl. by rewrite app_nil_r. }
  destruct (rw_init_inv (W:=CW) (ts_Steps suite) v _ _ w x Hv Ew) as [Hinv Hm].
  destruct (rw_loop_returns (W:=CW) c run device vm (ts_Steps suite) pick (rw_fuel (ts_Steps suite)) 0 _ Hinv)
    as [[why Hl]|(s & Hr & [o Ho] & _ & Hl)]; [by rewrite Hm|done|by rewrite Hl in E|].
  rewrite Hl in E.
  assert (Epc : rw_pc s = MainReturned o) by (destruct (rw_pc s); by simplify_eq/=). rewrite Epc in E.
  assert (Hw : ∃ steps, sits (tr_ID run) tr0 (Calm (evs0 ++ steps)) (rw_world s) ∧ Forall (step_event (tr_ID run) vm) steps).
  { refine (rw_reach_world c run device vm (λ y, ∃ steps, sits (tr_ID run) tr0 (Calm (evs0 ++ steps)) y ∧
      Forall (step_event (tr_ID run) vm) steps) _ _ _ Hr _); [|exists []; by rewrite app_nil_r].
    intros def ph calls y Em (steps & Hy & Hs).
    eapply wp_mono; [by apply (em_phase crewed_emitter _ _ _ _ _ _ _ Em)|]. intros u y' (evs' & Hf & Hy').
    exists (steps ++ evs'). rewrite app_assoc. split; [done|by apply Forall_app]. }
  destruct Hw as (steps & Hs & Hf). case_decide as Hz.
  - injection E as <- <-. exists (Calm steps). split; [split; [done|]; eauto|done].
  - unfold mbind, M_bind, rt_LeaveRunning, crewed_goroutines in E.
    case_decide as Hn; [|done]. injection E as <- <-. exists (Cut vm steps []). split; [split; [done|]|].
    + exists steps. split; [done|]. right. split; [done|]. destruct o as [| |err]; [| |by eauto]; destruct Hz;
        apply map_size_empty_iff; eapply (ended_no_goroutines (W:=CW) c run device vm v (ts_ID suite) (ts_Steps suite)); eauto;
        (split; [done|eauto]).
    + destruct Hs as [Hcr (tr & Htr & ->)]. simpl in Hcr |- *. rewrite Hcr. split; [by constructor|]. simpl in *. exists (evs0 ++ steps).
      split; [done|]. exists [], []. rewrite app_nil_r. split_and!; [done|constructor|done].
Qed.

Lemma emits_must_pass c vm cmd what :
  emits (W:=W) (must_pass c vm cmd what) (λ res evs, ∃ reply, evs = [LgSend vm cmd reply] ∧
    match res with
    | Ok _ => reply_passed reply
    | Err errMsg => reply_failed what reply errMsg
    end).
Proof.
  apply emits_call_bind; [done|]. intros [a|err]; cbv beta iota.
  - case_decide; apply emits_ret; eexists; (split; [done|]); [by exists a|right; by exists a].
  - apply emits_ret. eexists. split; [done|]. by left.
Qed.

Lemma emits_final c start run :
  emits (W:=W) (final_stage e c start run)
    (λ res evs, res = Ok tt ∧ ∃ results r,
       evs = [LgResults (tr_ID run) results; LgStatus (tr_ID run) (verdict results) "" r]).
Proof.
  apply emits_call_bind; [done|]. intros results.
  eapply emits_bind; [apply emits_update|]. intros u evs [r ->].
  apply emits_silent_bind. intros now. eapply emits_bind; [apply emits_publish|]. intros u2 evs ->.
  eapply emits_bind; [by apply emits_when_noise|]. intros u3 evs ->. apply emits_ret. eauto.
Qed.

Lemma lives_workflow_stage c run device vm suite :
  choices_ok ch →
  lives (W:=W) (tr_ID run) (workflow_stage ch c run device vm suite)
    (λ res l, ∃ steps, Forall (step_event (tr_ID run) (vm_ID vm)) steps ∧
       match res with
       | Ok _ => l = Calm steps
       | Err msg => ∃ err r, msg = "executing workflow: " +:+ err ∧
           (let status := [LgStatus (tr_ID run) TestRunStatusErrored ("workflow execution failed: " +:+ err) r] in
            l = Calm (steps ++ status) ∨ l = Cut (vm_ID vm) steps status)
       end).
Proof.
  intros Hch. eapply lives_then; [by apply lives_workflow|]. intros out l [Hne (steps & Hs & Hl)].
  assert (Hok : ∀ o, out = Some o → (∀ err, o ≠ WfErr err) → l = Calm steps)
    by (intros o -> Ho; destruct Hl as [->|[_ [err [= ->]]]]; [done|by destruct (Ho err)]).
  destruct out as [[|f sk|err]|]; [| | |done].
  1,2: apply emits_ret; exists steps; rewrite ll_after_nil; split; [done|by eapply Hok].
  eapply emits_bind; [apply emits_update|]. intros u evs [r ->]. apply emits_ret.
  exists steps. split; [done|]. exists err, r. split; [done|]. destruct Hl as [->|[-> _]]; [left|right]; done.
Qed.

Lemma lives_agent c run device vm suite :
  choices_ok ch →
  lives (W:=W) (tr_ID run) (agent_stage e ch c run device vm suite) (agent_life run device (vm_ID vm)).
Proof.
  intros Hch. apply lives_silent_bind. intros now. apply lives_call_bind; [done|].
  intros [[]|err]; cbv beta iota; last first.
  { eapply lives_bind; [apply emits_update|]. intros u evs [r ->]. apply lives_ret. constructor. }
  apply lives_quiet; [apply emits_publish|]. intros u.
  eapply lives_bind; [apply emits_must_pass|]. intros [[]|errMsg] evs (l & -> & Hl); cbv beta iota; last first.
  { eapply lives_bind; [apply emits_update|]. intros u' evs [r ->]. apply lives_ret. by constructor. }
  apply lives_quiet; [apply emits_publish|]. intros u'.
  eapply lives_bind with (P := λ res evs,
    (res = Ok tt ∧ boot_log run device (vm_ID vm)
       ([LgWait (vm_ID vm) (Ok tt); LgSend (vm_ID vm) (load_command run device) l] ++ evs)) ∨
    (isVishwaSuite (tr_TestSuiteID run) = true ∧ ∃ errMsg v, res = Err errMsg ∧
       evs = [LgSend (vm_ID vm) (verify_command run device) v] ∧ reply_failed "verify" v errMsg)).
  { destruct (isVishwaSuite (tr_TestSuiteID run)) eqn:Ev.
    - eapply emits_mono; [apply emits_must_pass|]. intros [[]|errMsg] evs (v & -> & Hv);
        [left|right; split; [done|by exists errMsg, v]].
      split; [done|]. exists l. rewrite Ev. split; [done|]. by exists v.
    - apply emits_ret. left. split; [done|]. exists l. by rewrite Ev. }
  intros res evs [[-> Hb]|(Hvish & errMsg & v & -> & -> & Hv)]; cbv beta iota; last first.
  { eapply lives_bind; [apply emits_update|]. intros u2 evs [r ->]. apply lives_ret.
    by apply life_verify_failed. }
  eapply lives_mono; [by apply lives_workflow_stage|]. intros [[]|msg] l' (steps & Hs & Hl').
  - subst. by apply (life_workflow run device (vm_ID vm) (_ :: _ :: evs)).
  - destruct Hl' as (err & r & -> & [->| ->]).
    + by apply (life_workflow_error run device (vm_ID vm) (_ :: _ :: evs)).
    + by apply (life_workflow_cut run device (vm_ID vm) (_ :: _ :: evs)).
Qed.

Lemma emits_teardown run vm :
  emits (W:=W) (teardown e run vm) (λ _ evs, ∃ s d, evs = life_teardown e vm s d).
Proof.
  eapply emits_bind; [by apply emits_when_call|]. intros u evs Hevs.
  apply emits_call_bind; [done|]. intros s. apply emits_call_bind; [done|]. intros d.
  eapply emits_bind; [apply emits_publish|]. intros u2 evs2 ->.
  eapply emits_mono; [by apply emits_when_noise|]. intros u3 evs3 ->. exists s, d.
  unfold life_teardown, if_agents. destruct (en_agentCoord e); [destruct Hevs as [? ->]|subst]; done.
Qed.

Lemma lives_started c start run device vm suite :
  choices_ok ch →
  lives (W:=W) (tr_ID run) (started_stage e ch c start run device vm suite) (λ res l,
    (∃ msg, res = Err msg ∧ en_agentCoord e = true ∧ agent_life run device (vm_ID vm) (Err msg) l) ∨
    (res = Ok tt ∧ ∃ agent results r,
       (if en_agentCoord e then agent_life run device (vm_ID vm) (Ok tt) agent else agent = Calm []) ∧
       l = agent <+ [LgResults (tr_ID run) results; LgStatus (tr_ID run) (verdict results) "" r])).
Proof.
  intros Hch. unfold started_stage. destruct (en_agentCoord e) eqn:Ea.
  - eapply lives_then; [by apply lives_agent|]. intros [[]|msg] agent Hag; cbv beta iota.
    + eapply emits_mono; [apply emits_final|]. intros res evs (-> & results & r & ->). right. eauto 10.
    + apply emits_ret. left. rewrite ll_after_nil. eauto.
  - eapply lives_bind; [by apply (emits_ret _ (λ res evs, res = Ok tt ∧ evs = []))|]. intros res evs [-> ->].
    eapply lives_mono; [apply emits_lives, emits_final|].
    intros res l (evs & -> & -> & results & r & ->). right. split; [done|]. by exists (Calm []), results, r.
Qed.

(** The VM's identifier is not part of the life of the run. *)
Lemma agent_life_VMID v run device vm res l :
  agent_life (set_tr_VMID v run) device vm res l → agent_life run device vm res l.
Proof.
  destruct 1.
  - exact (life_no_agent run device vm err r).
  - by apply (life_load_failed run device vm reply errMsg r).
  - by apply (life_verify_failed run device vm l reply errMsg r).
  - by apply (life_workflow_error run device vm boot steps err r).
  - by apply (life_workflow_cut run device vm boot steps err r).
  - by apply (life_workflow run device vm boot steps).
Qed.

(** The engine's registering a VM with the hub, and taking it out again. *)
Lemma emits_when_agents {A} (c : M W A) ev :
  is_core ev = true → emits (when (en_agentCoord e) (among (log_call c (λ _, ev)))) (λ _ evs, evs = if_agents e [ev]).
Proof.
  intros Hc. eapply emits_mono; [by apply emits_when_call|]. intros u evs Hevs. unfold if_agents.
  destruct (en_agentCoord e); [by destruct Hevs|done].
Qed.

Lemma lives_run_on_vm c start run device suite :
  choices_ok ch →
  lives (W:=W) (tr_ID run) (run_on_vm e ch c start run device suite) (vm_life e run device).
Proof.
  intros Hch. apply lives_call_bind; [done|]. intros [vm|err]; cbv beta iota zeta; last first.
  { eapply lives_bind; [apply emits_update|]. intros u evs [r ->]. apply lives_ret. constructor. }
  apply lives_quiet; [apply emits_publish|]. intros u1.
  apply lives_quiet; [by apply emits_when_noise|]. intros u2.
  eapply lives_bind; [by apply emits_when_agents|]. intros u3 reg ->.
  apply lives_call_bind; [done|]. intros [[]|err]; cbv beta iota; last first.
  { eapply lives_bind; [by apply emits_when_agents|]. intros u4 unreg ->.
    apply lives_call_bind; [done|]. intros d. eapply lives_bind; [apply emits_update|].
    intros u5 evs [r ->]. apply lives_ret. apply (life_start_failed e run device vm err c d r). }
  eapply lives_then; [by apply (lives_started c start (set_tr_VMID (vm_ID vm) run))|]. intros res l Hl.
  eapply emits_bind; [apply emits_teardown|]. intros u6 td (s & d & ->). apply emits_ret.
  rewrite app_nil_r, <- !ll_before_app. destruct Hl as [(msg & -> & Ha & Hag)|(-> & agent & results & r & Hag & ->)].
  - rewrite ll_before_after. exact (life_aborted e run device vm msg l s d Ha (agent_life_VMID _ _ _ _ _ _ Hag)).
  - assert (Hag' : if en_agentCoord e then agent_life run device (vm_ID vm) (Ok tt) agent else agent = Calm [])
      by (destruct (en_agentCoord e); [by eapply agent_life_VMID|done]).
    rewrite <- ll_after_app, ll_before_after. exact (life_completed e run device vm agent results r s d Hag').
Qed.

Lemma lives_executeTestRun c run :
  choices_ok ch → lives (W:=W) (tr_ID run) (executeTestRun e ch c run) (run_life e run).
Proof.
  intros Hch. apply lives_silent_bind. intros now. apply lives_silent_bind. intros start.
  apply lives_call_bind; [done|]. intros [[]|err]; cbv beta iota; [|apply lives_ret; constructor].
  apply lives_quiet; [apply emits_publish|]. intros u.
  set (runCtx := WithTimeout _ _ _). unfold prepare.
  destruct (FindDevice (en_registry e) (tr_DeviceID run)) as [device|err] eqn:Ed; last first.
  { eapply lives_bind; [apply emits_update|]. intros u2 evs [r ->]. apply lives_ret. by constructor. }
  destruct (deviceSupportsQEMU (de_TargetModes device)) eqn:Eq; last first.
  { eapply lives_bind; [apply emits_update|]. intros u2 evs [r ->].
    apply lives_quiet; [apply emits_publish|]. intros u3.
    apply lives_quiet; [by apply emits_when_noise|]. intros u4. apply lives_ret. by eapply life_skipped. }
  apply lives_quiet; [apply emits_load|]. intros [suite|err]; cbv beta iota; last first.
  { eapply lives_bind; [apply emits_update|]. intros u2 evs [r ->]. apply lives_ret. by constructor. }
  assert (Hex : ∀ res body, vm_life e run device res body →
    run_life e run res ([life_running run] +> with_allocation e body)) by (intros; by eapply life_executed).
  unfold with_budget, with_allocation in *. destruct (en_allocator e) eqn:Ea.
  - apply lives_call_bind; [done|]. intros [|]; cbv beta iota.
    + eapply lives_then; [by apply lives_run_on_vm|]. intros res body Hb.
      apply emits_call_bind; [done|]. intros u2. apply emits_ret. specialize (Hex res body Hb).
      by rewrite ll_before_after.
    + eapply lives_bind; [apply emits_update|]. intros u2 evs [r ->].
      apply lives_call_bind; [done|]. intros u3. apply lives_ret. by constructor.
  - eapply lives_mono; [by apply lives_run_on_vm|]. intros res body Hb. by apply Hex.
Qed.

End refinement.

(** ** The engine returns *)

Section total.
Context {W : Type} `{!EngineStore W, !Runtime W, !AgentCoordinatorInterface W, !VMManagerInterface W,
  !AllocatorInterface W, !Telemetry W, !FileSystem W, !Goroutines W}.
Context (e : ExecutionEngine) (ch : choices).

Global Instance total_when b {A} (c : M W A) : Total c → Total (when b c).
Proof. intros Hc. unfold when. solve_total. Qed.

Global Instance total_publish `{!SafeTelemetry W} c ev : Total (W:=W) (publish e c ev).
Proof. apply _. Qed.

Global Instance total_update_status `{!SafeStore W} c run st msg : Total (W:=W) (update_status c run st msg).
Proof. unfold update_status. solve_total. Qed.

Lemma total_workflow_stage `{!SafeStore W, !SafeRuntime W, !SafeAgents W, !SafeGoroutines (W:=W)} c run device vm suite :
  choices_ok ch → names_binary (tr_TestSuiteID run) → Total (W:=W) (workflow_stage ch c run device vm suite).
Proof.
  intros Hch Hb w. unfold workflow_stage, mbind, M_bind.
  destruct (runWorkflow_done c run device (vm_ID vm) (ch_visits ch (ts_Steps suite)) (ch_pick ch) suite w
    (Hch _) Hb) as [(err & _ & ->)|(s & out & x' & _ & _ & _ & _ & ->)]; cbv beta iota.
  - destruct (total (update_status c run TestRunStatusErrored
      ("workflow execution failed: " +:+ "failed to create workflow: " +:+ err)) w) as (u & w' & ->).
    unfold mret, M_ret. eauto.
  - destruct out as [|f sk|err]; unfold mret, M_ret; [by eauto..|].
    destruct (total (update_status c run TestRunStatusErrored ("workflow execution failed: " +:+ err))
      x') as (u & w' & ->). eauto.
Qed.

Lemma total_run_on_vm `{!SafeStore W, !SafeRuntime W, !SafeAgents W, !SafeGoroutines (W:=W), !SafeVMs W, !SafeTelemetry W}
    c start run device suite :
  choices_ok ch → names_binary (tr_TestSuiteID run) → Total (W:=W) (run_on_vm e ch c start run device suite).
Proof.
  intros Hch Hb.
  pose proof (λ vm, total_workflow_stage c (set_tr_VMID (vm_ID vm) run) device vm suite Hch Hb) as Hw.
  unfold run_on_vm, started_stage, agent_stage, final_stage, must_pass, teardown.
  solve_total.
Qed.

Lemma total_executeTestRun `{!SafeStore W, !SafeRuntime W, !SafeAgents W, !SafeGoroutines (W:=W), !SafeVMs W, !SafeAllocator W,
    !SafeTelemetry W, !SafeFiles W} c run :
  choices_ok ch → names_binary (tr_TestSuiteID run) → Total (W:=W) (executeTestRun e ch c run).
Proof.
  intros Hch Hb. pose proof (λ c start device suite, total_run_on_vm c start run device suite Hch Hb) as Hv.
  pose proof (λ device, total_loadTestSuite (W:=W) (tr_TestSuiteID run) device Hb) as Hl.
  unfold executeTestRun, prepare, with_budget, skip_device. solve_total.
Qed.

End total.
