(* ===== verification/Lifecycle.v ===== *)
(** * What a test run does, whatever the world

    The properties of [executeTestRun] that follow from its refinement of the
    abstract life of a run: it returns, everything it takes it gives back,
    the statuses it writes, and that no test runs before the driver was
    loaded on the run's own VM.  They are about the log of a world in which
    the goroutines a cancelled workflow left behind go on among the engine's
    calls and after it returned.  The end of the file runs the engine on the
    concrete world. *)
From stdpp Require Import options.
From S2P Require Import Prelude GoStd GoChan Types Topo Scheduler Allocator Workflow WorkflowRun MemoryStore.
From S2P Require Import Effects Config Json StepExec Interfaces RunWorkflow StepGoroutines Engine.
Open Scope string_scope.
Open Scope list_scope.
Open Scope nat_scope.

(** ** Views of a log *)

Definition status_write (ev : log_event) : option (string * TestRunStatus * result unit) :=
  match ev with LgStatus id st _ r => Some (id, st, r) | _ => None end.

Definition is_test (ev : log_event) : Prop :=
  match ev with LgSend _ cmd _ => ac_Type cmd = "start_test" | _ => False end.

(** What happens between the start of a VM and its end. *)
Definition inner (ev : log_event) : Prop :=
  match ev with LgWait _ _ | LgSend _ _ _ | LgSave _ _ | LgStatus _ _ _ _ => True | _ => False end.

Lemma omap_core {A} (f : log_event → option A) tr :
  (∀ ev, is_core ev = false → f ev = None) → omap f (core_log tr) = omap f tr.
Proof.
  intros Hf. induction tr as [|ev tr IH]; [done|]. unfold core_log in *. rewrite filter_cons.
  case_decide as Hc; csimpl; rewrite IH; [done|]. by rewrite Hf by (by destruct (is_core ev)).
Qed.

Lemma omap_none {A} (f : log_event → option A) (P : log_event → Prop) l :
  (∀ ev, P ev → f ev = None) → Forall P l → omap f l = [].
Proof. intros Hf. induction 1 as [|ev l Hev _ IH]; [done|]. csimpl. by rewrite Hf, IH. Qed.

Lemma step_event_inner run vm ev : step_event run vm ev → inner ev.
Proof. by intros [(cmd & r & -> & _)|(res & r & -> & _)]. Qed.

Lemma boot_inner run device vm boot : boot_log run device vm boot → Forall inner boot.
Proof.
  intros (l & _ & H). destruct (isVishwaSuite _); [destruct H as (v & _ & ->)|subst]; by repeat constructor.
Qed.

(** The engine's own calls. *)
Definition flat (l : life_log) : list log_event :=
  match l with Calm evs => evs | Cut _ pre tail => pre ++ tail end.

Lemma flat_before a l : flat (a +> l) = a ++ flat l.
Proof. destruct l; simpl; by rewrite ?app_assoc. Qed.
Lemma flat_after l a : flat (l <+ a) = flat l ++ a.
Proof. destruct l; simpl; by rewrite ?app_assoc. Qed.

Lemma mix_view {A} (f : log_event → option A) l r m :
  mix l r m → Forall (λ ev, f ev = None) r → omap f m = omap f l.
Proof.
  induction 1 as [|x l r m _ IH|x l r m _ IH]; intros Hr; [done| |].
  - csimpl. by rewrite IH.
  - apply Forall_cons in Hr as [Hx Hr]. csimpl. by rewrite Hx, IH.
Qed.

Lemma mix_elem {A} (l r m : list A) x : mix l r m → x ∈ m ↔ x ∈ l ∨ x ∈ r.
Proof. induction 1; set_solver. Qed.

(** What steps do not do is in a log as the engine did it. *)
Lemma reads_view {A} (f : log_event → option A) rid l tr :
  (∀ ev, is_test ev ∨ (∃ res r, ev = LgSave res r) → f ev = None) → reads rid l tr → omap f tr = omap f (flat l).
Proof.
  intros Hf. destruct l as [evs|vm pre tail]; [by intros ->|]. intros (late & mixed & -> & Hm & Hl).
  simpl. rewrite !omap_app. f_equal. apply (mix_view _ _ _ _ Hm). eapply Forall_impl; [exact Hl|].
  intros ev [(cmd & r & -> & Ht)|(res & r & -> & _)]; apply Hf; [by left|eauto].
Qed.

Lemma reads_elem rid l tr ev : reads rid l tr → ev ∈ flat l → ev ∈ tr.
Proof.
  destruct l as [evs|vm pre tail]; [by intros ->|]. intros (late & mixed & -> & Hm & Hl). simpl.
  rewrite !elem_of_app, (mix_elem _ _ _ _ Hm). tauto.
Qed.





Lemma flat_allocation e l :
  flat (with_allocation e l) =
  if en_allocator e then [LgAcquire (allocation e) true] ++ flat l ++ [LgRelease (allocation e)] else flat l.
Proof. unfold with_allocation. destruct (en_allocator e); [|done]. by rewrite flat_after, flat_before. Qed.



(** ** The statuses of a run *)

(** Why a run that was executed without an error is given its last status. *)
Definition ended_as (e : ExecutionEngine) (run : TestRun) (st : TestRunStatus) (tr : list log_event) : Prop :=
  match st with
  | TestRunStatusPassed | TestRunStatusFailed => ∃ results, LgResults (tr_ID run) results ∈ tr ∧ st = verdict results
  | TestRunStatusCancelled => ∃ device, FindDevice (en_registry e) (tr_DeviceID run) = Ok device ∧
      deviceSupportsQEMU (de_TargetModes device) = false
  | TestRunStatusPending => LgAcquire (allocation e) false ∈ tr
  | _ => False
  end.

(** The run is marked RUNNING; when that fails nothing more is written, and
    else the run is marked once more: ERRORED exactly when the engine returns
    an error. *)
Definition status_protocol (e : ExecutionEngine) (run : TestRun) (r : result unit) (tr : list log_event) : Prop :=
  (∃ err, r = Err ("updating status to RUNNING: " +:+ err) ∧
     omap status_write tr = [(tr_ID run, TestRunStatusRunning, Err err)]) ∨
  ∃ st a, omap status_write tr = [(tr_ID run, TestRunStatusRunning, Ok tt); (tr_ID run, st, a)] ∧
    match r with
    | Err _ => st = TestRunStatusErrored
    | Ok _ => ended_as e run st tr
    end.

Lemma ended_as_mono e run st tr tr' : tr ⊆ tr' → ended_as e run st tr → ended_as e run st tr'.
Proof. intros Hsub. destruct st; simpl; try naive_solver. all: intros (results & Hr & E); eauto. Qed.

Lemma steps_no_status run vm steps : Forall (step_event run vm) steps → omap status_write steps = [].
Proof. apply omap_none. by intros ev [(cmd & r & -> & _)|(res & r & -> & _)]. Qed.

Lemma boot_no_status run device vm boot : boot_log run device vm boot → omap status_write boot = [].
Proof. intros (l & _ & H). destruct (isVishwaSuite _); [by destruct H as (v & _ & ->)|by subst]. Qed.

Lemma agent_status run device vm r l :
  agent_life run device vm r l →
  match r with
  | Ok _ => omap status_write (flat l) = []
  | Err _ => ∃ a, omap status_write (flat l) = [(tr_ID run, TestRunStatusErrored, a)]
  end.
Proof.
  destruct 1 as [| | |boot steps err r Hb Hs|boot steps err r Hb Hs|boot steps Hb Hs]; [by eexists..| | |]; simpl;
    rewrite ?omap_app, (boot_no_status _ _ _ _ Hb), (steps_no_status _ _ _ Hs); [by eexists..|done].
Qed.

Lemma verdict_cases results : verdict results = TestRunStatusPassed ∨ verdict results = TestRunStatusFailed.
Proof. unfold verdict. case_match; auto. Qed.

Lemma vm_life_status e run device r l :
  vm_life e run device r l → ∃ st a, omap status_write (flat l) = [(tr_ID run, st, a)] ∧
    match r with Err _ => st = TestRunStatusErrored | Ok _ => ended_as e run st (flat l) end.
Proof.
  destruct 1 as [err r|vm err c d r|vm msg agent s d Ha Hag|vm agent results r s d Hag].
  - by exists TestRunStatusErrored, r.
  - exists TestRunStatusErrored, r. split; [|done]. unfold if_agents. by destruct (en_agentCoord e).
  - apply agent_status in Hag as [a Hag]. exists TestRunStatusErrored, a. split; [|done].
    rewrite flat_after, flat_before. unfold life_started, life_teardown, if_agents.
    rewrite !omap_app, Hag, Ha. done.
  - assert (omap status_write (flat agent) = []) as Hn.
    { destruct (en_agentCoord e); [|by subst]. by apply agent_status in Hag. }
    exists (verdict results), r. split.
    + rewrite flat_after, flat_before. unfold life_started, life_teardown, if_agents.
      rewrite !omap_app, Hn. by destruct (en_agentCoord e).
    + assert (Hin : LgResults (tr_ID run) results ∈ flat (life_started e device vm +> agent <+
        ([LgResults (tr_ID run) results; LgStatus (tr_ID run) (verdict results) "" r] ++ life_teardown e vm s d)))
        by (rewrite flat_after; set_solver).
      revert Hin. generalize (flat (life_started e device vm +> agent <+
        ([LgResults (tr_ID run) results; LgStatus (tr_ID run) (verdict results) "" r] ++ life_teardown e vm s d))).
      intros tr Hin. destruct (verdict_cases results) as [E|E]; rewrite E; exists results; by rewrite E.
Qed.

Lemma run_life_status e run r l : run_life e run r l → status_protocol e run r (flat l).
Proof.
  destruct 1 as [err|err r Hd|device r Hd Hq|err r|r Ha|device res body Hd Hb]; [by left; exists err|right..].
  1-4: eexists _, _; split; [reflexivity|]; simpl; first [done|by eauto|set_solver].
  apply vm_life_status in Hb as (st & a & Hb & Hr). exists st, a. rewrite flat_before, flat_allocation. split.
  - destruct (en_allocator e); csimpl; rewrite ?omap_app, ?Hb; done.
  - destruct res; [|done]. eapply ended_as_mono; [|exact Hr]. destruct (en_allocator e); set_solver.
Qed.

Lemma status_protocol_reads e run r rid l tr :
  reads rid l (core_log tr) → status_protocol e run r (flat l) → status_protocol e run r tr.
Proof.
  intros Hr. unfold status_protocol.
  assert (omap status_write tr = omap status_write (flat l)) as ->.
  { rewrite <- (omap_core status_write) by (by intros []). refine (reads_view _ _ _ _ _ Hr).
    by intros ev [Ht|(res & r' & ->)]; [destruct ev|]. }
  intros [H|(st & a & H & Hst)]; [by left|right]. exists st, a. split; [done|]. destruct r; [|done].
  eapply ended_as_mono; [|exact Hst]. intros ev Hev%(reads_elem _ _ _ _ Hr).
  by apply list_elem_of_filter in Hev as [_ ?].
Qed.

(** ** No test before the driver *)

Section split.
Context {A : Type} (P : A → Prop).

Lemma split_after (a m pre post : list A) x :
  Forall (λ y, ¬ P y) a → P x → a ++ m = pre ++ x :: post → ∃ pre', pre = a ++ pre' ∧ m = pre' ++ x :: post.
Proof.
  intros Ha Hx. revert pre. induction Ha as [|y a Hy _ IH]; intros pre E; [by exists pre|].
  destruct pre as [|z pre]; simpl in E; [by injection E as -> _|]. injection E as -> E.
  destruct (IH pre E) as (pre' & -> & ->). by exists pre'.
Qed.

Lemma split_between (a m b pre post : list A) x :
  Forall (λ y, ¬ P y) a → Forall (λ y, ¬ P y) b → P x → a ++ m ++ b = pre ++ x :: post →
  ∃ pre' post', pre = a ++ pre' ∧ m = pre' ++ x :: post'.
Proof.
  intros Ha Hb Hx E. destruct (split_after _ _ _ _ _ Ha Hx E) as (pre' & -> & E').
  exists pre'. apply app_eq_inv in E' as [(k & -> & E')|(k & -> & ->)].
  - destruct k as [|z k]; simpl in E'; [|injection E' as -> ->; by exists k].
    subst b. by apply Forall_cons in Hb as [? _].
  - apply Forall_app in Hb as [_ Hb]. by apply Forall_cons in Hb as [? _].
Qed.

End split.

Ltac no_tests :=
  repeat (apply Forall_cons; split; [first [by intros []|intros ?; discriminate]|]); apply Forall_nil.

(** The VM runs, its driver is loaded and, for a Vishwa suite, its device is
    verified. *)
Definition booted (run : TestRun) (device : DeviceEntry) (vm : string) (pre : list log_event) : Prop :=
  ∃ l, reply_passed l ∧ LgSend vm (load_command run device) l ∈ pre ∧
    (isVishwaSuite (tr_TestSuiteID run) = true →
     ∃ v, reply_passed v ∧ LgSend vm (verify_command run device) v ∈ pre).

Definition driver_ready (e : ExecutionEngine) (run : TestRun) (vm : string) (pre : list log_event) : Prop :=
  ∃ device, FindDevice (en_registry e) (tr_DeviceID run) = Ok device ∧ booted run device vm pre ∧
    LgStartVM vm (Ok tt) ∈ pre.

Lemma booted_mono run device vm pre pre' :
  pre ⊆ pre' → booted run device vm pre → booted run device vm pre'.
Proof.
  intros Hsub (l & Hl & Hin & Hv). exists l. split_and!; [done|by apply Hsub|].
  intros E. destruct (Hv E) as (v & ? & ?). exists v. auto.
Qed.

Lemma boot_log_booted run device vm boot :
  boot_log run device vm boot → booted run device vm boot ∧ Forall (λ ev, ¬ is_test ev) boot.
Proof.
  intros (l & Hl & H). destruct (isVishwaSuite _) eqn:E; [destruct H as (v & Hv & ->)|subst];
    (split; [|by no_tests]); exists l; (split_and!; [done|set_solver|]); rewrite E; [|done].
  intros _. exists v. split; [done|set_solver].
Qed.

(** A life without tests, and one with tests on [vm], after [a]. *)
Definition untested (l : life_log) : Prop := ∃ evs, l = Calm evs ∧ Forall (λ ev, ¬ is_test ev) evs.

Definition cut_short (r : result unit) : Prop := ∃ err, r = Err ("executing workflow: " +:+ err).

Definition tested (run : TestRun) (device : DeviceEntry) (r : result unit) (vm : string) (a : list log_event)
    (l : life_log) : Prop :=
  ∃ boot steps tail, boot_log run device vm boot ∧ Forall (step_event (tr_ID run) vm) steps ∧
    Forall (λ ev, ¬ is_test ev) tail ∧
    (l = Calm ((a ++ boot) ++ steps ++ tail) ∨ l = Cut vm ((a ++ boot) ++ steps) tail ∧ cut_short r).

Lemma untested_before a l : Forall (λ ev, ¬ is_test ev) a → untested l → untested (a +> l).
Proof. intros Ha (evs & -> & H). exists (a ++ evs). split; [done|by apply Forall_app]. Qed.
Lemma untested_after a l : Forall (λ ev, ¬ is_test ev) a → untested l → untested (l <+ a).
Proof. intros Ha (evs & -> & H). exists (evs ++ a). split; [done|by apply Forall_app]. Qed.

Lemma tested_before run device r vm a b l :
  tested run device r vm a l → tested run device r vm (b ++ a) (b +> l).
Proof.
  intros (boot & steps & tail & Hb & Hs & Ht & Hl). exists boot, steps, tail. split_and!; [done..|].
  destruct Hl as [->|[-> Hc]]; [left|right]; simpl; rewrite <- !app_assoc; done.
Qed.

Lemma tested_after run device r vm a l b :
  Forall (λ ev, ¬ is_test ev) b → tested run device r vm a l → tested run device r vm a (l <+ b).
Proof.
  intros Hb' (boot & steps & tail & Hb & Hs & Ht & Hl). exists boot, steps, (tail ++ b).
  split_and!; [done..|by apply Forall_app|].
  destruct Hl as [->|[-> Hc]]; [left|right]; simpl; rewrite <- ?app_assoc; done.
Qed.

Lemma agent_tested run device vm r l :
  agent_life run device vm r l → untested l ∨ tested run device r vm [] l.
Proof.
  destruct 1 as [| | |boot steps err r Hb Hs|boot steps err r Hb Hs|boot steps Hb Hs];
    [by left; eexists; split; [done|]; no_tests..| | |]; right; exists boot, steps.
  - eexists. split_and!; [done..| |by left]. by no_tests.
  - eexists. split_and!; [done..| |by right; split; [|by exists err]]. by no_tests.
  - exists []. rewrite app_nil_r. split_and!; [done..|by left].
Qed.

(** A test in a log of such a life. *)
Lemma tested_ready run device r vm a l tr pre vm' cmd rep post :
  tested run device r vm a l → Forall (λ ev, ¬ is_test ev) a → reads (tr_ID run) l tr →
  tr = pre ++ LgSend vm' cmd rep :: post → ac_Type cmd = "start_test" →
  vm' = vm ∧ a ⊆ pre ∧ booted run device vm pre ∧ (cut_short r ∨ ∀ c d, LgDestroyVM c vm d ∈ pre → LgDestroyVM c vm d ∈ a).
Proof.
  intros (boot & steps & tail & Hb & Hs & Ht & Hl) Ha Hr -> Htest.
  destruct (boot_log_booted _ _ _ _ Hb) as [Hbooted Hbt].
  assert (Hab : Forall (λ ev, ¬ is_test ev) (a ++ boot)) by (by apply Forall_app).
  assert (Hpre : ∀ pre', booted run device vm ((a ++ boot) ++ pre')) by (intros; eapply booted_mono; [|done]; set_solver).
  assert (Hvm : step_event (tr_ID run) vm (LgSend vm' cmd rep) → vm' = vm)
    by (intros [(? & ? & ? & _)|(? & ? & ? & _)]; by simplify_eq).
  destruct Hl as [->|[-> Hc]]; simpl in Hr.
  - destruct (split_between is_test _ _ _ _ _ (LgSend vm' cmd rep) Hab Ht Htest (eq_sym Hr)) as (pre' & post' & -> & ->).
    apply Forall_app in Hs as [Hs1 Hs2]. apply Forall_cons in Hs2 as [Hs2 _].
    split_and!; [by apply Hvm|set_solver|done|]. right. intros c d. rewrite !elem_of_app. intros [[H|H]|H]; [done|exfalso..].
    + apply boot_inner in Hb. rewrite Forall_forall in Hb. by apply (Hb _ H).
    + rewrite Forall_forall in Hs1. by apply Hs1, step_event_inner in H.
  - destruct Hr as (late & mixed & E & Hm & Hlate). rewrite <- app_assoc in E. symmetry in E.
    destruct (split_after is_test _ _ _ _ (LgSend vm' cmd rep) Hab Htest E) as (pre' & -> & E').
    split_and!; [|set_solver|done|by left]. apply Hvm.
    assert (Hin : LgSend vm' cmd rep ∈ steps ++ mixed) by (rewrite E'; set_solver).
    rewrite elem_of_app, (mix_elem _ _ _ _ Hm) in Hin. rewrite !Forall_forall in *.
    destruct Hin as [Hin|[Hin|Hin]]; [by apply Hs|by destruct (Ht _ Hin)|by apply Hlate].
Qed.

Lemma started_prefix e device vm :
  Forall (λ ev, ¬ is_test ev) (life_started e device vm) ∧ LgStartVM (vm_ID vm) (Ok tt) ∈ life_started e device vm ∧
  ∀ c d, LgDestroyVM c (vm_ID vm) d ∉ life_started e device vm.
Proof.
  unfold life_started, if_agents. destruct (en_agentCoord e);
    (split_and!; [by no_tests|set_solver|set_solver]).
Qed.

Lemma teardown_no_tests e vm s d : Forall (λ ev, ¬ is_test ev) (life_teardown e vm s d).
Proof. unfold life_teardown, if_agents. destruct (en_agentCoord e); by no_tests. Qed.

Lemma vm_life_tested e run device r l :
  vm_life e run device r l → untested l ∨ ∃ i, tested run device r (vm_ID i) (life_started e device i) l.
Proof.
  assert (Hst : ∀ i agent rest, untested agent ∨ tested run device r (vm_ID i) [] agent → Forall (λ ev, ¬ is_test ev) rest →
    untested (life_started e device i +> agent <+ rest) ∨
    ∃ i', tested run device r (vm_ID i') (life_started e device i') (life_started e device i +> agent <+ rest)).
  { intros i agent rest [Hu|Ht] Hrest; destruct (started_prefix e device i) as [Hs _].
    - left. by apply untested_after, untested_before.
    - right. exists i. apply tested_after; [done|]. apply (tested_before _ _ _ _ _ (life_started e device i)) in Ht.
      by rewrite app_nil_r in Ht. }
  destruct 1 as [err r|i err c d r|i msg agent s d Ha Hag|i agent results r s d Hag].
  - left. eexists. split; [done|]. by no_tests.
  - left. eexists. split; [done|]. unfold if_agents. destruct (en_agentCoord e); by no_tests.
  - apply Hst; [by eapply agent_tested|apply teardown_no_tests].
  - apply Hst; [|apply Forall_app; split; [by no_tests|apply teardown_no_tests]].
    destruct (en_agentCoord e); [by eapply agent_tested|]. left. subst. by exists [].
Qed.

Lemma run_life_ready e run r l tr pre vm cmd rep post :
  run_life e run r l → reads (tr_ID run) l tr → tr = pre ++ LgSend vm cmd rep :: post → ac_Type cmd = "start_test" →
  driver_ready e run vm pre ∧ (cut_short r ∨ ∀ c d, LgDestroyVM c vm d ∉ pre).
Proof.
  intros Hl Hr E Ht.
  assert (Hno : ¬ untested l).
  { intros (evs & -> & Hf). simpl in Hr. subst. apply Forall_app in Hf as [_ Hf].
    apply Forall_cons in Hf as [Hf _]. by apply Hf. }
  destruct Hl as [err|err r Hd|device r Hd Hq|err r|r Ha|device res body Hd Hb];
    try by destruct Hno; eexists; split; [done|]; no_tests.
  assert (Hrun : ∀ a b, Forall (λ ev, ¬ is_test ev) a → (∀ c vm d, LgDestroyVM c vm d ∉ a) →
    Forall (λ ev, ¬ is_test ev) b → reads (tr_ID run) (a +> body <+ b) tr → ¬ untested (a +> body <+ b) →
    driver_ready e run vm pre ∧ (cut_short res ∨ ∀ c d, LgDestroyVM c vm d ∉ pre)).
  { clear Hr Hno. intros a b Hna Hda Hnb Hr Hno. destruct (vm_life_tested _ _ _ _ _ Hb) as [Hu|[i Hi]].
    { destruct Hno. by apply untested_after, untested_before. }
    destruct (started_prefix e device i) as (Hs1 & Hs2 & Hs3).
    apply (tested_before _ _ _ _ _ a), (tested_after _ _ _ _ _ _ b Hnb) in Hi.
    destruct (tested_ready _ _ _ _ _ _ _ _ _ _ _ _ Hi ltac:(by apply Forall_app) Hr E Ht) as (-> & Hsub & Hbt & Hc).
    split; [exists device; split_and!; [done..|set_solver]|]. destruct Hc as [Hc|Hc]; [by left|right].
    intros c d Hin%Hc. apply elem_of_app in Hin as [H|H]; [by eapply Hda|by eapply Hs3]. }
  unfold with_allocation in *. destruct (en_allocator e).
  - rewrite ll_before_after, <- ll_before_app in Hr, Hno.
    refine (Hrun _ _ _ _ _ Hr Hno); [by no_tests|set_solver|by no_tests].
  - rewrite <- (ll_after_nil (_ +> body)) in Hr, Hno. refine (Hrun _ _ _ _ _ Hr Hno); [by no_tests|set_solver|done].
Qed.

(** ** Properties *)

(** A world none of whose components panics. *)
Class SafeWorld (W : Type) `{!EngineStore W, !Runtime W, !AgentCoordinatorInterface W, !VMManagerInterface W,
    !AllocatorInterface W, !Telemetry W, !FileSystem W} : Prop := {
  #[global] sw_store :: SafeStore W;
  #[global] sw_runtime :: SafeRuntime W;
  #[global] sw_agents :: SafeAgents W;
  #[global] sw_vms :: SafeVMs W;
  #[global] sw_allocator :: SafeAllocator W;
  #[global] sw_telemetry :: SafeTelemetry W;
  #[global] sw_files :: SafeFiles W;
}.

Global Instance crewed_safe_world (W : Type) `{!EngineStore W, !Runtime W, !AgentCoordinatorInterface W,
    !VMManagerInterface W, !AllocatorInterface W, !Telemetry W, !FileSystem W, !SafeWorld W} : SafeWorld (crewed W).
Proof. split; apply _. Qed.

Global Instance sim_safe_world : SafeWorld sim.
Proof. split; apply _. Qed.

Section properties.
Context {W : Type} `{!EngineStore W, !Runtime W, !AgentCoordinatorInterface W, !VMManagerInterface W,
  !AllocatorInterface W, !Telemetry W, !FileSystem W}.
Context (e : ExecutionEngine) (ch : choices).

(** The log of a world with its goroutines. *)
Definition log_of (x : crewed (logged W)) : list log_event := (cw_world x).2.

Lemma executes `{!SafeWorld W} c run sched (w : W) :
  choices_ok ch → names_binary (tr_TestSuiteID run) →
  ∃ r x' l, executeTestRun e ch c run (crewed_start sched (w, [])) = Done (r, x') ∧ run_life e run r l ∧
    ∀ x'', rtc late_step x' x'' → reads (tr_ID run) l (core_log (log_of x'')).
Proof.
  intros Hch Hb.
  assert (H0 : sits (tr_ID run) [] (Calm []) (crewed_start sched (w, []))) by (split; [done|by exists []]).
  destruct (total_wp (executeTestRun (W:=crewed (logged W)) e ch c run) _ _
    (total_executeTestRun (W:=crewed (logged W)) e ch c run Hch Hb) (lives_executeTestRun e ch c run Hch [] [] _ H0))
    as (r & x' & E & l & Hl & Hs).
  exists r, x', l. split_and!; [done..|]. intros x'' Hx.
  destruct (sits_late _ _ _ _ _ Hx Hs) as [_ (tr & Htr & Hs')].
  rewrite ll_before_nil in Hs'. unfold log_of. by rewrite Htr.
Qed.

(** C1: [executeTestRun] returns, and what it asks of the store, the VM
    manager, the agent coordinator and the allocator, in order and with the
    answers, is a life of a run: nothing after a failed write of RUNNING, the
    budget around the VM, the driver and the device checked before the tests,
    the verdict over the stored results, and the teardown of every VM that
    was started, whatever failed.  When the run's context ends during the
    workflow, the goroutines of its steps are left running and their calls
    (tests sent to the same VM, results of the same run) may come anywhere
    among the engine's remaining ones and after its return; otherwise there
    are none but the engine's.  It holds in every world whose components do
    not panic, for every map order, scheduling and schedule of the goroutines
    left behind, and every run whose suite identifier names a binary (the
    engine panics on the others). *)
Theorem executeTestRun_refines_life `{!SafeWorld W} c run sched (w : W) :
  choices_ok ch → names_binary (tr_TestSuiteID run) →
  ∃ r x' l, executeTestRun e ch c run (crewed_start sched (w, [])) = Done (r, x') ∧ run_life e run r l ∧
    ∀ x'', rtc late_step x' x'' → reads (tr_ID run) l (core_log (log_of x'')).
Proof. apply executes. Qed.


(** C4: the statuses a run writes, for a suite identifier that names a
    binary: RUNNING first; exactly when the store refuses that write, nothing
    more; otherwise exactly one more, which is ERRORED exactly when the engine
    returns an error, and else the verdict PASSED or FAILED over the results
    the store gave, CANCELLED for a device that needs real hardware, or
    PENDING when the allocator had no room. *)
Theorem run_status_protocol `{!SafeWorld W} c run sched (w : W) :
  choices_ok ch → names_binary (tr_TestSuiteID run) →
  ∃ r x', executeTestRun e ch c run (crewed_start sched (w, [])) = Done (r, x') ∧
    ∀ x'', rtc late_step x' x'' → status_protocol e run r (log_of x'').
Proof.
  intros Hch Hb. destruct (executes c run sched w Hch Hb) as (r & x' & l & E & Hl & Hr). exists r, x'.
  split; [done|]. intros x'' Hx. eapply status_protocol_reads; [by apply Hr|]. by apply run_life_status.
Qed.

(** C5: whenever a test command is sent, also by a goroutine that was left
    running and after the engine returned, it goes to a VM that was started
    before, on which the driver of the run's device was loaded successfully
    before and, for a Vishwa suite, the device node verified; and the VM was
    not destroyed before, unless the run ended because its workflow was cut
    short.  The suite identifier of the run names a binary; the engine panics
    on the others. *)
Theorem tests_run_after_driver `{!SafeWorld W} c run sched (w : W) :
  choices_ok ch → names_binary (tr_TestSuiteID run) →
  ∃ r x', executeTestRun e ch c run (crewed_start sched (w, [])) = Done (r, x') ∧
    ∀ x'' pre vm cmd rep post, rtc late_step x' x'' →
      core_log (log_of x'') = pre ++ LgSend vm cmd rep :: post → ac_Type cmd = "start_test" →
      driver_ready e run vm pre ∧ (cut_short r ∨ ∀ c d, LgDestroyVM c vm d ∉ pre).
Proof.
  intros Hch Hb. destruct (executes c run sched w Hch Hb) as (r & x' & l & E & Hl & Hr). exists r, x'.
  split; [done|]. intros x'' pre vm cmd rep post Hx Htr Ht. by eapply run_life_ready; [|apply Hr|..].
Qed.

(** A Vishwa suite identifier with nothing but slashes after its prefix
    makes the engine panic, unless the run could not even be marked RUNNING:
    the last segment of an empty path is indexed, and nothing on the way
    recovers. *)
Theorem empty_vishwa_path_panics `{!Goroutines W, !SafeWorld W} c run device (w : W) :
  FindDevice (en_registry e) (tr_DeviceID run) = Ok device →
  deviceSupportsQEMU (de_TargetModes device) = true →
  isVishwaSuite (tr_TestSuiteID run) = true →
  (∀ s, s ∈ split_on is_slash (str_drop 7 (tr_TestSuiteID run)) → s = "") →
  executeTestRun e ch c run w = Panics "index out of range [-1]" ∨
  ∃ err w', executeTestRun e ch c run w = Done (Err ("updating status to RUNNING: " +:+ err), w').
Proof.
  intros Hd Hq Hv Hs. unfold executeTestRun.
  destruct (total rt_Now w) as (now & w1 & E1). rewrite (M_bind_done _ _ _ _ _ E1).
  destruct (total rt_Now w1) as (start & w2 & E2). rewrite (M_bind_done _ _ _ _ _ E2).
  set (rc := WithTimeout _ _ _).
  destruct (total (UpdateTestRunStatus rc (tr_ID run) TestRunStatusRunning "") w2) as ([[]|err] & w3 & E3);
    rewrite (M_bind_done _ _ _ _ _ E3); cbv iota; [left|right; unfold mret, M_ret; eauto].
  destruct (total (publish e rc (mkEvent EventTestRunStarted (tr_ID run) (tr_DeviceID run)
    (TestRunStatus_string TestRunStatusRunning) [])) w3) as (u & w4 & E4).
  rewrite (M_bind_done _ _ _ _ _ E4). unfold prepare. rewrite Hd, Hq. unfold mbind, M_bind, loadTestSuite.
  rewrite Hv. unfold vishwa_suite, last_segment.
  assert (splitPath (str_drop 7 (tr_TestSuiteID run)) = []) as ->; [|done].
  rewrite splitPath_filter. destruct (filter _ _) as [|s l] eqn:Ef; [done|].
  assert (s ∈ s :: l) as Hin by left. rewrite <- Ef in Hin. apply list_elem_of_filter in Hin as [Hne Hin].
  by rewrite (Hs s Hin) in Hne.
Qed.

End properties.

(** ** On the concrete world *)

Definition sample_config : GlobalConfig :=
  mkGlobalConfig (mkServerConfig 50051 8080 "")
    (mkQEMUConfig "/usr/bin/qemu-system-x86_64" "" "" "" "" "" 2048 2 "" "" "")
    (cfg_FPGA global_zero) (cfg_Storage global_zero) (cfg_Telemetry global_zero)
    (mkVMDefaultsConfig 60 5 15 600 4) (mkClusterConfig "n1" "hybrid" 10 30 0 0).

Definition sample_engine : ExecutionEngine :=
  mkEngine (mkDeviceRegistry [sample_device]) sample_config true true false false.

Definition sample_choices : choices := mkChoices same_visits id.

Lemma sample_choices_ok : choices_ok sample_choices.
Proof. intros defs. apply same_visits_legal. Qed.

Lemma sample_names_binary : names_binary (tr_TestSuiteID sample_run).
Proof. intros _ H. vm_compute in H. discriminate H. Qed.

(** The run of the sample suite on a world, the status the store has at the
    end, and what is left of the budget. *)
Definition execute_sample (w : sim) : go (result unit * crewed sim) :=
  executeTestRun sample_engine sample_choices EngineCtx sample_run (crewed_start (λ _, []) w).

Definition final_status (out : go (result unit * crewed sim)) : option TestRunStatus :=
  match out with
  | Done (_, x) => tr_Status <$> testRuns (sim_store (cw_world x)) !! "tr-1"
  | Panics _ => None
  end.

(** The agent loads and verifies; a test is answered by [reply]. *)
Definition tests_reply (reply : AgentCommand → result AgentResult) (cmd : AgentCommand) : result AgentResult :=
  if decide (ac_Type cmd = "start_test") then reply cmd else reply_all "passed" "" cmd.

(** A run in which a test failed is marked PASSED when the agent's
    answer had no output: the verdict only looks at stored results, a failed
    test without output stores none, and the workflow's own verdict is
    logged and dropped. *)
Theorem failed_test_without_output_passes :
  final_status (execute_sample (sample_world (tests_reply (reply_all "failed" "")))) = Some TestRunStatusPassed ∧
  final_status (execute_sample (sample_world (tests_reply (λ _, Err "agent lost")))) = Some TestRunStatusPassed ∧
  final_status (execute_sample (sample_world (tests_reply (reply_all "failed" "core dumped")))) =
    Some TestRunStatusFailed.
Proof. vm_compute. done. Qed.

(** The first attempt of a test fails with an output, the second passes. *)
Definition flaky (cmd : AgentCommand) : result AgentResult :=
  if decide (ac_ID cmd = "cmd-step-tr-1-vishwa/opencl/vecadd-0")
  then reply_all "failed" "timeout on queue 0" cmd else reply_all "passed" "ok" cmd.

(** A test that fails and passes when it is retried still makes the run
    FAILED: the workflow succeeds, but the result of the first attempt was
    stored and the verdict counts it. *)
Theorem retried_test_fails_run :
  let w := sample_world (tests_reply flaky) in
  final_status (execute_sample w) = Some TestRunStatusFailed ∧
  match loadTestSuite (tr_TestSuiteID sample_run) sample_device w with
  | Done (Ok suite, _) =>
    match runWorkflow EngineCtx sample_run sample_device "vm" (same_visits (ts_Steps suite)) id suite
            (crewed_start (λ _, []) w) with
    | Done (Some out, _) => out = WfOk
    | _ => False
    end
  | _ => False
  end.
Proof. vm_compute. done. Qed.

(** A run that was cancelled in the store while it waited in the queue. *)
Definition cancelled_world : sim :=
  let w := sample_world (reply_all "passed" "") in
  sim_set_store (MemoryStore.UpdateTestRunStatus 0 "tr-1" TestRunStatusCancelled "cancelled by user" (sim_store w)).2 w.

(** A run that was cancelled before its turn is executed all the same:
    the engine reads no status, boots the VM, runs the tests and replaces
    CANCELLED by its own verdict. *)
Theorem cancelled_run_is_executed :
  tr_Status <$> testRuns (sim_store cancelled_world) !! "tr-1" = Some TestRunStatusCancelled ∧
  final_status (execute_sample cancelled_world) = Some TestRunStatusPassed.
Proof. vm_compute. done. Qed.

(** The tests take longer than the run may: its context ends while the first
    attempt waits for its answer, which is a failure with an output. *)
Definition slow_world : sim :=
  let w := sample_world (tests_reply (reply_all "failed" "timeout on queue 0")) in
  let sc := sim_script w in
  mkSim (mkScript (sc_create sc) (sc_start sc) (sc_wait sc) (sc_reply sc) (seconds 250) (sc_cwd sc) (sc_files sc))
    (sim_store w) (sim_now w) (sim_budget w) (sim_resubmitted w).

(** The driver moves whenever it can. *)
Definition driver_first : choices := mkChoices same_visits (λ _, 0).

Definition slow_run : go (result unit * crewed (logged sim)) :=
  executeTestRun sample_engine driver_first EngineCtx sample_run (crewed_start (λ _, []) (slow_world, [])).

(** The calls after the VM was destroyed. *)
Fixpoint after_destroy (tr : list log_event) : list log_event :=
  match tr with
  | [] => []
  | LgDestroyVM _ _ _ :: tr => tr
  | _ :: tr => after_destroy tr
  end.

(** Steps outlive their run: the engine has written ERRORED, torn the VM
    down, given the budget back and returned, and then the goroutine of the
    step stores a result of the run, and sends the test to the VM again. *)
Theorem steps_outlive_their_run : ∃ r x' x'',
  slow_run = Done (r, x') ∧ cut_short r ∧ rtc late_step x' x'' ∧
  match after_destroy (core_log (log_of x'')) with
  | [LgRelease _; LgSave res (Ok _); LgSend vm cmd _] =>
    res_TestRunID res = "tr-1" ∧ res_Status res = TestRunStatusFailed ∧ vm = "vm-gpu0-1" ∧ ac_Type cmd = "start_test"
  | _ => False
  end.
Proof.
  assert (H : match slow_run with
    | Done (Err e, x') => e = "executing workflow: context deadline exceeded" ∧
      match late_moves (replicate 3 (0, "vishwa/opencl/vecadd")) x' with
      | Done (_, x'') =>
        match after_destroy (core_log (log_of x'')) with
        | [LgRelease _; LgSave res (Ok _); LgSend vm cmd _] =>
          res_TestRunID res = "tr-1" ∧ res_Status res = TestRunStatusFailed ∧ vm = "vm-gpu0-1" ∧ ac_Type cmd = "start_test"
        | _ => False
        end
      | Panics _ => False
      end
    | _ => False
    end) by (vm_compute; done).
  destruct slow_run as [[[u|err] x']|]; [done| |done]. destruct H as [-> H].
  destruct (late_moves _ x') as [[[] x'']|] eqn:E; [|done]. exists (Err "executing workflow: context deadline exceeded"), x', x''.
  split_and!; [done|by exists "context deadline exceeded"|by eapply late_moves_steps|exact H].
Qed.

(** ** Witnesses *)

Definition good_world : sim := sample_world (reply_all "passed" "ok").

Definition good_run : go (result unit * crewed (logged sim)) :=
  executeTestRun sample_engine sample_choices EngineCtx sample_run (crewed_start (λ _, []) (good_world, [])).

Definition good_log : list log_event := match good_run with Done (_, x) => log_of x | Panics _ => [] end.

Lemma good_run_log r x' : good_run = Done (r, x') → log_of x' = good_log.
Proof. unfold good_log. by intros ->. Qed.

Lemma good_run_test : ∃ pre cmd rep post,
  core_log good_log = pre ++ LgSend "vm-gpu0-1" cmd rep :: post ∧ ac_Type cmd = "start_test".
Proof.
  assert (match core_log good_log !! 8 with
          | Some (LgSend vm cmd _) => bool_decide (vm = "vm-gpu0-1" ∧ ac_Type cmd = "start_test")
          | _ => false
          end = true) as H by (vm_compute; reflexivity).
  generalize dependent (core_log good_log). intros l H.
  destruct (l !! 8) as [ev|] eqn:El; [|done]. destruct ev as [| | | | | | | | | |vm cmd r| | | | |]; try done.
  apply bool_decide_eq_true in H as [-> Ht]. apply take_drop_middle in El.
  by exists (take 8 l), cmd, r, (drop 9 l).
Qed.

Lemma executeTestRun_refines_life_witness : ∃ r x' l,
  good_run = Done (r, x') ∧ run_life sample_engine sample_run r l ∧ reads "tr-1" l (core_log (log_of x')).
Proof.
  destruct (executeTestRun_refines_life sample_engine sample_choices EngineCtx sample_run (λ _, []) good_world
    sample_choices_ok sample_names_binary) as (r & x' & l & E & Hl & Hr).
  exists r, x', l. split; [exact E|]. split; [exact Hl|]. exact (Hr x' (rtc_refl _ _)).
Defined.


Lemma run_status_protocol_witness : ∃ r x',
  good_run = Done (r, x') ∧
  status_protocol sample_engine sample_run r (log_of x') ∧
  omap status_write (log_of x') = [("tr-1", TestRunStatusRunning, Ok tt); ("tr-1", TestRunStatusPassed, Ok tt)].
Proof.
  destruct (run_status_protocol sample_engine sample_choices EngineCtx sample_run (λ _, []) good_world
    sample_choices_ok sample_names_binary) as (r & x' & E & Hb).
  exists r, x'. split; [exact E|]. split; [exact (Hb x' (rtc_refl _ _))|].
  rewrite (good_run_log _ _ E). vm_compute. reflexivity.
Defined.

Lemma tests_run_after_driver_witness : ∃ r x',
  good_run = Done (r, x') ∧
  ∃ pre cmd rep post, core_log (log_of x') = pre ++ LgSend "vm-gpu0-1" cmd rep :: post ∧
    ac_Type cmd = "start_test" ∧ driver_ready sample_engine sample_run "vm-gpu0-1" pre.
Proof.
  destruct (tests_run_after_driver sample_engine sample_choices EngineCtx sample_run (λ _, []) good_world
    sample_choices_ok sample_names_binary) as (r & x' & E & H).
  exists r, x'. split; [exact E|].
  destruct good_run_test as (pre & cmd & rep & post & Hl & Ht). rewrite <- (good_run_log _ _ E) in Hl.
  exists pre, cmd, rep, post. split; [exact Hl|]. split; [exact Ht|].
  exact (proj1 (H x' _ _ _ _ _ (rtc_refl _ _) Hl Ht)).
Defined.

Lemma empty_vishwa_path_panics_witness :
  executeTestRun sample_engine sample_choices EngineCtx (blank_run "tr-1" "gpu0" "vishwa//")
    (crewed_start (λ _, []) good_world) =
  Panics "index out of range [-1]".
Proof.
  destruct (empty_vishwa_path_panics sample_engine sample_choices EngineCtx
    (blank_run "tr-1" "gpu0" "vishwa//") sample_device (crewed_start (λ _, []) good_world) eq_refl eq_refl eq_refl)
    as [H|(err & w' & H)]; [|exact H|vm_compute in H; discriminate H].
  intros s Hs. vm_compute in Hs. set_solver.
Defined.
