(* ===== verification/GrpcServer.v ===== *)
(** * The orchestrator's gRPC service ([api/grpc_server.go])

    The handlers over any store that implements [storage.Store], the engine
    and the audit log; the conversions to the messages of
    [proto/orchestrator.proto].  A protobuf enumeration is open: its values
    are 32-bit integers of which some have names. *)
From stdpp Require Import options.
From S2P Require Import Prelude GoStd GoChan Types Scheduler MemoryStore.
From S2P Require Import Effects Config StepExec Interfaces Engine.
Open Scope string_scope.
Open Scope list_scope.
Open Scope Z_scope.

(** ** Messages *)

Definition TEST_RUN_STATUS_UNSPECIFIED : Z := 0.
Definition TEST_RUN_STATUS_PENDING : Z := 1.
Definition TEST_RUN_STATUS_QUEUED : Z := 2.
Definition TEST_RUN_STATUS_RUNNING : Z := 3.
Definition TEST_RUN_STATUS_PASSED : Z := 4.
Definition TEST_RUN_STATUS_FAILED : Z := 5.
Definition TEST_RUN_STATUS_ERRORED : Z := 6.
Definition TEST_RUN_STATUS_CANCELLED : Z := 7.
Definition TEST_RUN_STATUS_TIMEOUT : Z := 8.

Definition VM_STATUS_UNSPECIFIED : Z := 0.
Definition VM_STATUS_CREATING : Z := 1.
Definition VM_STATUS_BOOTING : Z := 2.
Definition VM_STATUS_READY : Z := 3.
Definition VM_STATUS_RUNNING_TEST : Z := 4.
Definition VM_STATUS_STOPPING : Z := 5.
Definition VM_STATUS_STOPPED : Z := 6.
Definition VM_STATUS_ERROR : Z := 7.
Definition VM_STATUS_DESTROYED : Z := 8.

(** [timestamppb.New(t)]: whole seconds, rounded down, and the rest. *)
Record Timestamp : Set := mkTimestamp { pts_seconds : Z; pts_nanos : Z }.

Definition timestamppb_New (t : Z) : Timestamp := mkTimestamp (t / 1000000000) (t mod 1000000000).

Record pbTestRun : Type := mkPbTestRun {
  prun_Id : string;
  prun_DeviceId : string;
  prun_TestSuiteId : string;
  prun_Status : Z;
  prun_VmId : string;
  prun_Priority : Z;
  prun_CreatedAt : Timestamp;
  prun_StartedAt : option Timestamp;
  prun_CompletedAt : option Timestamp;
  prun_DurationMs : Z;
  prun_RequestedBy : string;
  prun_Tags : list string;
  prun_ErrorMessage : string;
}.

Record pbTestResult : Type := mkPbTestResult {
  pres_Id : string;
  pres_TestRunId : string;
  pres_TestName : string;
  pres_Category : string;
  pres_Status : Z;
  pres_DurationMs : Z;
  pres_Message : string;
  pres_Metrics : gmap string float64;
  pres_Logs : string;
  pres_CompletedAt : Timestamp;
}.

Record pbVMInstance : Type := mkPbVMInstance {
  pvm_Id : string;
  pvm_Status : Z;
  pvm_DeviceId : string;
  pvm_QmpSocketPath : string;
  pvm_SerialPorts : list string;
  pvm_Pid : Z;
  pvm_AllocatedCpus : Z;
  pvm_AllocatedMemMb : Z;
  pvm_ImagePath : string;
  pvm_CreatedAt : Timestamp;
  pvm_AgentStatus : string;
  pvm_LastHeartbeat : option Timestamp;
  pvm_CurrentTestRunId : string;
}.

Record pbDeviceEntry : Type := mkPbDeviceEntry {
  pde_Id : string;
  pde_Name : string;
  pde_VendorId : string;
  pde_DeviceId : string;
  pde_PciClass : string;
  pde_QemuDeviceName : string;
  pde_DriverModule : string;
  pde_DriverPath : string;
  pde_Description : string;
  pde_Capabilities : list string;
  pde_TestSuites : list string;
}.

Record SubmitTestRunRequest : Type := mkSubmit {
  sub_DeviceId : string;
  sub_TestSuiteId : string;
  sub_Priority : Z;
  sub_Tags : list string;
  sub_RequestedBy : string;
}.

Record pbListTestRunsRequest : Type := mkPbListTestRuns {
  plr_DeviceId : string;
  plr_Status : Z;
  plr_Limit : Z;
  plr_Offset : Z;
}.

Record ListTestRunsResponse : Type := mkListTestRunsResponse {
  lrr_TestRuns : list pbTestRun;
  lrr_TotalCount : Z;
}.

Record CancelTestRunResponse : Type := mkCancelResponse { cr_Success : bool; cr_Message : string }.

Record pbListVMsRequest : Type := mkPbListVMs { plv_Status : Z; plv_DeviceId : string }.

Record ComponentHealth : Type := mkComponentHealth { ch_Status : string; ch_Message : string }.

Record GetHealthResponse : Type := mkHealth {
  gh_Status : string;
  gh_Components : gmap string ComponentHealth;
}.

(** A reply or a status error. *)
Inductive grpc_code : Set := InvalidArgument | NotFound | Internal.

Inductive rpc (A : Type) : Type :=
| Reply (a : A)
| Status (code : grpc_code) (msg : string).
Arguments Reply {A}.
Arguments Status {A}.

(** ** Conversions *)

Definition testRunStatusToProto (s : TestRunStatus) : Z :=
  match s with
  | TestRunStatusPending => TEST_RUN_STATUS_PENDING
  | TestRunStatusQueued => TEST_RUN_STATUS_QUEUED
  | TestRunStatusRunning => TEST_RUN_STATUS_RUNNING
  | TestRunStatusPassed => TEST_RUN_STATUS_PASSED
  | TestRunStatusFailed => TEST_RUN_STATUS_FAILED
  | TestRunStatusErrored => TEST_RUN_STATUS_ERRORED
  | TestRunStatusCancelled => TEST_RUN_STATUS_CANCELLED
  | TestRunStatusTimeout => TEST_RUN_STATUS_TIMEOUT
  | _ => TEST_RUN_STATUS_UNSPECIFIED
  end.

Definition protoToTestRunStatus (s : Z) : TestRunStatus :=
  if decide (s = TEST_RUN_STATUS_PENDING) then TestRunStatusPending
  else if decide (s = TEST_RUN_STATUS_QUEUED) then TestRunStatusQueued
  else if decide (s = TEST_RUN_STATUS_RUNNING) then TestRunStatusRunning
  else if decide (s = TEST_RUN_STATUS_PASSED) then TestRunStatusPassed
  else if decide (s = TEST_RUN_STATUS_FAILED) then TestRunStatusFailed
  else if decide (s = TEST_RUN_STATUS_ERRORED) then TestRunStatusErrored
  else if decide (s = TEST_RUN_STATUS_CANCELLED) then TestRunStatusCancelled
  else if decide (s = TEST_RUN_STATUS_TIMEOUT) then TestRunStatusTimeout
  else TestRunStatusUnset.

Definition vmStatusToProto (s : VMStatus) : Z :=
  match s with
  | VMStatusCreating => VM_STATUS_CREATING
  | VMStatusBooting => VM_STATUS_BOOTING
  | VMStatusReady => VM_STATUS_READY
  | VMStatusRunningTest => VM_STATUS_RUNNING_TEST
  | VMStatusStopping => VM_STATUS_STOPPING
  | VMStatusStopped => VM_STATUS_STOPPED
  | VMStatusError => VM_STATUS_ERROR
  | VMStatusDestroyed => VM_STATUS_DESTROYED
  | _ => VM_STATUS_UNSPECIFIED
  end.

Definition protoToVMStatus (s : Z) : VMStatus :=
  if decide (s = VM_STATUS_CREATING) then VMStatusCreating
  else if decide (s = VM_STATUS_BOOTING) then VMStatusBooting
  else if decide (s = VM_STATUS_READY) then VMStatusReady
  else if decide (s = VM_STATUS_RUNNING_TEST) then VMStatusRunningTest
  else if decide (s = VM_STATUS_STOPPING) then VMStatusStopping
  else if decide (s = VM_STATUS_STOPPED) then VMStatusStopped
  else if decide (s = VM_STATUS_ERROR) then VMStatusError
  else if decide (s = VM_STATUS_DESTROYED) then VMStatusDestroyed
  else VMStatusUnset.

Definition testRunToProto (r : TestRun) : pbTestRun :=
  mkPbTestRun (tr_ID r) (tr_DeviceID r) (tr_TestSuiteID r) (testRunStatusToProto (tr_Status r))
    (tr_VMID r) (int32 (tr_Priority r)) (timestamppb_New (tr_CreatedAt r))
    (timestamppb_New <$> tr_StartedAt r) (timestamppb_New <$> tr_CompletedAt r)
    (tr_DurationMs r) (tr_RequestedBy r) (tr_Tags r) (tr_ErrorMessage r).

Definition testResultToProto (r : TestResult) : pbTestResult :=
  mkPbTestResult (res_ID r) (res_TestRunID r) (res_TestName r) (TestCategory_string (res_Category r))
    (testRunStatusToProto (res_Status r)) (res_DurationMs r) (res_Message r) (res_Metrics r)
    (res_Logs r) (timestamppb_New (res_CompletedAt r)).

Definition vmToProto (v : VMInstance) : pbVMInstance :=
  mkPbVMInstance (vm_ID v) (vmStatusToProto (vm_Status v)) (vm_DeviceID v) (vm_QMPSocketPath v)
    (vm_SerialPorts v) (int32 (vm_PID v)) (int32 (vm_AllocatedCPUs v)) (int32 (vm_AllocatedMemMB v))
    (vm_ImagePath v) (timestamppb_New (vm_CreatedAt v)) (AgentStatus_string (vm_AgentStatus v))
    (timestamppb_New <$> vm_LastHeartbeat v) (vm_CurrentTestRunID v).

Definition deviceToProto (d : DeviceEntry) : pbDeviceEntry :=
  mkPbDeviceEntry (de_ID d) (de_Name d) (de_VendorID d) (de_DeviceID d) (de_PCIClass d)
    (de_QEMUDeviceName d) (de_DriverModule d) (de_DriverPath d) (de_Description d)
    (de_Capabilities d) (de_TestSuites d).

(** ** The store and the engine, as the handlers see them *)

(** [storage.Store] *)
Class Store (W : Type) := {
  db_CreateTestRun : ctx → TestRun → M W (result TestRun);
  db_GetTestRun : ctx → string → M W (result TestRun);
  db_UpdateTestRunStatus : ctx → string → TestRunStatus → string → M W (result unit);
  db_ListTestRuns : ctx → ListTestRunsRequest → M W (result (list TestRun));
  db_GetTestResults : ctx → string → M W (result (list TestResult));
  db_ListVMs : ctx → ListVMsRequest → M W (result (list VMInstance));
  db_GetVM : ctx → string → M W (result VMInstance);
  db_UpdateVMStatus : ctx → string → VMStatus → M W (result unit);
  db_Ping : ctx → M W (result unit);
}.

(** [observability.AuditLogger], the records of the service. *)
Class AuditLog (W : Type) := {
  LogSubmit : TestRun → M W unit;
}.

(** The server; a nil engine or audit log is [false]. *)
Record GRPCServer : Type := mkGRPCServer {
  gs_registry : DeviceRegistry;
  gs_engine : option ExecutionEngine;
  gs_audit : bool;
}.

Section handlers.
Context {W : Type} `{!Store W, !AuditLog W, !Telemetry W, !SchedulerInterface W}.
Context (s : GRPCServer).

Definition SubmitTestRun (c : ctx) (req : SubmitTestRunRequest) : M W (rpc pbTestRun) :=
  match FindDevice (gs_registry s) (sub_DeviceId req) with
  | Err err => mret (Status NotFound ("device not found: " +:+ err))
  | Ok _ =>
    if decide (sub_TestSuiteId req = "") then mret (Status InvalidArgument "test_suite_id is required")
    else
      let run := mkTestRun "" (sub_DeviceId req) (sub_TestSuiteId req) TestRunStatusPending ""
        (sub_Priority req) 0 None None 0 (sub_RequestedBy req) (sub_Tags req) "" in
      r ← db_CreateTestRun c run;
      match r with
      | Err err => mret (Status Internal ("failed to create test run: " +:+ err))
      | Ok created =>
        _ ← when (gs_audit s) (LogSubmit created);
        _ ← match gs_engine s with
            | Some e => Engine.SubmitTestRun e created
            | None => mret tt
            end;
        mret (Reply (testRunToProto created))
      end
  end.

Definition GetTestRun (c : ctx) (id : string) : M W (rpc pbTestRun) :=
  if decide (id = "") then mret (Status InvalidArgument "id is required")
  else
    r ← db_GetTestRun c id;
    match r with
    | Err err => mret (Status NotFound ("test run not found: " +:+ err))
    | Ok run => mret (Reply (testRunToProto run))
    end.

Definition ListTestRuns (c : ctx) (req : pbListTestRunsRequest) : M W (rpc ListTestRunsResponse) :=
  let coreReq := mkListTestRunsRequest (plr_DeviceId req)
    (if decide (plr_Status req ≠ TEST_RUN_STATUS_UNSPECIFIED) then protoToTestRunStatus (plr_Status req)
     else TestRunStatusUnset)
    (plr_Limit req) (plr_Offset req) in
  r ← db_ListTestRuns c coreReq;
  match r with
  | Err err => mret (Status Internal ("failed to list test runs: " +:+ err))
  | Ok runs =>
    let pbRuns := testRunToProto <$> runs in
    mret (Reply (mkListTestRunsResponse pbRuns (int32 (Z.of_nat (length pbRuns)))))
  end.

Definition CancelTestRun (c : ctx) (id : string) : M W (rpc CancelTestRunResponse) :=
  if decide (id = "") then mret (Status InvalidArgument "id is required")
  else
    r ← db_GetTestRun c id;
    match r with
    | Err err => mret (Status NotFound ("test run not found: " +:+ err))
    | Ok run =>
      if decide (tr_Status run ≠ TestRunStatusPending ∧ tr_Status run ≠ TestRunStatusRunning ∧
                 tr_Status run ≠ TestRunStatusQueued)
      then mret (Reply (mkCancelResponse false
             ("cannot cancel test run in status " +:+ TestRunStatus_string (tr_Status run))))
      else
        u ← db_UpdateTestRunStatus c id TestRunStatusCancelled "cancelled by user";
        match u with
        | Err err => mret (Status Internal ("failed to cancel: " +:+ err))
        | Ok _ =>
          _ ← when (gs_audit s) (LogCancel id (tr_RequestedBy run));
          mret (Reply (mkCancelResponse true "test run cancelled"))
        end
    end.

Definition GetTestResults (c : ctx) (testRunId : string) : M W (rpc (list pbTestResult)) :=
  if decide (testRunId = "") then mret (Status InvalidArgument "test_run_id is required")
  else
    r ← db_GetTestResults c testRunId;
    match r with
    | Err err => mret (Status Internal ("failed to get results: " +:+ err))
    | Ok results => mret (Reply (testResultToProto <$> results))
    end.

Definition ListVMs (c : ctx) (req : pbListVMsRequest) : M W (rpc (list pbVMInstance)) :=
  let coreReq := mkListVMsRequest
    (if decide (plv_Status req ≠ VM_STATUS_UNSPECIFIED) then protoToVMStatus (plv_Status req)
     else VMStatusUnset) (plv_DeviceId req) in
  r ← db_ListVMs c coreReq;
  match r with
  | Err err => mret (Status Internal ("failed to list VMs: " +:+ err))
  | Ok l => mret (Reply (vmToProto <$> l))
  end.

Definition GetVM (c : ctx) (id : string) : M W (rpc pbVMInstance) :=
  if decide (id = "") then mret (Status InvalidArgument "id is required")
  else
    r ← db_GetVM c id;
    match r with
    | Err err => mret (Status NotFound ("vm not found: " +:+ err))
    | Ok v => mret (Reply (vmToProto v))
    end.

Definition ListDevices : M W (rpc (list pbDeviceEntry)) :=
  mret (Reply (deviceToProto <$> reg_Devices (gs_registry s))).

Definition GetDevice (id : string) : M W (rpc pbDeviceEntry) :=
  mret (if decide (id = "") then Status InvalidArgument "id is required"
        else match FindDevice (gs_registry s) id with
             | Err err => Status NotFound ("device not found: " +:+ err)
             | Ok d => Reply (deviceToProto d)
             end).

(** Whether some component is unhealthy does not depend on the order of the
    loop over the map. *)
Definition GetHealth (c : ctx) : M W (rpc GetHealthResponse) :=
  p ← db_Ping c;
  let components :=
    <["grpc_server" := mkComponentHealth "healthy" "serving"]>
      {["storage" := match p with
                     | Err err => mkComponentHealth "unhealthy" err
                     | Ok _ => mkComponentHealth "healthy" "ok"
                     end]} : gmap string ComponentHealth in
  mret (Reply (mkHealth
    (if existsb (λ kv, bool_decide (ch_Status kv.2 = "unhealthy")) (map_to_list components)
     then "degraded" else "healthy") components)).

End handlers.

(** ** The service over the in-memory store and the scheduler *)

Record api_world : Type := mkApi {
  aw_store : MemoryStore;
  aw_sched : Scheduler;
  aw_now : Z;
  aw_events : list Event;
}.

Definition aw_set_store (m : MemoryStore) (w : api_world) : api_world :=
  mkApi m (aw_sched w) (aw_now w) (aw_events w).

Global Instance api_store : Store api_world := {|
  db_CreateTestRun _ run := λ w,
    let '(r, m) := CreateTestRun (aw_now w) run (aw_store w) in Done (Ok r, aw_set_store m w);
  db_GetTestRun _ id := answer (λ w, MemoryStore.GetTestRun id (aw_store w));
  db_UpdateTestRunStatus _ id st msg := λ w,
    let '(r, m) := MemoryStore.UpdateTestRunStatus (aw_now w) id st msg (aw_store w) in
    Done (r, aw_set_store m w);
  db_ListTestRuns _ req := answer (λ w,
    Ok (MemoryStore.ListTestRuns (map_keys (testRuns (aw_store w))) req (aw_store w)));
  db_GetTestResults _ id := answer (λ w, Ok (MemoryStore.GetTestResults id (aw_store w)));
  db_ListVMs _ req := answer (λ w, Ok (MemoryStore.ListVMs (map_keys (vms (aw_store w))) req (aw_store w)));
  db_GetVM _ id := answer (λ w, MemoryStore.GetVM id (aw_store w));
  db_UpdateVMStatus _ id st := λ w,
    let '(r, m) := UpdateVMStatus id st (aw_store w) in Done (r, aw_set_store m w);
  db_Ping _ := answer (λ w, Ping (aw_store w));
|}.

Global Instance api_audit : AuditLog api_world := {| LogSubmit _ := mret tt |}.

Global Instance api_telemetry : Telemetry api_world := {|
  Publish _ e := λ w, Done (Ok tt, mkApi (aw_store w) (aw_sched w) (aw_now w) (aw_events w ++ [e]));
  LogCancel _ _ := mret tt;
  LogComplete _ _ _ := mret tt;
  LogVMEvent _ _ _ _ := mret tt;
|}.

Global Instance api_scheduler : SchedulerInterface api_world := {|
  sched_Enqueue run := λ w,
    match Enqueue run (aw_sched w) with
    | Done s => Done (tt, mkApi (aw_store w) s (aw_now w) (aw_events w))
    | Panics why => Panics why
    end;
|}.

(** ** Lemmas *)



Lemma timestamp_roundtrip t :
  pts_seconds (timestamppb_New t) * 1000000000 + pts_nanos (timestamppb_New t) = t ∧
  0 ≤ pts_nanos (timestamppb_New t) < 1000000000.
Proof. simpl. pose proof (Z.div_mod t 1000000000). pose proof (Z.mod_pos_bound t 1000000000). lia. Qed.

(** ** Properties *)

(** The names of the statuses survive the trip to the client and back,
    for runs and for VMs; a number without a name comes back as the empty
    status, which the listing handlers take for "no filter". *)
Theorem status_enums_roundtrip :
  (∀ s, protoToTestRunStatus (testRunStatusToProto s) = s) ∧
  (∀ s, protoToVMStatus (vmStatusToProto s) = s) ∧
  (∀ z, testRunStatusToProto (protoToTestRunStatus z) = if decide (1 ≤ z ≤ 8) then z else 0) ∧
  (∀ z, vmStatusToProto (protoToVMStatus z) = if decide (1 ≤ z ≤ 8) then z else 0).
Proof.
  split_and!; [by intros []..| |]; intros z.
  - unfold protoToTestRunStatus. repeat (case_decide; subst; [done|]). 
    simpl. rewrite decide_False; [done|].
    unfold TEST_RUN_STATUS_PENDING, TEST_RUN_STATUS_QUEUED, TEST_RUN_STATUS_RUNNING, TEST_RUN_STATUS_PASSED,
      TEST_RUN_STATUS_FAILED, TEST_RUN_STATUS_ERRORED, TEST_RUN_STATUS_CANCELLED, TEST_RUN_STATUS_TIMEOUT in *. lia.
  - unfold protoToVMStatus. repeat (case_decide; subst; [done|]).
    simpl. rewrite decide_False; [done|].
    unfold VM_STATUS_CREATING, VM_STATUS_BOOTING, VM_STATUS_READY, VM_STATUS_RUNNING_TEST,
      VM_STATUS_STOPPING, VM_STATUS_STOPPED, VM_STATUS_ERROR, VM_STATUS_DESTROYED in *. lia.
Qed.


(** [SubmitTestRun] refuses an unknown device and a missing suite with
    an error status and changes nothing: no run is created and none queued. *)
Theorem submit_rejects s c req (w : api_world) err :
  FindDevice (gs_registry s) (sub_DeviceId req) = Err err ∨ sub_TestSuiteId req = "" →
  ∃ code msg, SubmitTestRun s c req w = Done (Status code msg, w).
Proof.
  intros H. unfold SubmitTestRun. destruct (FindDevice _ _) as [d|err'] eqn:E; [|eauto].
  destruct H as [H|H]; [done|]. rewrite decide_True by done. eauto.
Qed.

(** [CancelTestRun] cancels exactly the runs that are PENDING, QUEUED or
    RUNNING: those become CANCELLED and every other run stays as it is; for a
    finished run it answers without success and changes nothing, and for an
    unknown one it answers NOT_FOUND. *)
Theorem CancelTestRun_spec s c id (w : api_world) :
  id ≠ "" →
  match testRuns (aw_store w) !! id with
  | None => ∃ msg, CancelTestRun s c id w = Done (Status NotFound msg, w)
  | Some run =>
    if decide (in_flight run = true) then
      ∃ run' w', CancelTestRun s c id w = Done (Reply (mkCancelResponse true "test run cancelled"), w') ∧
        testRuns (aw_store w') = <[id := run']> (testRuns (aw_store w)) ∧
        tr_Status run' = TestRunStatusCancelled ∧ tr_ID run' = tr_ID run ∧ aw_sched w' = aw_sched w
    else ∃ msg, CancelTestRun s c id w = Done (Reply (mkCancelResponse false msg), w)
  end.
Proof.
  intros Hid. unfold CancelTestRun. rewrite decide_False by done. unfold mbind, M_bind. simpl.
  unfold answer, MemoryStore.GetTestRun, MemoryStore.UpdateTestRunStatus.
  destruct (testRuns (aw_store w) !! id) as [run|] eqn:E; [|unfold mret, M_ret; eauto].
  case_decide as Hf.
  - rewrite decide_False by (unfold in_flight in Hf; destruct (tr_Status run); try done; tauto).
    simpl. rewrite E. eexists _, _. split; [unfold when; destruct (gs_audit s); reflexivity|]. split_and!; try done.
  - rewrite decide_True by (unfold in_flight in Hf; destruct (tr_Status run); try done; tauto).
    unfold mret, M_ret. eauto.
Qed.

(** ** Witnesses *)

Definition event_engine : ExecutionEngine :=
  mkEngine (mkDeviceRegistry [sample_device])
    global_zero true true true true.

Definition sample_server : GRPCServer :=
  mkGRPCServer (mkDeviceRegistry [sample_device]) (Some event_engine) true.

Definition sample_ops : list store_op := [OpCreate 7 (blank_run "" "gpu0" "smoke")].
Definition sample_api : api_world := mkApi (store_run sample_ops) (NewScheduler 2) 9 [].


Lemma submit_rejects_witness : ∃ code msg,
  SubmitTestRun sample_server (mkCtx RootRPC None) (mkSubmit "gpu0" "" 0 [] "") sample_api =
  Done (Status code msg, sample_api).
Proof. apply (submit_rejects _ _ _ _ "none"). right. reflexivity. Defined.

Lemma CancelTestRun_spec_witness : ∃ w',
  CancelTestRun sample_server (mkCtx RootRPC None) "tr-1" sample_api =
    Done (Reply (mkCancelResponse true "test run cancelled"), w').
Proof.
  pose proof (CancelTestRun_spec sample_server (mkCtx RootRPC None) "tr-1" sample_api ltac:(done)) as H.
  vm_compute in H. destruct H as (run' & w' & H & _). exists w'. exact H.
Defined.
