(* ===== verification/EventBus.v ===== *)
(** * The event bus, the audit log and the telemetry service

    [telemetry/event_bus.go], [observability/audit.go] and
    [api/telemetry_server.go].  The Redis client and the logger are
    parameters: [Redis] with the documented behaviour of the commands in
    [RedisLaws], and [Zap].  Together they are an instance of [Telemetry],
    the interface the engine is verified against.  Warnings and debug lines of
    the bus are left out. *)
From stdpp Require Import sorting options.
Set Default Proof Using "Type*".
From S2P Require Import Prelude GoStd Types Effects Config Json Marshal JsonText Numbers JsonStruct JsonPrint StepExec Interfaces GrpcServer.
Open Scope string_scope.
Open Scope list_scope.
Open Scope Z_scope.

(** ** Parameters *)

(** A Redis client and the streams of its server. *)
Class Redis (W : Type) := {
  redis_NewClient : string → string → Z → Z → M W unit;
  redis_Ping : ctx → M W (result unit);
  (* XADD stream MAXLEN ~ maxLen * field value ... *)
  redis_XAdd : ctx → string → Z → gmap string string → M W (result unit);
  redis_Close : M W (result unit);
  redis_connected : W → bool;
  redis_stream : W → string → list (gmap string string);
}.

(** A value of a log line. *)
Inductive zap_value : Type :=
| ZapString (s : string)
| ZapStrings (l : list string)
| ZapInt (z : Z)
| ZapFloat (f : float64)
| ZapBool (b : bool).

(** A line at level info: the logger's name, the message and its fields. *)
Class Zap (W : Type) := zap_Info : string → string → list (string * zap_value) → M W unit.

Definition UnixMilli (ns : Z) : Z := ns / 1000000.

(** ** Events *)

Definition StreamKey : string := "dvf:events".
Definition MaxStreamLen : Z := 10000.

Definition EventType_string (t : EventType) : string :=
  match t with
  | EventTestRunSubmitted => "test_run.submitted"
  | EventTestRunStarted => "test_run.started"
  | EventTestRunCompleted => "test_run.completed"
  | EventTestRunCancelled => "test_run.cancelled"
  | EventVMCreated => "vm.created"
  | EventVMReady => "vm.ready"
  | EventVMDestroyed => "vm.destroyed"
  | EventDriverLoaded => "driver.loaded"
  | EventTestResultSaved => "test_result.saved"
  end.

(** The values of a payload as JSON; a nil slice and a nil map are [null]. *)
Definition payload_json (p : payload) : json :=
  match p with
  | PayString s => JStr s
  | PayInt z => JNum (fmt_d z)
  | PayStrings [] => JNull
  | PayStrings l => JArr (JStr <$> l)
  end.

Definition payload_value (l : list (string * payload)) : json :=
  match l with
  | [] => JNull
  | _ => JObj (prod_map id payload_json <$> merge_sort entry_le l)
  end.

Definition event_fields (ts : Z) (ev : Event) : gmap string string :=
  list_to_map [("event_type", EventType_string (ev_Type ev)); ("entity_id", ev_EntityID ev); ("device_id", ev_DeviceID ev);
    ("status", ev_Status ev); ("ts", fmt_d ts); ("payload", print (payload_value (ev_Payload ev)))].

(** ** The bus *)

Module EventBus.

(** A nil client is [false]. *)
Record EventBus : Type := mkEventBus {
  eb_client : bool;
  eb_enabled : bool;
}.

Section bus.
Context {W : Type} `{!Redis W, !Runtime W}.

Definition NewEventBus (cfg : RedisConfig) : M W (result EventBus) :=
  let addr := redis_Host cfg +:+ ":" +:+ fmt_d (redis_Port cfg) in
  _ ← redis_NewClient addr (redis_Password cfg) (redis_DB cfg) (redis_PoolSize cfg);
  now ← rt_Now;
  r ← redis_Ping (WithTimeout Background now (seconds 5));
  match r with
  | Err _ =>
    _ ← redis_Close;
    mret (Ok (mkEventBus false false))
  | Ok _ => mret (Ok (mkEventBus true true))
  end.

Definition Publish (b : EventBus) (c : ctx) (ev : Event) : M W (result unit) :=
  if negb (eb_enabled b) then mret (Ok tt)
  else
    now ← rt_Now;
    _ ← redis_XAdd c StreamKey MaxStreamLen (event_fields (UnixMilli now) ev);
    mret (Ok tt).

Definition Ping (b : EventBus) (c : ctx) : M W (result unit) :=
  if negb (eb_enabled b) then mret (Err "event bus disabled") else redis_Ping c.

Definition Close (b : EventBus) : M W (result unit) :=
  if eb_client b then redis_Close else mret (Ok tt).

Definition Enabled (b : EventBus) : bool := eb_enabled b.

End bus.
End EventBus.

(** ** The audit log *)

Section audit.
Context {W : Type} `{!Zap W, !Runtime W}.

(** The logger of [NewAuditLogger]: named, and every line tagged. *)
Definition audit_line (msg : string) (fields : list (string * zap_value)) : M W unit :=
  now ← rt_Now;
  zap_Info "audit" msg (("audit", ZapBool true) :: fields ++ [("ts_ms", ZapInt (UnixMilli now))]).

Definition audit_LogSubmit (runID deviceID suiteID requestedBy : string) (tags : list string) : M W unit :=
  audit_line "test_run.submitted"
    [("run_id", ZapString runID); ("device_id", ZapString deviceID); ("test_suite_id", ZapString suiteID);
     ("requested_by", ZapString requestedBy); ("tags", ZapStrings tags)].

Definition audit_LogCancel (runID requestedBy : string) : M W unit :=
  audit_line "test_run.cancelled" [("run_id", ZapString runID); ("requested_by", ZapString requestedBy)].

Definition audit_LogComplete (runID status : string) (durationMs : Z) : M W unit :=
  audit_line "test_run.completed"
    [("run_id", ZapString runID); ("final_status", ZapString status); ("duration_ms", ZapInt durationMs)].

Definition audit_LogVMEvent (event vmID deviceID testRunID : string) : M W unit :=
  audit_line event [("vm_id", ZapString vmID); ("device_id", ZapString deviceID); ("test_run_id", ZapString testRunID)].

End audit.

(** The bus and the audit log, as the engine and the service hold them. *)
Definition bus_telemetry {W : Type} `{!Redis W, !Runtime W, !Zap W} (b : EventBus.EventBus) : Telemetry W := {|
  Interfaces.Publish := EventBus.Publish b;
  LogCancel := audit_LogCancel;
  LogComplete := audit_LogComplete;
  LogVMEvent := audit_LogVMEvent;
|}.

Global Instance zap_audit {W : Type} `{!Runtime W, !Zap W} : AuditLog W := {|
  LogSubmit run := audit_LogSubmit (tr_ID run) (tr_DeviceID run) (tr_TestSuiteID run) (tr_RequestedBy run) (tr_Tags run);
|}.

(** ** The telemetry service *)

Record LogEntry : Type := mkLogEntry { le_VmId : string; le_Severity : string; le_Source : string; le_Message : string }.
Record MetricEntry : Type := mkMetricEntry { me_VmId : string; me_Name : string; me_Value : float64 }.
Record EventEntry : Type := mkEventEntry { ee_VmId : string; ee_EventType : string; ee_Payload : string }.
Record StreamAck : Type := mkStreamAck { ack_ReceivedCount : Z; ack_Status : string }.

Section streams.
Context {W : Type} `{!Zap W} (SendAndClose : StreamAck → M W (result unit)).

(** The loop of the three methods: [stream.Recv] gives the entries one by
    one, and then [io.EOF] or another error. *)
Fixpoint stream_loop {A : Type} (log : A → M W unit) (entries : list A) (last : option string) (count : Z) : M W (result unit) :=
  match entries with
  | [] =>
    match last with
    | None => SendAndClose (mkStreamAck count "ok")
    | Some err => mret (Err err)
    end
  | entry :: entries' =>
    _ ← log entry;
    stream_loop log entries' last (int64 (count + 1))
  end.

Definition log_line (e : LogEntry) : string * list (string * zap_value) :=
  ("agent_log", [("vm_id", ZapString (le_VmId e)); ("severity", ZapString (le_Severity e)); ("source", ZapString (le_Source e));
    ("message", ZapString (le_Message e))]).

Definition metric_line (e : MetricEntry) : string * list (string * zap_value) :=
  ("agent_metric", [("vm_id", ZapString (me_VmId e)); ("name", ZapString (me_Name e)); ("value", ZapFloat (me_Value e))]).

Definition event_line (e : EventEntry) : string * list (string * zap_value) :=
  ("agent_event", [("vm_id", ZapString (ee_VmId e)); ("event_type", ZapString (ee_EventType e)); ("payload", ZapString (ee_Payload e))]).

Definition telemetry_log (l : string * list (string * zap_value)) : M W unit := zap_Info "telemetry" l.1 l.2.

Definition StreamLogs (entries : list LogEntry) (last : option string) : M W (result unit) :=
  stream_loop (telemetry_log ∘ log_line) entries last 0.

Definition StreamMetrics (entries : list MetricEntry) (last : option string) : M W (result unit) :=
  stream_loop (telemetry_log ∘ metric_line) entries last 0.

Definition StreamEvents (entries : list EventEntry) (last : option string) : M W (result unit) :=
  stream_loop (telemetry_log ∘ event_line) entries last 0.

End streams.

(** ** Documented behaviour of the parameters *)

(** What XADD with an approximate MAXLEN does to a stream: the entry is
    appended, and old entries are dropped, of which at least [maxLen] remain. *)
Definition xadd (maxLen : Z) (entry : gmap string string) (before after : list (gmap string string)) : Prop :=
  ∃ k, after = drop k before ++ [entry] ∧ (k = 0%nat ∨ maxLen ≤ Z.of_nat (length after)).

Class RedisLaws (W : Type) `{!Redis W, !Runtime W} : Prop := {
  #[global] redis_new_total a p d n :: Total (redis_NewClient a p d n);
  #[global] redis_ping_total c :: Total (redis_Ping c);
  #[global] redis_xadd_total c k n e :: Total (redis_XAdd c k n e);
  #[global] redis_close_total :: Total redis_Close;
  #[global] redis_now_total :: Total rt_Now;
  #[global] redis_now_connected :: Keeps redis_connected rt_Now;
  #[global] redis_now_stream :: Keeps redis_stream rt_Now;
  #[global] redis_ping_connected c :: Keeps redis_connected (redis_Ping c);
  #[global] redis_ping_stream c :: Keeps redis_stream (redis_Ping c);
  #[global] redis_new_stream a p d n :: Keeps redis_stream (redis_NewClient a p d n);
  #[global] redis_close_stream :: Keeps redis_stream redis_Close;
  #[global] redis_xadd_connected c k n e :: Keeps redis_connected (redis_XAdd c k n e);
  redis_new_connected a p d n w r w' : redis_NewClient a p d n w = Done (r, w') → redis_connected w' = true;
  redis_close_connected w r w' : redis_Close w = Done (r, w') → redis_connected w' = false;
  (* a command that fails may have been carried out *)
  redis_xadd_spec c k n e w r w' : redis_XAdd c k n e w = Done (r, w') →
    (∀ k', k' ≠ k → redis_stream w' k' = redis_stream w k') ∧
    (xadd n e (redis_stream w k) (redis_stream w' k) ∨ is_ok r = false ∧ redis_stream w' k = redis_stream w k);
}.

(** A logger that keeps its lines. *)
Class ZapLaws (W : Type) `{!Zap W} := {
  zap_lines : W → list (string * string * list (string * zap_value));
  #[global] zap_total name msg fs :: Total (zap_Info name msg fs);
  zap_appends name msg fs w r w' : zap_Info name msg fs w = Done (r, w') → zap_lines w' = zap_lines w ++ [(name, msg, fs)];
}.

(** The bus keeps what the engine assumes of it. *)
Lemma bus_safe {W : Type} `{!Redis W, !Runtime W, !Zap W, !RedisLaws W, !ZapLaws W} (b : EventBus.EventBus) :
  @SafeTelemetry W (bus_telemetry b).
Proof.
  assert (∀ msg fs, Total (W:=W) (audit_line msg fs)) as Ha by (intros; unfold audit_line; apply _).
  split; intros; simpl; unfold EventBus.Publish; [|apply Ha..]. solve_total.
Qed.

Definition valid_payload (p : payload) : Prop :=
  match p with
  | PayString s => valid_string s
  | PayInt z => True
  | PayStrings l => Forall valid_string l
  end.

Definition valid_event (ev : Event) : Prop := Forall (λ kv, valid_string kv.1 ∧ valid_payload kv.2) (ev_Payload ev).

Lemma payload_printable l : Forall (λ kv, valid_string kv.1 ∧ valid_payload kv.2) l → printable 2 (payload_value l).
Proof using.
  intros Hl. unfold payload_value. destruct l as [|kv l']; [done|]. cbn [printable]. apply Forall_fmap.
  eapply Forall_impl; [by rewrite merge_sort_Permutation|]. intros [k [s|z|[|s l]]] [Hk Hp]; split; simpl in *; try done.
  - apply fmt_d_number.
  - constructor; [by inversion Hp|]. apply Forall_fmap. by inversion Hp.
Qed.

Lemma int64_add_l x y : int64 (int64 x + y) = int64 (x + y).
Proof using.
  unfold int64, wrap. f_equal. replace ((x + 2 ^ (64 - 1)) `mod` 2 ^ 64 - 2 ^ (64 - 1) + y + 2 ^ (64 - 1))
    with ((x + 2 ^ (64 - 1)) `mod` 2 ^ 64 + y) by lia.
  rewrite Zplus_mod_idemp_l. f_equal. lia.
Qed.

Section bus_laws.
Context {W : Type} `{!Redis W, !Runtime W, !Zap W, !RedisLaws W, !ZapLaws W}.

(** C36: publishing never fails its caller.  [Publish] returns nil whatever
    the server does; it leaves the world alone on a disabled bus and otherwise
    appends at most one entry to the stream, which keeps its last entries; the
    entry has exactly six fields: the event's type, entity, device and status,
    the time it was published in milliseconds, and its payload, as JSON that is
    read back as the event's if its texts are UTF-8. *)
Theorem publishing_never_fails b c ev (w : W) :
  ∃ w', EventBus.Publish b c ev w = Done (Ok tt, w') ∧
    (EventBus.eb_enabled b = false → w' = w) ∧
    (∀ k, k ≠ StreamKey → redis_stream w' k = redis_stream w k) ∧
    (redis_stream w' StreamKey = redis_stream w StreamKey ∨
     ∃ now w1 text, rt_Now w = Done (now, w1) ∧
       xadd MaxStreamLen
         (<["event_type" := EventType_string (ev_Type ev)]> (<["entity_id" := ev_EntityID ev]>
          (<["device_id" := ev_DeviceID ev]> (<["status" := ev_Status ev]>
          (<["ts" := fmt_d (UnixMilli now)]> {["payload" := text]})))))
         (redis_stream w StreamKey) (redis_stream w' StreamKey) ∧
       (valid_event ev → parse text = Ok (payload_value (ev_Payload ev)))).
Proof.
  unfold EventBus.Publish. destruct (EventBus.eb_enabled b); simpl; [|exists w; by split_and!; [..|left]].
  destruct (total rt_Now w) as (now & w1 & E1). rewrite (M_bind_done _ _ _ _ _ E1).
  destruct (total (redis_XAdd c StreamKey MaxStreamLen (event_fields (UnixMilli now) ev)) w1) as (r & w2 & E2).
  rewrite (M_bind_done _ _ _ _ _ E2). exists w2. split_and!; [done|done|..];
    destruct (redis_xadd_spec _ _ _ _ _ _ _ E2) as [Ho Hx]; rewrite (keeps redis_stream rt_Now _ _ _ E1) in *; [done|].
  destruct Hx as [Hx|[_ Hx]]; [|by left]. right. eexists now, w1, _. split_and!; [done|exact Hx|]. intros Hv. apply (parse_print 2); [by apply payload_printable|lia].
Qed.

(** The bus holds a connection exactly when it is enabled: [NewEventBus]
    succeeds whether or not the server answers, closes the client it cannot
    use, and [Close] leaves none. *)
Theorem bus_connection_accounted cfg (w : W) :
  ∃ b w', EventBus.NewEventBus cfg w = Done (Ok b, w') ∧
    redis_connected w' = EventBus.Enabled b ∧ redis_stream w' = redis_stream w ∧
    ∃ r w'', EventBus.Close b w' = Done (r, w'') ∧ redis_connected w'' = false.
Proof using RedisLaws0.
  unfold EventBus.NewEventBus, EventBus.Close.
  destruct (total (redis_NewClient (redis_Host cfg +:+ ":" +:+ fmt_d (redis_Port cfg)) (redis_Password cfg) (redis_DB cfg) (redis_PoolSize cfg)) w)
    as (u & w1 & E1). rewrite (M_bind_done _ _ _ _ _ E1).
  destruct (total rt_Now w1) as (now & w2 & E2). rewrite (M_bind_done _ _ _ _ _ E2).
  destruct (total (redis_Ping (WithTimeout Background now (seconds 5))) w2) as (r & w3 & E3). rewrite (M_bind_done _ _ _ _ _ E3).
  assert (redis_stream w3 = redis_stream w) as Hs.
  { by rewrite (keeps redis_stream _ _ _ _ E3), (keeps redis_stream _ _ _ _ E2), (keeps redis_stream _ _ _ _ E1). }
  assert (redis_connected w3 = true) as Hc.
  { rewrite (keeps redis_connected _ _ _ _ E3), (keeps redis_connected _ _ _ _ E2). by eapply redis_new_connected. }
  destruct (total redis_Close w3) as (x & w4 & E4). pose proof (redis_close_connected _ _ _ E4) as Hx.
  destruct r as [u'|e].
  - exists (EventBus.mkEventBus true true), w3. split_and!; [done..|]. by exists x, w4.
  - rewrite (M_bind_done _ _ _ _ _ E4). exists (EventBus.mkEventBus false false), w4.
    split_and!; [done|done|by rewrite (keeps redis_stream _ _ _ _ E4)|]. by exists (Ok tt), w4.
Qed.

Lemma stream_loop_logs {A : Type} send (line : A → string * list (string * zap_value)) entries last count (w : W) :
  (∀ a, Total (send a)) → in_int64 count →
  ∃ w1, zap_lines w1 = zap_lines w ++ ((λ e, ("telemetry", (line e).1, (line e).2)) <$> entries) ∧
    stream_loop send (telemetry_log ∘ line) entries last count w =
      match last with
      | None => send (mkStreamAck (int64 (count + Z.of_nat (length entries))) "ok") w1
      | Some err => Done (Err err, w1)
      end.
Proof.
  intros Hsend. revert count w. induction entries as [|e entries IH]; intros count w Hc; cbn [stream_loop].
  - exists w. rewrite app_nil_r. split; [done|]. replace (count + Z.of_nat (length (A:=A) [])) with count by (simpl; lia).
    rewrite int64_id by done. by destruct last.
  - destruct (total (zap_Info "telemetry" (line e).1 (line e).2) w) as (u & w1 & E1).
    erewrite M_bind_done by exact E1. destruct (IH (int64 (count + 1)) w1) as (w2 & Hl & E2); [apply int64_range|].
    exists w2. split; [rewrite Hl, (zap_appends _ _ _ _ _ _ E1); by rewrite <- app_assoc|].
    rewrite E2, int64_add_l. cbn [length]. by replace (count + Z.of_nat (S (length entries))) with (count + 1 + Z.of_nat (length entries)) by lia.
Qed.

(** The telemetry service logs every entry of a stream, in order, and
    acknowledges a stream that its client closed with the number of entries;
    a stream that breaks is not acknowledged. *)
Theorem telemetry_streams_logged send (logs : list LogEntry) (metrics : list MetricEntry) (events : list EventEntry) last (w : W) :
  (∀ a, Total (send a)) →
  (∃ w1, zap_lines w1 = zap_lines w ++ ((λ e, ("telemetry", (log_line e).1, (log_line e).2)) <$> logs) ∧
     StreamLogs send logs last w = match last with
       | None => send (mkStreamAck (int64 (Z.of_nat (length logs))) "ok") w1 | Some err => Done (Err err, w1) end) ∧
  (∃ w1, zap_lines w1 = zap_lines w ++ ((λ e, ("telemetry", (metric_line e).1, (metric_line e).2)) <$> metrics) ∧
     StreamMetrics send metrics last w = match last with
       | None => send (mkStreamAck (int64 (Z.of_nat (length metrics))) "ok") w1 | Some err => Done (Err err, w1) end) ∧
  (∃ w1, zap_lines w1 = zap_lines w ++ ((λ e, ("telemetry", (event_line e).1, (event_line e).2)) <$> events) ∧
     StreamEvents send events last w = match last with
       | None => send (mkStreamAck (int64 (Z.of_nat (length events))) "ok") w1 | Some err => Done (Err err, w1) end).
Proof.
  intros Hs. split_and!; [exact (stream_loop_logs send log_line logs last 0 w Hs ltac:(done))|
    exact (stream_loop_logs send metric_line metrics last 0 w Hs ltac:(done))|
    exact (stream_loop_logs send event_line events last 0 w Hs ltac:(done))].
Qed.

End bus_laws.

(** ** A server and a logger to try them on *)

Record bus_world : Type := mkBusWorld {
  bw_connected : bool;
  bw_reachable : bool;
  bw_streams : gmap string (list (gmap string string));
  bw_lines : list (string * string * list (string * zap_value));
  bw_clock : Z;
}.

Definition bw_connect (b : bool) (w : bus_world) : bus_world := mkBusWorld b (bw_reachable w) (bw_streams w) (bw_lines w) (bw_clock w).

Definition reply {A : Type} (a : A) (w : bus_world) : result A := if bw_reachable w then Ok a else Err "connection refused".

Global Instance bus_redis : Redis bus_world := {|
  redis_NewClient _ _ _ _ w := Done (tt, bw_connect true w);
  redis_Ping _ w := Done (reply tt w, w);
  redis_XAdd _ k n e w :=
    Done (if bw_reachable w
          then let l := default [] (bw_streams w !! k) in
               (Ok tt, mkBusWorld (bw_connected w) true (<[k := drop (length l - Z.to_nat n) l ++ [e]]> (bw_streams w)) (bw_lines w) (bw_clock w))
          else (Err "connection refused", w));
  redis_Close w := Done (Ok tt, bw_connect false w);
  redis_connected := bw_connected;
  redis_stream w k := default [] (bw_streams w !! k);
|}.

Global Instance bus_zap : Zap bus_world := λ name msg fs w,
  Done (tt, mkBusWorld (bw_connected w) (bw_reachable w) (bw_streams w) (bw_lines w ++ [(name, msg, fs)]) (bw_clock w)).

Global Instance bus_runtime : Runtime bus_world := {|
  rt_Now w := Done (bw_clock w, w);
  rt_cancelled _ _ := false;
  rt_clock := bw_clock;
  rt_Sleep _ := mret tt;
  rt_ResubmitLater _ := mret tt;
|}.

Global Instance bus_laws : RedisLaws bus_world.
Proof.
  split; try (intros; intros ?; intros; simpl in *; simplify_eq; by eauto); try (intros; simpl in *; by simplify_eq).
  - intros c k n e w. simpl. destruct (bw_reachable w); eauto.
  - intros c k n e w r w'. simpl. destruct (bw_reachable w); by intros [= <- <-].
  - intros c k n e w r w'. simpl. destruct (bw_reachable w); intros [= <- <-]; [|split; [done|by right]]. split.
    + intros k' Hk. simpl. by rewrite lookup_insert_ne.
    + left. simpl. rewrite lookup_insert_eq. eexists. split; [done|]. simpl. rewrite length_app, length_drop. simpl. lia.
Qed.

Global Instance bus_zap_laws : ZapLaws bus_world.
Proof.
  refine {| zap_lines := bw_lines |}.
  - intros name msg fs w. eexists _, _. done.
  - by intros name msg fs w r w' [= <- <-].
Defined.

Definition quiet_bus : bus_world := mkBusWorld false true ∅ [] 1700000000123456789.

Definition bench_event : Event := mkEvent EventTestRunSubmitted "run-1" "dev0" "PENDING" [("tags", PayStrings ["a"]); ("priority", PayInt 3)].

Lemma publishing_never_fails_witness :
  ∃ w', EventBus.Publish (EventBus.mkEventBus true true) Background bench_event quiet_bus = Done (Ok tt, w') ∧
    length (redis_stream w' StreamKey) = 1%nat ∧
    parse (default "" (event_fields 1700000000123 bench_event !! "payload")) = Ok (JObj [("priority", JNum "3"); ("tags", JArr [JStr "a"])]).
Proof.
  destruct (publishing_never_fails (EventBus.mkEventBus true true) Background bench_event quiet_bus) as (w' & E & _).
  exists w'. split; [exact E|]. vm_compute in E. injection E as <-. split; vm_compute; reflexivity.
Defined.

Lemma bus_connection_accounted_witness :
  ∃ b w', EventBus.NewEventBus (mkRedisConfig "redis" 6379 "" 0 10) quiet_bus = Done (Ok b, w') ∧ redis_connected w' = EventBus.Enabled b.
Proof.
  destruct (bus_connection_accounted (mkRedisConfig "redis" 6379 "" 0 10) quiet_bus) as (b & w' & E & Hc & _). eauto.
Defined.

Lemma telemetry_streams_logged_witness :
  ∃ w1, length (zap_lines w1) = 1%nat ∧
    StreamEvents (W:=bus_world) (λ _, mret (Ok tt)) [mkEventEntry "vm-1" "boot" "{}"] None quiet_bus = Done (Ok tt, w1).
Proof.
  destruct (telemetry_streams_logged (W:=bus_world) (λ _, mret (Ok tt)) [] [] [mkEventEntry "vm-1" "boot" "{}"] None quiet_bus
    (λ _, total_ret _)) as (_ & _ & w1 & Hl & E). exists w1. split; [by rewrite Hl|exact E].
Defined.
