(* ===== verification/Http.v ===== *)
(** * HTTP handlers, as [net/http] and [encoding/json] give them

    What [api/rest_gateway.go] uses of the standard library: the response
    writer, [http.Error], [http.ServeMux] with patterns without methods,
    [json.NewDecoder(r.Body).Decode], which reads the first value of a body,
    and the JSON text of a [time.Time]. *)
From Stdlib Require Import Ascii.
From stdpp Require Import options.
From S2P Require Import Prelude GoStd Types Effects Json Marshal JsonText Numbers JsonPrint PyText JsonTyped.
Open Scope string_scope.
Open Scope list_scope.
Open Scope Z_scope.

(** ** Requests and responses *)

(** A request for a path; [rq_Path] is [r.URL.EscapedPath()]. *)
Record request : Type := mkRequest {
  rq_Method : string;
  rq_Path : string;
  rq_Body : string;
}.

(** The header that handlers change, what [WriteHeader] has sent, and the
    body. *)
Record response_writer : Type := mkWriter {
  hw_header : gmap string string;
  hw_sent : option (Z * gmap string string);
  hw_body : string;
}.

Definition new_writer : response_writer := mkWriter ∅ None "".

Definition Header_Set (k v : string) (w : response_writer) : response_writer :=
  mkWriter (<[k := v]> (hw_header w)) (hw_sent w) (hw_body w).

Definition Header_Del (k : string) (w : response_writer) : response_writer :=
  mkWriter (delete k (hw_header w)) (hw_sent w) (hw_body w).

(** The second call is without effect. *)
Definition WriteHeader (code : Z) (w : response_writer) : response_writer :=
  match hw_sent w with
  | None => mkWriter (hw_header w) (Some (code, hw_header w)) (hw_body w)
  | Some _ => w
  end.

Definition Write (data : string) (w : response_writer) : response_writer :=
  let w := WriteHeader 200 w in mkWriter (hw_header w) (hw_sent w) (hw_body w +:+ data).

Definition newline : string := String (byte_of 10) "".

Definition http_Error (msg : string) (code : Z) (w : response_writer) : response_writer :=
  Write (msg +:+ newline) (WriteHeader code
    (Header_Set "X-Content-Type-Options" "nosniff" (Header_Set "Content-Type" "text/plain; charset=utf-8"
      (Header_Del "Content-Length" w)))).

Definition status (w : response_writer) : option Z := fst <$> hw_sent w.

Definition sent_header (k : string) (w : response_writer) : option string := hw_sent w ≫= λ h, h.2 !! k.

Definition Handler (W : Type) : Type := request → response_writer → M W response_writer.

(** ** [http.ServeMux] *)

(** [url.PathUnescape] *)
Fixpoint path_unescape (l : list ascii) : option (list ascii) :=
  match l with
  | [] => Some []
  | c :: l' =>
    if (code c =? 37)%N then
      match l' with
      | a :: b :: l'' => x ← hex_val a; y ← hex_val b; (byte_of (16 * x + y)%N ::.) <$> path_unescape l''
      | _ => None
      end
    else (c ::.) <$> path_unescape l'
  end.

(** A segment that is not well-formed is taken as it is. *)
Definition unescape_segment (s : string) : string := from_option str s (path_unescape (bytes s)).

Definition segments (path : string) : list string := unescape_segment <$> split_on is_slash (str_drop 1 path).

Definition ends_slash (s : string) : bool := match last (bytes s) with Some c => is_slash c | None => false end.

Definition cleanPath (p : string) : string :=
  let p := if HasPrefix p "/" then p else "/" +:+ p in
  let np := Clean p in
  if ends_slash p && bool_decide (np ≠ "/") then np +:+ "/" else np.

Section mux.
Context {W : Type} (RedirectHandler : string → Handler W).

Definition NotFound : Handler W := λ _ w, mret (http_Error "404 page not found" 404 w).

(** Routes are exact, but for ["/"], which takes every other path; a path
    that is not clean is redirected. *)
Definition mux_handler (routes : list (string * Handler W)) : Handler W := λ r w,
  let path := if decide (rq_Method r = "CONNECT") then rq_Path r else cleanPath (rq_Path r) in
  if decide (path ≠ rq_Path r) then RedirectHandler path r w
  else if decide (path = "") then NotFound r w
  else
    match list_find (λ route, route.1 ≠ "/" ∧ segments route.1 = segments path) routes with
    | Some (_, route) => route.2 r w
    | None =>
      match list_find (λ route, route.1 = "/") routes with
      | Some (_, route) => route.2 r w
      | None => NotFound r w
      end
    end.

End mux.

(** ** [json.Decoder] *)

Definition done_value (s : scanner) : option json :=
  match s with mkScanner [] AtAfter (Some v) => Some v | _ => None end.

(** A number at the top ends at any byte that cannot continue it. *)
Definition number_at_top (s : scanner) : option json :=
  match s with
  | mkScanner [] (AtNumber ns raw) _ => if num_final ns then Some (JNum (str raw)) else None
  | _ => None
  end.

(** The first value of a text; what follows it is not read. *)
Fixpoint read_value (text : string) (s : scanner) (blank : bool) : result json :=
  match done_value s with
  | Some v => Ok v
  | None =>
    match text with
    | EmptyString =>
      match scan_eof s with Ok v => Ok v | Err _ => Err (if blank then "EOF" else "unexpected EOF") end
    | String c text' =>
      match scan_step c s with
      | Ok s' => read_value text' s' (blank && json_space c)
      | Err e => match number_at_top s with Some v => Ok v | None => Err e end
      end
    end
  end.

Definition Decode {A : Type} (d : decoder A) (text : string) (zero : A) : result A :=
  let! v := read_value text (mkScanner [] AtValue None) true in d at_top v zero.

Lemma done_scanner s v : done_value s = Some v → s = mkScanner [] AtAfter (Some v).
Proof. destruct s as [[|] [] [|]]; try done. by intros [= <-]. Qed.

Lemma scan_done text v s' : scan text (mkScanner [] AtAfter (Some v)) = Ok s' → s' = mkScanner [] AtAfter (Some v).
Proof.
  induction text as [|c text IH]; [by intros [= <-]|]. cbn [scan]. unfold scan_step, after_value. simpl.
  destruct (json_space c); [exact IH|done].
Qed.

Lemma read_scan text s s' v b : scan text s = Ok s' → scan_eof s' = Ok v → read_value text s b = Ok v.
Proof.
  revert s b. induction text as [|c text IH]; intros s b Hs He; cbn [scan read_value] in *;
    destruct (done_value s) as [v0|] eqn:Hd.
  - injection Hs as <-. apply done_scanner in Hd as ->. by injection He as <-.
  - injection Hs as <-. by rewrite He.
  - apply done_scanner in Hd as ->. change (scan (String c text) (mkScanner [] AtAfter (Some v0)) = Ok s') in Hs.
    apply scan_done in Hs as ->. by injection He as <-.
  - destruct (scan_step c s) as [s1|e]; [|done]. simpl in Hs. by apply IH.
Qed.

(** What [Unmarshal] accepts, [Decode] reads as the same value. *)
Lemma Decode_Unmarshal {A : Type} (d : decoder A) text zero x : Unmarshal d text zero = Ok x → Decode d text zero = Ok x.
Proof.
  unfold Unmarshal, Decode, parse. destruct (scan text _) as [s|] eqn:Hs; [|done]. simpl.
  destruct (scan_eof s) as [v|] eqn:He; [|done]. by rewrite (read_scan _ _ _ _ _ Hs He).
Qed.

(** The values read are well formed. *)
Definition any_number (lit : string) : Prop := number_literal lit = true.

(** A space ends nothing but a number. *)
Lemma space_completes s s1 l :
  scanner_ok any_number s → scan_step (byte_of 32) s = Ok s1 → done_value s1 = Some (JObj l) → s = s1.
Proof.
  intros (_ & Hok & _) Hs Hd%done_scanner. subst s1. destruct s as [st ph top]. unfold scan_step in Hs. simpl in Hs.
  destruct ph as [| | | | | |raw|raw|raw n|ns raw|word rest v]; simpl in Hs; try (by simplify_eq); simpl in Hok.
  - unfold after_value in Hs. simpl in Hs. by simplify_eq.
  - destruct ns; simpl in Hs; try done; unfold end_number in Hs;
      destruct st as [|[es|fs [k|]] st]; simpl in Hs; unfold after_value in Hs; simpl in Hs; simplify_eq.
  - destruct rest as [|d rest]; [done|]. case_decide as E; [|done].
    destruct rest; [|done]. destruct st as [|[es|fs [k|]] st]; simpl in Hs; simplify_eq. done.
Qed.

Lemma read_reach t rest s s' v b : scan t s = Ok s' → done_value s' = Some v → read_value (t +:+ rest) s b = Ok v.
Proof.
  revert s b. induction t as [|c t IH]; intros s b Hs Hd.
  - injection Hs as <-. change ("" +:+ rest) with rest. destruct rest; cbn [read_value]; by rewrite Hd.
  - change (String c t +:+ rest) with (String c (t +:+ rest)). cbn [scan read_value] in *.
    destruct (done_value s) as [v0|] eqn:Hd0.
    + apply done_scanner in Hd0 as ->. change (scan (String c t) (mkScanner [] AtAfter (Some v0)) = Ok s') in Hs.
      apply scan_done in Hs as ->. by injection Hd as <-.
    + destruct (scan_step c s) as [s1|e]; [|done]. simpl in Hs. by apply IH.
Qed.

(** An object is read whatever follows it. *)
Lemma read_object d t l rest b :
  spells d t (JObj l) → (d ≤ 1000)%nat → read_value (t +:+ rest) (mkScanner [] AtValue None) b = Ok (JObj l).
Proof.
  intros Ht Hd. assert (Hs : scan (t +:+ " ") (mkScanner [] AtValue None) = Ok (mkScanner [] AtAfter (Some (JObj l)))).
  { rewrite Ht; [done| |by exists (byte_of 32), EmptyString]. split_and!; [by left|done|simpl; lia]. }
  rewrite scan_app in Hs. destruct (scan t _) as [s0|] eqn:E; [|done]. simpl in Hs.
  destruct (scan_step _ s0) as [s1|] eqn:E1; [|done]. simpl in Hs. injection Hs as ->.
  assert (Hok : scanner_ok any_number s0) by (eapply (scan_ok any_number); [done|by apply start_ok|exact E]).
  pose proof (space_completes _ _ l Hok E1 eq_refl) as ->. by eapply read_reach.
Qed.

Local Opaque depth_limit.

Lemma read_value_ok text s b v : scanner_ok any_number s → read_value text s b = Ok v → dumpable any_number depth_limit v.
Proof.
  assert (Hn : ∀ lit, number_literal lit = true → any_number lit) by done.
  revert s b. induction text as [|c text IH]; intros s b Hs; cbn [read_value];
    (destruct (done_value s) as [v0|] eqn:Hd; [apply done_scanner in Hd as ->; intros [= <-]; by apply Hs|]).
  - destruct (scan_eof s) as [v0|] eqn:He; [|done]. intros [= <-]. by eapply scan_eof_ok.
  - destruct (scan_step c s) as [s1|] eqn:E; [apply IH; by eapply scan_step_ok|].
    destruct s as [[] ph top]; [|done]. destruct ph as [| | | | | | | | |ns raw|]; try done. simpl.
    destruct (num_final ns) eqn:Hf; [|done]. intros [= <-]. apply dumpable_num. destruct Hs as (_ & Hp & _).
    by apply (number_prefix_final any_number Hn ns).
Qed.

(** ** [time.Time] *)

(** The date of a day since 1970-01-01, in the Gregorian calendar: years
    start in March, and 400 of them have 146097 days. *)
Definition civil (day : Z) : Z * Z * Z :=
  let z := day + 719468 in
  let era := z / 146097 in
  let doe := z mod 146097 in
  let yoe := (doe - doe / 1460 + doe / 36524 - doe / 146096) / 365 in
  let doy := doe - (365 * yoe + yoe / 4 - yoe / 100) in
  let mp := (5 * doy + 2) / 153 in
  let m := if decide (mp < 10) then mp + 3 else mp - 9 in
  (yoe + era * 400 + (if decide (m ≤ 2) then 1 else 0), m, doy - (153 * mp + 2) / 5 + 1).

Fixpoint zeros (n : nat) : string := match n with O => "" | S n' => String "0" (zeros n') end.

(** Decimal, at least [n] digits. *)
Definition padded (n : nat) (z : Z) : string := let s := fmt_d z in zeros (n - String.length s) +:+ s.

Fixpoint trim_zeros (l : list ascii) : list ascii :=
  match l with
  | [] => []
  | c :: l' => match trim_zeros l' with [] => if (code c =? 48)%N then [] else [c] | t => c :: t end
  end.

(** The fraction of a second, without trailing zeros. *)
Definition fraction (ns : Z) : string := if decide (ns = 0) then "" else "." +:+ str (trim_zeros (bytes (padded 9 ns))).

(** [MarshalJSON] of a time in UTC, as the string it writes. *)
Definition time_MarshalJSON (t : Z) : result string :=
  let sec := t / 1000000000 in
  let '(y, m, d) := civil (sec / 86400) in
  let s := sec mod 86400 in
  if decide (0 ≤ y ≤ 9999) then
    Ok (padded 4 y +:+ "-" +:+ padded 2 m +:+ "-" +:+ padded 2 d +:+ "T" +:+ padded 2 (s / 3600) +:+ ":" +:+
        padded 2 (s / 60 mod 60) +:+ ":" +:+ padded 2 (s mod 60) +:+ fraction (t mod 1000000000) +:+ "Z")
  else Err "Time.MarshalJSON: year outside of range [0,9999]".

Example time_1 : time_MarshalJSON 1709210096000000000 = Ok "2024-02-29T12:34:56Z".
Proof. vm_compute. reflexivity. Qed.

Example time_2 : time_MarshalJSON (-1000000) = Ok "1969-12-31T23:59:59.999Z".
Proof. vm_compute. reflexivity. Qed.

Lemma padded_ascii n z : Forall (λ c, code c < 128)%N (bytes (padded n z)).
Proof.
  unfold padded. rewrite bytes_app. apply Forall_app. split.
  - generalize (n - String.length (fmt_d z))%nat. intros k. induction k as [|k IH]; constructor; [done|exact IH].
  - eapply Forall_impl; [apply number_bytes, fmt_d_number|]. simpl. lia.
Qed.

Lemma ascii_valid l : Forall (λ c, code c < 128)%N l → valid_utf8 l.
Proof. induction 1; [constructor|by apply valid_one]. Qed.

Lemma trim_zeros_Forall (P : ascii → Prop) l : Forall P l → Forall P (trim_zeros l).
Proof.
  induction 1 as [|c l Hc _ IH]; [done|]. cbn [trim_zeros]. destruct (trim_zeros l); [case_match; [done|by apply Forall_singleton]|by constructor].
Qed.

(** The text is ASCII. *)
Lemma time_valid t s : time_MarshalJSON t = Ok s → valid_string s.
Proof.
  assert (Hp : ∀ n z, valid_string (padded n z)) by (intros; apply ascii_valid, padded_ascii).
  assert (Hf : valid_string (fraction (t mod 1000000000))).
  { unfold fraction. case_decide; [constructor|]. apply valid_string_app; [by apply valid_ascii|].
    unfold valid_string. rewrite bytes_str. apply ascii_valid, trim_zeros_Forall, padded_ascii. }
  unfold time_MarshalJSON. destruct (civil _) as [[y m] d]. case_decide; [|done]. intros [= <-].
  repeat (apply valid_string_app; [first [apply Hp | exact Hf | by apply valid_ascii]|]). by apply valid_ascii.
Qed.
