(* ===== verification/RestGateway.v ===== *)
(** * The REST gateway ([api/rest_gateway.go])

    The handlers for health checks and for the cluster, and the layers of
    multiplexers and CORS wrappers that [main] builds from them.  The reverse
    proxy that is generated from the protocol definition is the parameter
    [gateway]; so is the answer to a path that is not clean.  A request is
    carried out alone: the registry holds its lock in every method. *)
From stdpp Require Import options.
Set Default Proof Using "Type*".
From S2P Require Import Prelude GoStd Types Effects Cluster Json Marshal JsonText Numbers JsonStruct JsonPrint PyText JsonTyped Http.
Open Scope string_scope.
Open Scope list_scope.
Open Scope Z_scope.

(** ** The cluster's messages *)

Definition role_of (s : string) : NodeRole :=
  if decide (s = "leader") then NodeRoleLeader else if decide (s = "worker") then NodeRoleWorker else NodeRoleOther s.

Definition NodeRole_string (r : NodeRole) : string :=
  match r with NodeRoleLeader => "leader" | NodeRoleWorker => "worker" | NodeRoleOther s => s end.

Definition NodeStatus_string (s : NodeStatus) : string :=
  match s with
  | NodeStatusHealthy => "healthy"
  | NodeStatusDegraded => "degraded"
  | NodeStatusOffline => "offline"
  | NodeStatusUnset => ""
  end.

Definition dec_NodeRole : decoder NodeRole := λ p v old,
  match v with
  | JStr s => Ok (role_of s)
  | JNull => Ok old
  | _ => type_error (json_kind v) "cluster.NodeRole" p
  end.

Definition hb_to (s : HeartbeatRequest) :=
  (hb_NodeID s, (hb_Hostname s, (hb_GRPCAddr s, (hb_Role s, (hb_TotalCPUs s, (hb_TotalMemMB s, (hb_UsedCPUs s, (hb_UsedMemMB s,
  (hb_Version s, tt))))))))).
Definition hb_from '(a, (b, (c, (d, (e, (f, (g, (h, (i, tt))))))))) : HeartbeatRequest := mkHeartbeatRequest a b c d e f g h i.
Definition hb_fields : list (field HeartbeatRequest) := via hb_to hb_from (
  "node_id" ↦ dec_string;; "hostname" ↦ dec_string;; "grpc_addr" ↦ dec_string;; "role" ↦ dec_NodeRole;;
  "total_cpus" ↦ dec_int;; "total_mem_mb" ↦ dec_int;; "used_cpus" ↦ dec_int;; "used_mem_mb" ↦ dec_int;;
  "version" ↦ dec_string;; fend)%fields.
Definition dec_HeartbeatRequest : decoder HeartbeatRequest :=
  dec_struct "HeartbeatRequest" "cluster.HeartbeatRequest" hb_fields.

Definition hb_zero : HeartbeatRequest := mkHeartbeatRequest "" "" "" (NodeRoleOther "") 0 0 0 0 "".

(** A node as [json.Marshal] writes it. *)
Definition node_json (n : Node) : result json :=
  let! seen := time_MarshalJSON (nd_LastSeen n) in
  Ok (JObj ([("id", JStr (nd_ID n)); ("hostname", JStr (nd_Hostname n)); ("grpc_addr", JStr (nd_GRPCAddr n));
       ("role", JStr (NodeRole_string (nd_Role n))); ("total_cpus", JNum (fmt_d (nd_TotalCPUs n)));
       ("total_mem_mb", JNum (fmt_d (nd_TotalMemMB n))); ("used_cpus", JNum (fmt_d (nd_UsedCPUs n)));
       ("used_mem_mb", JNum (fmt_d (nd_UsedMemMB n))); ("last_seen", JStr seen); ("status", JStr (NodeStatus_string (nd_Status n)))] ++
      (if decide (nd_Version n = "") then [] else [("version", JStr (nd_Version n))]))).

Fixpoint nodes_json (l : list Node) : result (list json) :=
  match l with
  | [] => Ok []
  | n :: l' => let! v := node_json n in let! vs := nodes_json l' in Ok (v :: vs)
  end.

(** ** Handlers *)

(** The world of the handlers: the registry, and what is below. *)
Record rest_world (W : Type) : Type := mkRest { rs_registry : NodeRegistry; rs_in : W }.
Arguments mkRest {W}.
Arguments rs_registry {W}.
Arguments rs_in {W}.

Definition inside {W A : Type} (c : M W A) : M (rest_world W) A := λ w,
  match c (rs_in w) with
  | Done (a, x) => Done (a, mkRest (rs_registry w) x)
  | Panics why => Panics why
  end.

Definition change_registry {W : Type} (f : NodeRegistry → NodeRegistry) : M (rest_world W) unit := λ w,
  Done (tt, mkRest (f (rs_registry w)) (rs_in w)).

Definition withCORS {W : Type} (handler : Handler W) : Handler W := λ r w,
  let w := Header_Set "Access-Control-Allow-Headers" "Content-Type, Authorization, X-Request-ID, traceparent"
    (Header_Set "Access-Control-Allow-Methods" "GET, POST, PUT, DELETE, OPTIONS"
      (Header_Set "Access-Control-Allow-Origin" "*" w)) in
  if decide (rq_Method r = "OPTIONS") then mret (WriteHeader 204 w) else handler r w.

Definition answer_json (code : Z) (body : string) (w : response_writer) : response_writer :=
  Write body (WriteHeader code (Header_Set "Content-Type" "application/json" w)).

Definition status_ok : string := "{" +:+ quoted "status" +:+ ":" +:+ quoted "ok" +:+ "}".

Record check : Type := mkCheck { ck_Name : string; ck_OK : bool; ck_Err : string }.

Definition check_json (c : check) : json :=
  JObj ([("name", JStr (ck_Name c)); ("ok", JBool (ck_OK c))] ++ (if decide (ck_Err c = "") then [] else [("error", JStr (ck_Err c))])).

(** The context of a request. *)
Definition request_ctx : ctx := mkCtx RootRPC None.

Section gateway.
Context {W : Type} `{!Runtime W}.
Context (RedirectHandler : string → Handler (rest_world W)).

Definition healthz : Handler (rest_world W) := λ _ w, mret (answer_json 200 status_ok w).

(** The variables [checks] and [allOK] of the handler, and what a backend that
    is asked does to them. *)
Definition ping_check (name : string) (Ping : ctx → M W (result unit)) (c : ctx) (acc : list check * bool) :
    M (rest_world W) (list check * bool) :=
  let '(checks, allOK) := acc in
  r ← inside (Ping c);
  mret (match r with
        | Err e => (checks ++ [mkCheck name false e], false)
        | Ok _ => (checks ++ [mkCheck name true ""], allOK)
        end).

Fixpoint ping_all (extras : list (ctx → M W (result unit))) (c : ctx) (acc : list check * bool) :
    M (rest_world W) (list check * bool) :=
  match extras with
  | [] => mret acc
  | p :: extras' =>
    acc' ← ping_check "extra" p c acc;
    ping_all extras' c acc'
  end.

Definition ready_body (checks : list check) (allOK : bool) : string :=
  print (JObj [("checks", JArr (check_json <$> checks));
               ("status", JStr (if allOK then "ok" else "degraded"))]).

Definition readyz (store : ctx → M W (result unit)) (extras : list (ctx → M W (result unit))) : Handler (rest_world W) := λ _ w,
  now ← inside rt_Now;
  let c := WithTimeout request_ctx now (seconds 3) in
  acc ← ping_check "store" store c ([], true);
  acc ← ping_all extras c acc;
  let '(checks, allOK) := acc in
  mret (answer_json (if (allOK : bool) then 200 else 503) (ready_body checks allOK) w).

(** [registry.Register(req)] *)
Definition registry_Register (req : HeartbeatRequest) : M (rest_world W) unit :=
  now ← inside rt_Now;
  change_registry (Register now req).

Definition cluster_heartbeat : Handler (rest_world W) := λ r w,
  if decide (rq_Method r ≠ "POST") then mret (http_Error "method not allowed" 405 w)
  else
    match Decode dec_HeartbeatRequest (rq_Body r) hb_zero with
    | Err e => mret (http_Error ("invalid JSON: " +:+ e) 400 w)
    | Ok req =>
      if decide (hb_NodeID req = "") then mret (http_Error "node_id is required" 400 w)
      else
        _ ← registry_Register req;
        mret (answer_json 200 status_ok w)
    end.

(** [visit] is the order in which [List] meets the nodes. *)
Definition nodes_body (l : list Node) : result string :=
  let! vs := nodes_json l in
  Ok (print (JObj [("count", JNum (fmt_d (Z.of_nat (length l)))); ("nodes", JArr vs)])).

Definition cluster_nodes (visit : gmap string Node → list string) : Handler (rest_world W) := λ r w st,
  if decide (rq_Method r ≠ "GET") then Done (http_Error "method not allowed" 405 w, st)
  else
    let l := List_nodes (visit (nodes (rs_registry st))) (rs_registry st) in
    Done (match nodes_body l with
          | Err _ => http_Error "serialisation error" 500 w
          | Ok body => answer_json 200 body w
          end, st).

(** ** The gateway *)

Record RESTGateway : Type := mkGateway { rg_handler : Handler (rest_world W) }.

Definition NewRESTGateway (mux : Handler (rest_world W)) : RESTGateway := mkGateway (withCORS mux).

Definition RegisterHealthChecks (store : ctx → M W (result unit)) (extras : list (ctx → M W (result unit))) (g : RESTGateway) : RESTGateway :=
  mkGateway (withCORS (mux_handler RedirectHandler
    [("/healthz", healthz); ("/readyz", readyz store extras); ("/", rg_handler g)])).

Definition RegisterClusterRoutes (visit : gmap string Node → list string) (g : RESTGateway) : RESTGateway :=
  mkGateway (withCORS (mux_handler RedirectHandler
    [("/cluster/heartbeat", cluster_heartbeat); ("/cluster/nodes", cluster_nodes visit); ("/", rg_handler g)])).

Definition gateway_Handler (g : RESTGateway) : Handler (rest_world W) := rg_handler g.

End gateway.
Arguments RESTGateway W : clear implicits.

(** ** Dispatch *)

(** The header that every answer carries. *)
Definition cors (w : response_writer) : response_writer :=
  Header_Set "Access-Control-Allow-Headers" "Content-Type, Authorization, X-Request-ID, traceparent"
    (Header_Set "Access-Control-Allow-Methods" "GET, POST, PUT, DELETE, OPTIONS"
      (Header_Set "Access-Control-Allow-Origin" "*" w)).

Lemma cors_idem w : cors (cors w) = cors w.
Proof.
  unfold cors, Header_Set. simpl. f_equal. apply map_eq. intros k. rewrite !lookup_insert. by repeat case_decide.
Qed.

Lemma withCORS_other {W : Type} (h : Handler W) r w :
  rq_Method r ≠ "OPTIONS" → withCORS h r w = h r (cors w).
Proof. intros Hm. unfold withCORS. by rewrite decide_False. Qed.

Section dispatch.
Context {W : Type} `{!Runtime W}.
Context (RedirectHandler : string → Handler (rest_world W)) (visit : gmap string Node → list string).
Context (store : ctx → M W (result unit)) (extras : list (ctx → M W (result unit))) (gateway : Handler (rest_world W)).

(** The handler that [main] serves. *)
Definition rest_handler : Handler (rest_world W) :=
  gateway_Handler (RegisterClusterRoutes RedirectHandler visit (RegisterHealthChecks RedirectHandler store extras (NewRESTGateway gateway))).

(** The path that is looked up. *)
Definition lookup_path (r : request) : string := if decide (rq_Method r = "CONNECT") then rq_Path r else cleanPath (rq_Path r).

(** One flat table of routes. *)
Definition rest_route (path : string) : Handler (rest_world W) :=
  let s := segments path in
  if decide (s = ["cluster"; "heartbeat"]) then cluster_heartbeat
  else if decide (s = ["cluster"; "nodes"]) then cluster_nodes visit
  else if decide (s = ["healthz"]) then healthz
  else if decide (s = ["readyz"]) then readyz store extras
  else gateway.

(** A table of two exact routes and a default. *)
Lemma mux_two p1 h1 p2 h2 h r w :
  p1 ≠ "/" → p2 ≠ "/" →
  mux_handler RedirectHandler [(p1, h1); (p2, h2); ("/", h)] r w =
  if decide (lookup_path r ≠ rq_Path r) then RedirectHandler (lookup_path r) r w
  else if decide (lookup_path r = "") then NotFound r w
  else if decide (segments (lookup_path r) = segments p1) then h1 r w
  else if decide (segments (lookup_path r) = segments p2) then h2 r w
  else h r w.
Proof using.
  intros H1 H2. unfold mux_handler. fold (lookup_path r). cbv zeta. do 2 (case_decide; [done|]).
  cbn [list_find fst]. rewrite (decide_ext (p1 ≠ "/" ∧ segments p1 = segments (lookup_path r)) (segments (lookup_path r) = segments p1)) by naive_solver.
  case_decide; [done|]. rewrite (decide_ext (p2 ≠ "/" ∧ segments p2 = segments (lookup_path r)) (segments (lookup_path r) = segments p2)) by naive_solver.
  case_decide; [done|]. rewrite (decide_False (P := "/" ≠ "/" ∧ _)) by naive_solver. simpl.
  rewrite (decide_False (P := p1 = "/")), (decide_False (P := p2 = "/")) by done. done.
Qed.

(** C25: the nested multiplexers and CORS wrappers act as one table: every
    answer carries the CORS header, a preflight request reaches no handler, a
    path that is not clean is redirected, and the others go to the handler of
    their path, or to the generated gateway. *)
Theorem rest_dispatch r w st :
  rest_handler r w st =
  if decide (rq_Method r = "OPTIONS") then Done (WriteHeader 204 (cors w), st)
  else if decide (lookup_path r ≠ rq_Path r) then RedirectHandler (lookup_path r) r (cors w) st
  else if decide (lookup_path r = "") then Done (http_Error "404 page not found" 404 (cors w), st)
  else rest_route (lookup_path r) r (cors w) st.
Proof using.
  unfold rest_handler, gateway_Handler, RegisterClusterRoutes, RegisterHealthChecks, NewRESTGateway. cbn [rg_handler].
  destruct (decide (rq_Method r = "OPTIONS")) as [Em|Em]; [unfold withCORS; by rewrite decide_True|].
  rewrite (withCORS_other _ _ _ Em), mux_two by done. case_decide as E1; [done|]. case_decide as E2; [done|].
  unfold rest_route. cbv zeta. change (segments "/cluster/heartbeat") with ["cluster"; "heartbeat"].
  change (segments "/cluster/nodes") with ["cluster"; "nodes"]. do 2 (case_decide; [done|]).
  rewrite (withCORS_other _ _ _ Em), mux_two by done. rewrite (decide_False (P := lookup_path r ≠ _)), (decide_False (P := lookup_path r = "")) by naive_solver.
  change (segments "/healthz") with ["healthz"]. change (segments "/readyz") with ["readyz"].
  do 2 (case_decide; [by rewrite cors_idem|]). by rewrite (withCORS_other _ _ _ Em), !cors_idem.
Qed.

End dispatch.

(** ** What handlers send *)

(** A writer that has sent nothing. *)
Definition unsent (w : response_writer) : Prop := hw_sent w = None ∧ hw_body w = "".

Lemma unsent_cors w : unsent w → unsent (cors w).
Proof. done. Qed.

Lemma answer_json_sent code body w :
  unsent w → status (answer_json code body w) = Some code ∧ hw_body (answer_json code body w) = body ∧
    sent_header "Content-Type" (answer_json code body w) = Some "application/json".
Proof.
  intros [Hs Hb]. unfold answer_json, Write, WriteHeader, Header_Set, status, sent_header. cbn [hw_sent hw_header hw_body]. rewrite Hs.
  cbn [hw_sent hw_header hw_body]. rewrite Hb. simpl. by rewrite lookup_insert_eq.
Qed.

Lemma http_Error_sent msg code w : unsent w → status (http_Error msg code w) = Some code.
Proof.
  intros [Hs _]. unfold http_Error, Write, WriteHeader, Header_Set, Header_Del, status. cbn [hw_sent hw_header]. by rewrite Hs.
Qed.

(** ** Readiness *)

Section readiness.
Context {W : Type} `{!Runtime W}.

(** The answers of backends that are asked one after the other. *)
Inductive pings (c : ctx) : list (ctx → M W (result unit)) → W → list (result unit) → W → Prop :=
| pings_nil w : pings c [] w [] w
| pings_cons p l w r w1 rs w2 : p c w = Done (r, w1) → pings c l w1 rs w2 → pings c (p :: l) w (r :: rs) w2.

Definition check_of (name : string) (r : result unit) : check :=
  match r with Err e => mkCheck name false e | Ok _ => mkCheck name true "" end.

(** The store's check comes first. *)
Definition checks_of (rs : list (result unit)) : list check :=
  match rs with [] => [] | r :: rs' => check_of "store" r :: (check_of "extra" <$> rs') end.

Lemma inside_done {A : Type} (c : M W A) st a x : c (rs_in st) = Done (a, x) → inside c st = Done (a, mkRest (rs_registry st) x).
Proof using. intros E. unfold inside. by rewrite E. Qed.

Lemma ping_check_done name (p : ctx → M W (result unit)) c (st : rest_world W) checks ok r x :
  p c (rs_in st) = Done (r, x) →
  ping_check name p c (checks, ok) st = Done ((checks ++ [check_of name r], ok && is_ok r), mkRest (rs_registry st) x).
Proof using.
  intros E. unfold ping_check. rewrite (M_bind_done _ _ _ _ _ (inside_done _ _ _ _ E)).
  destruct r; simpl; by rewrite ?andb_true_r, ?andb_false_r.
Qed.

Lemma ping_all_done extras c (st : rest_world W) checks ok :
  Forall (λ p : ctx → M W (result unit), ∀ c, Total (p c)) extras →
  ∃ rs x, pings c extras (rs_in st) rs x ∧
    ping_all extras c (checks, ok) st = Done ((checks ++ (check_of "extra" <$> rs), ok && forallb is_ok rs), mkRest (rs_registry st) x).
Proof using.
  intros Hp. revert st checks ok. induction Hp as [|p extras Hp _ IH]; intros st checks ok; cbn [ping_all].
  - exists [], (rs_in st). split; [constructor|]. rewrite andb_true_r, app_nil_r. by destruct st.
  - destruct (Hp c (rs_in st)) as (r & x & E).
    rewrite (M_bind_done _ _ _ _ _ (ping_check_done "extra" p c st checks ok r x E)).
    destruct (IH (mkRest (rs_registry st) x) (checks ++ [check_of "extra" r]) (ok && is_ok r)) as (rs & x' & Hps & E').
    exists (r :: rs), x'. split; [by econstructor|]. rewrite E'. simpl. by rewrite <- app_assoc, andb_assoc.
Qed.

Lemma check_printable name r : valid_string name → (∀ e, r = Err e → valid_string e) → printable 1 (check_json (check_of name r)).
Proof using.
  intros Hn He. unfold check_json. destruct r as [u|e]; simpl; [|specialize (He e eq_refl); case_decide; simpl];
    repeat (constructor; [split; first [done | by apply valid_ascii]|]); constructor.
Qed.

(** What [/readyz] answers, in all cases. *)
Lemma readyz_answers store extras r w (st : rest_world W) :
  Total (W:=W) rt_Now → Forall (λ p : ctx → M W (result unit), ∀ c, Total (p c)) (store :: extras) → unsent w →
  ∃ now w0 rs w1 w', rt_Now (rs_in st) = Done (now, w0) ∧
    pings (WithTimeout request_ctx now (seconds 3)) (store :: extras) w0 rs w1 ∧
    readyz store extras r w st = Done (w', mkRest (rs_registry st) w1) ∧
    status w' = Some (if forallb is_ok rs then 200 else 503) ∧
    (Forall (λ r, ∀ e, r = Err e → valid_string e) rs →
     parse (hw_body w') = Ok (JObj [("checks", JArr (check_json <$> checks_of rs));
                                    ("status", JStr (if forallb is_ok rs then "ok" else "degraded"))])).
Proof.
  intros Hnow [Hstore Hextras]%Forall_cons Hw. destruct (Hnow (rs_in st)) as (now & w0 & E0).
  set (c := WithTimeout request_ctx now (seconds 3)). destruct (Hstore c w0) as (r0 & x & E1).
  destruct (ping_all_done extras c (mkRest (rs_registry st) x) [check_of "store" r0] (is_ok r0) Hextras) as (rs & w1 & Hps & E2).
  exists now, w0, (r0 :: rs), w1,
    (answer_json (if forallb is_ok (r0 :: rs) then 200 else 503) (ready_body (checks_of (r0 :: rs)) (forallb is_ok (r0 :: rs))) w).
  split_and!; [done|by econstructor| |by apply answer_json_sent|].
  - unfold readyz. rewrite (M_bind_done _ _ _ _ _ (inside_done _ _ _ _ E0)). cbv zeta. fold c.
    rewrite (M_bind_done _ _ _ _ _ (ping_check_done "store" store c (mkRest (rs_registry st) w0) [] true r0 x E1)).
    by rewrite (M_bind_done _ _ _ _ _ E2).
  - intros Hv. rewrite (proj1 (proj2 (answer_json_sent _ _ _ Hw))). unfold ready_body. apply (parse_print 3); [|lia].
    repeat (constructor; [split; [by apply valid_ascii|]|]); [| |constructor].
    + apply Forall_cons in Hv as [H0 Hrs]. apply Forall_cons_2; [apply check_printable; [by apply valid_ascii|done]|].
      apply Forall_fmap, Forall_fmap. eapply Forall_impl; [exact Hrs|]. intros r' Hr'. simpl.
      apply check_printable; [by apply valid_ascii|done].
    + by case_match; apply valid_ascii.
Qed.

(** C26: [/readyz] answers: it asks the store and then every further backend,
    with three seconds for all; the answer is 200 when all of them are
    reachable and 503 when the store is not; the body is JSON that lists the
    answer of each, the store's first, if the texts of the errors are UTF-8.
    The registry is not touched.  None of the backends panics. *)
Theorem readiness store extras r w (st : rest_world W) :
  Total (W:=W) rt_Now → Forall (λ p : ctx → M W (result unit), ∀ c, Total (p c)) (store :: extras) → unsent w →
  ∃ now w0 rs w1 w' code, rt_Now (rs_in st) = Done (now, w0) ∧
    pings (WithTimeout request_ctx now (seconds 3)) (store :: extras) w0 rs w1 ∧
    readyz store extras r w st = Done (w', mkRest (rs_registry st) w1) ∧ status w' = Some code ∧
    (Forall (λ r, is_ok r = true) rs → code = 200) ∧
    ((∃ e rest, rs = Err e :: rest) → code = 503) ∧
    (Forall (λ r, ∀ e, r = Err e → valid_string e) rs → ∃ text,
     parse (hw_body w') = Ok (JObj [("checks", JArr (check_json <$> checks_of rs)); ("status", JStr text)]) ∧
     text = if decide (code = 200) then "ok" else "degraded").
Proof.
  intros Hnow Hall Hw. destruct (readyz_answers store extras r w st Hnow Hall Hw) as (now & w0 & rs & w1 & w' & En & Hp & E & Hs & Hb).
  exists now, w0, rs, w1, w', (if forallb is_ok rs then 200 else 503). split_and!; try done.
  - intros Hf. assert (forallb is_ok rs = true) as ->; [|done]. clear - Hf. induction Hf as [|x rs Hx _ IH]; simpl; by rewrite ?Hx, ?IH.
  - by intros (e & rest & ->).
  - intros Hv. eexists. split; [by apply Hb|]. by destruct (forallb is_ok rs).
Qed.

(** A backend other than the store makes the program not ready, too. *)
Theorem extra_makes_unready store extras r w (st : rest_world W) :
  Total (W:=W) rt_Now → Forall (λ p : ctx → M W (result unit), ∀ c, Total (p c)) (store :: extras) → unsent w →
  ∃ now w0 rs w1 w' st', rt_Now (rs_in st) = Done (now, w0) ∧
    pings (WithTimeout request_ctx now (seconds 3)) (store :: extras) w0 rs w1 ∧
    readyz store extras r w st = Done (w', st') ∧ (∀ e, Err e ∈ rs → status w' = Some 503).
Proof.
  intros Hnow Hall Hw. destruct (readyz_answers store extras r w st Hnow Hall Hw) as (now & w0 & rs & w1 & w' & En & Hp & E & Hs & _).
  exists now, w0, rs, w1, w', (mkRest (rs_registry st) w1). split_and!; try done. intros e He. rewrite Hs.
  assert (forallb is_ok rs = false) as ->; [|done]. apply list_elem_of_split in He as (l1 & l2 & ->).
  rewrite forallb_app. simpl. by rewrite andb_false_r.
Qed.

End readiness.

(** ** Texts in the registry *)

Definition valid_req (r : HeartbeatRequest) : Prop :=
  valid_string (hb_NodeID r) ∧ valid_string (hb_Hostname r) ∧ valid_string (hb_GRPCAddr r) ∧
  valid_string (NodeRole_string (hb_Role r)) ∧ valid_string (hb_Version r).

Definition valid_node (n : Node) : Prop :=
  valid_string (nd_ID n) ∧ valid_string (nd_Hostname n) ∧ valid_string (nd_GRPCAddr n) ∧
  valid_string (NodeRole_string (nd_Role n)) ∧ valid_string (nd_Version n).

(** Nodes stand under their identifiers, their texts are UTF-8, and the time
    they were last seen can be written. *)
Definition registry_ok (r : NodeRegistry) : Prop :=
  map_Forall (λ k n, nd_ID n = k ∧ valid_node n ∧ is_ok (time_MarshalJSON (nd_LastSeen n)) = true) (nodes r).

Lemma dec_fields_inv {A : Type} (P : A → Prop) (good : json → Prop) name (fs : list (field A)) p l s t :
  Forall (λ f : field A, ∀ p v s t, good v → P s → f.2 p v s = Ok t → P t) fs → Forall (λ kv, good kv.2) l →
  P s → dec_fields name fs p l s = Ok t → P t.
Proof.
  intros Hfs Hl. revert s. induction Hl as [|[k v] l Hv _ IH]; intros s Hs E; cbn [dec_fields] in E; [by injection E as <-|].
  destruct (find_field fs k) as [[n d]|] eqn:Ef; [|by apply (IH s)].
  destruct (d _ v s) as [s'|] eqn:Ed; [|done]. cbn [result_bind] in E. apply (IH s'); [|done].
  assert ((n, d) ∈ fs) as Hin.
  { unfold find_field in Ef. destruct (list_find (λ f, f.1 = k) fs) as [[i f]|] eqn:E1.
    - apply list_find_Some in E1 as (Hi & _). injection Ef as ->. by eapply list_elem_of_lookup_2.
    - apply fmap_Some in Ef as ([i f] & (Hi & _)%list_find_Some & ->). by eapply list_elem_of_lookup_2. }
  rewrite Forall_forall in Hfs. by eapply (Hfs _ Hin).
Qed.

Lemma role_string s : NodeRole_string (role_of s) = s.
Proof. unfold role_of. by repeat case_decide. Qed.

(** A value whose strings can be stored. *)
Definition good_value (v : json) : Prop := ∀ s, v = JStr s → valid_string s.

(** A field of a request changes one text or none. *)
Lemma hb_fields_valid :
  Forall (λ f : field HeartbeatRequest, ∀ p v s t, good_value v → valid_req s → f.2 p v s = Ok t → valid_req t) hb_fields.
Proof.
  unfold hb_fields, via, fcons, fend. cbn [fmap list_fmap].
  repeat (apply Forall_cons_2; [|]); [..|by apply Forall_nil_2]; intros p v s t Hv (H1 & H2 & H3 & H4 & H5);
    cbn [field_map fst snd hb_to]; destruct v as [|b|lit|x|l|l]; cbn; try done; try (destruct (ParseInt lit)); cbn; intros E; simplify_eq;
    unfold valid_req; cbn; rewrite ?role_string; split_and!; try done; by apply Hv.
Qed.

Local Opaque depth_limit.

Lemma Decode_valid text req : Decode dec_HeartbeatRequest text hb_zero = Ok req → valid_req req.
Proof.
  assert (Hz : valid_req hb_zero) by (split_and!; by apply valid_ascii).
  assert (Hn : ∀ lit, number_literal lit = true → any_number lit) by done.
  unfold Decode. destruct (read_value _ _ _) as [v|] eqn:Er; [|done]. cbn [result_bind].
  apply read_value_ok in Er; [|by apply start_ok]. unfold dec_HeartbeatRequest, dec_struct. destruct v as [|b|lit|s|l|l]; try done; [by intros [= <-]|].
  intros E. eapply (dec_fields_inv valid_req good_value); [apply hb_fields_valid| |exact Hz|exact E].
  destruct depth_limit as [|d] eqn:Ed; [done|]. cbn [dumpable] in Er. eapply Forall_impl; [exact Er|].
  intros [k v] [_ Hv] s Es. cbn [snd] in *. subst v. by destruct d.
Qed.

(** What a heartbeat makes of the registry. *)
Lemma Register_ok now req r :
  valid_req req → is_ok (time_MarshalJSON now) = true → registry_ok r → registry_ok (Register now req r).
Proof.
  intros (H1 & H2 & H3 & H4 & H5) Ht Hr. unfold Register. apply map_Forall_insert_2; [|done].
  assert (match nodes r !! hb_NodeID req with Some n => nd_ID n | None => hb_NodeID req end = hb_NodeID req) as ->.
  { destruct (nodes r !! hb_NodeID req) as [n|] eqn:E; [|done]. by destruct (Hr _ _ E). }
  by split_and!.
Qed.

(** The request as a JSON object. *)
Definition hb_json (r : HeartbeatRequest) : json :=
  JObj [("node_id", JStr (hb_NodeID r)); ("hostname", JStr (hb_Hostname r)); ("grpc_addr", JStr (hb_GRPCAddr r));
        ("role", JStr (NodeRole_string (hb_Role r))); ("total_cpus", JNum (fmt_d (hb_TotalCPUs r)));
        ("total_mem_mb", JNum (fmt_d (hb_TotalMemMB r))); ("used_cpus", JNum (fmt_d (hb_UsedCPUs r)));
        ("used_mem_mb", JNum (fmt_d (hb_UsedMemMB r))); ("version", JStr (hb_Version r))].




Lemma node_json_ok n :
  valid_node n → is_ok (time_MarshalJSON (nd_LastSeen n)) = true → ∃ v, node_json n = Ok v ∧ printable 1 v.
Proof.
  intros (H1 & H2 & H3 & H4 & H5) Ht. unfold node_json. destruct (time_MarshalJSON _) as [t|] eqn:E; [|done].
  pose proof (time_valid _ _ E). cbn [result_bind]. eexists. split; [done|]. cbn [printable].
  assert (valid_string (NodeStatus_string (nd_Status n))) by (destruct (nd_Status n); by apply valid_ascii).
  apply Forall_app. split; [|case_decide; [by apply Forall_nil_2|apply Forall_singleton; split; [by apply valid_ascii|done]]].
  repeat (apply Forall_cons_2; [split; [by apply valid_ascii|cbn [snd printable]; first [done | apply fmt_d_number]]|]). by apply Forall_nil_2.
Qed.

Lemma nodes_json_ok l :
  Forall (λ n, valid_node n ∧ is_ok (time_MarshalJSON (nd_LastSeen n)) = true) l →
  ∃ vs, nodes_json l = Ok vs ∧ Forall (printable 1) vs ∧ Forall2 (λ n v, node_json n = Ok v) l vs.
Proof.
  induction 1 as [|n l [Hn Ht] _ (vs & E & Hp & H2)]; [by exists []|]. destruct (node_json_ok n Hn Ht) as (v & Ev & Hv).
  exists (v :: vs). cbn [nodes_json]. rewrite Ev, E. split_and!; [done|by constructor|by constructor].
Qed.

Lemma registry_nodes_ok ord r :
  registry_ok r → iteration_of (nodes r) ord →
  Forall (λ n, valid_node n ∧ is_ok (time_MarshalJSON (nd_LastSeen n)) = true) (List_nodes ord r).
Proof.
  intros Hr Hit. apply Forall_forall. intros n Hn. unfold List_nodes in Hn. apply list_elem_of_fmap in Hn as ([k n'] & -> & Hk).
  apply elem_of_map_range in Hk; [|done]. by destruct (Hr _ _ Hk) as (_ & ? & ?).
Qed.

Section cluster.
Context {W : Type} `{!Runtime W}.
Context (RedirectHandler : string → Handler (rest_world W)) (visit : gmap string Node → list string).
Context (store : ctx → M W (result unit)) (extras : list (ctx → M W (result unit))) (gateway : Handler (rest_world W)).

Abbreviation handle := (rest_handler RedirectHandler visit store extras gateway).

Lemma handle_heartbeat meth body w st :
  meth ≠ "OPTIONS" →
  handle (mkRequest meth "/cluster/heartbeat" body) w st = cluster_heartbeat (mkRequest meth "/cluster/heartbeat" body) (cors w) st.
Proof using.
  intros Hm. rewrite rest_dispatch. cbn [rq_Method]. rewrite decide_False by done.
  assert (Hp : lookup_path (mkRequest meth "/cluster/heartbeat" body) = "/cluster/heartbeat") by (unfold lookup_path; by case_decide).
  rewrite Hp. cbn [rq_Path]. rewrite decide_False by naive_solver. by rewrite decide_False.
Qed.

Lemma handle_nodes w st :
  handle (mkRequest "GET" "/cluster/nodes" "") w st = cluster_nodes visit (mkRequest "GET" "/cluster/nodes" "") (cors w) st.
Proof using. by rewrite rest_dispatch. Qed.

Lemma Register_done req (st : rest_world W) now x :
  rt_Now (rs_in st) = Done (now, x) → registry_Register req st = Done (tt, mkRest (Register now req (rs_registry st)) x).
Proof using. intros E. unfold registry_Register. by rewrite (M_bind_done _ _ _ _ _ (inside_done _ _ _ _ E)). Qed.

(** The nodes of a sound registry are listed, as JSON. *)
Lemma nodes_listed w (st : rest_world W) :
  registry_ok (rs_registry st) → iteration_of (nodes (rs_registry st)) (visit (nodes (rs_registry st))) → unsent w →
  ∃ w' vs, cluster_nodes visit (mkRequest "GET" "/cluster/nodes" "") w st = Done (w', st) ∧ status w' = Some 200 ∧
    parse (hw_body w') = Ok (JObj [("count", JNum (fmt_d (Z.of_nat (size (nodes (rs_registry st)))))); ("nodes", JArr vs)]) ∧
    (∀ k n, nodes (rs_registry st) !! k = Some n → ∃ v, node_json n = Ok v ∧ v ∈ vs).
Proof using.
  intros Hr Hit Hw. unfold cluster_nodes. rewrite decide_False by naive_solver. set (l := List_nodes _ _).
  destruct (nodes_json_ok l (registry_nodes_ok _ _ Hr Hit)) as (vs & E & Hp & H2). cbv zeta. unfold nodes_body. rewrite E. cbn [result_bind].
  assert (Hlen : length l = size (nodes (rs_registry st))).
  { unfold l, List_nodes. rewrite length_fmap, (map_range_permutation _ _ Hit). symmetry. apply map_size_length_to_list || (by rewrite length_map_to_list). }
  eexists _, vs. split; [done|]. destruct (answer_json_sent 200 (print (JObj [("count", JNum (fmt_d (Z.of_nat (length l)))); ("nodes", JArr vs)])) w Hw)
    as (-> & -> & _). split_and!; [done| |].
  - rewrite (parse_print 3), Hlen; [done| |lia]. cbn [printable]. repeat (apply Forall_cons_2; [split; [by apply valid_ascii|]|]); [| |by apply Forall_nil_2].
    + apply fmt_d_number.
    + cbn [snd printable]. done.
  - intros k n Hk. assert (n ∈ l) as Hn by (apply list_elem_of_fmap; exists (k, n); split; [done|by apply elem_of_map_range]).
    apply list_elem_of_lookup in Hn as [i Hi]. destruct (Forall2_lookup_l _ _ _ _ _ H2 Hi) as (v & Hv & En).
    exists v. split; [done|]. by eapply list_elem_of_lookup_2.
Qed.



(** A heartbeat that is refused changes nothing: a method other than [POST] is
    answered with 405, a body that does not start with a JSON object of the
    right types with 400, as is one without [node_id], and the registry keeps
    its nodes; no body makes the handler fail. *)
Lemma heartbeat_outcome meth body w (st : rest_world W) :
  Total (W:=W) rt_Now → unsent w →
  ∃ a st', cluster_heartbeat (mkRequest meth "/cluster/heartbeat" body) w st = Done (a, st') ∧
    ((status a = Some 405 ∧ meth ≠ "POST" ∧ st' = st) ∨
     (status a = Some 400 ∧ st' = st ∧
      (is_ok (Decode dec_HeartbeatRequest body hb_zero) = false ∨ ∃ req, Decode dec_HeartbeatRequest body hb_zero = Ok req ∧ hb_NodeID req = "")) ∨
     (status a = Some 200 ∧ ∃ req now, Decode dec_HeartbeatRequest body hb_zero = Ok req ∧ valid_req req ∧ hb_NodeID req ≠ "" ∧
      (∃ x, rt_Now (rs_in st) = Done (now, x)) ∧ rs_registry st' = Register now req (rs_registry st))).
Proof using.
  intros Hnow Hw. unfold cluster_heartbeat. cbn [rq_Method rq_Body]. destruct (decide (meth ≠ "POST")) as [Hm|Hm].
  { eexists _, st. split; [done|]. left. by split_and!; [apply http_Error_sent|..]. }
  destruct (Decode dec_HeartbeatRequest body hb_zero) as [req|e] eqn:Ed.
  2: { eexists _, st. split; [done|]. right; left. split_and!; [by apply http_Error_sent|done|by left]. }
  destruct (decide (hb_NodeID req = "")) as [Hid|Hid].
  { eexists _, st. split; [done|]. right; left. split_and!; [by apply http_Error_sent|done|right; eauto]. }
  destruct (Hnow (rs_in st)) as (now & x & En). rewrite (M_bind_done _ _ _ _ _ (Register_done req st now x En)).
  eexists _, _. split; [done|]. right; right. split; [by apply answer_json_sent|]. exists req, now.
  split_and!; [done|by eapply Decode_valid|done|by exists x|done].
Qed.

(** A request for a heartbeat, whatever its method and body are. *)
Lemma heartbeat_keeps meth body w (st : rest_world W) :
  Total (W:=W) rt_Now → (∀ x now x', rt_Now x = Done (now, x') → is_ok (time_MarshalJSON now) = true) → unsent w →
  registry_ok (rs_registry st) →
  ∃ a st', handle (mkRequest meth "/cluster/heartbeat" body) w st = Done (a, st') ∧ registry_ok (rs_registry st') ∧
    ∃ code, status a = Some code ∧ code ∈ [200; 204; 400; 405].
Proof using.
  intros Hnow Htime Hw Hr. destruct (decide (meth = "OPTIONS")) as [Em|Em].
  { rewrite rest_dispatch. cbn [rq_Method]. rewrite decide_True by done. eexists _, st. split_and!; [done..|]. exists 204. split; [|set_solver]. unfold WriteHeader, status. by rewrite (proj1 (unsent_cors _ Hw)). }
  rewrite handle_heartbeat by done. destruct (heartbeat_outcome meth body (cors w) st Hnow (unsent_cors _ Hw)) as (a & st' & E & Hc). exists a, st'. rewrite E. split; [done|].
  destruct Hc as [(Hs & _ & ->)|[(Hs & -> & _)|(Hs & req & now & _ & Hv & _ & (x & En) & ->)]]; (split; [|eexists; split; [exact Hs|set_solver]]); [done..|].
  apply Register_ok; [done|by eapply Htime|done].
Qed.

(** C35: the registry holds well-formed nodes whatever is posted: after any
    sequence of requests to the heartbeat endpoint, with any methods and
    bodies, each of which is answered, every node stands under its identifier
    and its texts are UTF-8, so that the list of nodes can still be written:
    it is answered with 200 and a body that is JSON and counts the nodes. *)
Theorem registry_well_formed reqs w (st : rest_world W) :
  Total (W:=W) rt_Now → (∀ x now x', rt_Now x = Done (now, x') → is_ok (time_MarshalJSON now) = true) →
  (∀ m : gmap string Node, iteration_of m (visit m)) → unsent w → registry_ok (rs_registry st) →
  ∃ st', for_each reqs (λ '(meth, body), _ ← handle (mkRequest meth "/cluster/heartbeat" body) w; mret tt) st = Done (tt, st') ∧
    registry_ok (rs_registry st') ∧
    ∃ b vs, handle (mkRequest "GET" "/cluster/nodes" "") w st' = Done (b, st') ∧ status b = Some 200 ∧
      parse (hw_body b) = Ok (JObj [("count", JNum (fmt_d (Z.of_nat (size (nodes (rs_registry st')))))); ("nodes", JArr vs)]).
Proof using.
  intros Hnow Htime Hvisit Hw. revert st. induction reqs as [|[meth body] reqs IH]; intros st Hr; cbn [for_each].
  - exists st. split_and!; [done..|]. rewrite handle_nodes.
    destruct (nodes_listed (cors w) st Hr (Hvisit _) (unsent_cors _ Hw)) as (b & vs & Eb & Hb & Hp & _). by exists b, vs.
  - destruct (heartbeat_keeps meth body w st Hnow Htime Hw Hr) as (a & st1 & E & Hr1 & _).
    destruct (IH st1 Hr1) as (st' & E' & H'). exists st'. split; [|done]. unfold mbind, M_bind in *. rewrite E. exact E'.
Qed.

End cluster.

(** ** Witnesses *)

(** A clock that stands still and counts how often it is read, and backends that answer. *)
Definition clock_world : Type := Z.

Global Instance clock_runtime : Runtime clock_world := {|
  rt_Now w := Done (1700000000000000000, w + 1);
  rt_cancelled _ _ := false;
  rt_clock _ := 1700000000000000000;
  rt_Sleep _ := mret tt;
  rt_ResubmitLater _ := mret tt;
|}.

Definition up : ctx → M clock_world (result unit) := λ _, mret (Ok tt).
Definition down : ctx → M clock_world (result unit) := λ _, mret (Err "event bus disabled").

Definition no_redirect : string → Handler (rest_world clock_world) := λ _ _ w, mret (WriteHeader 307 w).
Definition no_gateway : Handler (rest_world clock_world) := λ _ w, mret (http_Error "Not Found" 404 w).

Definition bench_rest : rest_world clock_world := mkRest (NewNodeRegistry 0) 0.

Definition bench_heartbeat : HeartbeatRequest := mkHeartbeatRequest "node-1" "host" "host:50051" NodeRoleWorker 8 16384 0 0 "".



Definition bench_posts : list (string * string) := [("GET", ""); ("POST", "[]"); ("POST", print (hb_json bench_heartbeat))].

Lemma registry_well_formed_witness :
  ∃ st', for_each bench_posts (λ '(meth, body),
      _ ← rest_handler no_redirect map_keys up [down] no_gateway (mkRequest meth "/cluster/heartbeat" body) new_writer; mret tt) bench_rest =
    Done (tt, st') ∧ registry_ok (rs_registry st').
Proof.
  destruct (registry_well_formed no_redirect map_keys up [down] no_gateway bench_posts new_writer bench_rest) as (st' & E & Hr & _).
  - intros w. by eexists _, _.
  - intros x now x' [= <- _]. vm_compute. reflexivity.
  - intros m. apply iteration_of_keys.
  - done.
  - by apply map_Forall_empty.
  - exists st'. split; [exact E|exact Hr].
Defined.

(** Backends that are all reachable. *)
Lemma readiness_witness :
  ∃ w' st', readyz up [up] (mkRequest "GET" "/readyz" "") new_writer bench_rest = Done (w', st') ∧ status w' = Some 200.
Proof.
  destruct (readiness up [up] (mkRequest "GET" "/readyz" "") new_writer bench_rest)
    as (now & w0 & rs & w1 & w' & code & En & Hp & E & Hs & Hok & _); [intros w; by eexists _, _|repeat constructor; intros c; apply _|done|].
  exists w', (mkRest (rs_registry bench_rest) w1). split; [exact E|]. rewrite Hs. f_equal. apply Hok.
  inversion Hp as [|? ? ? ? ? ? ? Ea Hp']; subst. inversion Hp' as [|? ? ? ? ? ? ? Eb Hp'']; subst. injection Ea as <- <-.
  injection Eb as <- <-. inversion Hp''. by repeat constructor.
Defined.
