(* ===== verification/Startup.v ===== *)
(** * The main program ([cmd/orchestrator/main.go])

    [main] up to the point where it waits for a signal: the configuration, the
    logger and the tracer ([observability/logger.go],
    [observability/tracer.go]), the event bus, the choice of the store with
    its fallback, recovery, the engine, the servers, the node's own
    registration.  The calls it defers are kept as data, in the order of the
    [defer] statements; at shutdown they run in the reverse order, and
    [os.Exit] and [logger.Fatal] run none of them.  What [engine.Stop] does
    among the goroutines is in [EngineLoop].

    What the operating system and the libraries answer is the argument [a].
    From the start of the engine on, the goroutines [main] has started run
    between its statements: what they do to the program is the argument
    [others].  Not modelled here: log lines, and a server goroutine that fails
    by itself, whose [logger.Fatal] can end the process at any later point. *)
From stdpp Require Import options.
Set Default Proof Using "Type*".
From S2P Require Import Prelude GoStd GoChan Types Scheduler Allocator Effects MemoryStore Recovery StoreContract Config Cluster Json JsonText Marshal JsonPrint.
From S2P Require Import StepExec ConfigLoad Sql Postgres PostgresSpec PostgresRecover PostgresBench EventBus RestGateway.
Open Scope string_scope.
Open Scope list_scope.
Open Scope Z_scope.

Inductive backend : Set :=
| InMemory
| InPostgres.

(** The [go] statements of [main], the engine's worker included. *)
Inductive goroutine : Set :=
| EngineWorker
| GrpcServe
| RunEviction
| RestServe.

(** ** The logger and the tracer *)

Inductive zap_base : Set := DevelopmentConfig | ProductionConfig.

(** The library's configuration the code starts from, and the fields it sets;
    [None] keeps the library's value. *)
Record zap_config : Type := mkZapConfig {
  zc_base : zap_base;
  zc_level : Z;
  zc_encode_level : option string;
  zc_encode_time : string;
  zc_encode_duration : string;
  zc_caller_key : option string;
  zc_time_key : option string;
}.

(** Answers of the libraries and of the host. *)
Record answers : Type := mkAnswers {
  an_level : string → result Z;              (* zapcore.Level.UnmarshalText *)
  an_build : zap_config → result unit;                    (* zap.Config.Build *)
  an_resource : result unit;                 (* resource.Merge *)
  an_exporter : ctx → string → result unit;  (* otlptracegrpc.New *)
  an_hostname : string;
  an_numCPU : Z;
  an_meminfo : option (list string);
  an_listen : string → result unit;
  an_register : string → result unit;        (* RegisterOrchestratorServiceHandlerFromEndpoint *)
}.

(** Options of [Build] that do not depend on the arguments, [AddCaller] and
    [AddStacktrace], are part of what [an_build] answers for. *)
Definition NewLogger (a : answers) (level format : string) : result zap_config :=
  let! l := within ("invalid log level " +:+ fmt_q level) (an_level a level) in
  let cfg := if decide (format = "console")
    then mkZapConfig DevelopmentConfig l (Some "CapitalColor") "15:04:05.000" "Millis" (Some "") None
    else mkZapConfig ProductionConfig l None "ISO8601" "Millis" None (Some "ts") in
  let! _ := within "building logger" (an_build a cfg) in
  Ok cfg.

(** The provider of spans: that of the process, or a new one that exports to
    an endpoint. *)
Inductive provider : Type :=
| GlobalProvider
| Exporting (endpoint : string).

Definition InitTracer (a : answers) (now : Z) (cfg : TelemetryConfig) : result provider :=
  let! _ := within "creating OTel resource" (an_resource a) in
  let endpoint := tel_TraceEndpoint cfg in
  if decide (endpoint = "" ∨ endpoint = "none") then Ok GlobalProvider
  else
    let! _ := within "creating OTLP exporter" (an_exporter a (WithTimeout Background now (seconds 10)) endpoint) in
    Ok (Exporting endpoint).

(** ** The program *)

(** The calls [main] defers. *)
Inductive deferred_call : Type :=
| LoggerSync
| TraceShutdown (p : provider)
| BusClose (bus : option EventBus.EventBus)
| StoreClose (b : backend)
| EngineStop
| CancelContext.

(** How the start ends: [os.Exit], or [main] waits for a signal with these
    calls deferred, in the order of the statements. *)
Inductive outcome : Type :=
| Exits (code : Z) (why : string)
| Ready (defers : list deferred_call).

(** What [main] calls after the signal: the two servers are stopped, then the
    deferred calls run. *)
Inductive shutdown_call : Type :=
| GracefulStop
| RestShutdown
| Deferred (d : deferred_call).

Definition shutdown (defers : list deferred_call) : list shutdown_call :=
  [GracefulStop; RestShutdown] ++ (Deferred <$> reverse defers).

(** [logger.Fatal] *)
Definition Fatal {W : Type} (why : string) : M W outcome := mret (Exits 1 why).

Section main.
Context {D R F : Type} `{!Database D, !Runtime D, !Pools D, !Recovery.Processes D} {FT : FloatText} {NS : NilSlices}.
Context `{!Redis R, !Runtime R, !FileSystem F, !Environ F}.

Record program : Type := mkProgram {
  pr_db : D;
  pr_redis : R;
  pr_files : F;
  pr_mem : mem_world;
  pr_sched : Scheduler;
  pr_nodes : NodeRegistry;
  pr_go : list goroutine;
}.

(** Calls on the parts of the world. *)
Definition on_db {A : Type} (c : M D A) : M program A := λ p,
  match c (pr_db p) with
  | Done (x, d) => Done (x, mkProgram d (pr_redis p) (pr_files p) (pr_mem p) (pr_sched p) (pr_nodes p) (pr_go p))
  | Panics why => Panics why
  end.

Definition on_redis {A : Type} (c : M R A) : M program A := λ p,
  match c (pr_redis p) with
  | Done (x, r) => Done (x, mkProgram (pr_db p) r (pr_files p) (pr_mem p) (pr_sched p) (pr_nodes p) (pr_go p))
  | Panics why => Panics why
  end.

Definition on_files {A : Type} (c : M F A) : M program A := λ p,
  match c (pr_files p) with
  | Done (x, f) => Done (x, mkProgram (pr_db p) (pr_redis p) f (pr_mem p) (pr_sched p) (pr_nodes p) (pr_go p))
  | Panics why => Panics why
  end.

Definition put_mem (m : mem_world) : M program unit := λ p,
  Done (tt, mkProgram (pr_db p) (pr_redis p) (pr_files p) m (pr_sched p) (pr_nodes p) (pr_go p)).

Definition put_sched (s : Scheduler) : M program unit := λ p,
  Done (tt, mkProgram (pr_db p) (pr_redis p) (pr_files p) (pr_mem p) s (pr_nodes p) (pr_go p)).

Definition change_nodes (f : NodeRegistry → NodeRegistry) : M program unit := λ p,
  Done (tt, mkProgram (pr_db p) (pr_redis p) (pr_files p) (pr_mem p) (pr_sched p) (f (pr_nodes p)) (pr_go p)).

Definition spawn (g : goroutine) : M program unit := λ p,
  Done (tt, mkProgram (pr_db p) (pr_redis p) (pr_files p) (pr_mem p) (pr_sched p) (pr_nodes p) (pr_go p ++ [g])).

(** *** The store *)

(** How the in-memory store visits its maps, and what a kill answers there. *)
Context (v : map_visits) (alive : Z → result unit).

Definition fresh_memory : M program backend :=
  now ← on_db rt_Now;
  _ ← put_mem (mkMemWorld NewMemoryStore now []);
  mret InMemory.

Definition open_store (storageMode : string) (cfg : GlobalConfig) : M program backend :=
  if decide (storageMode = "postgres") then
    now ← on_db rt_Now;
    let pg := st_Postgres (cfg_Storage cfg) in
    r ← on_db (PostgresStore.NewPostgresStore (WithTimeout Background now (seconds 15)) (DSN pg) (pg_MaxConnections pg));
    match r with
    | Err _ => fresh_memory
    | Ok _ => mret InPostgres
    end
  else fresh_memory.

(** [core.RecoverState] on the store that was chosen; [main] only logs its
    answer. *)
Definition recover (b : backend) (c : ctx) : M program (result (nat * nat * nat)) := λ p,
  match b with
  | InPostgres =>
    match @RecoverState D pg_recovery _ c (pr_db p, pr_sched p) with
    | Done (r, (d, s)) => Done (r, mkProgram d (pr_redis p) (pr_files p) (pr_mem p) s (pr_nodes p) (pr_go p))
    | Panics why => Panics why
    end
  | InMemory =>
    match @RecoverState mem_world (mem_recovery v) (mem_processes alive) c (pr_mem p, pr_sched p) with
    | Done (r, (m, s)) => Done (r, mkProgram (pr_db p) (pr_redis p) (pr_files p) m s (pr_nodes p) (pr_go p))
    | Panics why => Panics why
    end
  end.

(** From the scheduler to the end of recovery. *)
Definition recovery_stage (cfg : GlobalConfig) (b : backend) : M program (result (nat * nat * nat)) :=
  _ ← put_sched (NewScheduler (vmd_MaxConcurrentVMs (cfg_VMDefaults cfg)));
  now ← on_db rt_Now;
  recover b (WithTimeout Background now (seconds 30)).

(** *** The engine and the servers *)

Definition node_ttl (cfg : GlobalConfig) : Z :=
  let ttl := seconds (cl_NodeHeartbeatTTLSec (cfg_Cluster cfg)) in
  if decide (ttl ≤ 0) then seconds 30 else ttl.

Definition grpcAddr (cfg : GlobalConfig) : string :=
  srv_Host (cfg_Server cfg) +:+ ":" +:+ fmt_d (srv_GRPCPort (cfg_Server cfg)).

Definition self_request (a : answers) (cfg : GlobalConfig) (budget : ResourceBudget) : HeartbeatRequest :=
  let nodeID := if decide (cl_NodeID (cfg_Cluster cfg) = "") then an_hostname a else cl_NodeID (cfg_Cluster cfg) in
  let nodeRole := if decide (cl_NodeRole (cfg_Cluster cfg) = "") then NodeRoleLeader else role_of (cl_NodeRole (cfg_Cluster cfg)) in
  mkHeartbeatRequest nodeID nodeID (grpcAddr cfg) nodeRole (TotalCPUs (Available budget))
    (TotalMemMB (Available budget)) 0 0 "".

(** What [main] has in hand before it starts the engine: the configuration,
    the allocator's budget, the store, what recovery answered, and the calls
    deferred so far. *)
Record brought_up : Type := mkBroughtUp {
  bu_cfg : GlobalConfig;
  bu_budget : ResourceBudget;
  bu_store : backend;
  bu_recovery : result (nat * nat * nat);
  bu_defers : list deferred_call;
}.

(** What the goroutines do between two statements of [main], given those that
    it has started. *)
Context (others : list goroutine → M program unit).

Definition meanwhile : M program unit := λ p, others (pr_go p) p.

(** From the registry of nodes to the wait for a signal.  The constructors of
    the engine and of the servers and the registration of services only pass
    the components on, and have no effect here. *)
Definition serve_stage (a : answers) (up : brought_up) : M program outcome :=
  let cfg := bu_cfg up in
  _ ← change_nodes (λ _, NewNodeRegistry (node_ttl cfg));
  _ ← spawn EngineWorker;
  _ ← meanwhile;
  match an_listen a (grpcAddr cfg) with
  | Err _ => Fatal "failed to listen for gRPC"
  | Ok _ =>
    _ ← spawn GrpcServe;
    _ ← meanwhile;
    match an_register a (grpcAddr cfg) with
    | Err _ => Fatal "failed to register REST gateway"
    | Ok _ =>
      now ← on_db rt_Now;
      _ ← meanwhile;
      _ ← change_nodes (Cluster.Register now (self_request a cfg (bu_budget up)));
      _ ← spawn RunEviction;
      _ ← meanwhile;
      _ ← spawn RestServe;
      _ ← meanwhile;
      mret (Ready (bu_defers up ++ [EngineStop; CancelContext]))
    end
  end.

(** From the event bus to the end of recovery. *)
Definition run_stage (a : answers) (storageMode : string) (cfg : GlobalConfig) (defers : list deferred_call) : M program brought_up :=
  r ← on_redis (EventBus.NewEventBus (st_Redis (cfg_Storage cfg)));
  let eventBus := match r with Ok bus => Some bus | Err _ => None end in
  b ← open_store storageMode cfg;
  let budget := NewResourceAllocator (an_numCPU a) (an_meminfo a) (cl_HostCPUs (cfg_Cluster cfg)) (cl_HostMemMB (cfg_Cluster cfg)) in
  rec ← recovery_stage cfg b;
  mret (mkBroughtUp cfg budget b rec (defers ++ [BusClose eventBus; StoreClose b])).

(** [main] after flag parsing, up to the start of the engine. *)
Definition bring_up (a : answers) (configDir storageMode : string) : M program (outcome + brought_up) :=
  r ← on_files (Load configDir);
  match r with
  | Err e => mret (inl (Exits 1 ("FATAL: failed to load config: " +:+ e)))
  | Ok cfg =>
    r2 ← on_files (LoadDeviceRegistry configDir);
    match r2 with
    | Err e => mret (inl (Exits 1 ("FATAL: failed to load device registry: " +:+ e)))
    | Ok _ =>
      match NewLogger a (tel_LogLevel (cfg_Telemetry cfg)) (tel_LogFormat (cfg_Telemetry cfg)) with
      | Err e => mret (inl (Exits 1 ("FATAL: failed to create logger: " +:+ e)))
      | Ok _ =>
        now ← on_db rt_Now;
        match InitTracer a now (cfg_Telemetry cfg) with
        | Err _ => o ← Fatal "failed to initialize tracer"; mret (inl o)
        | Ok tp => up ← run_stage a storageMode cfg [LoggerSync; TraceShutdown tp]; mret (inr up)
        end
      end
    end
  end.

Definition main (a : answers) (configDir storageMode : string) : M program outcome :=
  r ← bring_up a configDir storageMode;
  match r with
  | inl o => mret o
  | inr up => serve_stage a up
  end.

(** What a deferred call does to the connections: the other calls touch
    neither of them. *)
Definition close_connection (d : deferred_call) : M program unit :=
  match d with
  | BusClose (Some bus) => _ ← on_redis (EventBus.Close bus); mret tt
  | BusClose None => panic "invalid memory address or nil pointer dereference"
  | StoreClose InPostgres => _ ← on_db PostgresStore.Close; mret tt
  | _ => mret tt
  end.

End main.
Arguments program : clear implicits.

Definition persistent (b : backend) : bool := match b with InPostgres => true | InMemory => false end.

(** ** What the start does *)

Section startup.
Context {D R F : Type} `{!Database D, !Runtime D, !Pools D, !Recovery.Processes D} {FT : FloatText} {NS : NilSlices} `{!DatabaseLaws D}.
Context `{!Redis R, !Runtime R, !RedisLaws R, !FileSystem F, !SafeFiles F, !Environ F}.
Context (v : map_visits) (alive : Z → result unit).

(** What the libraries and the system promise beyond the laws of the
    database and of Redis: the pool, and a clock and signals that leave it
    alone. *)
Record host_laws : Prop := mkHostLaws {
  hl_pools : pool_laws (W := D);
  hl_now : Keeps (W := D) pool_open rt_Now;
  hl_kill_total pid : Total (W := D) (os_SIGKILL pid);
  hl_kill_tables pid : Keeps (W := D) pool_tables (os_SIGKILL pid);
  hl_kill_open pid : Keeps (W := D) pool_open (os_SIGKILL pid);
  hl_visits : visits_ok v;
}.

Local Existing Instance pg_recovery.
Local Existing Instance pg_recoverable.

Lemma keeps_on_world {W A B} (f : W → B) (c : M W A) : Keeps f c → Keeps (f ∘ fst) (on_world c).
Proof using.
  intros Hc [w s] a [w' s']. unfold on_world. destruct (c w) as [[x w1]|] eqn:E; [|done]. intros [= <- <- <-]. by eapply Hc.
Qed.

Lemma keeps_on_scheduler {W B} (f : W → B) g : Keeps (f ∘ fst) (on_scheduler (W := W) g).
Proof using. intros [w s] a [w' s']. unfold on_scheduler. destruct (g s); [|done]. by intros [= <- <- <-]. Qed.

(** Recovery sends statements, and opens and closes no pool. *)
Lemma recovery_keeps_open (c : ctx) : host_laws → Keeps (pool_open ∘ fst) (RecoverState (W := D) c).
Proof.
  intros [[_ _ _ _ Hdo _] Hnow _ _ Hkill _].
  pose proof (@keeps_on_world D) as Hw. pose proof (@keeps_on_scheduler D) as Hs.
  assert (H1 : ∀ c', Keeps pool_open (rec_ListRunningTestRuns (W := D) c')).
  { intros c'. simpl. unfold PostgresStore.ListRunningTestRuns, PostgresStore.Query. solve_keeps. }
  assert (H2 : ∀ c' id st msg, Keeps pool_open (rec_UpdateTestRunStatus (W := D) c' id st msg)).
  { intros c' id st msg. simpl. unfold PostgresStore.UpdateTestRunStatus, PostgresStore.Exec. solve_keeps. }
  assert (H3 : ∀ c', Keeps pool_open (rec_ListOrphanedVMs (W := D) c')).
  { intros c'. simpl. unfold PostgresStore.ListOrphanedVMs, PostgresStore.Query. solve_keeps. }
  assert (H4 : ∀ c' id st, Keeps pool_open (rec_UpdateVMStatus (W := D) c' id st)).
  { intros c' id st. simpl. unfold PostgresStore.UpdateVMStatus, PostgresStore.Exec. solve_keeps. }
  assert (Hr : ∀ runs n m, Keeps (pool_open ∘ fst) (recover_runs (W := D) c runs n m)).
  { induction runs as [|run runs IH]; intros n m; simpl; [apply _|]. unfold recover_run. solve_keeps; eauto. }
  assert (Hv : ∀ vs n, Keeps (pool_open ∘ fst) (recover_vms (W := D) c vs n)).
  { induction vs as [|x vs IH]; intros n; simpl; [apply _|]. unfold recover_vm. solve_keeps; eauto. }
  unfold RecoverState. solve_keeps; eauto.
Qed.

Implicit Types p : program D R F.

(** The tables of the database and whether a pool is open. *)
Definition tables p : database := pool_tables (pr_db p).
Definition pool_up p : bool := pool_open (pr_db p).

(** The tables have the schema, or none of its tables is there yet. *)
Definition usable (db : database) : Prop :=
  sound db ∧ (schema db ∨ ∀ name, name ∈ ["test_runs"; "test_results"; "vms"] → db !! name = None).

Lemma now_step p :
  host_laws → ∃ now d, on_db rt_Now p = Done (now, mkProgram d (pr_redis p) (pr_files p) (pr_mem p) (pr_sched p) (pr_nodes p) (pr_go p)) ∧
    pool_tables d = tables p ∧ pool_open d = pool_up p.
Proof.
  intros Hl. destruct (now_total (pr_db p)) as (now & d & E). exists now, d. unfold on_db. rewrite E.
  split_and!; [done|exact (keeps pool_tables rt_Now _ _ _ E)|exact (hl_now Hl _ _ _ E)].
Qed.

Lemma fresh_memory_law p :
  host_laws → ∃ p', fresh_memory p = Done (InMemory, p') ∧ tables p' = tables p ∧ pool_up p' = pool_up p ∧ pr_redis p' = pr_redis p ∧
    pr_go p' = pr_go p ∧ mw_store (pr_mem p') = NewMemoryStore.
Proof.
  intros Hl. unfold fresh_memory. destruct (now_step p Hl) as (now & d & E & Ht & Ho). rewrite (M_bind_done _ _ _ _ _ E).
  eexists. split; [reflexivity|]. by unfold tables, pool_up.
Qed.

Lemma open_store_law mode cfg p :
  host_laws → pool_up p = false → usable (tables p) →
  ∃ b p', open_store mode cfg p = Done (b, p') ∧ pool_up p' = persistent b ∧ pr_redis p' = pr_redis p ∧ pr_go p' = pr_go p ∧
    (schema (tables p) → tables p' = tables p) ∧
    match b with
    | InPostgres => mode = "postgres" ∧ schema (tables p')
    | InMemory => mw_store (pr_mem p') = NewMemoryStore
    end.
Proof.
  intros Hl Ho [Hs Hu]. unfold open_store. case_decide as Hm.
  2: { destruct (fresh_memory_law p Hl) as (p' & E & Ht & Ho' & Hr & Hg & Hn). exists InMemory, p'. split_and!; try done. by rewrite Ho'. }
  destruct (now_step p Hl) as (now & d & E & Ht & Hop). rewrite (M_bind_done _ _ _ _ _ E). cbv zeta.
  destruct (connecting_leaves_nothing_open (WithTimeout Background now (seconds 15)) (DSN (st_Postgres (cfg_Storage cfg)))
    (pg_MaxConnections (st_Postgres (cfg_Storage cfg))) d) as (r & d2 & E2 & Ho2 & Hs2 & Ht2);
    [apply Hl|by rewrite Hop|by rewrite Ht..|].
  erewrite M_bind_done by (unfold on_db; cbn [pr_db]; by rewrite E2). rewrite Ht in Ht2. destruct r as [[]|e].
  - eexists InPostgres, _. split; [reflexivity|]. unfold tables, pool_up in *. simpl in *. by split_and!; auto.
  - match goal with |- context [fresh_memory ?q] => destruct (fresh_memory_law q Hl) as (p' & E' & Ht' & Ho' & Hr & Hg & Hn) end.
    exists InMemory, p'. unfold tables, pool_up in *. simpl in *. split_and!; try done; [by rewrite Ho'|]. intros Hsc. rewrite Ht'. auto.
Qed.

(** What recovery promises depends on the tables only. *)
Lemma recovered_tables (w1 w2 w1' w2' : D) s r again s' :
  pool_tables w1 = pool_tables w2 → pool_tables w1' = pool_tables w2' → recovered w1 s r again w1' s' → recovered w2 s r again w2' s'.
Proof using. unfold recovered. simpl. by intros -> ->. Qed.

Lemma recovery_stage_law cfg b p :
  host_laws → match b with InPostgres => schema (tables p) | InMemory => mw_store (pr_mem p) = NewMemoryStore end →
  ∃ r p', recovery_stage v alive cfg b p = Done (r, p') ∧ pool_up p' = pool_up p ∧ pr_redis p' = pr_redis p ∧ pr_go p' = pr_go p ∧
    match b with
    | InPostgres => ∃ again, recovered (pr_db p) (NewScheduler (vmd_MaxConcurrentVMs (cfg_VMDefaults cfg))) r again (pr_db p') (pr_sched p')
    | InMemory => queue (pr_sched p') = [] ∧ ch_closed (notify (pr_sched p')) = false ∧ tables p' = tables p
    end.
Proof.
  intros Hl Hb. unfold recovery_stage. set (s := NewScheduler _).
  destruct (now_step (mkProgram (pr_db p) (pr_redis p) (pr_files p) (pr_mem p) s (pr_nodes p) (pr_go p)) Hl) as (now & d & E & Ht & Ho).
  erewrite M_bind_done by reflexivity. rewrite (M_bind_done _ _ _ _ _ E). unfold recover. cbn [pr_db pr_mem pr_sched].
  set (c := WithTimeout _ _ _). destruct b.
  - destruct (@RecoverState_law mem_world _ _ _ (memory_keeps_contract v alive (hl_visits Hl)) c (pr_mem p) s) as (r & again & m & s' & E' & Hr); [|done|].
    { exists 0. rewrite Hb. apply (store_run_inv []); [constructor|done]. }
    rewrite E'. eexists r, _. split; [reflexivity|]. destruct Hr as (_ & Hq & _ & Hag & _ & _ & _ & _ & Hc).
    unfold tables, pool_up in *. simpl in *. split_and!; try done. destruct again as [|x again]; [done|].
    destruct (Hag x) as [Hx _]; [by left|]. by rewrite Hb in Hx.
  - destruct (@RecoverState_law D _ _ _ (pg_contract (hl_kill_total Hl) (hl_kill_tables Hl)) c d s) as (r & again & d' & s' & E' & Hr); [|done|].
    { simpl. by rewrite Ht. }
    rewrite E'. eexists r, _. split; [reflexivity|]. pose proof (recovery_keeps_open c Hl _ _ _ E') as Ho'.
    unfold tables, pool_up in *. simpl in *. split_and!; [congruence|done..|]. exists again. by eapply recovered_tables.
Qed.

Lemma new_bus cfg (r : R) :
  ∃ up r', EventBus.NewEventBus cfg r = Done (Ok (EventBus.mkEventBus up up), r') ∧ redis_connected r' = up.
Proof.
  destruct (bus_connection_accounted cfg r) as (b & r' & E & Hc & _). rewrite E.
  assert (b = EventBus.mkEventBus (EventBus.Enabled b) (EventBus.Enabled b)) as Hb; [|by rewrite Hb; eauto].
  revert E. unfold EventBus.NewEventBus, mbind, M_bind, mret, M_ret. repeat case_match; try done; by intros [= <- <-].
Qed.

(** A step that leaves the store, the bus and the queue alone. *)
Definition aside p p' : Prop :=
  tables p' = tables p ∧ pool_up p' = pool_up p ∧ pr_redis p' = pr_redis p ∧ pr_sched p' = pr_sched p.

Lemma spawn_step g p : ∃ p', spawn g p = Done (tt, p') ∧ aside p p' ∧ pr_go p' = pr_go p ++ [g] ∧ pr_nodes p' = pr_nodes p.
Proof using. eexists. split; [reflexivity|]. done. Qed.

Lemma nodes_step f p : ∃ p', change_nodes f p = Done (tt, p') ∧ aside p p' ∧ pr_go p' = pr_go p ∧ pr_nodes p' = f (pr_nodes p).
Proof using. eexists. split; [reflexivity|]. done. Qed.

Lemma clock_step p :
  host_laws → ∃ now p', on_db rt_Now p = Done (now, p') ∧ aside p p' ∧ pr_go p' = pr_go p ∧ pr_nodes p' = pr_nodes p.
Proof. intros Hl. destruct (now_step p Hl) as (now & d & E & Ht & Ho). eexists now, _. split; [exact E|]. by split_and!. Qed.

(** What the goroutines leave alone: the pool and the Redis client are only
    opened and closed by [main], which alone starts them; and none of them
    ends the process. *)
Record others_laws (others : list goroutine → M (program D R F) unit) : Prop := mkOthersLaws {
  ol_total gs : Total (others gs);
  ol_open gs : Keeps pool_up (others gs);
  ol_redis gs : Keeps (λ p, redis_connected (pr_redis p)) (others gs);
  ol_go gs : Keeps pr_go (others gs);
}.

(** A step that leaves the connections alone. *)
Definition connected p p' : Prop := pool_up p' = pool_up p ∧ redis_connected (pr_redis p') = redis_connected (pr_redis p).

Lemma aside_connected p p' : aside p p' → connected p p'.
Proof. intros (_ & Hp & Hr & _). split; [done|by rewrite Hr]. Qed.

Lemma connected_trans p1 p2 p3 : connected p1 p2 → connected p2 p3 → connected p1 p3.
Proof. intros [? ?] [? ?]. split; congruence. Qed.

Lemma meanwhile_step others p :
  others_laws others → ∃ p', meanwhile others p = Done (tt, p') ∧ connected p p' ∧ pr_go p' = pr_go p.
Proof.
  intros Hot. unfold meanwhile. destruct (ol_total _ Hot (pr_go p) p) as ([] & p' & E). exists p'. split; [done|].
  split; [split; [exact (ol_open _ Hot _ _ _ _ E)|exact (ol_redis _ Hot _ _ _ _ E)]|exact (ol_go _ Hot _ _ _ _ E)].
Qed.

(** Started, and what the others did then. *)
Lemma spawn_meanwhile others g {A} (k : M (program D R F) A) p :
  others_laws others → ∃ p', (_ ← spawn g; _ ← meanwhile others; k) p = k p' ∧ connected p p' ∧ pr_go p' = pr_go p ++ [g].
Proof.
  intros Hot. destruct (spawn_step g p) as (p1 & E1 & A1 & G1 & _). rewrite (M_bind_done _ _ _ _ _ E1).
  destruct (meanwhile_step others p1 Hot) as (p2 & E2 & C2 & G2). rewrite (M_bind_done _ _ _ _ _ E2).
  exists p2. split; [done|]. split; [|congruence]. eapply connected_trans; [by apply aside_connected|done].
Qed.

Ltac started_with Hot q C G :=
  match goal with |- context [mbind (λ _, mbind (λ _, ?k) (meanwhile _)) (spawn ?g) ?p0] =>
    destruct (spawn_meanwhile _ g k p0 Hot) as (q & -> & C & G) end.

Lemma serve_stage_law others a up p :
  host_laws → others_laws others →
  ∃ o p', serve_stage others a up p = Done (o, p') ∧ connected p p' ∧
    match o with
    | Exits code _ => code = 1
    | Ready ds => ds = bu_defers up ++ [EngineStop; CancelContext] ∧ pr_go p' = pr_go p ++ [EngineWorker; GrpcServe; RunEviction; RestServe]
    end.
Proof.
  intros Hl Hot. unfold serve_stage.
  destruct (nodes_step (λ _, NewNodeRegistry (node_ttl (bu_cfg up))) p) as (p1 & E1 & C1%aside_connected & G1 & _).
  rewrite (M_bind_done _ _ _ _ _ E1).
  started_with Hot p2 C2 G2.
  pose proof (connected_trans _ _ _ C1 C2) as C.
  destruct (an_listen a _) as [[]|e]; [|by eexists _, p2].
  started_with Hot p3 C3 G3. apply (connected_trans _ _ _ C) in C3. clear C.
  destruct (an_register a _) as [[]|e]; [|by eexists _, p3].
  destruct (clock_step p3 Hl) as (now & p4 & E4 & C4%aside_connected & G4 & _). rewrite (M_bind_done _ _ _ _ _ E4).
  destruct (meanwhile_step others p4 Hot) as (p5 & E5 & C5 & G5). rewrite (M_bind_done _ _ _ _ _ E5).
  destruct (nodes_step (Cluster.Register now (self_request a (bu_cfg up) (bu_budget up))) p5) as (p6 & E6 & C6%aside_connected & G6 & _).
  rewrite (M_bind_done _ _ _ _ _ E6).
  started_with Hot p7 C7 G7.
  started_with Hot p8 C8 G8.
  eexists _, p8. split; [reflexivity|]. split; [eauto 10 using connected_trans|]. split; [done|].
  by rewrite G8, G7, G6, G5, G4, G3, G2, G1, <- !app_assoc.
Qed.

(** What is there before the engine is started. *)
Definition is_up (mode : string) (ds0 : list deferred_call) p (up : brought_up) p' : Prop :=
  ∃ bus, bu_defers up = ds0 ++ [BusClose (Some (EventBus.mkEventBus bus bus)); StoreClose (bu_store up)] ∧
    redis_connected (pr_redis p') = bus ∧ pool_up p' = persistent (bu_store up) ∧ pr_go p' = pr_go p ∧
    match bu_store up with
    | InPostgres => mode = "postgres" ∧ (schema (tables p) → ∃ again, recovered (pr_db p)
        (NewScheduler (vmd_MaxConcurrentVMs (cfg_VMDefaults (bu_cfg up)))) (bu_recovery up) again (pr_db p') (pr_sched p'))
    | InMemory => queue (pr_sched p') = [] ∧ (schema (tables p) → tables p' = tables p)
    end.

Lemma run_stage_law a mode cfg ds p :
  host_laws → pool_up p = false → usable (tables p) →
  ∃ up p', run_stage v alive a mode cfg ds p = Done (up, p') ∧ bu_cfg up = cfg ∧ is_up mode ds p up p'.
Proof.
  intros Hl Ho Hu. unfold run_stage. destruct (new_bus (st_Redis (cfg_Storage cfg)) (pr_redis p)) as (bus & r' & E & Hup).
  erewrite M_bind_done by (unfold on_redis; by rewrite E). cbv zeta.
  match goal with |- context [mbind _ (open_store mode cfg) ?q] =>
    destruct (open_store_law mode cfg q Hl Ho Hu) as (b & p1 & E1 & Ho1 & Hr1 & Hg1 & Ht1 & Hb1) end.
  rewrite (M_bind_done _ _ _ _ _ E1). destruct (recovery_stage_law cfg b p1 Hl) as (rec & p2 & E2 & Ho2 & Hr2 & Hg2 & Hb2);
    [by destruct b; [|apply Hb1]|].
  rewrite (M_bind_done _ _ _ _ _ E2). eexists _, p2. split; [reflexivity|]. split; [done|]. exists bus.
  unfold tables, pool_up in *. simpl in *. split_and!; [done|congruence|congruence|congruence|]. destruct b.
  - destruct Hb2 as (Hq & _ & Ht2). split; [done|]. intros Hs. rewrite Ht2. auto.
  - destruct Hb1 as [Hm _]. split; [done|]. intros Hs. destruct Hb2 as (again & Hrec). exists again.
    eapply recovered_tables; [..|exact Hrec]; [by apply Ht1|done].
Qed.

Global Instance total_Load dir : Total (W := F) (Load dir).
Proof. unfold Load, loadJSON, environment. solve_total; intros w; eauto. Qed.

Global Instance total_LoadDeviceRegistry dir : Total (W := F) (LoadDeviceRegistry dir).
Proof. unfold LoadDeviceRegistry, loadJSON, environment. solve_total; intros w; eauto. Qed.

Lemma files_step {A} (c : M F A) p :
  Total c → ∃ x f p', c (pr_files p) = Done (x, f) ∧ on_files c p = Done (x, p') ∧ aside p p' ∧ pr_go p' = pr_go p.
Proof using.
  intros Hc. destruct (Hc (pr_files p)) as (x & f & E). eexists x, f, _. split; [exact E|]. unfold on_files. rewrite E. by split_and!.
Qed.

Lemma is_up_before mode ds p p1 up p' :
  aside p p1 → pr_go p1 = pr_go p → is_up mode ds p1 up p' → is_up mode ds p up p'.
Proof using.
  unfold is_up, aside. intros (Ht & _ & _ & _) Hg (bus & Hd & Hr & Ho & Hgo & Hb). exists bus. rewrite <- Hg, <- Ht.
  split_and!; try done. destruct (bu_store up); [done|].
  destruct Hb as [Hm Hb]. split; [done|]. intros Hs. destruct (Hb Hs) as (again & Hrec). exists again. by eapply recovered_tables.
Qed.

Lemma bring_up_law a dir mode p :
  host_laws → pool_up p = false → usable (tables p) →
  ∃ o p', bring_up v alive a dir mode p = Done (o, p') ∧
    match o with
    | inl o => ∃ why, o = Exits 1 why
    | inr up => ∃ tp, is_up mode [LoggerSync; TraceShutdown tp] p up p'
    end.
Proof.
  intros Hl Ho Hu. unfold bring_up.
  destruct (files_step (Load dir) p _) as (r & f & p1 & Ef & E1 & A1 & G1). rewrite (M_bind_done _ _ _ _ _ E1).
  destruct r as [cfg|e]; [|eexists (inl _), p1; eauto].
  destruct (files_step (LoadDeviceRegistry dir) p1 _) as (r & f2 & p2 & _ & E2 & A2 & G2).
  rewrite (M_bind_done _ _ _ _ _ E2). destruct r as [reg|e]; [|eexists (inl _), p2; eauto].
  destruct (NewLogger _ _ _) as [z|e]; [|eexists (inl _), p2; eauto]. destruct (clock_step p2 Hl) as (now & p3 & E3 & A3 & G3 & _).
  rewrite (M_bind_done _ _ _ _ _ E3). destruct (InitTracer _ _ _) as [tp|e]; [|eexists (inl _), p3; by split; [|eexists]].
  assert (A : aside p p3) by (clear alive; unfold aside in *; destruct_and?; split_and!; congruence).
  destruct (run_stage_law a mode cfg [LoggerSync; TraceShutdown tp] p3 Hl) as (up & p' & E & _ & Hs);
    [destruct A as (_ & -> & _); exact Ho|destruct A as (-> & _); exact Hu|].
  rewrite (M_bind_done _ _ _ _ _ E). exists (inr up), p'. split; [done|]. exists tp. eapply is_up_before; [done| |done]. congruence.
Qed.

(** Both connections are closed by the deferred calls, in whatever state the
    servers left the rest. *)
Lemma connections_closed up b ds0 p :
  host_laws → Forall (λ d, ∃ tp, d = LoggerSync ∨ d = TraceShutdown tp) ds0 →
  redis_connected (pr_redis p) = up → pool_up p = persistent b →
  ∃ p', for_each (reverse (ds0 ++ [BusClose (Some (EventBus.mkEventBus up up)); StoreClose b; EngineStop; CancelContext])) close_connection p
      = Done (tt, p') ∧ pool_up p' = false ∧ redis_connected (pr_redis p') = false.
Proof.
  intros Hl Hds Hr Ho. rewrite reverse_app. cbn [reverse rev_append app for_each].
  assert (Htail : ∀ q : program D R F, for_each (reverse ds0) close_connection q = Done (tt, q)).
  { apply Forall_reverse in Hds. induction Hds as [|d l [tp Hd] _ IH]; intros q; [done|]. simpl.
    erewrite M_bind_done; [apply IH|]. by destruct Hd as [-> | ->]. }
  unfold reverse at 1. cbn [rev_append app for_each]. erewrite !M_bind_done by reflexivity.
  assert (Hstore : ∃ p1, close_connection (StoreClose b) p = Done (tt, p1) ∧ pool_up p1 = false ∧ pr_redis p1 = pr_redis p).
  { destruct b; simpl; [by exists p|]. destruct (pl_close (hl_pools Hl) (pr_db p)) as (x & d & E). destruct (pl_close_open (hl_pools Hl) _ _ _ E) as [Hd _].
    eexists. unfold PostgresStore.Close, on_db, mbind, M_bind, mret, M_ret. rewrite E. split; [reflexivity|]. done. }
  destruct Hstore as (p1 & E1 & Ho1 & Hr1). rewrite (M_bind_done _ _ _ _ _ E1).
  assert (Hbus : ∃ p2, close_connection (BusClose (Some (EventBus.mkEventBus up up))) p1 = Done (tt, p2) ∧ pool_up p2 = pool_up p1 ∧
    redis_connected (pr_redis p2) = false).
  { simpl. unfold EventBus.Close. simpl. destruct up.
    - destruct (redis_close_total (pr_redis p1)) as (x & r & E). pose proof (redis_close_connected _ _ _ E).
      eexists. unfold on_redis, mbind, M_bind, mret, M_ret. rewrite E. by split_and!.
    - eexists. split; [reflexivity|]. simpl. by rewrite Hr1. }
  destruct Hbus as (p2 & E2 & Ho2 & Hr2). rewrite (M_bind_done _ _ _ _ _ E2). exists p2. split; [apply Htail|]. by rewrite Ho2.
Qed.

(** C17: [main] reaches its wait for a signal or exits with code 1, whatever
    the goroutines it has started do between its statements, as long as they
    do not end the process and leave the connections, which are [main]'s,
    alone.  When it waits, the four goroutines have been started in order; the
    pool is open exactly when the store is PostgreSQL and the Redis client
    exactly when the bus is enabled; after the two servers the context is
    cancelled, the engine stopped, and only then the store, the bus, the
    tracer and the logger closed; and in any state with these connections the
    deferred calls leave neither open. *)
Theorem startup_accounts others a dir mode p :
  host_laws → others_laws others → pool_up p = false → usable (tables p) → pr_go p = [] →
  ∃ o p', main v alive others a dir mode p = Done (o, p') ∧
    match o with
    | Exits code _ => code = 1
    | Ready ds => ∃ tp bus b,
        shutdown ds = [GracefulStop; RestShutdown; Deferred CancelContext; Deferred EngineStop; Deferred (StoreClose b);
                       Deferred (BusClose (Some bus)); Deferred (TraceShutdown tp); Deferred LoggerSync] ∧
        pr_go p' = [EngineWorker; GrpcServe; RunEviction; RestServe] ∧
        pool_up p' = persistent b ∧ redis_connected (pr_redis p') = EventBus.Enabled bus ∧
        ∀ p1, pool_up p1 = pool_up p' → redis_connected (pr_redis p1) = redis_connected (pr_redis p') →
          ∃ p2, for_each (reverse ds) close_connection p1 = Done (tt, p2) ∧ pool_up p2 = false ∧ redis_connected (pr_redis p2) = false
    end.
Proof.
  intros Hl Hot Ho Hu Hg. unfold main. destruct (bring_up_law a dir mode p Hl Ho Hu) as (o & p1 & E & Hs).
  rewrite (M_bind_done _ _ _ _ _ E). destruct o as [o|up]; [destruct Hs as [why ->]; by eexists _, p1|].
  destruct Hs as (tp & bus & Hd & Hr & Hp & Hgo & _). destruct (serve_stage_law others a up p1 Hl Hot) as (o & p' & E' & [Cp Cr] & Hs).
  exists o, p'. split; [exact E'|]. destruct o as [code why|ds]; [exact Hs|]. destruct Hs as [-> Hgo'].
  exists tp, (EventBus.mkEventBus bus bus), (bu_store up). rewrite Hd, <- app_assoc. rewrite Hgo, Hg in Hgo'.
  split_and!; [done|done|congruence|simpl; congruence|]. intros p2 Hp2 Hr2.
  apply connections_closed; [done| |congruence..]. repeat constructor; exists tp; auto.
Qed.

(** C16: a restart on a database with the schema: [main] exits with code 1, or
    it gets to where it starts the engine, no goroutine having been started
    before.  Then either it runs on PostgreSQL, which was asked for, and the
    scheduler's queue is exactly a list of runs that were in flight in the
    tables, each once, those interrupted in the middle reset to PENDING, with
    every other row as it was; and if recovery succeeded, every PENDING run is
    in the queue; or it runs in memory with an empty queue and has left the
    tables alone. *)
Theorem restart_requeues a dir mode p :
  host_laws → pool_up p = false → schema (tables p) →
  ∃ o p', bring_up v alive a dir mode p = Done (o, p') ∧
    (∀ others, main v alive others a dir mode p = match o with inl o => Done (o, p') | inr up => serve_stage others a up p' end) ∧
    match o with
    | inl o => ∃ why, o = Exits 1 why
    | inr up => pr_go p' = pr_go p ∧
        match bu_store up with
        | InPostgres => mode = "postgres" ∧ ∃ again,
            queue (pr_sched p') = requeued_run <$> again ∧ NoDup (tr_ID <$> again) ∧
            (∀ run, run ∈ again → runs_of (tables p) !! tr_ID run = Some run ∧ in_flight run = true) ∧
            (∀ id run, runs_of (tables p) !! id = Some run → row_after again run (runs_of (tables p') !! id)) ∧
            (∀ id, runs_of (tables p) !! id = None → runs_of (tables p') !! id = None) ∧
            ∀ n, bu_recovery up = Ok n → ∀ id run, runs_of (tables p) !! id = Some run →
              tr_Status run = TestRunStatusPending → run ∈ queue (pr_sched p')
        | InMemory => queue (pr_sched p') = [] ∧ tables p' = tables p
        end
    end.
Proof.
  intros Hl Ho Hsc. destruct (bring_up_law a dir mode p Hl Ho) as (o & p' & E & Hs); [split; [apply Hsc|by left]|].
  exists o, p'. split; [exact E|]. split; [intros others; unfold main; rewrite (M_bind_done _ _ _ _ _ E); by destruct o|].
  destruct o as [o|up]; [exact Hs|]. destruct Hs as (tp & bus & _ & _ & _ & Hgo & Hb). split; [done|].
  destruct (bu_store up); [naive_solver|]. destruct Hb as [Hm Hrec]. destruct (Hrec Hsc) as (again & _ & Hq & Hnd & Hag & Hrow & Hnone & _ & Hr & _).
  split; [done|]. exists again. simpl in Hq. split_and!; try done. intros n Hn id run Hrun Hst. rewrite Hn in Hr. rewrite Hq.
  destruct n as [[n1 n2] n3]. destruct Hr as [_ Hpend]. apply list_elem_of_fmap. exists run.
  split; [unfold requeued_run; by rewrite Hst|by eapply Hpend].
Qed.

End startup.

(** ** A start on concrete machines *)

Local Instance startup_processes : Recovery.Processes pg_world := {| os_SIGKILL _ := mret (Ok tt) |}.

Global Instance machine_safe : SafeFiles machine.
Proof. split; [|intros p..]; intros w; eexists _, _; reflexivity. Qed.

Lemma bench_host_laws : host_laws (D := pg_world) key_visits.
Proof.
  split; try (intros pid; apply _); [|by intros w a w' [= <- <-]|apply key_visits_ok].
  split; [by intros; intros w; eexists _, _|by intros w; eexists _, _| | | |by intros c w r w' [= <- <-]].
  - intros c dsn n w r w' [= <- <-]. simpl. by rewrite orb_true_r.
  - by intros w r w' [= <- <-].
  - intros c q args w r w'. simpl. by destruct (run_sql _ _ _ _) as [[a db']|]; intros [= <- <-].
Qed.

Definition willing : answers :=
  mkAnswers (λ _, Ok 0) (λ _, Ok tt) (Ok tt) (λ _ _, Ok tt) "host0" 8 None (λ _, Ok tt) (λ _, Ok tt).

Definition both_files : machine :=
  mkMachine {["configs/global_config.json" := config_text (sample_config "db" "secret");
             "configs/device_registry.json" := print (DeviceRegistry_json (sample_registry "/opt/dvf/driver.ko"))]} ∅.

Definition before_start : program pg_world bus_world machine :=
  mkProgram used_server quiet_bus both_files (mkMemWorld NewMemoryStore 0 []) (NewScheduler 1) (NewNodeRegistry 0) [].

Lemma used_usable : usable (pool_tables used_server).
Proof. pose proof used_schema as Hs. split; [apply Hs|by left]. Qed.

(** Goroutines that find nothing to do. *)
Definition idle (gs : list goroutine) : M (program pg_world bus_world machine) unit := mret tt.

Lemma idle_laws : others_laws idle.
Proof. split; intros gs; apply _. Qed.

(** The start on these machines, with PostgreSQL and without. *)
Definition bench_start (mode : string) : go (outcome * program pg_world bus_world machine) :=
  main key_visits (λ _, Ok tt) idle willing "configs" mode before_start.

Definition bench_ready (r : go (outcome * program pg_world bus_world machine)) : option (nat * nat) :=
  match r with Done (Ready ds, p) => Some (length ds, length (queue (pr_sched p))) | _ => None end.

Lemma startup_accounts_witness :
  bench_ready (bench_start "postgres") = Some (6, 2)%nat ∧
  ∃ o p', bench_start "postgres" = Done (o, p') ∧ match o with Exits code _ => code = 1 | Ready _ => length (pr_go p') = 4%nat end.
Proof.
  split; [vm_compute; reflexivity|].
  destruct (startup_accounts (D := pg_world) (R := bus_world) (F := machine) key_visits (λ _, Ok tt) idle willing "configs" "postgres" before_start
    bench_host_laws idle_laws) as (o & p' & E & Ho); [vm_compute; reflexivity|apply used_usable|done|].
  exists o, p'. split; [exact E|]. destruct o as [code why|ds]; [exact Ho|]. destruct Ho as (tp & bus & b & _ & Hg & _). by rewrite Hg.
Defined.

Lemma restart_requeues_witness :
  bench_ready (bench_start "memory") = Some (6, 0)%nat ∧
  ∃ o p', bring_up key_visits (λ _, Ok tt) willing "configs" "postgres" before_start = Done (o, p') ∧
    match o with inl o => ∃ why, o = Exits 1 why | inr up => pr_go p' = [] end.
Proof.
  split; [vm_compute; reflexivity|].
  destruct (restart_requeues (D := pg_world) (R := bus_world) (F := machine) key_visits (λ _, Ok tt) willing "configs" "postgres" before_start
    bench_host_laws) as (o & p' & E & _ & Ho); [vm_compute; reflexivity|apply used_schema|].
  exists o, p'. split; [exact E|]. destruct o as [o|up]; [exact Ho|exact (proj1 Ho)].
Defined.
