(* ===== verification/AgentServer.v ===== *)
(** * The guest agents' gRPC service ([api/agent_server.go])

    The handlers guest agents call, over any agent coordinator and store.
    The parameters of a command travel in a map of strings: a value that is
    not a string is written as JSON. *)
From stdpp Require Import options.
From S2P Require Import Prelude GoStd GoChan Types MemoryStore Marshal JsonText Json.
From S2P Require Import Effects Interfaces GrpcServer.
Open Scope string_scope.
Open Scope list_scope.
Open Scope nat_scope.

(** The coordinator, as the agents' service sees it. *)
Class AgentSide (W : Type) := {
  co_NotifyAgentReady : string → string → M W (result unit);
  co_GetNextCommand : ctx → string → M W (result AgentCommand);
  co_DeliverResult : string → AgentResult → M W (result unit);
}.

Record RegisterAgentResponse : Type := mkRegisterAgentResponse {
  rar_AgentId : string;
  rar_HeartbeatIntervalSeconds : Z;
  rar_Status : string;
}.

Record pbCommand : Type := mkPbCommand {
  pc_CommandId : string;
  pc_Type : string;
  pc_Parameters : gmap string string;
}.

Record ReportResultRequest : Type := mkReport {
  rr_AgentId : string;
  rr_CommandId : string;
  rr_Status : string;
  rr_Output : string;
  rr_Logs : string;
  rr_DurationMs : Z;
}.

Record ReportResultResponse : Type := mkReportResponse {
  rrr_Acknowledged : bool;
  rrr_NextAction : string;
}.

Definition agent_id (vmID : string) : string := "agent-" +:+ vmID.

(** The VM an agent identifier names. *)
Definition vm_of_agent (agentID : string) : string :=
  if decide (6 < String.length agentID) then
    if decide (str_take 6 agentID = "agent-") then str_drop 6 agentID else agentID
  else agentID.

(** The switch over the dynamic type of a parameter. *)
Definition encode_param (v : param) : string :=
  match v with
  | PString s => s
  | PStrings l => marshal_strings l
  | PEnv env => marshal_map env
  end.

Section handlers.
Context {W : Type} `{!Store W, !AgentSide W}.

Definition RegisterAgent (c : ctx) (vmId : string) : M W (rpc RegisterAgentResponse) :=
  if decide (vmId = "") then mret (Status InvalidArgument "vm_id is required")
  else
    let agentID := agent_id vmId in
    r ← co_NotifyAgentReady vmId agentID;
    match r with
    | Err err => mret (Status NotFound ("VM not registered: " +:+ err))
    | Ok _ =>
      _ ← db_UpdateVMStatus c vmId VMStatusReady;
      mret (Reply (mkRegisterAgentResponse agentID 5 "ok"))
    end.

Definition Heartbeat (agentId : string) : M W (rpc string) :=
  if decide (agentId = "") then mret (Status InvalidArgument "agent_id is required") else mret (Reply "ok").

Definition GetCommand (c : ctx) (vmId : string) : M W (rpc pbCommand) :=
  if decide (vmId = "") then mret (Status InvalidArgument "vm_id is required")
  else
    r ← co_GetNextCommand c vmId;
    match r with
    | Err err => mret (Status Internal ("getting command: " +:+ err))
    | Ok cmd => mret (Reply (mkPbCommand (ac_ID cmd) (ac_Type cmd) (encode_param <$> ac_Parameters cmd)))
    end.

(** A result nobody waits for is dropped, and acknowledged all the same. *)
Definition ReportResult (req : ReportResultRequest) : M W (rpc ReportResultResponse) :=
  if decide (rr_AgentId req = "" ∨ rr_CommandId req = "")
  then mret (Status InvalidArgument "agent_id and command_id are required")
  else
    let res := mkAgentResult (rr_CommandId req) (rr_Status req) (rr_Output req) (rr_Logs req) (rr_DurationMs req) in
    _ ← co_DeliverResult (vm_of_agent (rr_AgentId req)) res;
    mret (Reply (mkReportResponse true "continue")).

End handlers.

(** ** Lemmas *)

Lemma vm_of_agent_id vmID : vmID ≠ "" → vm_of_agent (agent_id vmID) = vmID.
Proof.
  intros H. unfold vm_of_agent, agent_id. by rewrite decide_True by (destruct vmID; [done|simpl; lia]).
Qed.

(** The value the agent reads from a parameter. *)
Definition param_valid (v : param) : Prop :=
  match v with
  | PString _ => True
  | PStrings l => Forall valid_string l
  | PEnv env => ∀ k x, env !! k = Some x → valid_string k ∧ valid_string x
  end.

Definition reads_as (text : string) (v : param) : Prop :=
  match v with
  | PString s => text = s
  | PStrings l => Unmarshal (dec_slice "[]string" dec_string "") text [] = Ok l
  | PEnv env => Unmarshal (dec_map "map[string]string" dec_string "") text ∅ = Ok env
  end.

Lemma encode_reads v : param_valid v → reads_as (encode_param v) v.
Proof. destruct v; simpl; [done|apply strings_roundtrip|apply map_roundtrip]. Qed.

(** ** Properties *)

Section properties.
Context {W : Type} `{!Store W, !AgentSide W}.

(** The identifier an agent gets when it registers leads its results back
    to its VM: a report under that identifier is delivered, with every field,
    to the VM that registered, and acknowledged whatever the delivery says. *)
Theorem report_reaches_registered_vm c vm (w w' w1 : W) resp req :
  RegisterAgent c vm w = Done (Reply resp, w') →
  rr_AgentId req = rar_AgentId resp → rr_CommandId req ≠ "" →
  ReportResult req w1 =
    (_ ← co_DeliverResult vm (mkAgentResult (rr_CommandId req) (rr_Status req) (rr_Output req)
          (rr_Logs req) (rr_DurationMs req));
     mret (Reply (mkReportResponse true "continue"))) w1.
Proof.
  unfold RegisterAgent. case_decide as Hvm; [done|]. unfold mbind, M_bind. intros E Hid Hc.
  destruct (co_NotifyAgentReady vm (agent_id vm) w) as [[[u|err] w2]|]; [|done..].
  destruct (db_UpdateVMStatus c vm VMStatusReady w2) as [[r w3]|]; [|done]. injection E as <- <-.
  unfold ReportResult. simpl in Hid. rewrite Hid, vm_of_agent_id by done.
  rewrite decide_False; [done|]. intros [H|H]; [|done]. by destruct vm.
Qed.

(** The parameters of a command arrive: every parameter the engine put
    into a command is in the message, and reads back as the value it had, a
    string as itself and a list or an environment by parsing its JSON,
    whatever quotes, control characters or Unicode it holds. *)
Theorem command_parameters_arrive c vm (w w' : W) cmd :
  vm ≠ "" → co_GetNextCommand c vm w = Done (Ok cmd, w') →
  (∀ k v, ac_Parameters cmd !! k = Some v → param_valid v) →
  ∃ msg, GetCommand c vm w = Done (Reply msg, w') ∧
    pc_CommandId msg = ac_ID cmd ∧ pc_Type msg = ac_Type cmd ∧
    ∀ k, match ac_Parameters cmd !! k with
         | Some v => ∃ text, pc_Parameters msg !! k = Some text ∧ reads_as text v
         | None => pc_Parameters msg !! k = None
         end.
Proof.
  intros Hvm E Hv. unfold GetCommand. rewrite decide_False by done. rewrite (M_bind_done _ _ _ _ _ E).
  eexists. split; [reflexivity|]. split_and!; [done..|]. intros k. cbn [pc_Parameters]. rewrite lookup_fmap.
  destruct (ac_Parameters cmd !! k) as [v|] eqn:Ek; [|done]. exists (encode_param v).
  split; [done|]. by apply encode_reads, (Hv k).
Qed.

End properties.

(** ** Witnesses *)

(** A coordinator that has one command and takes every result. *)
Definition one_command : AgentCommand :=
  mkAgentCommand "cmd-1" "start_test"
    (<["binary" := PString "/bin/t"]> (<["args" := PStrings ["-n"; "3"]]>
      (<["env" := PEnv {["PATH" := "/bin"]}]> ∅))).

Definition sample_agents : AgentSide api_world := {|
  co_NotifyAgentReady _ _ := mret (Ok tt);
  co_GetNextCommand _ _ := mret (Ok one_command);
  co_DeliverResult _ _ := mret (Ok tt);
|}.

Definition sample_report : ReportResultRequest := mkReport "agent-vm-1" "cmd-1" "passed" "" "" 5.

Lemma report_reaches_registered_vm_witness :
  ReportResult (W:=api_world) (AgentSide0:=sample_agents) sample_report sample_api =
  Done (Reply (mkReportResponse true "continue"), sample_api).
Proof.
  rewrite (report_reaches_registered_vm (AgentSide0:=sample_agents) Background "vm-1" sample_api sample_api sample_api
    (mkRegisterAgentResponse "agent-vm-1" 5 "ok") sample_report); [reflexivity| |reflexivity|discriminate].
  vm_compute. reflexivity.
Defined.

Lemma command_parameters_arrive_witness : ∃ msg,
  GetCommand (W:=api_world) (AgentSide0:=sample_agents) Background "vm-1" sample_api = Done (Reply msg, sample_api) ∧
  ∃ text, pc_Parameters msg !! "args" = Some text ∧ reads_as text (PStrings ["-n"; "3"]).
Proof.
  destruct (command_parameters_arrive (AgentSide0:=sample_agents) Background "vm-1" sample_api sample_api one_command)
    as (msg & E & _ & _ & H); [discriminate|reflexivity| |].
  - intros k v. unfold one_command. cbn [ac_Parameters].
    intros [[<- <-]|[_ [[<- <-]|[_ [[<- <-]|[_ Hk]]%lookup_insert_Some]]%lookup_insert_Some]]%lookup_insert_Some.
    + exact I.
    + repeat constructor; by apply valid_ascii.
    + intros k x [<- <-]%lookup_singleton_Some. split; by apply valid_ascii.
    + by rewrite lookup_empty in Hk.
  - exists msg. split; [exact E|]. exact (H "args").
Defined.
