(* ===== verification/VmManager.v ===== *)
(** * The VM manager ([vm/manager.go])

    The life of a QEMU virtual machine: its record in the store, its command
    line, its process, its QMP connection, and the table of live VMs; and the
    adapter of [cmd/orchestrator/main.go], which adds the virtio-serial hub
    and is what the execution engine calls.  The operating system and QEMU
    are a parameter ([Machine]); the manager's own state is part of the world
    ([vm_world]). *)
From stdpp Require Import options.
From S2P Require Import Prelude GoStd Types Effects Config StepExec Interfaces.
Open Scope string_scope.
Open Scope list_scope.
Open Scope Z_scope.

Record VMConfig : Type := mkVMConfig {
  vc_DeviceEntry : option DeviceEntry;
  vc_MemoryMB : Z;
  vc_CPUs : Z;
  vc_KernelPath : string;
  vc_RootFSPath : string;
  vc_ShareDir : string;
  vc_GuestMount : string;
}.

(** A process is known by its identifier, a QMP client by its number. *)
Record liveVM : Type := mkLive {
  lv_process : Z;
  lv_qmpClient : option nat;
  lv_instance : VMInstance;
}.

Record VMManager : Type := mkVMManager {
  mgr_liveVMs : gmap string liveVM;
  mgr_counter : Z;
}.

Definition NewVMManager : VMManager := mkVMManager ∅ 0.

(** ** Names *)

Definition int_or (n d : Z) : Z := if decide (n = 0) then d else n.

Definition vm_id (unix counter : Z) : string := "vm-" +:+ fmt_d unix +:+ "-" +:+ fmt_d counter.

Definition qmp_socket (q : QEMUConfig) (vmID : string) : string :=
  Join [or_default (qemu_SocketDir q) "/tmp/dvf/qmp"; vmID +:+ ".sock"].

(** [AgentSocketPath] of [vm/virtio_serial.go]. *)
Definition AgentSocketPath (vmID : string) : string := Join ["/tmp/dvf/agent"; vmID +:+ ".sock"].

Definition overlay_path (vmID : string) : string := Join ["/tmp/dvf/overlays"; vmID +:+ ".qcow2"].

Definition log_path (vmID : string) : string := Join ["/tmp/dvf"; "qemu-" +:+ vmID +:+ ".log"].

Definition data_dir (q : QEMUConfig) : string :=
  or_default (qemu_DataDir q) (Join [Dir (Dir (qemu_BinaryPath q)); "share"; "qemu"]).

(** ** The command line *)

Definition BuildQEMUArgs (q : QEMUConfig) (vmID : string) (vmCfg : VMConfig) : list string :=
  let memMB := int_or (vc_MemoryMB vmCfg) (qemu_DefaultMemoryMB q) in
  let cpus := int_or (vc_CPUs vmCfg) (qemu_DefaultCPUs q) in
  let kernelPath := or_default (vc_KernelPath vmCfg) (qemu_KernelPath q) in
  let shareDir := or_default (vc_ShareDir vmCfg) (qemu_ShareDir q) in
  ["-L"; data_dir q;
   "-machine"; "q35";
   "-enable-kvm";
   "-cpu"; "host";
   "-kernel"; kernelPath;
   "-drive"; "file=" +:+ overlay_path vmID +:+ ",format=qcow2,if=virtio";
   "-append"; "root=/dev/vda console=ttyS0 rw init=/dvf-init dvf_vm_id=" +:+ vmID;
   "-m"; fmt_d memMB;
   "-smp"; fmt_d cpus;
   "-nographic";
   "-virtfs"; "local,path=" +:+ shareDir +:+ ",mount_tag=hostshare,security_model=none,id=hostshare";
   "-qmp"; "unix:" +:+ qmp_socket q vmID +:+ ",server,wait=off";
   "-chardev"; "socket,id=agent-chr,path=" +:+ AgentSocketPath vmID +:+ ",server=on,wait=off";
   "-device"; "virtio-serial-pci";
   "-device"; "virtserialport,chardev=agent-chr,name=dvf.agent.0"] ++
  match vc_DeviceEntry vmCfg with
  | Some d => ["-device"; de_QEMUDeviceName d]
  | None => []
  end.

(** ** The operating system, QEMU and the store *)

(** The VM part of [storage.Store]. *)
Class VMStore (W : Type) := {
  vs_SaveVM : ctx → VMInstance → M W (result unit);
  vs_GetVM : ctx → string → M W (result VMInstance);
  vs_UpdateVMStatus : ctx → string → VMStatus → M W (result unit);
}.

Class Machine (W : Type) := {
  os_MkdirAll : string → M W (result unit);
  os_Chmod : string → M W unit;
  os_Remove : string → M W (result unit);
  os_OpenLog : string → M W bool;                                  (* whether there is a log file *)
  exec_CombinedOutput : ctx → string → list string → M W (string * option string);
  exec_Start : ctx → string → list string → M W (result Z);        (* the process identifier *)
  go_Wait : Z → M W unit;                                          (* go func() { cmd.Wait(); ... }() *)
  process_Wait : Z → Z → M W (option (result unit));               (* Wait's answer, if it came in time *)
  process_Signal : Z → string → M W (result unit);
  process_Kill : Z → M W (result unit);
  qmp_New : string → M W nat;
  qmp_Connect : ctx → nat → M W (result unit);
  qmp_QueryStatus : ctx → nat → M W (result bool);
  qmp_Execute : ctx → nat → string → M W (result unit);
  qmp_Close : nat → M W unit;
  select_after : ctx → Z → M W (option string);                    (* the context's error, if it is done *)
  go_serveVM : ctx → string → M W unit;                            (* go h.serveVM(ctx, vmID) *)
  cancel_serveVM : string → M W unit;
}.

(** The world with the manager and the hub's table of connections. *)
Record vm_world (W : Type) : Type := mkVW {
  vw_mgr : VMManager;
  vw_cancels : gset string;
  vw_in : W;
}.
Arguments mkVW {W}.
Arguments vw_mgr {W}.
Arguments vw_cancels {W}.
Arguments vw_in {W}.

Definition under {W A : Type} (c : M W A) : M (vm_world W) A := λ w,
  match c (vw_in w) with
  | Done (a, x) => Done (a, mkVW (vw_mgr w) (vw_cancels w) x)
  | Panics why => Panics why
  end.

Definition get_mgr {W : Type} : M (vm_world W) VMManager := λ w, Done (vw_mgr w, w).
Definition put_mgr {W : Type} (m : VMManager) : M (vm_world W) unit := λ w,
  Done (tt, mkVW m (vw_cancels w) (vw_in w)).

Definition newline : string := String (Ascii.ascii_of_nat 10) EmptyString.

Section manager.
Context {W : Type} `{!Runtime W, !VMStore W, !Machine W} (cfg : GlobalConfig).

(** A change of status whose error is ignored. *)
Definition note_status (c : ctx) (vmID : string) (st : VMStatus) : M (vm_world W) unit :=
  _ ← under (vs_UpdateVMStatus c vmID st); mret tt.

Definition nextID : M (vm_world W) string :=
  m ← get_mgr;
  let n := int64 (mgr_counter m + 1) in
  now ← under rt_Now;
  _ ← put_mgr (mkVMManager (mgr_liveVMs m) n);
  mret (vm_id (now / 1000000000) n).

(** The record [CreateVM] saves. *)
Definition new_instance (vmID : string) (vmCfg : VMConfig) (now : Z) : VMInstance :=
  let q := cfg_QEMU cfg in
  mkVMInstance vmID VMStatusCreating
    (match vc_DeviceEntry vmCfg with Some d => de_ID d | None => "" end)
    (match vc_DeviceEntry vmCfg with Some d => de_QEMUDeviceName d | None => "" end)
    (qmp_socket q vmID) [] 0
    (int_or (vc_CPUs vmCfg) (qemu_DefaultCPUs q)) (int_or (vc_MemoryMB vmCfg) (qemu_DefaultMemoryMB q))
    (or_default (vc_RootFSPath vmCfg) (qemu_RootFSPath q)) "" now AgentStatusUnknown None "".

Definition CreateVM (c : ctx) (vmCfg : VMConfig) : M (vm_world W) (result VMInstance) :=
  vmID ← nextID;
  now ← under rt_Now;
  let instance := new_instance vmID vmCfg now in
  r ← under (vs_SaveVM c instance);
  match r with
  | Err err => mret (Err ("saving VM record: " +:+ err))
  | Ok _ => mret (Ok instance)
  end.

(** The directories of the sockets and the overlays. *)
Definition make_socket_dirs (instance : VMInstance) : M (vm_world W) (result unit) :=
  let socketDir := Dir (vm_QMPSocketPath instance) in
  r ← under (os_MkdirAll socketDir);
  match r with
  | Err err => mret (Err ("creating socket dir " +:+ socketDir +:+ ": " +:+ err))
  | Ok _ =>
    _ ← under (os_Chmod socketDir);
    r ← under (os_MkdirAll "/tmp/dvf/agent");
    match r with
    | Err err => mret (Err ("creating agent socket dir: " +:+ err))
    | Ok _ =>
      _ ← under (os_Chmod "/tmp/dvf/agent");
      _ ← under (os_Chmod "/tmp/dvf");
      mret (Ok tt)
    end
  end.

Definition overlay_args (vmID overlaySrc : string) : list string :=
  ["create"; "-f"; "qcow2"; "-b"; overlaySrc; "-F"; "raw"; overlay_path vmID].

Definition make_overlay (c : ctx) (vmID : string) (instance : VMInstance) : M (vm_world W) (result unit) :=
  r ← under (os_MkdirAll "/tmp/dvf/overlays");
  match r with
  | Err err => mret (Err ("creating overlay dir: " +:+ err))
  | Ok _ =>
    o ← under (exec_CombinedOutput c "qemu-img"
          (overlay_args vmID (or_default (vm_ImagePath instance) (qemu_RootFSPath (cfg_QEMU cfg)))));
    match (o : string * option string) with
    | (out, Some err) =>
      mret (Err ("creating qcow2 overlay for " +:+ vmID +:+ ": " +:+ err +:+ newline +:+ out))
    | (_, None) => mret (Ok tt)
    end
  end.

(** The configuration [StartVM] rebuilds from the record. *)
Definition stored_config (instance : VMInstance) : VMConfig :=
  mkVMConfig
    (if decide (vm_QEMUDeviceName instance = "") then None
     else Some (mkDeviceEntry "" "" "" "" "" (vm_QEMUDeviceName instance) "" "" "" "" [] [] ∅ [] ∅ "" "" ""))
    (vm_AllocatedMemMB instance) (vm_AllocatedCPUs instance) "" "" "" "".

(** The attempts to connect: [inr] is an error that ends [StartVM] at once,
    [inl] the error of the last attempt, if there was one. *)
Fixpoint connect_loop (n : nat) (qmpCtx : ctx) (client : nat) (last : option string) :
    M (vm_world W) (option string + string) :=
  match n with
  | O => mret (inl last)
  | S n' =>
    r ← under (qmp_Connect qmpCtx client);
    match r with
    | Ok _ => mret (inl None)
    | Err err =>
      d ← under (select_after qmpCtx 500000000);
      match d with
      | Some e => mret (inr e)
      | None => connect_loop n' qmpCtx client (Some err)
      end
    end
  end.

(** From the started process on. *)
Definition connect_vm (c : ctx) (vmID : string) (instance : VMInstance) (pid : Z) : M (vm_world W) (result unit) :=
  client ← under (qmp_New (vm_QMPSocketPath instance));
  now ← under rt_Now;
  let qmpCtx := WithTimeout c now (seconds (vmd_BootTimeoutSeconds (cfg_VMDefaults cfg))) in
  r ← connect_loop 30 qmpCtx client None;
  match r with
  | inr e =>
    _ ← note_status c vmID VMStatusError;
    mret (Err ("QMP connect timeout for VM " +:+ vmID +:+ ": " +:+ e))
  | inl (Some qmpErr) =>
    _ ← note_status c vmID VMStatusError;
    mret (Err ("connecting QMP for VM " +:+ vmID +:+ ": " +:+ qmpErr))
  | inl None =>
    m ← get_mgr;
    _ ← put_mgr (mkVMManager (<[vmID := mkLive pid (Some client) instance]> (mgr_liveVMs m)) (mgr_counter m));
    s ← under (qmp_QueryStatus qmpCtx client);
    _ ← match s with
        | Ok true => note_status c vmID VMStatusReady
        | _ => mret tt
        end;
    mret (Ok tt)
  end.

Definition launch (c : ctx) (vmID : string) (instance : VMInstance) : M (vm_world W) (result unit) :=
  let args := BuildQEMUArgs (cfg_QEMU cfg) vmID (stored_config instance) in
  hasLog ← under (os_OpenLog (log_path vmID));
  r ← under (exec_Start c (qemu_BinaryPath (cfg_QEMU cfg)) args);
  match r with
  | Err err =>
    _ ← note_status c vmID VMStatusError;
    mret (Err ("starting QEMU process: " +:+ err))
  | Ok pid =>
    _ ← (if (hasLog : bool) then under (go_Wait pid) else mret tt);
    _ ← note_status c vmID VMStatusBooting;
    connect_vm c vmID (set_vm_PID pid instance) pid
  end.

Definition StartVM (c : ctx) (vmID : string) : M (vm_world W) (result unit) :=
  i ← under (vs_GetVM c vmID);
  match i with
  | Err err => mret (Err ("getting VM " +:+ vmID +:+ ": " +:+ err))
  | Ok instance =>
    r ← make_socket_dirs instance;
    match r with
    | Err err => mret (Err err)
    | Ok _ =>
      _ ← under (os_Remove (vm_QMPSocketPath instance));
      r ← make_overlay c vmID instance;
      match r with
      | Err err => mret (Err err)
      | Ok _ => launch c vmID instance
      end
    end
  end.

(** [cleanup] *)
Definition cleanup (vmID : string) : M (vm_world W) unit :=
  m ← get_mgr;
  match mgr_liveVMs m !! vmID with
  | None => mret tt
  | Some live =>
    _ ← match lv_qmpClient live with Some q => under (qmp_Close q) | None => mret tt end;
    m' ← get_mgr;
    put_mgr (mkVMManager (delete vmID (mgr_liveVMs m')) (mgr_counter m'))
  end.

(** The graceful way down: whether [Wait] returned within ten seconds; its
    error is not looked at. *)
Definition power_down (c : ctx) (live : liveVM) : M (vm_world W) bool :=
  match lv_qmpClient live with
  | None => mret false
  | Some q =>
    r ← under (qmp_Execute c q "system_powerdown");
    match r with
    | Err _ => mret false
    | Ok _ =>
      done ← under (process_Wait (lv_process live) (10 * 1000000000));
      match done with Some _ => mret true | None => mret false end
    end
  end.

Definition force_kill (live : liveVM) : M (vm_world W) unit :=
  _ ← under (process_Signal (lv_process live) "SIGTERM");
  _ ← under (rt_Sleep (2 * 1000000000));
  _ ← under (process_Kill (lv_process live));
  mret tt.

Definition StopVM (c : ctx) (vmID : string) : M (vm_world W) (result unit) :=
  m ← get_mgr;
  match mgr_liveVMs m !! vmID with
  | None => mret (Err ("VM " +:+ vmID +:+ " is not running"))
  | Some live =>
    _ ← note_status c vmID VMStatusStopping;
    down ← power_down c live;
    _ ← (if (down : bool) then mret tt else force_kill live);
    _ ← cleanup vmID;
    _ ← note_status c vmID VMStatusStopped;
    mret (Ok tt)
  end.

Definition DestroyVM (c : ctx) (vmID : string) : M (vm_world W) (result unit) :=
  m ← get_mgr;
  _ ← match mgr_liveVMs m !! vmID with
      | Some _ => _ ← StopVM c vmID; mret tt
      | None => mret tt
      end;
  i ← under (vs_GetVM c vmID);
  _ ← match i with
      | Ok instance =>
        if decide (vm_QMPSocketPath instance ≠ "")
        then _ ← under (os_Remove (vm_QMPSocketPath instance)); mret tt
        else mret tt
      | Err _ => mret tt
      end;
  _ ← note_status c vmID VMStatusDestroyed;
  _ ← under (os_Remove (overlay_path vmID));
  mret (Ok tt).

Definition GetQMPClient (vmID : string) (m : VMManager) : result (option nat) :=
  match mgr_liveVMs m !! vmID with
  | None => Err ("VM " +:+ vmID +:+ " is not running")
  | Some live => Ok (lv_qmpClient live)
  end.

(** ** The hub's table, and the adapter *)

Definition ConnectVM (c : ctx) (vmID : string) : M (vm_world W) unit :=
  _ ← (λ w, Done (tt, mkVW (vw_mgr w) ({[vmID]} ∪ vw_cancels w) (vw_in w)));
  under (go_serveVM c vmID).

Definition DisconnectVM (vmID : string) : M (vm_world W) unit := λ w,
  let w' := mkVW (vw_mgr w) (vw_cancels w ∖ {[vmID]}) (vw_in w) in
  if decide (vmID ∈ vw_cancels w) then under (cancel_serveVM vmID) w' else Done (tt, w').

Definition adapter_CreateVM (c : ctx) (device : DeviceEntry) : M (vm_world W) (result VMInstance) :=
  CreateVM c (mkVMConfig (Some device) 0 0 "" "" "" "").

Definition adapter_StartVM (c : ctx) (vmID : string) : M (vm_world W) (result unit) :=
  r ← StartVM c vmID;
  match r with
  | Err err => mret (Err err)
  | Ok _ => _ ← ConnectVM c vmID; mret (Ok tt)
  end.

Definition adapter_StopVM (c : ctx) (vmID : string) : M (vm_world W) (result unit) :=
  _ ← DisconnectVM vmID; StopVM c vmID.

Definition adapter_DestroyVM (c : ctx) (vmID : string) : M (vm_world W) (result unit) := DestroyVM c vmID.

Definition vm_manager_instance : VMManagerInterface (vm_world W) := {|
  Interfaces.CreateVM := adapter_CreateVM;
  Interfaces.StartVM := adapter_StartVM;
  Interfaces.StopVM := adapter_StopVM;
  Interfaces.DestroyVM := adapter_DestroyVM;
|}.

End manager.
