(* ===== verification/VmSession.v ===== *)
(** * The VM manager under the engine

    The engine over the VM manager: the manager's operations always return
    and do to the table of live VMs what their names say, and a test run
    leaves no VM behind. *)
From Stdlib Require Import Ascii.
From stdpp Require Import options.
From S2P Require Import Prelude GoStd GoChan Types Topo Scheduler Allocator Workflow WorkflowRun MemoryStore.
From S2P Require Import Effects Config Json StepExec Interfaces RunWorkflow StepGoroutines Engine Lifecycle VmManager.
Open Scope string_scope.
Open Scope list_scope.
Open Scope Z_scope.
#[local] Set Default Proof Using "Type*".

(** ** The rest of the world *)

Section lifted.
Context {W : Type}.

Global Instance under_store `{!EngineStore W} : EngineStore (vm_world W) := {|
  Effects.UpdateTestRunStatus c id st msg := under (Effects.UpdateTestRunStatus c id st msg);
  Effects.GetTestResults c id := under (Effects.GetTestResults c id);
  Effects.SaveTestResult c res := under (Effects.SaveTestResult c res);
|}.

Global Instance under_runtime `{!Runtime W} : Runtime (vm_world W) := {|
  rt_Now := under rt_Now;
  rt_cancelled r w := rt_cancelled r (vw_in w);
  rt_clock w := rt_clock (vw_in w);
  rt_Sleep d := under (rt_Sleep d);
  rt_ResubmitLater run := under (rt_ResubmitLater run);
|}.

Global Instance under_agents `{!AgentCoordinatorInterface W} : AgentCoordinatorInterface (vm_world W) := {|
  RegisterVM id := under (RegisterVM id);
  UnregisterVM id := under (UnregisterVM id);
  WaitForAgent c id := under (WaitForAgent c id);
  SendCommand c id cmd := under (SendCommand c id cmd);
|}.

Global Instance under_allocator `{!AllocatorInterface W} : AllocatorInterface (vm_world W) := {|
  al_TryAcquire a := under (al_TryAcquire a);
  al_Release a := under (al_Release a);
|}.

Global Instance under_telemetry `{!Telemetry W} : Telemetry (vm_world W) := {|
  Publish c e := under (Publish c e);
  LogCancel id who := under (LogCancel id who);
  LogComplete id st d := under (LogComplete id st d);
  LogVMEvent what vm dev run := under (LogVMEvent what vm dev run);
|}.

Global Instance under_files `{!FileSystem W} : FileSystem (vm_world W) := {|
  os_Getwd := under os_Getwd;
  os_Stat p := under (os_Stat p);
  os_ReadFile p := under (os_ReadFile p);
|}.

Global Instance total_under {A} (c : M W A) : Total c → Total (under c).
Proof. intros Hc w. destruct (Hc (vw_in w)) as (a & x & E). unfold under. rewrite E. eauto. Qed.

Global Instance under_safe_store `{!EngineStore W, !SafeStore W} : SafeStore (vm_world W).
Proof. split; intros; apply total_under, _. Qed.
Global Instance under_safe_runtime `{!Runtime W, !SafeRuntime W} : SafeRuntime (vm_world W).
Proof. split; intros; apply total_under, _. Qed.
Global Instance under_safe_agents `{!AgentCoordinatorInterface W, !SafeAgents W} : SafeAgents (vm_world W).
Proof. split; intros; apply total_under, _. Qed.
Global Instance under_safe_allocator `{!AllocatorInterface W, !SafeAllocator W} : SafeAllocator (vm_world W).
Proof. split; intros; apply total_under, _. Qed.
Global Instance under_safe_telemetry `{!Telemetry W, !SafeTelemetry W} : SafeTelemetry (vm_world W).
Proof. split; intros; apply total_under, _. Qed.
Global Instance under_safe_files `{!FileSystem W, !SafeFiles W} : SafeFiles (vm_world W).
Proof. split; intros; apply total_under, _. Qed.

(** What belongs to the manager and the hub. *)
Definition own (w : vm_world W) : VMManager * gset string := (vw_mgr w, vw_cancels w).

Global Instance keeps_under {A} (c : M W A) : Keeps own (under c).
Proof. intros w a w'. unfold under. destruct (c (vw_in w)) as [[b x]|]; [|done]. by intros [= _ <-]. Qed.

Global Instance keeps_get_mgr : Keeps own (get_mgr (W:=W)).
Proof. by intros w a w' [= _ ->]. Qed.

End lifted.

(** ** The manager returns *)

Class SafeVMStore (W : Type) `{!VMStore W} : Prop := {
  #[global] safe_save_vm c v :: Total (vs_SaveVM c v);
  #[global] safe_get_vm c id :: Total (vs_GetVM c id);
  #[global] safe_vm_status c id st :: Total (vs_UpdateVMStatus c id st);
}.

Class SafeMachine (W : Type) `{!Machine W} : Prop := {
  #[global] safe_mkdir p :: Total (os_MkdirAll p);
  #[global] safe_chmod p :: Total (os_Chmod p);
  #[global] safe_remove p :: Total (os_Remove p);
  #[global] safe_open p :: Total (os_OpenLog p);
  #[global] safe_output c p args :: Total (exec_CombinedOutput c p args);
  #[global] safe_exec c p args :: Total (exec_Start c p args);
  #[global] safe_go_wait pid :: Total (go_Wait pid);
  #[global] safe_process_wait pid d :: Total (process_Wait pid d);
  #[global] safe_signal pid sig :: Total (process_Signal pid sig);
  #[global] safe_kill pid :: Total (process_Kill pid);
  #[global] safe_qmp_new p :: Total (qmp_New p);
  #[global] safe_qmp_connect c q :: Total (qmp_Connect c q);
  #[global] safe_qmp_status c q :: Total (qmp_QueryStatus c q);
  #[global] safe_qmp_exec c q cmd :: Total (qmp_Execute c q cmd);
  #[global] safe_qmp_close q :: Total (qmp_Close q);
  #[global] safe_select c d :: Total (select_after c d);
  #[global] safe_serve c id :: Total (go_serveVM c id);
  #[global] safe_cancel_serve id :: Total (cancel_serveVM id);
}.

Section returns.
Context {W : Type} `{!Runtime W, !VMStore W, !Machine W, !SafeRuntime W, !SafeVMStore W, !SafeMachine W}.
Context (cfg : GlobalConfig).

Global Instance total_get_mgr : Total (get_mgr (W:=W)).
Proof. intros w. unfold get_mgr. eauto. Qed.
Global Instance total_put_mgr m : Total (put_mgr (W:=W) m).
Proof. intros w. unfold put_mgr. eauto. Qed.

Global Instance total_connect_loop n c q l : Total (W:=vm_world W) (connect_loop n c q l).
Proof. revert l. induction n as [|n IH]; intros l; simpl; solve_total. Qed.

Lemma total_StartVM c id : Total (W:=vm_world W) (StartVM cfg c id).
Proof.
  unfold StartVM, make_socket_dirs, make_overlay, launch, connect_vm, note_status. solve_total.
Qed.

Lemma total_StopVM c id : Total (W:=vm_world W) (StopVM c id).
Proof. unfold StopVM, power_down, force_kill, cleanup, note_status. solve_total. Qed.

Lemma manager_safe : @SafeVMs (vm_world W) (vm_manager_instance cfg).
Proof.
  split; intros; simpl.
  - unfold adapter_CreateVM, CreateVM, nextID. solve_total.
  - apply total_bind; [apply total_StartVM|]. intros [[]|err]; [|apply _]. unfold ConnectVM.
    apply total_bind; [|apply _]. apply total_bind; [|apply _]. intros w. eauto.
  - apply total_bind; [|intros _; apply total_StopVM].
    intros w. unfold DisconnectVM. case_decide; [apply total_under, _|eauto].
  - pose proof total_StopVM. unfold adapter_DestroyVM, DestroyVM, note_status. solve_total.
Qed.

End returns.

(** ** What the engine leaves alone *)

Section steps_keep.
Context {W B : Type} `{!EngineStore W, !Runtime W, !AgentCoordinatorInterface W} (f : W → B).
Context `{!∀ c res, Keeps f (Effects.SaveTestResult c res), !Keeps f rt_Now, !∀ d, Keeps f (rt_Sleep d),
  !∀ c id cmd, Keeps f (SendCommand c id cmd)}.

Lemma keeps_phase c run device vmID def ph calls : phase_move c run device vmID def ph = inl calls → Keeps f calls.
Proof.
  destruct ph as [k|[|p todo] next|k|st err]; simpl; intros E; [..|done]; injection E as <-;
    unfold attempt_send, store_one; [|solve_keeps..].
  apply keeps_bind; [|intros ?; solve_keeps]. apply keeps_bind; [|intros ?; solve_keeps].
  intros w a w'. unfold lift. destruct (step_command _ _ _ _); [|done]. by intros [= _ ->].
Qed.

(** The steps' goroutines, running or left behind. *)
Lemma keeps_calls c run device vmID (b : B) : calls_keep c run device vmID (λ y, f y = b).
Proof.
  intros def ph calls x Em <-. apply keeps_wp. by eapply keeps_phase.
Qed.

Lemma keeps_late x x' : rtc late_step x x' → f (cw_world x') = f (cw_world x).
Proof.
  intros Hr. refine (late_step_keeps (λ y, f (cw_world y) = f (cw_world x)) x x' _ Hr eq_refl).
  intros i sid k gs q w y Hy _ _ E. simpl. rewrite <- Hy.
  exact (goroutine_move_world _ _ _ _ (λ z, f z = f (cw_world y)) _ _ _ _ _ _ _ (keeps_calls _ _ _ _ _) E eq_refl).
Qed.

Global Instance keeps_among {A} (c : M W A) : Keeps f c → Keeps (λ x, f (cw_world x)) (among c).
Proof.
  intros Hc x a x' E. apply among_steps in E as (x1 & w & Hr & Ec & ->). simpl.
  by rewrite (keeps f c _ _ _ Ec), (keeps_late _ _ Hr).
Qed.

Global Instance keeps_leave k : Keeps (λ x, f (cw_world x)) (W:=crewed W) (rt_LeaveRunning k).
Proof. intros x a x'. unfold rt_LeaveRunning, crewed_goroutines. case_decide; [|done]. by intros [= _ <-]. Qed.

(** A call that the goroutines left behind come before. *)
Lemma wp_among {A} (c : M W A) (Q : A → W → Prop) x :
  (∀ w, f w = f (cw_world x) → wp c Q w) → wp (among c) (λ a x', Q a (cw_world x')) x.
Proof.
  intros Hc. apply wp_intro. intros a x' E. apply among_steps in E as (x1 & w & Hr & Ec & ->).
  refine (wp_returns _ _ _ _ _ (Hc (cw_world x1) _) Ec). by rewrite (keeps_late _ _ Hr).
Qed.

End steps_keep.

Section engine_keeps.
Context {W B : Type} `{!EngineStore W, !Runtime W, !AgentCoordinatorInterface W, !Telemetry W, !FileSystem W,
  !Goroutines W} (f : W → B).
Context `{!∀ c id st msg, Keeps f (Effects.UpdateTestRunStatus c id st msg),
  !∀ c id, Keeps f (Effects.GetTestResults c id), !∀ c res, Keeps f (Effects.SaveTestResult c res),
  !Keeps f rt_Now, !∀ d, Keeps f (rt_Sleep d), !∀ run, Keeps f (rt_ResubmitLater run),
  !∀ id, Keeps f (RegisterVM id), !∀ id, Keeps f (UnregisterVM id),
  !∀ c id, Keeps f (WaitForAgent c id), !∀ c id cmd, Keeps f (SendCommand c id cmd),
  !∀ c ev, Keeps f (Publish c ev), !∀ id who, Keeps f (LogCancel id who),
  !∀ id st d, Keeps f (LogComplete id st d), !∀ what vm dev run, Keeps f (LogVMEvent what vm dev run),
  !Keeps f os_Getwd, !∀ p, Keeps f (os_Stat p), !∀ p, Keeps f (os_ReadFile p),
  !∀ k, Keeps f (rt_LeaveRunning k)}.

Lemma keeps_runWorkflow c run device vmID v pick suite :
  legal_visits (ts_Steps suite) v → Keeps f (runWorkflow c run device vmID v pick suite).
Proof.
  intros Hv w a w'. unfold runWorkflow.
  destruct (NewWorkflow v (ts_ID suite) (tr_ID run) (ts_Steps suite)) as [wf|err] eqn:Ew; [|by intros [= _ ->]].
  destruct (rw_init_inv (ts_Steps suite) v _ _ wf w Hv Ew) as [Hinv Hm].
  destruct (rw_loop_returns c run device vmID (ts_Steps suite) pick (rw_fuel (ts_Steps suite)) 0 _ Hinv)
    as [[why ->]|(s & Hr & _ & _ & ->)]; [by rewrite Hm|done|done|].
  assert (Hs : f (rw_world s) = f w) by exact (rw_reach_world c run device vmID (λ y, f y = f w) _ _ (keeps_calls f _ _ _ _ _) Hr eq_refl).
  case_decide; [by intros [= _ <-]|]. unfold mbind, M_bind.
  destruct (rt_LeaveRunning _ _) as [[[] x']|] eqn:El; [|done]. intros [= _ <-]. by rewrite (keeps f _ _ _ _ El).
Qed.

Context (e : ExecutionEngine) (ch : choices) (Hch : choices_ok ch).

Lemma keeps_driver c run device vmID pick suite :
  Keeps f (runWorkflow c run device vmID (ch_visits ch (ts_Steps suite)) pick suite).
Proof. apply keeps_runWorkflow, Hch. Qed.
#[local] Existing Instance keeps_driver.

Global Instance keeps_when b {A} (c : M W A) : Keeps f c → Keeps f (when b c).
Proof. intros Hc. unfold when. destruct b; apply _. Qed.

Global Instance keeps_publish c ev : Keeps f (publish e c ev).
Proof. unfold publish. apply _. Qed.

Global Instance keeps_update c run st msg : Keeps f (update_status c run st msg).
Proof. unfold update_status. apply _. Qed.

Global Instance keeps_started c t run device vm suite : Keeps f (started_stage e ch c t run device vm suite).
Proof. unfold started_stage, agent_stage, workflow_stage, must_pass, final_stage. solve_keeps. Qed.

Global Instance keeps_climb fuel dir id : Keeps f (climb fuel dir id).
Proof. revert dir. induction fuel as [|n IH]; intros dir; simpl; solve_keeps. Qed.

Global Instance keeps_read_first ps r : Keeps f (read_first ps r).
Proof. revert r. induction ps as [|p ps IH]; intros r; simpl; solve_keeps. Qed.

Global Instance keeps_load id device : Keeps f (loadTestSuite id device).
Proof.
  unfold loadTestSuite, find_suite. destruct (isVishwaSuite id); [|solve_keeps].
  intros w a w'. destruct (vishwa_suite _ _); [|done]. by intros [= _ ->].
Qed.

End engine_keeps.

(** ** What the manager's operations do *)

Section manager_spec.
Context {W : Type} `{!Runtime W, !VMStore W, !Machine W} (cfg : GlobalConfig).
Implicit Types (w : vm_world W) (m : VMManager) (cs : gset string).

Lemma wp_keeps_bind {B A C} (f : vm_world W → B) (c : M (vm_world W) A) (k : A → M (vm_world W) C) Q w :
  Keeps f c → (∀ a w', f w' = f w → wp (k a) Q w') → wp (c ≫= k) Q w.
Proof.
  intros Hc Hk. apply wp_bind. eapply wp_mono; [by apply (keeps_wp f)|]. intros a w' E. by apply Hk.
Qed.

Lemma wp_get_mgr {C} (k : VMManager → M (vm_world W) C) Q w : wp (k (vw_mgr w)) Q w → wp (get_mgr ≫= k) Q w.
Proof. intros H. apply wp_bind. by apply wp_intro; intros a w' [= <- <-]. Qed.

Lemma wp_put_mgr {C} m (k : unit → M (vm_world W) C) Q w :
  wp (k tt) Q (mkVW m (vw_cancels w) (vw_in w)) → wp (put_mgr m ≫= k) Q w.
Proof. intros H. apply wp_bind. by apply wp_intro; intros [] w' [= <-]. Qed.

Global Instance keeps_note c id st : Keeps own (note_status (W:=W) c id st).
Proof. unfold note_status. apply _. Qed.

(** A call that changes nothing of the manager's. *)
Ltac keep x w H := apply (wp_keeps_bind own); [solve_keeps|]; intros x w H.

Lemma create_own c vmCfg w :
  0 ≤ mgr_counter (vw_mgr w) < max_int64 →
  wp (CreateVM cfg c vmCfg) (λ r w',
    own w' = (mkVMManager (mgr_liveVMs (vw_mgr w)) (mgr_counter (vw_mgr w) + 1), vw_cancels w) ∧
    ∀ vm, r = Ok vm → ∃ t, vm_ID vm = vm_id t (mgr_counter (vw_mgr w) + 1)) w.
Proof.
  intros Hc. unfold CreateVM. apply wp_bind. unfold nextID. apply wp_get_mgr.
  rewrite int64_id by (unfold in_int64, max_int64, min_int64 in *; lia).
  keep now w1 K1. injection K1 as Hm Hcs. apply wp_put_mgr, wp_ret. keep now' w2 K2. keep r w3 K3.
  rewrite K2 in K3. unfold own at 2 in K3. simpl in K3. rewrite Hcs in K3.
  destruct r as [[]|err]; apply wp_ret; (split; [exact K3|]); [|done]. intros vm [= <-]. by eexists.
Qed.

Global Instance keeps_connect_loop n c q l : Keeps own (W:=vm_world W) (connect_loop n c q l).
Proof. revert l. induction n as [|n IH]; intros l; simpl; solve_keeps. Qed.

(** Started: either nothing changed, or the VM is live. *)
Definition started (id : string) w (r : result unit) w' : Prop :=
  match r with
  | Err _ => own w' = own w
  | Ok _ => ∃ l, vw_cancels w' = vw_cancels w ∧
      vw_mgr w' = mkVMManager (<[id := l]> (mgr_liveVMs (vw_mgr w))) (mgr_counter (vw_mgr w))
  end.

Lemma connect_own c id inst pid w : wp (connect_vm cfg c id inst pid) (started id w) w.
Proof.
  unfold connect_vm. keep q w1 K1. keep now w2 K2. keep r w3 K3. assert (Ho : own w3 = own w) by congruence.
  destruct r as [[qmpErr|]|e0]; [keep x w4 K4; apply wp_ret; simpl; congruence| |].
  2: by keep x w4 K4; apply wp_ret; simpl; congruence.
  apply wp_get_mgr, wp_put_mgr. keep st w4 K4. keep x w5 K5. apply wp_ret. injection Ho as Hm Hcs.
  rewrite K4 in K5. injection K5 as E1 E2. simpl in E2. unfold started. rewrite E2, E1, Hm. by eexists.
Qed.

Lemma start_own c id w : wp (StartVM cfg c id) (started id w) w.
Proof.
  unfold StartVM, launch. keep i w1 K1. destruct i as [inst|err]; [|by apply wp_ret].
  apply (wp_keeps_bind own); [unfold make_socket_dirs; solve_keeps|].
  intros [[]|err] w2 K2; [|apply wp_ret; simpl; congruence]. keep x w3 K3.
  apply (wp_keeps_bind own); [unfold make_overlay; solve_keeps|].
  intros [[]|err] w4 K4; [|apply wp_ret; simpl; congruence].
  keep hasLog w5 K5. keep r w6 K6. assert (Ho : own w6 = own w) by congruence.
  destruct r as [pid|err]; [|by keep y w7 K7; apply wp_ret; simpl; congruence].
  keep y w7 K7. keep z w8 K8. assert (Ho' : own w8 = own w) by congruence.
  eapply wp_mono; [apply connect_own|]. intros r w9 Hr. injection Ho' as Hm Hcs.
  unfold started, own in *. by rewrite Hm, Hcs in Hr.
Qed.

Lemma cleanup_own id w :
  wp (cleanup id) (λ _ w', vw_cancels w' = vw_cancels w ∧
    vw_mgr w' = mkVMManager (delete id (mgr_liveVMs (vw_mgr w))) (mgr_counter (vw_mgr w))) w.
Proof.
  unfold cleanup. apply wp_get_mgr. destruct (mgr_liveVMs (vw_mgr w) !! id) as [l|] eqn:E.
  - keep x w1 K1. injection K1 as Hm Hcs. apply wp_get_mgr, wp_intro. intros [] w2 [= <-]. simpl. by rewrite Hm, Hcs.
  - apply wp_ret. split; [done|]. rewrite delete_id by done. by destruct (vw_mgr w).
Qed.

(** Stopped: the VM is not live, whether it was or not. *)
Definition stopped (id : string) w w' : Prop :=
  vw_cancels w' = vw_cancels w ∧
  vw_mgr w' = mkVMManager (delete id (mgr_liveVMs (vw_mgr w))) (mgr_counter (vw_mgr w)).

Lemma stop_own c id w : wp (StopVM c id) (λ _, stopped id w) w.
Proof.
  unfold StopVM. apply wp_get_mgr. destruct (mgr_liveVMs (vw_mgr w) !! id) as [l|] eqn:E.
  - keep x w1 K1. apply (wp_keeps_bind own); [unfold power_down; solve_keeps|]. intros down w2 K2.
    apply (wp_keeps_bind own); [unfold force_kill; solve_keeps|]. intros y w3 K3.
    assert (Ho : own w3 = own w) by congruence. injection Ho as Hm Hcs.
    apply wp_bind. eapply wp_mono; [apply cleanup_own|]. intros _ w4 [C1 C2].
    keep z w5 K5. apply wp_ret. injection K5 as Hm5 Hcs5. split; [by rewrite Hcs5, C1|by rewrite Hm5, C2, Hm].
  - apply wp_ret. split; [done|]. rewrite delete_id by done. by destruct (vw_mgr w).
Qed.

Lemma destroy_own c id w : wp (DestroyVM c id) (λ _, stopped id w) w.
Proof.
  unfold DestroyVM. apply wp_get_mgr, wp_bind.
  assert (Hstop : wp (match mgr_liveVMs (vw_mgr w) !! id with
                      | Some _ => _ ← StopVM c id; mret tt | None => mret tt end) (λ _, stopped id w) w).
  { destruct (mgr_liveVMs (vw_mgr w) !! id) eqn:E.
    - apply wp_bind. eapply wp_mono; [apply stop_own|]. intros r w1 K. by apply wp_ret.
    - apply wp_ret. split; [done|]. rewrite delete_id by done. by destruct (vw_mgr w). }
  eapply wp_mono; [apply Hstop|]. intros _ w1 [C1 C2].
  keep i w2 K2. keep x w3 K3. keep y w4 K4. keep z w5 K5. apply wp_ret.
  assert (Ho : own w5 = own w1) by congruence. injection Ho as Hm Hcs. split; congruence.
Qed.

(** *** The adapter *)

Lemma adapter_start_own c id w :
  wp (adapter_StartVM cfg c id) (λ r w', match r with
    | Err _ => own w' = own w
    | Ok _ => ∃ l, own w' = (mkVMManager (<[id := l]> (mgr_liveVMs (vw_mgr w))) (mgr_counter (vw_mgr w)),
                             {[id]} ∪ vw_cancels w)
    end) w.
Proof.
  unfold adapter_StartVM. apply wp_bind. eapply wp_mono; [apply start_own|].
  intros [[]|err] w1; [|intros H; by apply wp_ret]. intros (l & Hcs & Hm). unfold ConnectVM.
  apply wp_bind, wp_bind, wp_intro. intros [] w2 [= <-]. eapply wp_mono; [apply (keeps_wp own), _|].
  intros u w3 K3. apply wp_ret. exists l. rewrite K3. unfold own. simpl. by rewrite Hcs, Hm.
Qed.

Lemma adapter_stop_own c id w :
  wp (adapter_StopVM c id) (λ _ w',
    own w' = (mkVMManager (delete id (mgr_liveVMs (vw_mgr w))) (mgr_counter (vw_mgr w)), vw_cancels w ∖ {[id]})) w.
Proof.
  unfold adapter_StopVM. apply wp_bind.
  assert (Hd : wp (DisconnectVM id) (λ _ w', own w' = (vw_mgr w, vw_cancels w ∖ {[id]})) w).
  { apply wp_intro. intros a w1. unfold DisconnectVM. case_decide; [|by intros [= _ <-]].
    intros E. by rewrite (keeps own (under (cancel_serveVM id)) _ _ _ E). }
  eapply wp_mono; [apply Hd|]. intros _ w1 [= Hm Hcs]. eapply wp_mono; [apply stop_own|].
  intros _ w2 [C1 C2]. unfold own. by rewrite C1, C2, Hm, Hcs.
Qed.

End manager_spec.

(** ** Identifiers are fresh *)

Definition is_dash (c : Ascii.ascii) : bool := bool_decide (c = "-"%char).

Lemma pretty_go_plain sep x s :
  (∀ n, sep (pretty_N_char n) = false) → split_on sep s = [s] → split_on sep (pretty_N_go x s) = [pretty_N_go x s].
Proof.
  intros Hsep. revert s. induction (N.lt_wf_0 x) as [x _ IH]. intros s Hs.
  destruct (decide (0 < x)%N) as [Hx|Hx]; [|by replace x with 0%N by lia].
  rewrite pretty_N_go_step by done. apply IH; [apply N.div_lt; lia|]. simpl. by rewrite Hsep, Hs.
Qed.

Lemma fmt_d_plain k : 0 ≤ k → split_on is_dash (fmt_d k) = [fmt_d k].
Proof.
  intros Hk. unfold fmt_d, pretty, pretty_Z. destruct k as [|p|p]; [done| |lia].
  unfold pretty, pretty_positive, pretty, pretty_N. rewrite decide_False by lia. apply pretty_go_plain; [|done].
  intros n. unfold pretty_N_char. by repeat case_match.
Qed.

Lemma vm_id_split t k :
  0 ≤ k → split_on is_dash (vm_id t k) = split_on is_dash ("vm-" +:+ fmt_d t) ++ [fmt_d k].
Proof.
  intros Hk. rewrite <- (fmt_d_plain k Hk), <- (split_on_cut is_dash _ "-"%char) by done.
  by rewrite str_app_assoc.
Qed.

Lemma vm_id_inj t t' k k' : 0 ≤ k → 0 ≤ k' → vm_id t k = vm_id t' k' → k = k'.
Proof.
  intros Hk Hk' E. pose proof (vm_id_split t k Hk) as E1. rewrite E, vm_id_split in E1 by done.
  apply app_inj_2 in E1 as [_ [= E1]]; [|done]. by apply (inj pretty).
Qed.

(** The VMs in the tables got their identifiers from this manager. *)
Definition mgr_inv {W} (w : vm_world W) : Prop :=
  0 ≤ mgr_counter (vw_mgr w) ∧
  ∀ id, is_Some (mgr_liveVMs (vw_mgr w) !! id) ∨ id ∈ vw_cancels w →
    ∃ t k, 1 ≤ k ≤ mgr_counter (vw_mgr w) ∧ id = vm_id t k.

Lemma next_vm_free {W} (w : vm_world W) t :
  mgr_inv w → let id := vm_id t (mgr_counter (vw_mgr w) + 1) in
  mgr_liveVMs (vw_mgr w) !! id = None ∧ id ∉ vw_cancels w.
Proof.
  intros [Hc Hids] id. split.
  - apply eq_None_not_Some. intros Hs. destruct (Hids id) as (t' & k & Hk & E); [by left|].
    apply vm_id_inj in E; lia.
  - intros Hs. destruct (Hids id) as (t' & k & Hk & E); [by right|]. apply vm_id_inj in E; lia.
Qed.

(** ** A run leaves no VM behind *)

Section session.
Context {W : Type} `{!EngineStore W, !Runtime W, !AgentCoordinatorInterface W, !AllocatorInterface W,
  !Telemetry W, !FileSystem W, !VMStore W, !Machine W}.
Context (cfg : GlobalConfig) (e : ExecutionEngine) (ch : choices) (Hch : choices_ok ch).
Implicit Types (w : vm_world W) (x : crewed (vm_world W)).

#[local] Instance session_vms : VMManagerInterface (vm_world W) := vm_manager_instance cfg.

Instance own_update c id st msg : Keeps own (W:=vm_world W) (Effects.UpdateTestRunStatus c id st msg) := keeps_under _.
Instance own_results c id : Keeps own (W:=vm_world W) (Effects.GetTestResults c id) := keeps_under _.
Instance own_save c res : Keeps own (W:=vm_world W) (Effects.SaveTestResult c res) := keeps_under _.
Instance own_now : Keeps own (W:=vm_world W) rt_Now := keeps_under _.
Instance own_sleep d : Keeps own (W:=vm_world W) (rt_Sleep d) := keeps_under _.
Instance own_resubmit run : Keeps own (W:=vm_world W) (rt_ResubmitLater run) := keeps_under _.
Instance own_register id : Keeps own (W:=vm_world W) (RegisterVM id) := keeps_under _.
Instance own_unregister id : Keeps own (W:=vm_world W) (UnregisterVM id) := keeps_under _.
Instance own_wait c id : Keeps own (W:=vm_world W) (WaitForAgent c id) := keeps_under _.
Instance own_send c id cmd : Keeps own (W:=vm_world W) (SendCommand c id cmd) := keeps_under _.
Instance own_acquire a : Keeps own (W:=vm_world W) (al_TryAcquire a) := keeps_under _.
Instance own_release a : Keeps own (W:=vm_world W) (al_Release a) := keeps_under _.
Instance own_publish c ev : Keeps own (W:=vm_world W) (Publish c ev) := keeps_under _.
Instance own_cancel id who : Keeps own (W:=vm_world W) (LogCancel id who) := keeps_under _.
Instance own_complete id st d : Keeps own (W:=vm_world W) (LogComplete id st d) := keeps_under _.
Instance own_vm_event what vm dev run : Keeps own (W:=vm_world W) (LogVMEvent what vm dev run) := keeps_under _.
Instance own_getwd : Keeps own (W:=vm_world W) os_Getwd := keeps_under _.
Instance own_stat p : Keeps own (W:=vm_world W) (os_Stat p) := keeps_under _.
Instance own_read p : Keeps own (W:=vm_world W) (os_ReadFile p) := keeps_under _.

(** What belongs to the manager and the hub, with the goroutines of steps. *)
Definition crewed_own x : VMManager * gset string := own (cw_world x).

Instance crewed_keeps {A} (c : M (vm_world W) A) : Keeps own c → Keeps crewed_own (among c).
Proof. apply keeps_among; apply _. Qed.
Instance crewed_keeps_leave k : Keeps crewed_own (W:=crewed (vm_world W)) (rt_LeaveRunning k).
Proof. apply keeps_leave; apply _. Qed.

Ltac among := apply crewed_keeps, _.
Instance crewed_own_update c id st msg : Keeps crewed_own (Effects.UpdateTestRunStatus c id st msg).
Proof. among. Qed.
Instance crewed_own_results c id : Keeps crewed_own (Effects.GetTestResults c id).
Proof. among. Qed.
Instance crewed_own_save c res : Keeps crewed_own (Effects.SaveTestResult c res).
Proof. among. Qed.
Instance crewed_own_now : Keeps crewed_own rt_Now.
Proof. among. Qed.
Instance crewed_own_sleep d : Keeps crewed_own (rt_Sleep d).
Proof. among. Qed.
Instance crewed_own_resubmit run : Keeps crewed_own (rt_ResubmitLater run).
Proof. among. Qed.
Instance crewed_own_register id : Keeps crewed_own (RegisterVM id).
Proof. among. Qed.
Instance crewed_own_unregister id : Keeps crewed_own (UnregisterVM id).
Proof. among. Qed.
Instance crewed_own_wait c id : Keeps crewed_own (WaitForAgent c id).
Proof. among. Qed.
Instance crewed_own_send c id cmd : Keeps crewed_own (SendCommand c id cmd).
Proof. among. Qed.
Instance crewed_own_acquire a : Keeps crewed_own (al_TryAcquire a).
Proof. among. Qed.
Instance crewed_own_release a : Keeps crewed_own (al_Release a).
Proof. among. Qed.
Instance crewed_own_publish c ev : Keeps crewed_own (Publish c ev).
Proof. among. Qed.
Instance crewed_own_cancel id who : Keeps crewed_own (LogCancel id who).
Proof. among. Qed.
Instance crewed_own_complete id st d : Keeps crewed_own (LogComplete id st d).
Proof. among. Qed.
Instance crewed_own_vm_event what vm dev run : Keeps crewed_own (LogVMEvent what vm dev run).
Proof. among. Qed.
Instance crewed_own_getwd : Keeps crewed_own os_Getwd.
Proof. among. Qed.
Instance crewed_own_stat p : Keeps crewed_own (os_Stat p).
Proof. among. Qed.
Instance crewed_own_read p : Keeps crewed_own (os_ReadFile p).
Proof. among. Qed.
Instance crewed_own_started c t run device vm suite : Keeps crewed_own (started_stage e ch c t run device vm suite).
Proof. exact (keeps_started crewed_own e ch Hch c t run device vm suite). Qed.

(** The same VMs are live and connected. *)
Definition same_tables w w' : Prop :=
  mgr_liveVMs (vw_mgr w') = mgr_liveVMs (vw_mgr w) ∧ vw_cancels w' = vw_cancels w.

Lemma own_same w w' : own w' = own w → same_tables w w'.
Proof. intros [= H1 H2]. split; congruence. Qed.

Lemma late_same w x x' : rtc late_step x x' → same_tables w (cw_world x) → same_tables w (cw_world x').
Proof.
  intros Hr [S1 S2]. destruct (own_same _ _ (keeps_late own _ _ Hr)) as [S3 S4]. split; congruence.
Qed.

(** An operation of the manager, after steps of goroutines. *)
Lemma wp_manager {A C} (c : M (vm_world W) A) (k : A → M (crewed (vm_world W)) C) (R : vm_world W → A → vm_world W → Prop) Q x :
  (∀ w, own w = own (cw_world x) → wp c (R w) w) →
  (∀ w a x', own w = own (cw_world x) → R w a (cw_world x') → wp (k a) Q x') → wp (among c ≫= k) Q x.
Proof.
  intros Hc Hk. apply wp_bind.
  eapply wp_mono; [apply (wp_among own _ (λ a w', ∃ w, own w = own (cw_world x) ∧ R w a w'))|].
  - intros w Hw. eapply wp_mono; [by apply Hc|]. eauto.
  - intros a x' (w & Hw & HR). by eapply Hk.
Qed.

Lemma wp_crewed_bind {A C} (c : M (crewed (vm_world W)) A) (k : A → M (crewed (vm_world W)) C) Q x :
  Keeps crewed_own c → (∀ a x', crewed_own x' = crewed_own x → wp (k a) Q x') → wp (c ≫= k) Q x.
Proof.
  intros Hc Hk. apply wp_bind. eapply wp_mono; [by apply (keeps_wp crewed_own)|]. intros a w' E. by apply Hk.
Qed.

Ltac keep y x H := apply wp_crewed_bind; [apply _|]; intros y x H.

(** The VM is taken down and both tables are as they were. *)
Lemma teardown_session run vm w x m l :
  mgr_liveVMs (vw_mgr w) !! vm_ID vm = None → vm_ID vm ∉ vw_cancels w →
  crewed_own x = (mkVMManager (<[vm_ID vm := l]> (mgr_liveVMs (vw_mgr w))) m, {[vm_ID vm]} ∪ vw_cancels w) →
  wp (teardown e run vm) (λ _ x', same_tables w (cw_world x')) x.
Proof using All.
  intros Hl Hc Ho. unfold teardown. keep u x1 K1. rewrite Ho in K1.
  eapply wp_manager; [intros w1 _; apply adapter_stop_own|]. intros w1 u2 x2 Ho1 Ho2.
  assert (Ho2' : own w1 = (mkVMManager (<[vm_ID vm:=l]> (mgr_liveVMs (vw_mgr w))) m, {[vm_ID vm]} ∪ vw_cancels w))
    by (rewrite Ho1; exact K1). injection Ho2' as Hm1 Hcs1.
  eapply wp_manager; [intros w3 _; apply destroy_own|]. intros w3 u4 x4 Ho3 [C1 C2].
  keep v x5 K5. eapply wp_mono; [apply (keeps_wp crewed_own), _|]. intros v' x6 K6.
  assert (Ho6 : own (cw_world x6) = own (cw_world x4)) by exact (eq_trans K6 K5).
  rewrite Ho2 in Ho3. injection Ho3 as Hm3 Hcs3. injection Ho6 as Hm6 Hcs6. split.
  - rewrite Hm6, C2, Hm3, Hm1. simpl. by rewrite delete_insert_id, delete_id by (done || by rewrite delete_insert_id).
  - rewrite Hcs6, C1, Hcs3, Hcs1. set_solver.
Qed.

Lemma run_on_vm_session c t run device suite x :
  mgr_inv (cw_world x) → mgr_counter (vw_mgr (cw_world x)) < max_int64 →
  wp (run_on_vm e ch c t run device suite) (λ _ x', same_tables (cw_world x) (cw_world x')) x.
Proof.
  intros Hinv Hmax. unfold run_on_vm.
  eapply wp_manager; [intros w1 [= Hm Hcs]; apply create_own; rewrite Hm; destruct Hinv; lia|].
  intros w1 r x1 [= Hm Hcs] [Ho1 Hid]. rewrite Hm, Hcs in Ho1. rewrite Hm in Hid. destruct r as [vm|err].
  2: { keep u x2 K2. apply wp_ret. assert (Ho2 : own (cw_world x2) = own (cw_world x1)) by exact K2.
       rewrite Ho1 in Ho2. injection Ho2 as Hm2 Hcs2. split; [by rewrite Hm2|done]. }
  destruct (Hid vm eq_refl) as [t' Eid]. destruct (next_vm_free _ t' Hinv) as [Hl Hc]. rewrite <- Eid in Hl, Hc.
  keep u x2 K2. keep y x3 K3. keep z x4 K4.
  assert (Ho4 : own (cw_world x4) = own (cw_world x1)) by exact (eq_trans K4 (eq_trans K3 K2)). rewrite Ho1 in Ho4.
  eapply wp_manager; [intros w4 _; apply adapter_start_own|]. intros w4 [[]|err] x5 Ho5; rewrite Ho4 in Ho5;
    injection Ho5 as Hm5 Hcs5; rewrite ?Hm5, ?Hcs5; cbn [mgr_liveVMs mgr_counter].
  - intros (l & Ho6). keep r x6 K6. apply wp_bind. eapply wp_mono; [eapply teardown_session; [done..|]|].
    + exact (eq_trans K6 Ho6).
    + intros u7 x7 Hs. by apply wp_ret.
  - intros Ho6. keep u6 x6 K6. assert (Ho7 : own (cw_world x6) = own w4) by exact (eq_trans K6 Ho6).
    eapply wp_manager; [intros w7 _; apply destroy_own|]. intros w7 u7 x7 Ho8 [C1 C2]. keep v x8 K8. apply wp_ret.
    rewrite Ho7 in Ho8. injection Ho8 as Hm8 Hcs8. injection K8 as Hm9 Hcs9. split.
    + rewrite Hm9, C2, Hm8, Hm5. simpl. by apply delete_id.
    + congruence.
Qed.

Lemma execute_session c run x :
  mgr_inv (cw_world x) → mgr_counter (vw_mgr (cw_world x)) < max_int64 →
  wp (executeTestRun e ch c run) (λ _ x', same_tables (cw_world x) (cw_world x')) x.
Proof.
  intros Hinv Hmax. unfold executeTestRun. keep now x1 K1. keep st x2 K2. keep r x3 K3.
  assert (Hs : ∀ x', crewed_own x' = crewed_own x → same_tables (cw_world x) (cw_world x')) by (intros; by apply own_same).
  destruct r as [[]|err]; [|apply wp_ret, Hs; congruence]. keep p x4 K4. unfold prepare.
  destruct (FindDevice _ _) as [device|err].
  2: { keep y x5 K5. apply wp_ret, Hs. congruence. }
  destruct (deviceSupportsQEMU _).
  2: { unfold skip_device. keep y x5 K5. keep z x6 K6. keep u x7 K7. apply wp_ret, Hs. congruence. }
  keep s x5 K5. destruct s as [suite|err].
  2: { keep y x6 K6. apply wp_ret, Hs. congruence. }
  assert (Hrun : ∀ x', crewed_own x' = crewed_own x → wp (run_on_vm e ch (WithTimeout c now (seconds
    (vmd_TestTimeoutSeconds (cfg_VMDefaults (en_cfg e))))) st run device suite)
    (λ _ x'', same_tables (cw_world x) (cw_world x'')) x').
  { intros x' [= Hm Hcs]. eapply wp_mono; [apply run_on_vm_session; unfold mgr_inv; by rewrite ?Hm, ?Hcs|].
    intros u x'' [S1 S2]. split; congruence. }
  unfold with_budget. destruct (en_allocator e); [|apply Hrun; congruence].
  keep ok x6 K6. destruct ok.
  - apply wp_bind. eapply wp_mono; [apply Hrun; congruence|]. intros res x7 [S1 S2]. keep y x8 K8. apply wp_ret.
    injection K8 as Hm8 Hcs8. split; congruence.
  - keep y x7 K7. keep z x8 K8. apply wp_ret, Hs. congruence.
Qed.

End session.
