(* ===== verification/VmProcess.v ===== *)
(** * The processes and the files of VMs

    What the VM manager does to the processes of the machine, under laws the
    operating system documents and with a record of the calls about them, and
    that no two VMs share a file. *)
From Stdlib Require Import Ascii.
From stdpp Require Import options.
From S2P Require Import Prelude GoStd GoChan Types Topo Allocator Workflow MemoryStore.
From S2P Require Import Effects Config StepExec Interfaces RunWorkflow StepGoroutines Engine Lifecycle VmManager VmSession.
Open Scope string_scope.
Open Scope list_scope.
Open Scope Z_scope.
#[local] Set Default Proof Using "Type*".

(** ** Processes *)

(** The processes of the machine.  A process may exit at any time; only
    [exec_Start] adds one, and a process that was waited for without an error
    is gone.  Nothing is assumed of one that was sent a signal: [Kill] does
    not wait for the process to exit, and may fail. *)
Class Processes (W : Type) := running : W → gset Z.

(** A computation that starts no process. *)
Class Shrinks {W A : Type} `{!Processes W} (c : M W A) : Prop :=
  shrinks_to : ∀ w a w', c w = Done (a, w') → running w' ⊆ running w.

Class MachineLaws (W : Type) `{!Runtime W, !VMStore W, !Machine W, !Processes W} : Prop := {
  start_adds c bin args w r w' : exec_Start c bin args w = Done (r, w') →
    running w' ⊆ match r with Ok pid => {[pid]} ∪ running w | Err _ => running w end;
  wait_removes pid d w w' : process_Wait pid d w = Done (Some (Ok tt), w') → running w' ⊆ running w ∖ {[pid]};
  #[global] sh_wait pid d :: Shrinks (process_Wait pid d);
  #[global] sh_now :: Shrinks rt_Now;
  #[global] sh_sleep d :: Shrinks (rt_Sleep d);
  #[global] sh_save c v :: Shrinks (vs_SaveVM c v);
  #[global] sh_get c id :: Shrinks (vs_GetVM c id);
  #[global] sh_status c id st :: Shrinks (vs_UpdateVMStatus c id st);
  #[global] sh_mkdir p :: Shrinks (os_MkdirAll p);
  #[global] sh_chmod p :: Shrinks (os_Chmod p);
  #[global] sh_remove p :: Shrinks (os_Remove p);
  #[global] sh_open p :: Shrinks (os_OpenLog p);
  #[global] sh_output c p args :: Shrinks (exec_CombinedOutput c p args);
  #[global] sh_go_wait pid :: Shrinks (go_Wait pid);
  #[global] sh_signal pid sig :: Shrinks (process_Signal pid sig);
  #[global] sh_kill pid :: Shrinks (process_Kill pid);
  #[global] sh_qmp_new p :: Shrinks (qmp_New p);
  #[global] sh_qmp_connect c q :: Shrinks (qmp_Connect c q);
  #[global] sh_qmp_status c q :: Shrinks (qmp_QueryStatus c q);
  #[global] sh_qmp_exec c q cmd :: Shrinks (qmp_Execute c q cmd);
  #[global] sh_qmp_close q :: Shrinks (qmp_Close q);
  #[global] sh_select c d :: Shrinks (select_after c d);
  #[global] sh_serve c id :: Shrinks (go_serveVM c id);
  #[global] sh_cancel_serve id :: Shrinks (cancel_serveVM id);
}.

Global Instance vm_processes {W} `{!Processes W} : Processes (vm_world W) := λ w, running (vw_in w).

Section shrinks.
Context {W : Type} `{!Processes W}.

Global Instance shrinks_ret {A} (a : A) : Shrinks (W:=W) (mret a).
Proof. by intros w b w' [= _ ->]. Qed.

Global Instance shrinks_bind {A C} (c : M W A) (k : A → M W C) :
  Shrinks c → (∀ a, Shrinks (k a)) → Shrinks (c ≫= k).
Proof.
  intros Hc Hk w b w' E. unfold mbind, M_bind in E. destruct (c w) as [[a w1]|] eqn:E1; [|done].
  etransitivity; [exact (Hk a _ _ _ E)|exact (Hc _ _ _ E1)].
Qed.

Global Instance shrinks_under {A} (c : M W A) : Shrinks c → Shrinks (under c).
Proof.
  intros Hc w a w'. unfold under. destruct (c (vw_in w)) as [[b x]|] eqn:E; [|done].
  intros [= _ <-]. exact (Hc _ _ _ E).
Qed.

Global Instance shrinks_get_mgr : Shrinks (get_mgr (W:=W)).
Proof. by intros w a w' [= _ ->]. Qed.
Global Instance shrinks_put_mgr m : Shrinks (put_mgr (W:=W) m).
Proof. by intros w a w' [= _ <-]. Qed.

Lemma shrinks_wp {A} (c : M W A) w : Shrinks c → wp c (λ _ w', running w' ⊆ running w) w.
Proof. intros Hc. apply wp_intro. intros a w' E. by apply (Hc w a). Qed.

Lemma wp_shrinks_bind {A C} (c : M W A) (k : A → M W C) Q w :
  Shrinks c → (∀ a w', running w' ⊆ running w → wp (k a) Q w') → wp (c ≫= k) Q w.
Proof. intros Hc Hk. apply wp_bind. eapply wp_mono; [by apply shrinks_wp|]. intros a w' E. by apply Hk. Qed.

End shrinks.

Ltac solve_shrinks :=
  repeat first [ apply _ | apply shrinks_bind; [|intros ?] | case_decide | case_match ]; try apply _.

Section laws.
Context {W : Type} `{!Runtime W, !VMStore W, !Machine W, !Processes W, !MachineLaws W} (cfg : GlobalConfig).
Implicit Types (w : vm_world W).

(** A call that changes nothing of the manager's and starts no process. *)
Lemma wp_call {A C} (c : M (vm_world W) A) (k : A → M (vm_world W) C) Q w :
  Keeps own c → Shrinks c →
  (∀ a w', own w' = own w → running w' ⊆ running w → wp (k a) Q w') → wp (c ≫= k) Q w.
Proof.
  intros Hc Hs Hk. apply wp_bind, wp_intro. intros a w' E.
  apply Hk; [by apply (keeps own c w a)|by apply (Hs w a)].
Qed.

Ltac call x w K R := apply wp_call; [solve_keeps|solve_shrinks|]; intros x w K R.

Global Instance shrinks_note c id st : Shrinks (note_status (W:=W) c id st).
Proof. unfold note_status. apply _. Qed.

Global Instance shrinks_connect_loop n c q l : Shrinks (W:=vm_world W) (connect_loop n c q l).
Proof. revert l. induction n as [|n IH]; intros l; simpl; solve_shrinks. Qed.

(** A VM that became live is recorded with its process. *)
Definition recorded (id : string) (pid : Z) (r : result unit) w : Prop :=
  r = Ok tt → ∃ l, mgr_liveVMs (vw_mgr w) !! id = Some l ∧ lv_process l = pid.

Lemma connect_process c id inst pid w :
  wp (connect_vm cfg c id inst pid) (λ r w', running w' ⊆ running w ∧ recorded id pid r w') w.
Proof.
  unfold connect_vm. call q w1 K1 R1. call now w2 K2 R2. call r w3 K3 R3. destruct r as [[qmpErr|]|e0].
  1,3: by call x w4 K4 R4; apply wp_ret; (split; [set_solver|done]).
  apply wp_get_mgr, wp_put_mgr. call st w4 K4 R4. call x w5 K5 R5. apply wp_ret.
  change (running w4 ⊆ running w3) in R4. split; [set_solver|]. intros _. rewrite K4 in K5.
  injection K5 as -> _. eexists. simpl. split; [apply lookup_insert_eq|done].
Qed.

Lemma start_process c id w :
  wp (StartVM cfg c id) (λ r w', r = Ok tt → ∃ l, mgr_liveVMs (vw_mgr w') !! id = Some l ∧
    running w' ⊆ {[lv_process l]} ∪ running w) w.
Proof.
  unfold StartVM, launch. call i w1 K1 R1. destruct i as [inst|err]; [|by apply wp_ret].
  apply wp_call; [unfold make_socket_dirs; solve_keeps|unfold make_socket_dirs; solve_shrinks|].
  intros [[]|err] w2 K2 R2; [|by apply wp_ret]. call x w3 K3 R3.
  apply wp_call; [unfold make_overlay; solve_keeps|unfold make_overlay; solve_shrinks|].
  intros [[]|err] w4 K4 R4; [|by apply wp_ret]. call hasLog w5 K5 R5.
  apply wp_bind, wp_intro. intros r w6 E6. destruct r as [pid|err]; [|by call y w7 K7 R7; apply wp_ret].
  assert (R6 : running w6 ⊆ {[pid]} ∪ running w5).
  { unfold under in E6. destruct (exec_Start _ _ _ _) as [[r' x6]|] eqn:E; [|done]. injection E6 as -> <-.
    exact (start_adds _ _ _ _ _ _ E). }
  call y w7 K7 R7. call z w8 K8 R8. eapply wp_mono; [apply connect_process|].
  intros r w9 [R9 Hrec] Hr. destruct (Hrec Hr) as (l & Hl & <-). exists l. split; [done|].
  do 3 (etrans; [eassumption|]). etrans; [exact R6|]. apply union_mono_l. by do 4 (etrans; [eassumption|]).
Qed.

End laws.

(** ** A record of what was done to processes *)

Inductive proc_call : Type :=
| PWait (pid limit : Z) (r : option (result unit))
| PSignal (pid : Z) (sig : string) (r : result unit)
| PSleep (d : Z)
| PKill (pid : Z) (r : result unit).

Definition traced (W : Type) : Type := (W * list proc_call)%type.

(** A call, and what is written down of it. *)
Definition note_call {W A : Type} (c : M W A) (mk : A → list proc_call) : M (traced W) A := λ '(w, tr),
  match c w with
  | Done (a, w') => Done (a, (w', tr ++ mk a))
  | Panics why => Panics why
  end.

Definition unnoted {W A : Type} (c : M W A) : M (traced W) A := note_call c (λ _, []).

Section traced.
Context {W : Type} `{!Runtime W, !VMStore W, !Machine W}.

Global Instance traced_runtime : Runtime (traced W) := {|
  rt_Now := unnoted rt_Now;
  rt_cancelled r x := rt_cancelled r x.1;
  rt_clock x := rt_clock x.1;
  rt_Sleep d := note_call (rt_Sleep d) (λ _, [PSleep d]);
  rt_ResubmitLater run := unnoted (rt_ResubmitLater run);
|}.

Global Instance traced_vm_store : VMStore (traced W) := {|
  vs_SaveVM c v := unnoted (vs_SaveVM c v);
  vs_GetVM c id := unnoted (vs_GetVM c id);
  vs_UpdateVMStatus c id st := unnoted (vs_UpdateVMStatus c id st);
|}.

Global Instance traced_machine : Machine (traced W) := {|
  os_MkdirAll p := unnoted (os_MkdirAll p);
  os_Chmod p := unnoted (os_Chmod p);
  os_Remove p := unnoted (os_Remove p);
  os_OpenLog p := unnoted (os_OpenLog p);
  exec_CombinedOutput c p args := unnoted (exec_CombinedOutput c p args);
  exec_Start c p args := unnoted (exec_Start c p args);
  go_Wait pid := unnoted (go_Wait pid);
  process_Wait pid d := note_call (process_Wait pid d) (λ r, [PWait pid d r]);
  process_Signal pid sig := note_call (process_Signal pid sig) (λ r, [PSignal pid sig r]);
  process_Kill pid := note_call (process_Kill pid) (λ r, [PKill pid r]);
  qmp_New p := unnoted (qmp_New p);
  qmp_Connect c q := unnoted (qmp_Connect c q);
  qmp_QueryStatus c q := unnoted (qmp_QueryStatus c q);
  qmp_Execute c q cmd := unnoted (qmp_Execute c q cmd);
  qmp_Close q := unnoted (qmp_Close q);
  select_after c d := unnoted (select_after c d);
  go_serveVM c id := unnoted (go_serveVM c id);
  cancel_serveVM id := unnoted (cancel_serveVM id);
|}.

Global Instance traced_processes `{!Processes W} : Processes (traced W) := λ x, running x.1.

Global Instance total_note_call {A} (c : M W A) mk : Total c → Total (note_call c mk).
Proof. intros Hc [w tr]. destruct (Hc w) as (a & w' & E). simpl. rewrite E. eauto. Qed.

Global Instance traced_safe_runtime `{!SafeRuntime W} : SafeRuntime (traced W).
Proof. split; intros; apply total_note_call, _. Qed.
Global Instance traced_safe_vm_store `{!SafeVMStore W} : SafeVMStore (traced W).
Proof. split; intros; apply total_note_call, _. Qed.
Global Instance traced_safe_machine `{!SafeMachine W} : SafeMachine (traced W).
Proof. split; intros; apply total_note_call, _. Qed.

Lemma note_call_inv {A} (c : M W A) mk x a x' :
  note_call c mk x = Done (a, x') → c x.1 = Done (a, x'.1) ∧ x'.2 = x.2 ++ mk a.
Proof. destruct x as [w tr]. simpl. destruct (c w) as [[b w']|]; [|done]. by intros [= -> <-]. Qed.

Global Instance shrinks_note_call `{!Processes W} {A} (c : M W A) mk : Shrinks c → Shrinks (note_call c mk).
Proof. intros Hc x a x' [E _]%note_call_inv. exact (Hc _ _ _ E). Qed.

Global Instance traced_laws `{!Processes W, !MachineLaws W} : MachineLaws (traced W).
Proof.
  split; try (intros; apply shrinks_note_call, _).
  - intros c bin args w r w' [E _]%note_call_inv. exact (start_adds _ _ _ _ _ _ E).
  - intros pid d w w' [E _]%note_call_inv. exact (wait_removes _ _ _ _ E).
Qed.

(** The record so far. *)
Definition proc_log (w : vm_world (traced W)) : list proc_call := (vw_in w).2.

Global Instance keeps_unnoted {A} (c : M W A) : Keeps proc_log (under (unnoted c)).
Proof.
  intros w a w' E. unfold under in E. destruct (unnoted c (vw_in w)) as [[b x]|] eqn:Ec; [|done].
  injection E as _ <-. apply note_call_inv in Ec as [_ Ec]. unfold proc_log. simpl. by rewrite Ec, app_nil_r.
Qed.

Lemma wp_noted {A C} (c : M W A) mk (k : A → M (vm_world (traced W)) C) Q w :
  (∀ a w', proc_log w' = proc_log w ++ mk a → wp (k a) Q w') → wp (under (note_call c mk) ≫= k) Q w.
Proof.
  intros Hk. apply wp_bind, wp_intro. intros a w' E. apply Hk. unfold under in E.
  destruct (note_call c mk (vw_in w)) as [[b x]|] eqn:Ec; [|done]. injection E as -> <-.
  apply note_call_inv in Ec as [_ Ec]. exact Ec.
Qed.

End traced.

(** How a process is brought to its end: it was seen to exit, or [Wait]
    failed, or SIGTERM was sent and, two seconds later, SIGKILL. *)
Inductive brought_down (pid : Z) : list proc_call → Prop :=
| down_exited : brought_down pid [PWait pid (10 * 1000000000) (Some (Ok tt))]
| down_wait_failed err : brought_down pid [PWait pid (10 * 1000000000) (Some (Err err))]
| down_killed before r1 r2 :
    before = [] ∨ before = [PWait pid (10 * 1000000000) None] →
    brought_down pid (before ++ [PSignal pid "SIGTERM" r1; PSleep (2 * 1000000000); PKill pid r2]).

Section stop.
Context {W : Type} `{!Runtime W, !VMStore W, !Machine W, !Processes W, !MachineLaws W}.
Implicit Types (w : vm_world (traced W)).

Instance keeps_noted_status c id st : Keeps proc_log (note_status (W:=traced W) c id st).
Proof. unfold note_status. apply keeps_bind; [apply keeps_unnoted|intros ?; apply _]. Qed.

Lemma wp_logged_bind {A C} (c : M _ A) (k : A → M _ C) Q w :
  Keeps proc_log c → Shrinks c →
  (∀ a w', proc_log w' = proc_log w → running w' ⊆ running w → wp (k a) Q w') → wp (c ≫= k) Q w.
Proof.
  intros Hc Hs Hk. apply wp_bind, wp_intro. intros a w' E.
  apply Hk; [by apply (keeps proc_log c w a)|by apply (Hs w a)].
Qed.

(** The end of the process of a live VM, and what was seen of it. *)
Definition ends (pid : Z) w w' : Prop :=
  ∃ calls, proc_log w' = proc_log w ++ calls ∧ brought_down pid calls ∧
    (calls = [PWait pid (10 * 1000000000) (Some (Ok tt))] → pid ∉ running w').

Lemma kill_ends l w :
  wp (force_kill l) (λ _ w', ∃ r1 r2, proc_log w' = proc_log w ++
    [PSignal (lv_process l) "SIGTERM" r1; PSleep (2 * 1000000000); PKill (lv_process l) r2]) w.
Proof.
  unfold force_kill. apply wp_noted. intros r1 w1 E1. apply wp_noted. intros u w2 E2.
  apply wp_noted. intros r2 w3 E3. apply wp_ret. exists r1, r2. by rewrite E3, E2, E1, <- !app_assoc.
Qed.

Lemma power_down_ends c l w :
  wp (power_down c l) (λ b w', if b : bool
    then ∃ r, proc_log w' = proc_log w ++ [PWait (lv_process l) (10 * 1000000000) (Some r)] ∧
           (r = Ok tt → lv_process l ∉ running w')
    else ∃ before, proc_log w' = proc_log w ++ before ∧
           (before = [] ∨ before = [PWait (lv_process l) (10 * 1000000000) None])) w.
Proof.
  assert (Hno : ∀ w', proc_log w' = proc_log w → ∃ before, proc_log w' = proc_log w ++ before ∧
    (before = [] ∨ before = [PWait (lv_process l) (10 * 1000000000) None]))
    by (intros w' E; exists []; rewrite app_nil_r; auto).
  unfold power_down. destruct (lv_qmpClient l) as [q|]; [|by apply wp_ret, Hno].
  apply wp_logged_bind; [apply keeps_unnoted|apply _|]. intros [u|err] w1 E1 _; [|by apply wp_ret, Hno].
  apply wp_bind, wp_intro. intros r w2 E. unfold under in E. destruct (process_Wait _ _ _) as [[r' x2]|] eqn:Ew; [|done].
  injection E as -> <-. pose proof (proj2 (note_call_inv _ _ _ _ _ Ew)) as El.
  change (x2.2) with (proc_log (mkVW (vw_mgr w1) (vw_cancels w1) x2)) in El.
  change ((vw_in w1).2) with (proc_log w1) in El. rewrite E1 in El. destruct r as [r|]; apply wp_ret; [|by eauto].
  exists r. split; [exact El|]. intros ->. apply wait_removes in Ew. intros Hin. set_solver.
Qed.

Lemma stop_ends c id w l :
  mgr_liveVMs (vw_mgr w) !! id = Some l →
  wp (StopVM c id) (λ r w', r = Ok tt ∧ ends (lv_process l) w w') w.
Proof.
  intros Hl. unfold StopVM. apply wp_get_mgr. rewrite Hl.
  apply wp_logged_bind; [apply _..|]. intros x w1 L1 _.
  assert (Hrest : ∀ w2, ends (lv_process l) w w2 →
    wp (_ ← cleanup id; _ ← note_status c id VMStatusStopped; mret (Ok tt)) (λ r w', r = Ok tt ∧ ends (lv_process l) w w') w2).
  { intros w2 (calls & Hc & Hb & Hr). apply wp_logged_bind.
    { unfold cleanup. apply keeps_bind; [by intros ??? [= _ ->]|]. intros m. case_match; [|apply _].
      apply keeps_bind; [case_match; [apply keeps_unnoted|apply _]|]. intros _.
      apply keeps_bind; [by intros ??? [= _ ->]|]. intros m'. by intros ??? [= _ <-]. }
    { unfold cleanup. solve_shrinks. }
    intros u w3 L3 R3. apply wp_logged_bind; [apply _..|]. intros v w4 L4 R4. apply wp_ret. split; [done|].
    exists calls. split_and!; [congruence|done|]. intros E. specialize (Hr E). set_solver. }
  apply wp_bind. eapply wp_mono; [apply power_down_ends|]. intros [|] w2.
  - intros (r & Hlog & Hr). apply wp_bind, wp_ret, Hrest. eexists. rewrite L1 in Hlog. split_and!; [exact Hlog| |].
    + destruct r as [[]|err]; constructor.
    + intros [= ->]. by apply Hr.
  - intros (before & Hlog & Hb). apply wp_bind. eapply wp_mono; [apply kill_ends|]. intros _ w3 (r1 & r2 & E3).
    apply Hrest. exists (before ++ [PSignal (lv_process l) "SIGTERM" r1; PSleep (2 * 1000000000); PKill (lv_process l) r2]).
    split_and!; [by rewrite E3, Hlog, L1, <- app_assoc|by constructor|]. by destruct Hb as [-> | ->].
Qed.

End stop.

(** ** Files *)

Lemma join_with_snoc l x :
  join_with "/" (l ++ [x]) = (match l with [] => "" | _ => join_with "/" l +:+ "/" end) +:+ x.
Proof.
  induction l as [|a l IH]; [done|]. destruct l as [|b l]; simpl; [by rewrite str_app_assoc|].
  simpl in IH. rewrite IH. by rewrite !str_app_assoc.
Qed.

(** What is joined to a directory stays the end of the path. *)
Lemma Join_plain dir : dir ≠ "" → ∃ pre, ∀ x, plain_elem x → Join [dir; x] = pre +:+ x.
Proof.
  intros Hd. set (rooted := HasPrefix dir "/").
  set (stk := reverse (clean_elems rooted [] (split_on is_slash dir))).
  exists ((if rooted then "/" else "") +:+ match stk with [] => "" | _ => join_with "/" stk +:+ "/" end).
  intros x (Hs & H1 & H2 & H3).
  assert (Hj : Join [dir; x] = Clean (dir +:+ String "/" x)).
  { unfold Join, nonempty. by rewrite !filter_cons_True by (by apply bool_decide_spec). }
  rewrite Hj. unfold Clean.
  assert (Hr : HasPrefix (dir +:+ String "/" x) "/" = rooted).
  { unfold rooted. destruct dir as [|c dir]; [done|]. unfold HasPrefix.
    change (String c dir +:+ String "/" x) with (String c (dir +:+ String "/" x)). cbn [String.prefix].
    destruct (ascii_dec _ c); [|done]. by destruct (dir +:+ _), dir. }
  rewrite Hr, split_on_cut, Hs, clean_elems_app by done. cbn [clean_elems].
  rewrite !decide_False by naive_solver. rewrite reverse_cons. fold stk. rewrite join_with_snoc.
  destruct rooted; [by rewrite str_app_assoc|]. rewrite decide_False; [done|].
  destruct stk; [done|]. destruct (join_with "/" _); [done|done].
Qed.

Lemma Join_inj dir x y : dir ≠ "" → plain_elem x → plain_elem y → Join [dir; x] = Join [dir; y] → x = y.
Proof.
  intros Hd Hx Hy. destruct (Join_plain dir Hd) as [pre Hp]. rewrite (Hp x Hx), (Hp y Hy). apply str_app_inj_l.
Qed.

Lemma fmt_d_no_slash k : split_on is_slash (fmt_d k) = [fmt_d k].
Proof.
  assert (Hp : ∀ p, split_on is_slash (pretty_positive p) = [pretty_positive p]).
  { intros p. unfold pretty_positive, pretty, pretty_N. rewrite decide_False by lia.
    apply pretty_go_plain; [|done]. intros n. unfold pretty_N_char. by repeat case_match. }
  destruct k as [|p|p]; [done|apply Hp|]. unfold fmt_d, pretty, pretty_Z.
  by apply (split_plain_app is_slash "-").
Qed.

Lemma vm_id_no_slash t k : split_on is_slash (vm_id t k) = [vm_id t k].
Proof.
  unfold vm_id. apply split_plain_app; [done|]. apply split_plain_app; [apply fmt_d_no_slash|].
  apply (split_plain_app is_slash "-"); [done|apply fmt_d_no_slash].
Qed.

Lemma vm_file_plain pre post t k :
  split_on is_slash pre = [pre] → split_on is_slash post = [post] → plain_elem (pre +:+ vm_id t k +:+ post).
Proof.
  intros Hpre Hpost. split; [|].
  - apply split_plain_app; [done|]. apply split_plain_app; [apply vm_id_no_slash|done].
  - assert (Hl : (3 < String.length (pre +:+ vm_id t k +:+ post))%nat).
    { unfold vm_id. rewrite !str_length_app. simpl. lia. }
    split_and!; intros E; rewrite E in Hl; simpl in Hl; lia.
Qed.

Lemma vm_file_inj dir pre post a b t k t' k' :
  dir ≠ "" → split_on is_slash pre = [pre] → split_on is_slash post = [post] →
  a = vm_id t k → b = vm_id t' k' →
  Join [dir; pre +:+ a +:+ post] = Join [dir; pre +:+ b +:+ post] → a = b.
Proof.
  intros Hd Hpre Hpost -> -> E%Join_inj; [|done|by apply vm_file_plain..].
  apply str_app_inj_l in E. by apply str_app_inj_r in E.
Qed.

(** ** Properties *)

Section properties.
Context {W : Type} `{!EngineStore W, !Runtime W, !AgentCoordinatorInterface W, !AllocatorInterface W,
  !Telemetry W, !FileSystem W, !VMStore W, !Machine W}.
Context (cfg : GlobalConfig) (e : ExecutionEngine) (ch : choices).
Implicit Types (w : vm_world W).


(** C22: the process of a VM: when [StartVM] succeeds, it has started one
    process at most and recorded it with the live VM; [StopVM] of a live VM
    always succeeds and takes it out of the table, and until then it was done
    with its process as the comment says: either [Wait] returned within ten
    seconds of the request to power down, and then the process is gone unless
    [Wait] failed, or the process was sent SIGTERM and, two seconds later,
    SIGKILL.  (Whether these signals had an effect is not looked at, see
    [undead_vm_is_stopped].) *)
Theorem vm_process_ends `{!Processes W, !MachineLaws W, !SafeRuntime W, !SafeVMStore W, !SafeMachine W} c id
    (w : vm_world (traced W)) :
  (∃ r (w' : vm_world (traced W)), StartVM cfg c id w = Done (r, w') ∧
     (r = Ok tt → ∃ l, mgr_liveVMs (vw_mgr w') !! id = Some l ∧ running w' ⊆ {[lv_process l]} ∪ running w)) ∧
  (∀ l, mgr_liveVMs (vw_mgr w) !! id = Some l →
     ∃ w' : vm_world (traced W), StopVM c id w = Done (Ok tt, w') ∧ mgr_liveVMs (vw_mgr w') !! id = None ∧ ends (lv_process l) w w').
Proof.
  split.
  - apply total_wp; [|apply start_process]. apply total_StartVM.
  - intros l Hl. destruct (total_StopVM (W:=traced W) c id w) as (r & w' & E).
    destruct (wp_returns _ _ _ _ _ (stop_ends c id w l Hl) E) as [-> Hr].
    destruct (wp_returns _ _ _ _ _ (stop_own c id w) E) as [_ Hm]. exists w'. split; [done|].
    split; [by rewrite Hm; apply lookup_delete_eq|done].
Qed.

End properties.

(** Two VMs of one manager share no file: their QMP sockets, agent
    sockets, disk overlays and logs have different paths, whatever the
    directories in the configuration. *)
Theorem vm_files_private (q : QEMUConfig) t t' k k' :
  0 ≤ k → 0 ≤ k' → k ≠ k' →
  qmp_socket q (vm_id t k) ≠ qmp_socket q (vm_id t' k') ∧
  AgentSocketPath (vm_id t k) ≠ AgentSocketPath (vm_id t' k') ∧
  overlay_path (vm_id t k) ≠ overlay_path (vm_id t' k') ∧
  log_path (vm_id t k) ≠ log_path (vm_id t' k').
Proof.
  intros Hk Hk' Hne. assert (Hid : vm_id t k ≠ vm_id t' k') by (intros E%vm_id_inj; lia).
  assert (Hdir : or_default (qemu_SocketDir q) "/tmp/dvf/qmp" ≠ "") by (unfold or_default; by case_decide).
  split_and!; intros E; apply Hid.
  - by apply (vm_file_inj _ "" ".sock" _ _ t k t' k') in E.
  - by apply (vm_file_inj _ "" ".sock" _ _ t k t' k') in E.
  - by apply (vm_file_inj _ "" ".qcow2" _ _ t k t' k') in E.
  - by apply (vm_file_inj _ "qemu-" ".log" _ _ t k t' k') in E.
Qed.

(** [StartVM] starts what [CreateVM] was asked for: the command line
    rebuilt from the stored record is that of the engine's request, with the
    device under test and the default resources, and QEMU serves its QMP
    socket where the record says it is. *)
Theorem start_builds_what_was_created cfg vmID device now :
  de_QEMUDeviceName device ≠ "" →
  let vmCfg := mkVMConfig (Some device) 0 0 "" "" "" "" in
  let inst := new_instance cfg vmID vmCfg now in
  BuildQEMUArgs (cfg_QEMU cfg) vmID (stored_config inst) = BuildQEMUArgs (cfg_QEMU cfg) vmID vmCfg ∧
  ∃ pre post, BuildQEMUArgs (cfg_QEMU cfg) vmID vmCfg =
    pre ++ ["-qmp"; "unix:" +:+ vm_QMPSocketPath inst +:+ ",server,wait=off"] ++ post ++
    ["-device"; de_QEMUDeviceName device].
Proof.
  intros Hd vmCfg inst. split.
  - unfold BuildQEMUArgs, stored_config, inst, new_instance. simpl. rewrite decide_False by done. simpl.
    unfold int_or. simpl. by repeat case_decide.
  - unfold BuildQEMUArgs. simpl. eexists [_;_;_;_;_;_;_;_;_;_;_;_;_;_;_;_;_;_;_;_], [_;_;_;_;_;_]. reflexivity.
Qed.
