(* ===== verification/VmBench.v ===== *)
(** * A concrete machine

    A machine on which the VM manager and the engine can be run: the
    in-memory store, a set of processes, a QMP server that answers or not,
    and a guest that follows the request to power down or not. *)
From stdpp Require Import options.
From S2P Require Import Prelude GoStd GoChan Types Topo Allocator Workflow MemoryStore.
From S2P Require Import Effects Config StepExec Interfaces RunWorkflow StepGoroutines Engine Lifecycle VmManager VmSession VmProcess.
Open Scope string_scope.
Open Scope list_scope.
Open Scope Z_scope.

Record bench : Type := mkBench {
  bn_store : MemoryStore;
  bn_now : Z;
  bn_running : gset Z;
  bn_pid : Z;             (* the last process identifier *)
  bn_qmp : bool;          (* QMP connections succeed *)
  bn_polite : bool;       (* the guest powers down when asked to *)
  bn_deadly : bool;       (* signals reach their process *)
}.

Definition bn_set_store (m : MemoryStore) (b : bench) : bench :=
  mkBench m (bn_now b) (bn_running b) (bn_pid b) (bn_qmp b) (bn_polite b) (bn_deadly b).
Definition bn_set_now (t : Z) (b : bench) : bench :=
  mkBench (bn_store b) t (bn_running b) (bn_pid b) (bn_qmp b) (bn_polite b) (bn_deadly b).
Definition bn_set_running (r : gset Z) (b : bench) : bench :=
  mkBench (bn_store b) (bn_now b) r (bn_pid b) (bn_qmp b) (bn_polite b) (bn_deadly b).

Global Instance bench_runtime : Runtime bench := {|
  rt_Now := answer bn_now;
  rt_cancelled _ _ := false;
  rt_clock := bn_now;
  rt_Sleep d := λ b, Done (tt, bn_set_now (bn_now b + d) b);
  rt_ResubmitLater _ := mret tt;
|}.

Global Instance bench_vm_store : VMStore bench := {|
  vs_SaveVM _ v := λ b, Done (Ok tt, bn_set_store (SaveVM v (bn_store b)).2 b);
  vs_GetVM _ id := answer (λ b, GetVM id (bn_store b));
  vs_UpdateVMStatus _ id st := λ b,
    let '(r, m) := UpdateVMStatus id st (bn_store b) in Done (r, bn_set_store m b);
|}.

Global Instance bench_machine : Machine bench := {|
  os_MkdirAll _ := mret (Ok tt);
  os_Chmod _ := mret tt;
  os_Remove _ := mret (Ok tt);
  os_OpenLog _ := mret true;
  exec_CombinedOutput _ _ _ := mret ("", None);
  exec_Start _ _ _ := λ b, Done (Ok (bn_pid b + 1),
    mkBench (bn_store b) (bn_now b) ({[bn_pid b + 1]} ∪ bn_running b) (bn_pid b + 1) (bn_qmp b) (bn_polite b) (bn_deadly b));
  go_Wait _ := mret tt;
  process_Wait pid d := λ b,
    if bn_polite b then Done (Some (Ok tt), bn_set_running (bn_running b ∖ {[pid]}) b)
    else Done (None, bn_set_now (bn_now b + d) b);
  process_Signal _ _ := answer (λ b, if bn_deadly b then Ok tt else Err "operation not permitted");
  process_Kill pid := λ b,
    if bn_deadly b then Done (Ok tt, bn_set_running (bn_running b ∖ {[pid]}) b)
    else Done (Err "operation not permitted", b);
  qmp_New _ := mret 0%nat;
  qmp_Connect _ _ := answer (λ b, if bn_qmp b then Ok tt else Err "connection refused");
  qmp_QueryStatus _ _ := mret (Ok true);
  qmp_Execute _ _ _ := mret (Ok tt);
  qmp_Close _ := mret tt;
  select_after _ d := λ b, Done (None, bn_set_now (bn_now b + d) b);
  go_serveVM _ _ := mret tt;
  cancel_serveVM _ := mret tt;
|}.

Global Instance bench_engine_store : EngineStore bench := {|
  Effects.UpdateTestRunStatus _ id st msg := λ b,
    let '(r, m) := MemoryStore.UpdateTestRunStatus (bn_now b) id st msg (bn_store b) in Done (r, bn_set_store m b);
  Effects.GetTestResults _ id := answer (λ b, Ok (MemoryStore.GetTestResults id (bn_store b)));
  Effects.SaveTestResult _ res := λ b,
    Done (Ok tt, bn_set_store (MemoryStore.SaveTestResult res (bn_store b)).2 b);
|}.

Global Instance bench_agents : AgentCoordinatorInterface bench := {|
  RegisterVM _ := mret tt;
  UnregisterVM _ := mret tt;
  WaitForAgent _ _ := mret (Ok tt);
  SendCommand _ _ cmd := mret (reply_all "passed" "" cmd);
|}.

Global Instance bench_allocator : AllocatorInterface bench := {|
  al_TryAcquire _ := mret true;
  al_Release _ := mret tt;
|}.

Global Instance bench_telemetry : Telemetry bench := {|
  Publish _ _ := mret (Ok tt);
  LogCancel _ _ := mret tt;
  LogComplete _ _ _ := mret tt;
  LogVMEvent _ _ _ _ := mret tt;
|}.

Global Instance bench_files : FileSystem bench := {|
  os_Getwd := mret (Ok "/");
  os_Stat _ := mret (Err "no such file or directory");
  os_ReadFile _ := mret (Err "no such file or directory");
|}.

Ltac bench_total := split; repeat intros ?; simpl; unfold mret, M_ret; try (case_match; eauto); eauto.

Global Instance bench_safe_store : SafeStore bench.
Proof. bench_total. Qed.
Global Instance bench_safe_runtime : SafeRuntime bench.
Proof. bench_total. Qed.
Global Instance bench_safe_agents : SafeAgents bench.
Proof. bench_total. Qed.
Global Instance bench_safe_allocator : SafeAllocator bench.
Proof. bench_total. Qed.
Global Instance bench_safe_telemetry : SafeTelemetry bench.
Proof. bench_total. Qed.
Global Instance bench_safe_files : SafeFiles bench.
Proof. bench_total. Qed.
Global Instance bench_safe_vm_store : SafeVMStore bench.
Proof. bench_total. Qed.
Global Instance bench_safe_machine : SafeMachine bench.
Proof. bench_total. Qed.

Global Instance bench_processes : Processes bench := bn_running.

Global Instance bench_laws : MachineLaws bench.
Proof.
  split; repeat intros ?; simpl in *; unfold mret, M_ret, answer, running, bench_processes in *;
    repeat (case_match || simplify_eq); simpl; set_solver.
Qed.

(** ** Witnesses *)

Definition bench0 (qmp polite deadly : bool) : bench :=
  mkBench (store_run [OpCreate 0 (blank_run "" "gpu0" "vishwa/opencl/vecadd")]) 1700000000000000000 ∅ 4000 qmp polite deadly.

Definition fresh_vms {W : Type} (w : W) : vm_world W := mkVW NewVMManager ∅ w.



(** A VM that was created and started. *)
Definition started_vm (qmp polite deadly : bool) : vm_world (traced bench) :=
  let c := adapter_CreateVM sample_config Background sample_device in
  let w := fresh_vms (bench0 qmp polite deadly, []) in
  match (r ← c; match r with Ok vm => StartVM sample_config Background (vm_ID vm) | Err e => mret (Err e) end) w with
  | Done (_, w) => w
  | Panics _ => w
  end.

Lemma vm_process_ends_witness : ∃ l,
  mgr_liveVMs (vw_mgr (started_vm true true true)) !! "vm-1700000000-1" = Some l ∧
  ∃ w', StopVM Background "vm-1700000000-1" (started_vm true true true) = Done (Ok tt, w') ∧
    ends (lv_process l) (started_vm true true true) w'.
Proof.
  destruct (vm_process_ends sample_config Background "vm-1700000000-1" (started_vm true true true)) as [_ Hstop].
  eexists. split; [vm_compute; reflexivity|]. destruct (Hstop _ ltac:(vm_compute; reflexivity)) as (w' & E & _ & Hp).
  exists w'. split; [exact E|exact Hp].
Defined.

Lemma vm_files_private_witness :
  overlay_path (vm_id 1700000000 1) ≠ overlay_path (vm_id 1700000000 2).
Proof.
  exact (proj1 (proj2 (proj2 (vm_files_private (cfg_QEMU sample_config) 1700000000 1700000000 1 2
    ltac:(lia) ltac:(lia) ltac:(lia))))).
Defined.

Lemma start_builds_what_was_created_witness :
  BuildQEMUArgs (cfg_QEMU sample_config) "vm-1-1" (stored_config (new_instance sample_config "vm-1-1"
    (mkVMConfig (Some sample_device) 0 0 "" "" "" "") 0)) =
  BuildQEMUArgs (cfg_QEMU sample_config) "vm-1-1" (mkVMConfig (Some sample_device) 0 0 "" "" "" "").
Proof. exact (proj1 (start_builds_what_was_created sample_config "vm-1-1" sample_device 0 ltac:(discriminate))). Defined.

(** A VM whose QMP socket never answers leaves its process behind:
    [StartVM] fails after it started QEMU, the VM was never recorded as live,
    and [DestroyVM], which the engine calls next, finds nothing to stop and
    marks the VM DESTROYED while the process runs on. *)
Theorem failed_start_leaves_process :
  let w := started_vm false false true in
  mgr_liveVMs (vw_mgr w) = ∅ ∧ running w = {[4001]} ∧
  ∃ w', DestroyVM Background "vm-1700000000-1" w = Done (Ok tt, w') ∧ running w' = {[4001]} ∧
    (vm_Status <$> vms (bn_store (vw_in w').1) !! "vm-1700000000-1") = Some VMStatusDestroyed.
Proof.
  split; [vm_compute; reflexivity|]. split; [vm_compute; reflexivity|].
  eexists. split; [vm_compute; reflexivity|]. split; vm_compute; reflexivity.
Qed.

(** A VM whose process cannot be killed is STOPPED all the same: the error of
    SIGKILL is logged, the VM leaves the table and the process runs on. *)
Theorem undead_vm_is_stopped :
  let w := started_vm true false false in
  ∃ w', StopVM Background "vm-1700000000-1" w = Done (Ok tt, w') ∧ mgr_liveVMs (vw_mgr w') = ∅ ∧
    running w' = {[4001]} ∧ last (proc_log w') = Some (PKill 4001 (Err "operation not permitted")) ∧
    (vm_Status <$> vms (bn_store (vw_in w').1) !! "vm-1700000000-1") = Some VMStatusStopped.
Proof. eexists. split; [vm_compute; reflexivity|]. split_and!; vm_compute; reflexivity. Qed.
