(* ===== verification/VirtioHub.v ===== *)
(** * The virtio-serial hub ([vm/virtio_serial.go])

    The line protocol between the orchestrator and the agent inside a guest:
    how the byte stream is cut into lines, what a message does, and the
    commands sent to the agent. *)
From Stdlib Require Import Ascii.
From stdpp Require Import sorting options.
From S2P Require Import Prelude GoStd Types Effects Config Json Marshal JsonText Numbers JsonPrint GrpcServer AgentServer VmManager.
Open Scope string_scope.
Open Scope list_scope.
Open Scope Z_scope.

(** ** Lines: [bufio.Scanner] with [ScanLines] *)

Definition is_newline (c : ascii) : bool := (code c =? 10)%N.

(** The final carriage return is not part of the line. *)
Fixpoint drop_cr (s : string) : string :=
  match s with
  | EmptyString => EmptyString
  | String c EmptyString => if (code c =? 13)%N then EmptyString else s
  | String c s' => String c (drop_cr s')
  end.

(** A line that does not fit into the largest buffer, 64 KiB with the line
    break. *)
Definition too_long (line : string) : bool := bool_decide (65536 ≤ Z.of_nat (String.length line)).

(** The lines of a stream that has ended, and whether the scanner stopped at
    a line that was too long.  The last piece is what follows the last line
    break. *)
Fixpoint tokens (pieces : list string) : list string * bool :=
  match pieces with
  | [] => ([], false)
  | [lst] => if decide (lst = "") then ([], false) else if too_long lst then ([], true) else ([drop_cr lst], false)
  | p :: ps => if too_long p then ([], true) else let '(ls, err) := tokens ps in (drop_cr p :: ls, err)
  end.

Definition scan_lines (data : string) : list string * bool := tokens (split_on is_newline data).

(** ** Messages: [map[string]interface{}] *)

(** Every number is within the range of a float64. *)
Fixpoint numbers_ok (v : json) : bool :=
  match v with
  | JNum lit => match ParseFloat lit with Some _ => true | None => false end
  | JArr l => forallb numbers_ok l
  | JObj l => forallb (λ kv, numbers_ok kv.2) l
  | _ => true
  end.

(** Of several values of a key the last one counts. *)
Definition message (v : json) : result (gmap string json) :=
  match v with
  | JObj l =>
    if numbers_ok v then Ok (foldl (λ m kv, <[kv.1 := kv.2]> m) ∅ l)
    else Err "json: cannot unmarshal number into Go value of type float64"
  | JNull => Ok ∅
  | _ => type_error (json_kind v) "map[string]interface {}" at_top
  end.

Definition strVal (m : gmap string json) (key : string) : string :=
  match m !! key with Some (JStr s) => s | _ => "" end.

Definition int64Val (m : gmap string json) (key : string) : Z :=
  match m !! key with
  | Some (JNum lit) => match ParseFloat lit with Some f => float_to_int64 f | None => 0 end
  | _ => 0
  end.

Definition result_of (m : gmap string json) : AgentResult :=
  mkAgentResult (strVal m "command_id") (strVal m "status") (strVal m "output") (strVal m "logs")
    (int64Val m "duration_ms").

(** ** Commands *)

Definition param_json (p : param) : json :=
  match p with
  | PString s => JStr s
  | PStrings l => JArr (JStr <$> l)
  | PEnv env => JObj (prod_map id JStr <$> sorted env)
  end.

Definition command_json (cmd : AgentCommand) : json :=
  JObj [("cmd", JStr (ac_Type cmd)); ("command_id", JStr (ac_ID cmd)); ("msg", JStr "command");
        ("params", JObj (prod_map id param_json <$> sorted (ac_Parameters cmd)))].

Definition ack_json (agentID : string) : json := JObj [("agent_id", JStr agentID); ("msg", JStr "ack")].

(** [encoder.Encode]: the text and a line break. *)
Definition encode_line (v : json) : string := print v +:+ newline.

(** ** The connection of a VM *)

Class HubConn (W : Type) := {
  conn_Dial : string → M W (result unit);
  conn_Write : string → string → M W (result unit);       (* to the VM's socket *)
  conn_Close : string → M W unit;
  hub_select_after : ctx → Z → M W (option string);
  hub_Done : ctx → M W bool;
  go_commandPump : ctx → string → M W unit;
}.

Section hub.
Context {W : Type} `{!AgentSide W, !HubConn W}.

(** One line of the agent. *)
Definition handle_line (c : ctx) (vmID line : string) : M W unit :=
  match result_bind (parse line) message with
  | Err _ => mret tt
  | Ok m =>
    match m !! "msg" with
    | Some (JStr "register") =>
      let agentID := agent_id vmID in
      _ ← co_NotifyAgentReady vmID agentID;
      _ ← conn_Write vmID (encode_line (ack_json agentID));
      go_commandPump c vmID
    | Some (JStr "result") => _ ← co_DeliverResult vmID (result_of m); mret tt
    | _ => mret tt
    end
  end.

(** The loop over the lines; it ends early when the context is done. *)
Fixpoint serve_lines (c : ctx) (vmID : string) (lines : list string) : M W unit :=
  match lines with
  | [] => mret tt
  | line :: lines' =>
    d ← hub_Done c;
    if (d : bool) then mret tt
    else _ ← handle_line c vmID line; serve_lines c vmID lines'
  end.

(** Dialling, at most [fuel] times: [Some true] when connected, [Some false]
    when the context ended first. *)
Fixpoint dial_loop (fuel : nat) (c : ctx) (vmID : string) : M W (option bool) :=
  match fuel with
  | O => mret None
  | S fuel' =>
    r ← conn_Dial (AgentSocketPath vmID);
    match r with
    | Ok _ => mret (Some true)
    | Err _ =>
      d ← hub_select_after c 500000000;
      match d with
      | Some _ => mret (Some false)
      | None => dial_loop fuel' c vmID
      end
    end
  end.

(** [serveVM], on the stream [data] the agent writes until it closes. *)
Definition serveVM (fuel : nat) (c : ctx) (vmID data : string) : M W unit :=
  r ← dial_loop fuel c vmID;
  match r with
  | Some true => _ ← serve_lines c vmID (scan_lines data).1; conn_Close vmID
  | _ => mret tt
  end.

(** A turn of [commandPump]: whether there is another one. *)
Definition pump_turn (c : ctx) (vmID : string) : M W bool :=
  r ← co_GetNextCommand c vmID;
  match r with
  | Err _ => mret false
  | Ok cmd =>
    r ← conn_Write vmID (encode_line (command_json cmd));
    match r with
    | Err _ => mret false
    | Ok _ => mret true
    end
  end.

(** [commandPump], for at most [fuel] turns. *)
Fixpoint commandPump (fuel : nat) (c : ctx) (vmID : string) : M W unit :=
  match fuel with
  | O => mret tt
  | S fuel' =>
    more ← pump_turn c vmID;
    if (more : bool) then commandPump fuel' c vmID else mret tt
  end.

End hub.

(** ** Framing *)

Definition framed (lines : list string) : string := foldr (λ l s, l +:+ newline +:+ s) "" lines.

(** A line as the protocol means it: no line break, and it fits. *)
Definition fits_line (l : string) : Prop := split_on is_newline l = [l] ∧ too_long l = false.

Lemma split_framed lines rest :
  Forall (λ l, split_on is_newline l = [l]) lines →
  split_on is_newline (framed lines +:+ rest) = lines ++ split_on is_newline rest.
Proof.
  induction 1 as [|l ls Hl _ IH]; [done|]. cbn [framed foldr]. fold (framed ls). rewrite !str_app_assoc.
  change (l +:+ newline +:+ ?x) with (l +:+ String (ascii_of_nat 10) x). rewrite split_on_cut, Hl by done.
  cbn [app]. f_equal. exact IH.
Qed.

Lemma tokens_cons l ps :
  ps ≠ [] → too_long l = false →
  tokens (l :: ps) = let '(ls, err) := tokens ps in (drop_cr l :: ls, err).
Proof. intros Hne Hl. destruct ps; [done|]. cbn [tokens]. by rewrite Hl. Qed.

Lemma tokens_app lines ps :
  ps ≠ [] → Forall (λ l, too_long l = false) lines →
  tokens (lines ++ ps) = let '(ls, err) := tokens ps in ((drop_cr <$> lines) ++ ls, err).
Proof.
  intros Hne. induction 1 as [|l ls Hl _ IH]; cbn [app fmap list_fmap map]; [by destruct (tokens ps)|].
  rewrite tokens_cons, IH; [by destruct (tokens ps)| |done]. by intros [_ ?]%app_eq_nil.
Qed.

Lemma scan_framed lines rest :
  Forall fits_line lines →
  scan_lines (framed lines +:+ rest) = let '(ls, err) := scan_lines rest in ((drop_cr <$> lines) ++ ls, err).
Proof.
  intros Hf. unfold scan_lines. rewrite split_framed by (eapply Forall_impl; [exact Hf|]; by intros l []).
  apply tokens_app; [apply split_on_ne|]. eapply Forall_impl; [exact Hf|]. by intros l [].
Qed.

(** A text without control characters is a line, with nothing to drop. *)
Lemma one_line_split s : one_line s → split_on is_newline s = [s].
Proof.
  unfold one_line. induction s as [|c s IH]; [done|]. intros [Hc Hs]%Forall_cons. simpl.
  assert (Hn : is_newline c = false) by (apply N.eqb_neq; apply N.leb_le in Hc; lia). by rewrite Hn, IH.
Qed.

Lemma one_line_drop_cr s : one_line s → drop_cr s = s.
Proof.
  unfold one_line. induction s as [|c s IH]; [done|]. intros [Hc Hs]%Forall_cons. cbn [drop_cr].
  destruct s as [|d s]; [|by rewrite IH].
  assert (Hn : (code c =? 13)%N = false) by (apply N.eqb_neq; apply N.leb_le in Hc; lia). by rewrite Hn.
Qed.

(** ** Results *)

(** The line of a result, as the agent writes it. *)
Definition result_json (r : AgentResult) : json :=
  JObj [("msg", JStr "result"); ("command_id", JStr (ar_CommandID r)); ("status", JStr (ar_Status r));
        ("output", JStr (ar_Output r)); ("logs", JStr (ar_Logs r)); ("duration_ms", JNum (fmt_d (ar_DurationMs r)))].

Record sendable (r : AgentResult) : Prop := mkSendable {
  se_id : valid_string (ar_CommandID r);
  se_status : valid_string (ar_Status r);
  se_output : valid_string (ar_Output r);
  se_logs : valid_string (ar_Logs r);
  se_ms : - 2 ^ 53 < ar_DurationMs r < 2 ^ 53;
  se_fits : too_long (print (result_json r)) = false;
}.

Lemma result_printable r : sendable r → printable 1 (result_json r).
Proof.
  intros []. simpl. repeat constructor; simpl; try done; try (by apply valid_ascii). apply fmt_d_number.
Qed.

(** The entries of an object whose keys are those of a result. *)
Lemma result_entries (a b c d e f : json) :
  let m := foldl (λ (m : gmap string json) kv, <[kv.1 := kv.2]> m) ∅
    [("msg", a); ("command_id", b); ("status", c); ("output", d); ("logs", e); ("duration_ms", f)] in
  m !! "msg" = Some a ∧ m !! "command_id" = Some b ∧ m !! "status" = Some c ∧ m !! "output" = Some d ∧
  m !! "logs" = Some e ∧ m !! "duration_ms" = Some f.
Proof. vm_compute. by split_and!. Qed.

Lemma result_arrives r :
  sendable r →
  ∃ m, result_bind (parse (print (result_json r))) message = Ok m ∧ m !! "msg" = Some (JStr "result") ∧ result_of m = r.
Proof.
  intros Hr. unfold result_json. rewrite (parse_print 1) by (by apply result_printable || lia).
  pose proof (se_ms _ Hr) as Hms. destruct (exact_53 (ar_DurationMs r)) as (f & Hf & Hf64); [lia|]. cbn [result_bind message numbers_ok forallb snd].
  rewrite Hf. cbn [andb].
  destruct (result_entries (JStr "result") (JStr (ar_CommandID r)) (JStr (ar_Status r)) (JStr (ar_Output r))
    (JStr (ar_Logs r)) (JNum (fmt_d (ar_DurationMs r)))) as (H1 & H2 & H3 & H4 & H5 & H6).
  eexists. split_and!; [done|exact H1|]. unfold result_of, strVal, int64Val.
  rewrite H2, H3, H4, H5, H6, Hf, Hf64. by destruct r.
Qed.

(** ** Properties *)

Section delivery.
Context {W : Type} `{!AgentSide W, !HubConn W}.

Lemma handle_result c vmID r (w : W) :
  sendable r →
  handle_line c vmID (print (result_json r)) w = (_ ← co_DeliverResult vmID r; mret tt) w.
Proof.
  intros (m & Hm & Hk & Hr)%result_arrives. unfold handle_line. rewrite Hm. cbn [result_bind]. by rewrite Hk, Hr.
Qed.

Lemma result_line r : sendable r → fits_line (print (result_json r)) ∧ drop_cr (print (result_json r)) = print (result_json r).
Proof.
  intros Hr. assert (H1 : one_line (print (result_json r))) by (eapply one_line_print; by apply result_printable).
  split; [split; [by apply one_line_split|apply Hr]|by apply one_line_drop_cr].
Qed.

(** While the context of a connection lives, the results an agent writes,
    one JSON object per line, reach the coordinator one by one: each one
    once, in the order written, with every field as the agent wrote it.  This
    holds for all texts, line breaks and quotes in an output included, as
    long as a line stays below 64 KiB and a duration below 2^53 milliseconds. *)
Theorem results_delivered (c : ctx) (vmID : string) (rs : list AgentResult) :
  (∀ w : W, hub_Done c w = Done (false, w)) → Forall sendable rs →
  ∀ w, serve_lines c vmID (scan_lines (framed (print ∘ result_json <$> rs))).1 w =
       for_each rs (λ r, _ ← co_DeliverResult vmID r; mret tt) w.
Proof.
  intros Hctx Hrs. rewrite <- (str_app_nil (framed _)), scan_framed.
  2: { apply Forall_fmap. eapply Forall_impl; [exact Hrs|]. intros r Hr. by apply result_line. }
  change (scan_lines "") with (([] : list string), false). cbn [fst]. rewrite app_nil_r.
  induction Hrs as [|r rs Hr _ IH]; intros w; [done|]. cbn [fmap list_fmap serve_lines for_each].
  change ((print ∘ result_json) r) with (print (result_json r)).
  rewrite (M_bind_done _ _ _ _ _ (Hctx w)), (proj2 (result_line _ Hr)).
  by apply M_bind_ext; [apply handle_result|intros _; exact IH].
Qed.

(** A line of 64 KiB or more ends the connection for good, without an
    error to anyone: the lines before it are handled, and nothing the agent
    writes from there on is, whatever it is. *)
Theorem long_line_ends_connection (lines : list string) (long rest : string) :
  Forall fits_line lines → split_on is_newline long = [long] → too_long long = true →
  scan_lines (framed lines +:+ (long +:+ newline +:+ rest)) = (drop_cr <$> lines, true).
Proof.
  intros Hl Hs Hlong. rewrite scan_framed by done. unfold scan_lines.
  change (long +:+ newline +:+ rest) with (long +:+ String (ascii_of_nat 10) rest).
  rewrite split_on_cut, Hs by done. cbn [app]. destruct (split_on is_newline rest) eqn:E; [by destruct (split_on_ne is_newline rest)|].
  cbn [tokens]. rewrite Hlong. by rewrite app_nil_r.
Qed.

End delivery.

(** ** Commands *)

(** The texts of a parameter are encodable. *)
Definition param_valid (p : param) : Prop :=
  match p with
  | PString s => valid_string s
  | PStrings l => Forall valid_string l
  | PEnv env => map_Forall (λ k v, valid_string k ∧ valid_string v) env
  end.

Definition command_valid (cmd : AgentCommand) : Prop :=
  valid_string (ac_Type cmd) ∧ valid_string (ac_ID cmd) ∧
  map_Forall (λ k p, valid_string k ∧ param_valid p) (ac_Parameters cmd).

Lemma param_printable p : param_valid p → printable 2 (param_json p).
Proof.
  destruct p as [s|l|env]; simpl; [done| |].
  - intros Hl. by apply Forall_fmap.
  - intros Henv. apply Forall_fmap, sorted_Forall. intros k v Hk. by apply Henv.
Qed.

Lemma command_printable cmd : command_valid cmd → printable 4 (command_json cmd).
Proof.
  intros (Ht & Hi & Hp). unfold command_json. cbn [printable]. rewrite !Forall_cons, Forall_nil.
  split_and!; try done; try (by apply valid_ascii). apply Forall_fmap, sorted_Forall. intros k v Hk.
  destruct (Hp k v Hk). split; [done|]. by apply param_printable.
Qed.

(** What the hub writes for a command is one line, and the JSON object on
    that line is the command: its type, its id, and under [params] exactly
    the parameters of the command, each key once, with its value. *)
Theorem command_line_arrives (cmd : AgentCommand) :
  command_valid cmd →
  scan_lines (encode_line (command_json cmd)) =
    (if too_long (print (command_json cmd)) then ([], true) else ([print (command_json cmd)], false)) ∧
  ∃ ps, parse (print (command_json cmd)) =
          Ok (JObj [("cmd", JStr (ac_Type cmd)); ("command_id", JStr (ac_ID cmd)); ("msg", JStr "command");
                    ("params", JObj ps)]) ∧
        NoDup ps.*1 ∧ ∀ k v, (k, v) ∈ ps ↔ ∃ p, ac_Parameters cmd !! k = Some p ∧ v = param_json p.
Proof.
  intros Hv%command_printable. pose proof (one_line_print _ _ Hv) as Ho. split.
  - unfold scan_lines, encode_line. change newline with (String (ascii_of_nat 10) "").
    rewrite split_on_cut, one_line_split by done. cbn [app split_on tokens].
    rewrite (one_line_drop_cr _ Ho). by destruct (too_long (print _)).
  - eexists. split; [apply (parse_print 4); [done|lia]|]. rewrite <- list_fmap_compose. split; [apply sorted_keys|].
    intros k v. rewrite list_elem_of_fmap. split.
    + intros ([k' p] & [= -> ->] & Hp%elem_of_sorted). by exists p.
    + intros (p & Hp & ->). exists (k, p). by rewrite elem_of_sorted.
Qed.

(** ** Witnesses *)

(** A world that records what reaches the coordinator. *)
Definition bench_agents : AgentSide (list AgentResult) := {|
  co_NotifyAgentReady _ _ := mret (Ok tt);
  co_GetNextCommand _ _ := mret (Err "no commands");
  co_DeliverResult _ r := λ w, Done (Ok tt, w ++ [r]);
|}.

Definition bench_conn : HubConn (list AgentResult) := {|
  conn_Dial _ := mret (Ok tt);
  conn_Write _ _ := mret (Ok tt);
  conn_Close _ := mret tt;
  hub_select_after _ _ := mret None;
  hub_Done _ := mret false;
  go_commandPump _ _ := mret tt;
|}.

Definition bench_result (id output : string) : AgentResult := mkAgentResult id "success" output "" 1250.

Definition bench_results : list AgentResult :=
  [bench_result "cmd-1" ("PASS" +:+ newline +:+ "done"); bench_result "cmd-2" "<ok>"].

Lemma bench_sendable : Forall sendable bench_results.
Proof.
  apply Forall_cons_2; [|apply Forall_cons_2; [|apply Forall_nil_2]]; split;
    first [apply valid_ascii; vm_compute; reflexivity | simpl; lia | vm_compute; reflexivity].
Qed.

Lemma results_delivered_witness :
  serve_lines (AgentSide0 := bench_agents) (HubConn0 := bench_conn) Background "vm-1"
    (scan_lines (framed (print ∘ result_json <$> bench_results))).1 [] = Done (tt, bench_results).
Proof.
  rewrite (results_delivered (AgentSide0 := bench_agents) (HubConn0 := bench_conn));
    [reflexivity|reflexivity|exact bench_sendable].
Defined.

Fixpoint xs (n : nat) : string := match n with O => "" | S n' => String "x" (xs n') end.

Lemma xs_plain n : split_on is_newline (xs n) = [xs n].
Proof. apply one_line_split. by induction n; constructor. Qed.

Lemma xs_length n : String.length (xs n) = n.
Proof. induction n as [|n IH]; [done|]. simpl. by rewrite IH. Qed.

Lemma long_line_ends_connection_witness :
  ∃ long, scan_lines (framed ["{}"] +:+ (long +:+ newline +:+ "{}")) = (["{}"], true).
Proof.
  exists (xs (Z.to_nat 65536)). rewrite long_line_ends_connection; [reflexivity|repeat constructor|apply xs_plain|].
  unfold too_long. rewrite xs_length, Z2Nat.id by lia. by apply bool_decide_eq_true.
Defined.

Definition bench_command : AgentCommand :=
  mkAgentCommand "cmd-1" "start_test"
    {[ "binary" := PString "/bin/t"; "env" := PEnv {[ "DVF_DEVICE_PATH" := "/dev/gpu" ]}; "args" := PStrings ["-v"] ]}.

Lemma bench_command_valid : command_valid bench_command.
Proof.
  split_and!; [by apply valid_ascii|by apply valid_ascii|]. unfold bench_command. cbn [ac_Parameters].
  apply map_Forall_insert_2; [|apply map_Forall_insert_2; [|apply map_Forall_singleton]]; (split; [by apply valid_ascii|]); simpl.
  - by apply valid_ascii.
  - apply map_Forall_singleton. split; by apply valid_ascii.
  - repeat constructor.
Qed.

Lemma command_line_arrives_witness :
  ∃ ps, parse (print (command_json bench_command)) =
          Ok (JObj [("cmd", JStr (ac_Type bench_command)); ("command_id", JStr (ac_ID bench_command));
                    ("msg", JStr "command"); ("params", JObj ps)]) ∧
        ("args", JArr [JStr "-v"]) ∈ ps.
Proof.
  destruct (command_line_arrives bench_command bench_command_valid) as (_ & ps & Hp & _ & Hin).
  exists ps. split; [exact Hp|]. apply Hin. exists (PStrings ["-v"]). split; reflexivity.
Defined.
