(* ===== verification/AgentLink.v ===== *)
(** * The guest agent and the hub, together

    The two programs at the ends of the virtio-serial port: what the hub
    ([VirtioHub]) writes is what the agent ([GuestAgent]) reads, and the
    lines of the agent reach the coordinator as the results of the commands
    that were sent. *)
From Stdlib Require Import Ascii SpecFloat.
From stdpp Require Import options.
Set Default Proof Using "Type*".
From S2P Require Import Prelude GoStd Types Effects Config Json Marshal JsonText Numbers JsonPrint PyText JsonTyped.
From S2P Require Import AgentParser GuestAgent AgentRun StepExec Interfaces AgentServer VmManager VirtioHub.
Open Scope string_scope.
Open Scope list_scope.
Open Scope Z_scope.

(** ** Commands, from the hub to the agent *)

Lemma visible_valid l : Forall (λ c, (code c < 128)%N) l → valid_utf8 l.
Proof. induction 1; [constructor|by apply valid_one]. Qed.

Lemma escape_valid l : valid_utf8 l → valid_utf8 (escape l).
Proof.
  induction 1 as [|c l Hc _ IH|c c1 l H _ IH|c c1 c2 l H _ IH|c c1 c2 c3 l H _ IH]; cbn [escape]; [constructor|..].
  - rewrite (proj2 (N.ltb_lt _ _) Hc). apply valid_app; [|done]. apply visible_valid.
    assert (Hb : forallb (λ c, code c <? 128)%N (escape_ascii c) = true) by (all_bytes c; vm_compute in Hc; done).
    apply Forall_forall. intros x Hx%list_elem_of_In. by apply N.ltb_lt, (proj1 (forallb_forall _ _) Hb).
  - destruct (rune2_high _ _ H) as [Hc _]. destruct (high_byte c ltac:(lia)) as (_ & _ & _ & ->). rewrite H. by apply valid_two.
  - destruct (rune3_high _ _ _ H) as [Hc _]. destruct (high_byte c ltac:(lia)) as (_ & _ & _ & ->).
    rewrite not_rune2, H by lia. unfold escape3. destruct (separator c c1 c2) eqn:Es; [|by apply valid_three].
    apply valid_app; [|done]. unfold separator in Es.
    apply andb_prop in Es as [_ [->%N.eqb_eq%code_inj| ->%N.eqb_eq%code_inj]%orb_prop]; by apply visible_valid; repeat constructor.
  - destruct (rune4_high _ _ _ _ H) as [Hc _]. destruct (high_byte c ltac:(lia)) as (_ & _ & _ & ->).
    rewrite not_rune2, not_rune3, H by lia. by apply valid_four.
Qed.

Lemma marshal_valid s : valid_string s → valid_string (marshal_string s).
Proof.
  intros Hs. unfold marshal_string. apply (valid_one _ (bytes (str (escape (bytes s)) +:+ String dquote ""))); [done|].
  apply (valid_string_app (str (escape (bytes s)))); [|by apply text_valid; solve_ascii].
  unfold valid_string. rewrite bytes_str. by apply escape_valid.
Qed.

Lemma print_valid d v : printable d v → valid_string (print v).
Proof.
  revert v. induction d as [|d IH]; intros v; destruct v as [|[]|lit|s|l|l]; try done; intros Hv;
    try (by apply marshal_valid); try (apply text_valid; solve_ascii);
    try (by apply text_valid, number_ascii).
  - cbn [print]. apply (valid_string_app "["); [apply text_valid; solve_ascii|]. apply valid_string_app; [|apply text_valid; solve_ascii].
    apply valid_join; [apply text_valid; solve_ascii|]. apply Forall_fmap. eapply Forall_impl; [exact Hv|]. intros x. apply IH.
  - cbn [print]. apply (valid_string_app "{"); [apply text_valid; solve_ascii|]. apply valid_string_app; [|apply text_valid; solve_ascii].
    apply valid_join; [apply text_valid; solve_ascii|]. apply Forall_fmap. eapply Forall_impl; [exact Hv|]. intros [k x] [Hk Hx].
    apply valid_string_app; [by apply marshal_valid|]. apply (valid_string_app ":"); [apply text_valid; solve_ascii|by apply IH].
Qed.

(** What the agent reads of a line the hub printed. *)
Lemma recv_print d v : printable d v → distinct_keys d v → (d ≤ 1000)%nat → recv (print v) = v.
Proof.
  intros Hv Hk Hd. unfold recv. rewrite utf8_ok_valid.
  - assert (Hp : parse (print v +:+ py_newline) = Ok v).
    { apply (parse_spells d); [by apply print_spells|done|]. by apply Forall_singleton. }
    rewrite (loads_parse _ _ Hp). by rewrite (py_value_id d).
  - apply valid_string_app; [by eapply print_valid|apply newline_valid].
Qed.

Lemma sorted_fmap_keys {A B} (f : A → B) (m : gmap string A) : NoDup (prod_map id f <$> sorted m).*1.
Proof. rewrite <- list_fmap_compose. apply sorted_keys. Qed.

Lemma param_distinct p : distinct_keys 2 (param_json p).
Proof.
  destruct p as [t|l|env]; cbn [param_json distinct_keys]; [done|by apply Forall_fmap, Forall_true|].
  split; [apply sorted_fmap_keys|]. by apply Forall_fmap, Forall_true.
Qed.

Lemma command_distinct cmd : distinct_keys 4 (command_json cmd).
Proof.
  unfold command_json. cbn [distinct_keys]. split.
  { change (NoDup ["cmd"; "command_id"; "msg"; "params"]). apply (bool_decide_unpack _). vm_compute. exact I. }
  repeat (apply Forall_cons; split); try apply Forall_nil_2; try done. split; [apply sorted_fmap_keys|].
  apply Forall_fmap, Forall_true. intros [k p]. apply param_distinct.
Qed.

(** The command as the agent sees it. *)
Definition guest_command (cmd : AgentCommand) : command :=
  mkCommand (JStr (ac_ID cmd)) (JStr (ac_Type cmd)) (JObj (prod_map id param_json <$> sorted (ac_Parameters cmd))).

Lemma printable_readable d v : printable d v → dumpable py_number d v.
Proof.
  revert v. induction d as [|d IH]; intros v; destruct v as [|b|lit|s|l|l]; try done; try (intros ?; by left).
  - intros Hl. eapply Forall_impl; [exact Hl|]. apply IH.
  - intros Hl. eapply Forall_impl; [exact Hl|]. intros kv [? ?]. split; [done|by apply IH].
Qed.

Lemma command_arrives cmd : command_valid cmd → command_line (print (command_json cmd)) (guest_command cmd).
Proof.
  intros Hv. pose proof (command_printable cmd Hv) as Hp. unfold command_line.
  rewrite (recv_print 4); [|done|apply command_distinct|lia].
  assert (Hr : readable_value (command_json cmd)) by (exists 4%nat; by apply printable_readable).
  assert (He : readable_value (JStr "")) by (apply str_readable; apply text_valid; solve_ascii).
  split_and!; [done|done|..].
  - apply (get_readable (command_json cmd) "command_id" (JStr "")); done.
  - apply (get_readable (command_json cmd) "cmd" (JStr "")); done.
  - apply (get_readable (command_json cmd) "params" (JStr "")); done.
Qed.

(** ** Lines, from the agent to the hub *)

Section lines.
Context `{!PyRepr, !PyFloat, !PyTextLaws}.

Definition written_number (lit : string) : Prop := number_literal (py_num lit) = true.

Lemma wire_parse d v : dumpable written_number d v → (d ≤ 1000)%nat → parse (wire v) = Ok (renumber py_num v).
Proof.
  intros Hv Hd. unfold wire. rewrite <- (str_app_nil (dumps _ _ _ _)).
  apply (parse_dumps _ _ _ blank_nil blank_nil written_number d); [done|done|done|apply blank_nil].
Qed.

(** A line of the agent is one line of the hub. *)
Lemma wire_line v : numbers_all ascii_text v → split_on is_newline (wire v) = [wire v] ∧ drop_cr (wire v) = wire v.
Proof.
  intros Hv. assert (Ho : one_line (wire v)).
  { assert (Ha : ascii_text (wire v)).
    { apply dumps_ascii; [solve_ascii..|]. eapply numbers_mono; [apply py_num_ascii|done]. }
    eapply Forall_impl; [exact Ha|]. intros c [? _]. by apply N.leb_le. }
  split; [by apply one_line_split|by apply one_line_drop_cr].
Qed.

(** What a line means for the coordinator. *)
Inductive guest_line (vm_id : string) : string → option AgentResult → Prop :=
| line_heartbeat : valid_string vm_id → guest_line vm_id (wire (heartbeat_json vm_id)) None
| line_log severity message :
    valid_string vm_id → valid_string severity → valid_string message →
    guest_line vm_id (wire (log_json vm_id severity message)) None
| line_answer r :
    valid_string (ar_CommandID r) → valid_string (ar_Status r) → valid_string (ar_Output r) → valid_string (ar_Logs r) →
    - 2 ^ 53 < ar_DurationMs r < 2 ^ 53 →
    guest_line vm_id
      (wire (answer_json (JStr (ar_CommandID r)) (ar_Status r) (ar_Output r) (ar_Logs r) (ar_DurationMs r))) (Some r).

Lemma guest_line_split vm line o : guest_line vm line o → split_on is_newline line = [line] ∧ drop_cr line = line.
Proof. intros []; apply wire_line; split_and!; try done. apply fmt_d_ascii. Qed.

Ltac solve_dumpable := repeat (apply Forall_cons; split); try apply Forall_nil_2; split; simpl;
  try (by apply text_valid; solve_ascii); try done.

Lemma message_of l : numbers_ok (JObj l) = true → message (JObj l) = Ok (foldl (λ m kv, <[kv.1 := kv.2]> m) ∅ l).
Proof. intros Hn. unfold message. by rewrite Hn. Qed.

Lemma heartbeat_arrives vm :
  valid_string vm → ∃ m, result_bind (parse (wire (heartbeat_json vm))) message = Ok m ∧ m !! "msg" = Some (JStr "heartbeat").
Proof.
  intros Hv. rewrite (wire_parse 1); [|solve_dumpable|lia]. eexists. split; [done|]. done.
Qed.

Lemma log_arrives vm severity msg :
  valid_string vm → valid_string severity → valid_string msg →
  ∃ m, result_bind (parse (wire (log_json vm severity msg))) message = Ok m ∧ m !! "msg" = Some (JStr "log").
Proof.
  intros Hv Hs Hm. rewrite (wire_parse 1); [|solve_dumpable; by apply valid_first_chars|lia]. eexists. split; [done|]. done.
Qed.

Lemma answer_arrives r :
  valid_string (ar_CommandID r) → valid_string (ar_Status r) → valid_string (ar_Output r) → valid_string (ar_Logs r) →
  - 2 ^ 53 < ar_DurationMs r < 2 ^ 53 →
  ∃ m, result_bind (parse (wire (answer_json (JStr (ar_CommandID r)) (ar_Status r) (ar_Output r) (ar_Logs r) (ar_DurationMs r))))
         message = Ok m ∧ m !! "msg" = Some (JStr "result") ∧ result_of m = r.
Proof.
  intros Hi Hs Ho Hl Hd. rewrite (wire_parse 1); [|solve_dumpable; unfold written_number; rewrite py_num_int; apply fmt_d_number|lia].
  destruct (exact_53 _ Hd) as (f & Hf & Hf64). unfold answer_json, int_json. cbn [renumber fmap list_fmap fst snd result_bind].
  rewrite py_num_int, message_of by (cbn [numbers_ok forallb snd]; by rewrite Hf).
  destruct (result_entries (JStr "result") (JStr (ar_CommandID r)) (JStr (ar_Status r)) (JStr (ar_Output r))
    (JStr (ar_Logs r)) (JNum (fmt_d (ar_DurationMs r)))) as (H1' & H2' & H3' & H4' & H5' & H6').
  eexists. split_and!; [done|exact H1'|]. unfold result_of, strVal, int64Val.
  rewrite H2', H3', H4', H5', H6', Hf, Hf64. by destruct r.
Qed.

(** ** Delivery *)

Section delivery.
Context {V : Type} `{!AgentSide V, !HubConn V}.

Lemma handle_guest c vm vmID line o (v : V) :
  guest_line vm line o →
  handle_line c vmID line v = match o with Some r => (_ ← co_DeliverResult vmID r; mret tt) v | None => Done (tt, v) end.
Proof.
  intros []; unfold handle_line.
  - destruct (heartbeat_arrives vm) as (m & -> & Hm); [done|]. cbn [result_bind]. by rewrite Hm.
  - destruct (log_arrives vm severity message) as (m & -> & Hm); [done..|]. cbn [result_bind]. by rewrite Hm.
  - destruct (answer_arrives r) as (m & -> & Hm & Hr); [done..|]. cbn [result_bind]. by rewrite Hm, Hr.
Qed.

(** The lines of an agent, in whatever order: its results are delivered, the
    rest has no effect. *)
Lemma serve_guest c vm vmID lines os :
  (∀ v : V, hub_Done c v = Done (false, v)) → Forall2 (guest_line vm) lines os → Forall (λ l, too_long l = false) lines →
  ∀ v, serve_lines c vmID (scan_lines (framed lines)).1 v =
       for_each (omap id os) (λ r, _ ← co_DeliverResult vmID r; mret tt) v.
Proof.
  intros Hctx Hl Hfit. rewrite <- (str_app_nil (framed _)), scan_framed.
  2: { apply Forall_forall. intros l Hin. split; [|by apply (proj1 (Forall_forall _ _) Hfit)].
       apply list_elem_of_lookup in Hin as [i Hi]. destruct (Forall2_lookup_l _ _ _ _ _ Hl Hi) as (o & _ & Ho).
       by eapply guest_line_split. }
  change (scan_lines "") with (([] : list string), false). cbn [fst]. rewrite app_nil_r. clear Hfit.
  induction Hl as [|l o ls os Hlo _ IH]; intros v; [done|]. cbn [fmap list_fmap serve_lines].
  rewrite (M_bind_done _ _ _ _ _ (Hctx v)), (proj2 (guest_line_split _ _ _ Hlo)).
  cbn [omap list_omap id]. destruct o as [r|]; cbn [for_each].
  - apply M_bind_ext; [exact (handle_guest c _ vmID _ _ v Hlo)|]. intros []. apply IH.
  - rewrite (M_bind_done _ _ _ tt v); [apply IH|exact (handle_guest c _ vmID _ _ v Hlo)].
Qed.

End delivery.

End lines.

(** ** The two together *)

(** Two threads write their lines, each in its order. *)
Inductive interleaved {A : Type} : list A → list A → list A → Prop :=
| inter_nil : interleaved [] [] []
| inter_left x l1 l2 l : interleaved l1 l2 l → interleaved (x :: l1) l2 (x :: l)
| inter_right x l1 l2 l : interleaved l1 l2 l → interleaved l1 (x :: l2) (x :: l).

Definition bytes_of (chunks : list string) : string := foldr String.append "" chunks.

Section link.
Context {W : Type} `{!GuestOS W, !GuestLaws W, !PyRepr, !PyFloat, !PyTextLaws}.

Lemma host_lines_framed lines :
  Forall (λ l, split_on is_newline l = [l]) lines → host_lines (framed lines) = lines.
Proof.
  intros Hl. unfold host_lines. change split_lines with (split_on is_newline).
  rewrite <- (str_app_nil (framed lines)), split_framed by done. apply removelast_last.
Qed.

Lemma omap_replicate_none {A : Type} n : omap id (replicate n (None : option A)) = [].
Proof. induction n as [|n IH]; [done|exact IH]. Qed.

(** The chunks of an agent, as lines with their meaning. *)
Lemma answers_lines a ids out :
  valid_string (a_vm_id a) → Forall valid_string ids → answers a (JStr <$> ids) out →
  ∃ lines os, out = (λ l, l +:+ py_newline) <$> lines ∧ Forall2 (guest_line (a_vm_id a)) lines os ∧
    ar_CommandID <$> omap id os = ids.
Proof.
  intros Hvm. revert out. induction ids as [|i ids IH]; intros out Hids Ha; inversion Ha as [|? ? l s rest Hl Hs Hrest]; subst.
  { by exists [], []. }
  apply Forall_cons in Hids as [Hi Hids]. destruct (IH rest Hids Hrest) as (lines & os & -> & Hf & Hos).
  destruct Hs as (status & output & logs & d & -> & Hst & Ho & Hlg & Hd).
  assert (Hll : ∃ ls, l = (λ l, l +:+ py_newline) <$> ls ∧ Forall2 (guest_line (a_vm_id a)) ls (replicate (length ls) None)).
  { clear - Hl Hvm. induction Hl as [|x l (sev & msg & -> & Hs & Hm) _ (ls & -> & Hls)]; [by exists []|].
    exists (wire (log_json (a_vm_id a) sev msg) :: ls). split; [done|]. constructor; [by apply line_log|done]. }
  destruct Hll as (ls & -> & Hls).
  exists (ls ++ wire (answer_json (JStr i) status output logs d) :: lines),
    (replicate (length ls) None ++ Some (mkAgentResult i status output logs d) :: os). split_and!.
  - by rewrite fmap_app.
  - apply Forall2_app; [done|]. constructor; [|done]. by apply (line_answer _ (mkAgentResult i status output logs d)).
  - rewrite omap_app. cbn [omap list_omap id]. rewrite fmap_app. cbn [fmap list_fmap ar_CommandID].
    rewrite omap_replicate_none. cbn [app fmap list_fmap]. f_equal. exact Hos.
Qed.

(** What other threads of the agent write: heartbeats, and the log lines of
    threads that still read the streams of an earlier program. *)
Definition other_line (vm s : string) : Prop :=
  s = line_of (heartbeat_json vm) ∨
  ∃ severity message, s = line_of (log_json vm severity message) ∧ valid_string severity ∧ valid_string message.

(** The lines of the other threads, in between. *)
Lemma interleaved_lines vm lines os hbs stream :
  valid_string vm → Forall2 (guest_line vm) lines os → Forall (other_line vm) hbs →
  interleaved ((λ l, l +:+ py_newline) <$> lines) hbs stream →
  ∃ lines' os', stream = (λ l, l +:+ py_newline) <$> lines' ∧ Forall2 (guest_line vm) lines' os' ∧ omap id os' = omap id os.
Proof.
  intros Hvm Hf Hh Hi. remember ((λ l, l +:+ py_newline) <$> lines) as out eqn:E. revert lines os Hf E.
  induction Hi as [|x l1 l2 l Hi IH|x l1 l2 l Hi IH]; intros lines os Hf E.
  - symmetry in E. apply fmap_nil_inv in E as ->. inversion Hf; subst. by exists [], [].
  - symmetry in E. apply fmap_cons_inv in E as (y & lines' & -> & -> & ->). inversion Hf as [|? o ? os1 Hy Hf1]; subst.
    destruct (IH Hh lines' os1 Hf1 eq_refl) as (lines2 & os2 & -> & H2 & Ho). exists (y :: lines2), (o :: os2).
    split_and!; [done|by constructor|]. cbn [omap list_omap id]. destruct o; [by f_equal|done].
  - apply Forall_cons in Hh as [Hx Hh]. destruct (IH Hh lines os Hf E) as (lines2 & os2 & -> & H2 & Ho).
    destruct Hx as [->|(severity & message & -> & Hsev & Hmsg)].
    + exists (wire (heartbeat_json vm) :: lines2), (None :: os2). split_and!; [done| |done]. constructor; [by apply line_heartbeat|done].
    + exists (wire (log_json vm severity message) :: lines2), (None :: os2). split_and!; [done| |done]. constructor; [by apply line_log|done].
Qed.

Lemma framed_chunks lines : bytes_of ((λ l, l +:+ py_newline) <$> lines) = framed lines.
Proof. unfold framed, bytes_of. induction lines as [|l ls IH]; [done|]. cbn [fmap list_fmap foldr]. by rewrite IH, str_app_assoc. Qed.

(** A chunk that fits into the buffer of the hub's scanner. *)
Definition short_chunk (s : string) : Prop := Z.of_nat (String.length s) ≤ 65536.

Lemma short_line l : short_chunk (l +:+ py_newline) → too_long l = false.
Proof.
  unfold short_chunk, too_long. intros Hs. apply bool_decide_eq_false. rewrite str_length_app in Hs. simpl in Hs. lia.
Qed.

(** A command that ends the agent. *)
Definition is_shutdown (cmd : AgentCommand) : bool := bool_decide (ac_Type cmd = "shutdown").

(** C13: the hub and the guest agent work together as a remote procedure
    call.  The agent reads the commands the hub writes, runs them in order
    and comes back to reading, whatever the guest does (its programs fail,
    time out, print anything), until it is told to shut down; and the results
    that reach the coordinator are exactly one per command up to and including
    the first one to shut down, in the order of the commands, each with the
    identifier of its command, whatever heartbeats and log lines other threads
    of the agent write in between.  The texts of the commands are valid UTF-8, the
    lines fit into the hub's buffer, and [os.write] takes each of them
    whole. *)
Theorem commands_answered_once {V : Type} `{!AgentSide V, !HubConn V} (a : agent) (cmds : list AgentCommand) (w : W) :
  a_running a = true → valid_string (a_vm_id a) → Forall command_valid cmds →
  ∃ w' out rs,
    command_loop a (host_lines (bytes_of (encode_line ∘ command_json <$> cmds))) w =
      Done (Ok (after_commands a (existsb is_shutdown cmds)), w') ∧
    written w' = written w ++ out ∧
    ar_CommandID <$> rs = ac_ID <$> served is_shutdown cmds ∧
    ∀ others stream c vmID (v : V),
      Forall (other_line (a_vm_id a)) others → interleaved out others stream →
      Forall short_chunk stream → (∀ v : V, hub_Done c v = Done (false, v)) →
      serve_lines c vmID (scan_lines (bytes_of stream)).1 v = for_each rs (λ r, _ ← co_DeliverResult vmID r; mret tt) v.
Proof.
  intros Hrun Hvm Hcmds.
  assert (Hin : host_lines (bytes_of (encode_line ∘ command_json <$> cmds)) = print ∘ command_json <$> cmds).
  { rewrite <- (host_lines_framed (print ∘ command_json <$> cmds)).
    - rewrite <- framed_chunks, <- list_fmap_compose. done.
    - apply Forall_fmap. eapply Forall_impl; [exact Hcmds|]. intros cmd Hc. apply one_line_split. eapply one_line_print.
      by apply command_printable. }
  assert (Hex : existsb shuts_down (guest_command <$> cmds) = existsb is_shutdown cmds)
    by (clear; induction cmds as [|cmd cmds IH]; [done|]; cbn; by f_equal).
  rewrite Hin. destruct (loop_answers a (print ∘ command_json <$> cmds) (guest_command <$> cmds) w) as (w' & out & E & Hw & Ha).
  { done. }
  { apply Forall2_fmap, Forall_Forall2_diag. eapply Forall_impl; [exact Hcmds|]. intros cmd. apply command_arrives. }
  rewrite Hex in E. rewrite served_fmap, <- list_fmap_compose in Ha.
  change (shuts_down ∘ guest_command) with is_shutdown in Ha.
  change (c_id ∘ guest_command) with (JStr ∘ ac_ID) in Ha. rewrite list_fmap_compose in Ha.
  destruct (answers_lines a (ac_ID <$> served is_shutdown cmds) out Hvm) as (lines & os & -> & Hf & Hos); [|done|].
  { apply Forall_fmap, served_incl. eapply Forall_impl; [exact Hcmds|]. by intros cmd (_ & ? & _). }
  exists w', ((λ l, l +:+ py_newline) <$> lines), (omap id os). split_and!; [done|done|done|].
  intros hbs stream c vmID v Hh Hi Hshort Hctx.
  destruct (interleaved_lines _ lines os hbs stream Hvm Hf Hh Hi) as (lines' & os' & -> & Hf' & <-).
  rewrite framed_chunks. apply (serve_guest c _ vmID lines' os' Hctx Hf').
  rewrite Forall_fmap in Hshort. eapply Forall_impl; [exact Hshort|]. intros l. apply short_line.
Qed.

(** *** Registration *)

Lemma register_arrives vm node platform devices :
  valid_string vm → valid_string node → valid_string platform → Forall valid_string devices →
  ∃ m, result_bind (parse (wire (register_json vm node platform devices))) message = Ok m ∧ m !! "msg" = Some (JStr "register").
Proof.
  intros Hv Hn Hp Hd. rewrite (wire_parse 2).
  - unfold register_json. cbn [renumber fmap list_fmap fst snd result_bind]. rewrite message_of; [eexists; split; [done|done]|].
    cbn [numbers_ok forallb snd]. rewrite andb_true_r. clear. induction devices as [|d ds IH]; [done|exact IH].
  - repeat (apply Forall_cons; split); try apply Forall_nil_2; split; simpl; try (by apply text_valid; solve_ascii); try done.
    by apply Forall_fmap.
  - lia.
Qed.

Lemma ack_lines i rest :
  valid_string i → host_lines (encode_line (ack_json i)) ++ rest = print (ack_json i) :: rest ∧ recv (print (ack_json i)) = ack_json i.
Proof.
  intros Hi. assert (Hp : printable 1 (ack_json i)).
  { repeat (apply Forall_cons; split); try apply Forall_nil_2; split; simpl; try done; apply text_valid; solve_ascii. }
  split.
  - assert (encode_line (ack_json i) = framed [print (ack_json i)]) as -> by done.
    rewrite host_lines_framed; [done|]. apply Forall_singleton, one_line_split. by eapply one_line_print.
  - apply (recv_print 1); [done| |lia]. cbn [ack_json distinct_keys]. split.
    + change (NoDup ["agent_id"; "msg"]). apply (bool_decide_unpack _). vm_compute. exact I.
    + by repeat (apply Forall_cons; split).
Qed.

(** The handshake of a new connection.  The line with which the agent
    registers makes the hub tell the coordinator that the VM's agent is
    ready, acknowledge, and start sending commands; and the agent, reading
    that acknowledgement, takes the identifier the coordinator knows it by
    and has not consumed anything of what follows. *)
Theorem registration_handshake {V : Type} `{!AgentSide V, !HubConn V} (a : agent) (vmID : string) (c : ctx) (w : W) (v : V) :
  valid_string (a_vm_id a) → valid_string vmID →
  ∃ line w', written w' = written w ++ [line +:+ py_newline] ∧
    handle_line c vmID line v =
      (_ ← co_NotifyAgentReady vmID (agent_id vmID);
       _ ← conn_Write vmID (encode_line (ack_json (agent_id vmID)));
       go_commandPump c vmID) v ∧
    ∀ rest, register a (host_lines (encode_line (ack_json (agent_id vmID))) ++ rest) w =
      Done (Ok (mkAgent (a_vm_id a) (JStr (agent_id vmID)) (a_running a), rest), w').
Proof.
  intros Hvm Hid. assert (Hai : valid_string (agent_id vmID)) by (apply (valid_string_app "agent-"); [apply text_valid; solve_ascii|done]).
  destruct (ack_lines (agent_id vmID) [] Hai) as [_ Hrecv].
  destruct (register_writes a w) as (node & plat & devices & w' & Hn & Hp & Hd & Hw & Hreg).
  exists (wire (register_json (a_vm_id a) node plat devices)), w'. split_and!; [done| |].
  - destruct (register_arrives (a_vm_id a) node plat devices) as (m & Em & Hm); [done..|].
    unfold handle_line. rewrite Em. cbn [result_bind]. by rewrite Hm.
  - intros rest. rewrite (proj1 (ack_lines _ rest Hai)). by apply Hreg.
Qed.

End link.

(** ** Which VM the agent is in *)

Lemma word_of_plain l rest :
  Forall (λ c, py_space c = false) l → word_of (l ++ byte_of 10 :: rest) = l.
Proof. induction 1 as [|c l Hc _ IH]; [done|]. cbn [word_of app]. by rewrite Hc, IH. Qed.

Lemma find_vm_id_skip c l : take 10 (c :: l) ≠ bytes "dvf_vm_id=" → find_vm_id (c :: l) = find_vm_id l.
Proof. intros Hn. cbn [find_vm_id]. change (length (bytes "dvf_vm_id=")) with 10%nat. by rewrite decide_False. Qed.

Lemma find_vm_id_here l : word_of l ≠ [] → find_vm_id (bytes "dvf_vm_id=" ++ l) = word_of l.
Proof. intros Hw. cbn -[word_of]. destruct (word_of l) eqn:E; [done|]. rewrite drop_0, E. done. Qed.

Definition kernel_options : string := "root=/dev/vda console=ttyS0 rw init=/dvf-init ".

Lemma find_vm_id_options l : find_vm_id (bytes kernel_options ++ bytes "dvf_vm_id=" ++ l) = find_vm_id (bytes "dvf_vm_id=" ++ l).
Proof.
  unfold kernel_options. cbn [bytes String.list_ascii_of_string app].
  repeat (rewrite find_vm_id_skip by (cbn [take]; discriminate)). reflexivity.
Qed.

(** The agent finds out in which VM it runs.  The kernel command line the
    manager passes to QEMU, as the guest sees it in [/proc/cmdline], gives
    exactly the identifier of the VM, for every identifier without white
    space. *)
Theorem agent_knows_its_vm (q : QEMUConfig) (vmID : string) (cfg : VMConfig) :
  vmID ≠ "" → Forall (λ c, py_space c = false) (bytes vmID) →
  ∃ i cmdline, BuildQEMUArgs q vmID cfg !! i = Some "-append" ∧ BuildQEMUArgs q vmID cfg !! S i = Some cmdline ∧
    str (find_vm_id (bytes (cmdline +:+ py_newline))) = vmID.
Proof.
  intros Hne Hid. exists 11%nat. eexists. split; [done|]. split; [done|].
  change ("root=/dev/vda console=ttyS0 rw init=/dvf-init dvf_vm_id=" +:+ vmID) with (kernel_options +:+ "dvf_vm_id=" +:+ vmID).
  rewrite !bytes_app, <- !app_assoc, find_vm_id_options.
  assert (Hw : word_of (bytes vmID ++ bytes py_newline) = bytes vmID) by (by apply (word_of_plain _ [])).
  rewrite find_vm_id_here; rewrite Hw; [apply str_bytes|]. intros E. apply (f_equal str) in E. by rewrite str_bytes in E.
Qed.

(** ** What the agent does with a test *)

Section tests.
Context {W : Type} `{!GuestOS W, !PyRepr, !PyFloat}.

(** The arguments of a test never reach its binary.  The engine sends the
    [args] of a step with its command, and the agent's handler does the same,
    call by call, with and without them. *)
Theorem test_arguments_dropped (run : TestRun) (device : DeviceEntry) (def : WorkflowStep) :
  ws_Args def ≠ [] →
  step_parameters run device def !! "args" = Some (PStrings (ws_Args def)) ∧
  ∀ (a : agent) (v : json) (params : list (string * json)),
    handle_start_test (W := W) a (JObj (("args", v) :: params)) = handle_start_test a (JObj params).
Proof.
  intros Hne. split; [|reflexivity]. unfold step_parameters. rewrite decide_True; [apply lookup_insert_eq|].
  destruct (ws_Args def); [done|simpl; lia].
Qed.

(** A test passes only if both the binary and its report say so.  When
    the parsed summary reports a failure, or tests of which none passed, the
    status the agent reports is not [passed], whatever the exit code of the
    binary was. *)
Theorem passed_means_no_failure (name : json) (ms status : string) (stores : list string * list string) (output logs : string) :
  report name ms status stores = Ok (output, "passed", logs) →
  status = "passed" ∧
  ∃ parsed summary failed passed total,
    parse_vishwa_output (join_lines stores.1 +:+ py_newline +:+ join_lines stores.2) name ms = Ok parsed ∧
    output = dumps py_num " " " " parsed ∧ get parsed "summary" (JObj []) = Ok summary ∧
    get summary "failed" (int_json 0) = Ok failed ∧ get summary "passed" (int_json 0) = Ok passed ∧
    get summary "total" (int_json 0) = Ok total ∧
    gt_zero failed = Ok false ∧ (gt_zero total = Ok true → is_zero passed = false).
Proof.
  unfold report. destruct (parse_vishwa_output _ _ _) as [parsed|] eqn:Ep; [|done]. cbn [result_bind].
  destruct (reconcile status parsed) as [st|] eqn:Er; [|done]. intros [= <- -> <-]. unfold reconcile in Er.
  case_decide as Hst; [|by injection Er as ->]. split; [done|].
  destruct (get parsed "summary" (JObj [])) as [summary|] eqn:E1; [|done]. cbn [result_bind] in Er.
  destruct (get summary "failed" _) as [failed|] eqn:E2; [|done]. cbn [result_bind] in Er.
  destruct (get summary "passed" _) as [passed|] eqn:E3; [|done]. cbn [result_bind] in Er.
  destruct (get summary "total" _) as [total|] eqn:E4; [|done]. cbn [result_bind] in Er.
  destruct (gt_zero failed) as [[]|] eqn:E5; [done| |done]. cbn [result_bind] in Er.
  destruct (gt_zero total) as [b|] eqn:E6; [|done]. cbn [result_bind] in Er. injection Er as Er.
  exists parsed, summary, failed, passed, total. split_and!; try done. intros Ht. rewrite E6 in Ht. injection Ht as ->. by destruct (is_zero passed).
Qed.

End tests.

(** ** Witnesses *)

(** A guest whose programs succeed, with the lines written so far. *)
Definition bench_guest : GuestOS (list string) := {|
  g_process := unit;
  g_environ := mret ∅;
  g_run _ _ := mret (Ok (mkCompleted "ok" "" 0));
  g_exists _ := mret (Ok true);
  g_isdir _ := mret false;
  g_listdir _ := mret (Ok []);
  g_makedirs _ := mret (Ok tt);
  g_chmod _ := mret (Ok None);
  g_read_file _ := mret (Ok "");
  g_ls_dev := mret (Ok "gp_gpu0 tty");
  g_popen _ _ _ := mret (Ok tt);
  g_taken _ := mret [(Stdout, "Test PASSED" +:+ py_newline)];
  g_wait _ _ := mret (Ok (Some 0));
  g_kill _ := mret tt;
  g_open _ := mret (Ok tt);
  g_write s := λ w, Done (Ok (Z.of_nat (String.length s)), w ++ [s]);
  g_close := mret tt;
  g_node := mret "guest";
  g_platform := mret "Linux";
  g_time := mret (S754_zero false);
  g_sleep _ := mret tt;
|}.

Definition bench_py_repr : PyRepr := λ _, "...".

(** A [repr] that keeps every literal Python can have read. *)
Definition bench_float : PyFloat := λ lit,
  if forallb (λ c, (32 <=? code c) && (code c <? 128))%N (bytes lit) then lit else "0.0".

Lemma bench_text_laws : PyTextLaws (H := bench_py_repr) (H0 := bench_float).
Proof.
  split; [intros v d _; apply text_valid; solve_ascii|]. intros lit. unfold float_repr, bench_float.
  destruct (forallb _ _) eqn:E; [by apply ascii_check|solve_ascii].
Qed.

Lemma bench_quiet {A : Type} (x : A) (P : A → Prop) : P x → quiet (λ w : list string, w) (mret x) P.
Proof. intros Hx w. by exists x, w. Qed.

Definition bench_laws : GuestLaws (list string) (GuestOS0 := bench_guest).
Proof.
  refine {| written := λ w, w; clock := λ t, t = S754_zero false |}; intros;
    try (apply (bench_quiet (A := _)); try done; try (by apply text_valid; solve_ascii)).
  - subst. exists 0. split; [vm_compute; reflexivity|lia].
  - split; apply text_valid; solve_ascii.
  - apply Forall_singleton. apply (valid_string_app "Test PASSED"); [apply text_valid; solve_ascii|apply newline_valid].
  - by eexists _, _.
Defined.

(** [_send] ignores how much [os.write] took.  When the port takes only
    the beginning of a result, as the kernel's virtio console does beyond
    32 KiB, the missing line break glues the rest of the stream to it: the
    result is never delivered, although it is with the whole line. *)
Theorem short_write_loses_result :
  let answer := line_of (H0 := bench_float) (answer_json (JStr "cmd-1") "passed" "{}" "" 7) in
  let beat := line_of (H0 := bench_float) (heartbeat_json "vm-1") in
  serve_lines (AgentSide0 := bench_agents) (HubConn0 := bench_conn) Background "vm-1"
    (scan_lines (answer +:+ beat)).1 [] = Done (tt, [mkAgentResult "cmd-1" "passed" "{}" "" 7]) ∧
  serve_lines (AgentSide0 := bench_agents) (HubConn0 := bench_conn) Background "vm-1"
    (scan_lines (str_take 64 answer +:+ beat)).1 [] = Done (tt, []).
Proof. split; vm_compute; reflexivity. Qed.

Definition bench_vm_agent : agent := mkAgent "vm-1" (JStr "agent-vm-1") true.

Definition bench_commands : list AgentCommand :=
  [mkAgentCommand "cmd-0" "load_driver" {[ "ko_path" := PString "/mnt/share/gpgpu.ko" ]}; bench_command].

Lemma bench_commands_valid : Forall command_valid bench_commands.
Proof.
  apply Forall_cons_2; [|apply Forall_cons_2; [exact bench_command_valid|apply Forall_nil_2]].
  split_and!; [apply text_valid; solve_ascii..|]. apply map_Forall_singleton. split; apply text_valid; solve_ascii.
Qed.

Lemma commands_answered_once_witness :
  ∃ w' out rs,
    command_loop (GuestOS0 := bench_guest) (H := bench_py_repr) (H0 := bench_float) bench_vm_agent
      (host_lines (bytes_of (encode_line ∘ command_json <$> bench_commands))) [] = Done (Ok bench_vm_agent, w') ∧
    w' = out ∧ ar_CommandID <$> rs = ["cmd-0"; "cmd-1"].
Proof.
  destruct (commands_answered_once (GuestOS0 := bench_guest) (GuestLaws0 := bench_laws) (H := bench_py_repr) (H0 := bench_float)
    (H1 := bench_text_laws) (AgentSide0 := bench_agents) (HubConn0 := bench_conn) bench_vm_agent bench_commands [])
    as (w' & out & rs & H1 & H2 & H3 & _).
  - reflexivity.
  - apply text_valid. solve_ascii.
  - exact bench_commands_valid.
  - exists w', out, rs. split; [exact H1|]. split; [exact H2|exact H3].
Defined.

Lemma registration_handshake_witness :
  ∃ line w', w' = [line +:+ py_newline] ∧
    ∀ rest, register (GuestOS0 := bench_guest) (H0 := bench_float) bench_vm_agent
      (host_lines (encode_line (ack_json (agent_id "vm-1"))) ++ rest) [] =
      Done (Ok (mkAgent "vm-1" (JStr "agent-vm-1") true, rest), w').
Proof.
  destruct (registration_handshake (GuestOS0 := bench_guest) (GuestLaws0 := bench_laws) (H := bench_py_repr) (H0 := bench_float)
    (H1 := bench_text_laws) (AgentSide0 := bench_agents) (HubConn0 := bench_conn) bench_vm_agent "vm-1" Background [] [])
    as (line & w' & H1 & _ & H3).
  - apply text_valid. solve_ascii.
  - apply text_valid. solve_ascii.
  - exists line, w'. split; [exact H1|exact H3].
Defined.


Lemma agent_knows_its_vm_witness :
  ∃ i cmdline, BuildQEMUArgs (mkQEMUConfig "" "" "" "" "" "" 0 0 "" "" "") "vm-7-1" (mkVMConfig None 0 0 "" "" "" "") !! i = Some "-append" ∧
    BuildQEMUArgs (mkQEMUConfig "" "" "" "" "" "" 0 0 "" "" "") "vm-7-1" (mkVMConfig None 0 0 "" "" "" "") !! S i = Some cmdline ∧
    str (find_vm_id (bytes (cmdline +:+ py_newline))) = "vm-7-1".
Proof.
  apply (agent_knows_its_vm (mkQEMUConfig "" "" "" "" "" "" 0 0 "" "" "") "vm-7-1" (mkVMConfig None 0 0 "" "" "" "")).
  - discriminate.
  - by repeat constructor.
Defined.

Lemma test_arguments_dropped_witness :
  step_parameters sample_run sample_device (mkWorkflowStep "s" "/bin/t" ["-n"; "4"] [] 0 30) !! "args" = Some (PStrings ["-n"; "4"]).
Proof.
  apply (test_arguments_dropped (GuestOS0 := bench_guest) (H := bench_py_repr) (H0 := bench_float) sample_run sample_device
    (mkWorkflowStep "s" "/bin/t" ["-n"; "4"] [] 0 30)).
  discriminate.
Defined.

Lemma passed_means_no_failure_witness :
  ∃ parsed, parse_vishwa_output (join_lines ["Test PASSED"] +:+ py_newline +:+ join_lines []) (JStr "vecadd") "1.0" = Ok parsed.
Proof.
  destruct (passed_means_no_failure (H0 := bench_float) (JStr "vecadd") "1.0" "passed" (["Test PASSED"], [])
    (dumps (py_num (H := bench_float)) " " " " (JObj [("suite", JStr "vecadd");
       ("results", JArr [JObj [("test", JStr "vecadd"); ("status", JStr "PASS"); ("duration_ms", JNum "1.0")]]);
       ("summary", summary_json 1 1 0 "1.0")])) "") as (_ & parsed & _ & _ & _ & _ & Hp & _).
  - vm_compute. reflexivity.
  - exists parsed. exact Hp.
Defined.
