(* ===== verification/QmpClient.v ===== *)
(** * The QMP client ([vm/qmp_client.go], [vm/qmp_types.go])

    The wire types with their decoding, the handshake of [Connect], and
    [Execute], the reader goroutine and [Close] as a transition system with
    QEMU on the other side of the socket.  A raw message is kept as the JSON
    value it spells. *)
From stdpp Require Import relations options.
From S2P Require Import Prelude GoStd GoChan Types Effects Json.
Open Scope string_scope.
Open Scope list_scope.
Open Scope Z_scope.

(** ** Wire types *)

Record QMPVersion : Type := mkQMPVersion {
  qv_Major : Z;
  qv_Minor : Z;
  qv_Micro : Z;
  qv_Package : string;
}.

Definition version_String (v : QMPVersion) : string :=
  fmt_d (qv_Major v) +:+ "." +:+ fmt_d (qv_Minor v) +:+ "." +:+ fmt_d (qv_Micro v).

Record QMPGreeting : Type := mkQMPGreeting {
  qg_Version : QMPVersion;
  qg_Capabilities : list string;
}.

Record QMPError : Type := mkQMPError { qe_Class : string; qe_Desc : string }.

Definition QMPError_Error (e : QMPError) : string :=
  "QMP error [" +:+ qe_Class e +:+ "]: " +:+ qe_Desc e.

Record QMPResponse : Type := mkQMPResponse {
  qr_Return : option json;
  qr_Error : option QMPError;
}.

Record QMPTimestamp : Type := mkQMPTimestamp { qt_Seconds : Z; qt_Microseconds : Z }.

Record QMPEvent : Type := mkQMPEvent {
  qev_Event : string;
  qev_Data : option json;
  qev_Timestamp : QMPTimestamp;
}.

(** [QMPCommand]; [arguments] is left out when it is nil. *)
Definition QMPCommand (execute : string) (arguments : option json) : json :=
  JObj (("execute", JStr execute) :: match arguments with Some a => [("arguments", a)] | None => [] end).

Record qmpMessage : Type := mkQmpMessage {
  qm_QMP : option json;
  qm_Return : option json;
  qm_Error : option QMPError;
  qm_Event : string;
  qm_Data : option json;
  qm_Timestamp : option QMPTimestamp;
}.

Definition isResponse (m : qmpMessage) : bool :=
  match qm_Return m, qm_Error m with None, None => false | _, _ => true end.

Definition isEvent (m : qmpMessage) : bool := bool_decide (qm_Event m ≠ "").

Record QueryStatusResult : Type := mkQueryStatusResult { qs_Running : bool; qs_Status : string }.

(** *** Decoding *)

(** A [json.RawMessage] takes any value, null included. *)
Definition dec_rawmessage : decoder (option json) := λ _ v _, Ok (Some v).

(** A pointer: null clears it, a value is stored over what it points to. *)
Definition dec_pointer {A : Type} (d : decoder A) (zero : A) : decoder (option A) := λ p v old,
  match v with
  | JNull => Ok None
  | _ => let! x := d p v (default zero old) in Ok (Some x)
  end.

Definition dec_bool : decoder bool := λ p v old,
  match v with
  | JBool b => Ok b
  | JNull => Ok old
  | _ => type_error (json_kind v) "bool" p
  end.

Definition dec_int64 : decoder Z := λ p v old,
  match v with
  | JNum lit =>
    match ParseInt lit with
    | Ok n => Ok n
    | Err _ => type_error ("number " +:+ lit) "int64" p
    end
  | JNull => Ok old
  | _ => type_error (json_kind v) "int64" p
  end.

Definition dec_QMPError : decoder QMPError := dec_struct "QMPError" "vm.QMPError"
  [("class", λ p v e, let! x := dec_string p v (qe_Class e) in Ok (mkQMPError x (qe_Desc e)));
   ("desc", λ p v e, let! x := dec_string p v (qe_Desc e) in Ok (mkQMPError (qe_Class e) x))].

Definition dec_QMPTimestamp : decoder QMPTimestamp := dec_struct "QMPTimestamp" "vm.QMPTimestamp"
  [("seconds", λ p v t, let! x := dec_int64 p v (qt_Seconds t) in Ok (mkQMPTimestamp x (qt_Microseconds t)));
   ("microseconds", λ p v t, let! x := dec_int64 p v (qt_Microseconds t) in Ok (mkQMPTimestamp (qt_Seconds t) x))].

Definition error_zero : QMPError := mkQMPError "" "".
Definition timestamp_zero : QMPTimestamp := mkQMPTimestamp 0 0.
Definition message_zero : qmpMessage := mkQmpMessage None None None "" None None.

Definition dec_qmpMessage : decoder qmpMessage := dec_struct "qmpMessage" "vm.qmpMessage"
  [("QMP", λ p v m, let! x := dec_rawmessage p v (qm_QMP m) in
      Ok (mkQmpMessage x (qm_Return m) (qm_Error m) (qm_Event m) (qm_Data m) (qm_Timestamp m)));
   ("return", λ p v m, let! x := dec_rawmessage p v (qm_Return m) in
      Ok (mkQmpMessage (qm_QMP m) x (qm_Error m) (qm_Event m) (qm_Data m) (qm_Timestamp m)));
   ("error", λ p v m, let! x := dec_pointer dec_QMPError error_zero p v (qm_Error m) in
      Ok (mkQmpMessage (qm_QMP m) (qm_Return m) x (qm_Event m) (qm_Data m) (qm_Timestamp m)));
   ("event", λ p v m, let! x := dec_string p v (qm_Event m) in
      Ok (mkQmpMessage (qm_QMP m) (qm_Return m) (qm_Error m) x (qm_Data m) (qm_Timestamp m)));
   ("data", λ p v m, let! x := dec_rawmessage p v (qm_Data m) in
      Ok (mkQmpMessage (qm_QMP m) (qm_Return m) (qm_Error m) (qm_Event m) x (qm_Timestamp m)));
   ("timestamp", λ p v m, let! x := dec_pointer dec_QMPTimestamp timestamp_zero p v (qm_Timestamp m) in
      Ok (mkQmpMessage (qm_QMP m) (qm_Return m) (qm_Error m) (qm_Event m) (qm_Data m) x))].

Definition dec_QMPResponse : decoder QMPResponse := dec_struct "QMPResponse" "vm.QMPResponse"
  [("return", λ p v r, let! x := dec_rawmessage p v (qr_Return r) in Ok (mkQMPResponse x (qr_Error r)));
   ("error", λ p v r, let! x := dec_pointer dec_QMPError error_zero p v (qr_Error r) in
      Ok (mkQMPResponse (qr_Return r) x))].

Definition dec_QueryStatusResult : decoder QueryStatusResult :=
  dec_struct "QueryStatusResult" "vm.QueryStatusResult"
  [("running", λ p v s, let! x := dec_bool p v (qs_Running s) in Ok (mkQueryStatusResult x (qs_Status s)));
   ("status", λ p v s, let! x := dec_string p v (qs_Status s) in Ok (mkQueryStatusResult (qs_Running s) x))].

Definition version_zero : QMPVersion := mkQMPVersion 0 0 0 "".
Definition greeting_zero : QMPGreeting := mkQMPGreeting version_zero [].

Definition dec_QMPVersion : decoder QMPVersion := dec_struct "QMPVersion" "vm.QMPVersion"
  [("qemu", dec_struct ""
      ("struct { Major int " +:+ tag "major" +:+ "; Minor int " +:+ tag "minor" +:+ "; Micro int " +:+ tag "micro" +:+ " }")
      [("major", λ p v q, let! x := dec_int p v (qv_Major q) in
          Ok (mkQMPVersion x (qv_Minor q) (qv_Micro q) (qv_Package q)));
       ("minor", λ p v q, let! x := dec_int p v (qv_Minor q) in
          Ok (mkQMPVersion (qv_Major q) x (qv_Micro q) (qv_Package q)));
       ("micro", λ p v q, let! x := dec_int p v (qv_Micro q) in
          Ok (mkQMPVersion (qv_Major q) (qv_Minor q) x (qv_Package q)))]);
   ("package", λ p v q, let! x := dec_string p v (qv_Package q) in
      Ok (mkQMPVersion (qv_Major q) (qv_Minor q) (qv_Micro q) x))].

Definition dec_QMPGreeting : decoder QMPGreeting := dec_struct "QMPGreeting" "vm.QMPGreeting"
  [("QMP", dec_struct ""
      ("struct { Version vm.QMPVersion " +:+ tag "version" +:+ "; Capabilities []string " +:+ tag "capabilities" +:+ " }")
      [("version", λ p v g, let! x := dec_QMPVersion p v (qg_Version g) in Ok (mkQMPGreeting x (qg_Capabilities g)));
       ("capabilities", λ p v g,
          let! x := dec_slice "[]string" dec_string "" p v (qg_Capabilities g) in Ok (mkQMPGreeting (qg_Version g) x))])].

(** ** Connecting *)

(** The part of the client [Connect] writes. *)
Record QMPClient : Type := mkQMPClient {
  qc_socketPath : string;
  qc_conn : bool;                          (* a connection was made *)
  qc_version : QMPVersion;
}.

Definition NewQMPClient (socketPath : string) : QMPClient := mkQMPClient socketPath false version_zero.

(** The socket: [qsock_Next] is the next JSON value of the stream. *)
Class QmpSocket (W : Type) := {
  qsock_Dial : ctx → string → M W (result unit);
  qsock_Next : M W (result json);
  qsock_Encode : json → M W (result unit);
  qsock_Close : M W unit;
  go_reader : M W unit;
}.

Section connect.
Context {W : Type} `{!QmpSocket W}.

(** [decoder.Decode] into a variable that holds [zero]. *)
Definition Decode {A : Type} (d : decoder A) (zero : A) : M W (result A) :=
  r ← qsock_Next;
  mret (let! v := r in d at_top v zero).

(** An error after the dialling closes the connection. *)
Definition hang_up {A : Type} (x : A) : M W A := _ ← qsock_Close; mret x.

Definition Connect (c : ctx) (cl : QMPClient) : M W (result unit * QMPClient) :=
  r ← qsock_Dial c (qc_socketPath cl);
  match r with
  | Err e => mret (Err ("dialing QMP socket " +:+ qc_socketPath cl +:+ ": " +:+ e), cl)
  | Ok _ =>
    let cl := mkQMPClient (qc_socketPath cl) true (qc_version cl) in
    r ← Decode dec_QMPGreeting greeting_zero;
    match r with
    | Err e => hang_up (Err ("reading QMP greeting: " +:+ e), cl)
    | Ok greeting =>
      let cl := mkQMPClient (qc_socketPath cl) true (qg_Version greeting) in
      r ← qsock_Encode (QMPCommand "qmp_capabilities" None);
      match r with
      | Err e => hang_up (Err ("sending qmp_capabilities: " +:+ e), cl)
      | Ok _ =>
        r ← Decode dec_QMPResponse (mkQMPResponse None None);
        match r with
        | Err e => hang_up (Err ("reading capabilities response: " +:+ e), cl)
        | Ok resp =>
          match qr_Error resp with
          | Some e => hang_up (Err ("qmp_capabilities rejected: " +:+ QMPError_Error e), cl)
          | None => _ ← go_reader; mret (Ok tt, cl)
          end
        end
      end
    end
  end.

End connect.

(** ** Executing commands *)

Inductive outcome : Type :=
| Replied (r : result json)              (* what a response says *)
| Refused (err : string)                 (* nothing was sent *)
| GaveUp (err : string).                 (* no response was waited for *)

(** Where a call of [Execute] is. *)
Inductive execute_pc : Type :=
| XStart (command : string)
| XLock (command : string)               (* at [cmdMu.Lock()] *)
| XSend (command : string)               (* at [encoder.Encode] *)
| XWait                                  (* in the [select] *)
| XUnlock (o : outcome)                  (* at the deferred unlock *)
| XReturn (o : outcome).

(** The client, the socket and QEMU.  Calls are numbered; the number that
    accompanies a response is that of the call it answers, which the program
    does not see.  [y_answered] records what QEMU has answered. *)
Record qmp_sys : Type := mkQmpSys {
  y_closed : bool;
  y_cmdMu : option nat;
  y_calls : list execute_pc;
  y_tx : list nat;                       (* commands QEMU has not answered *)
  y_rx : list (option nat * json);       (* messages the reader has not read *)
  y_responseCh : chan (nat * QMPResponse);
  y_eventsCh : chan QMPEvent;
  y_done : bool;                         (* [doneCh] is closed *)
  y_answered : list (nat * json);
}.

Definition qmp_init : qmp_sys := mkQmpSys false None [] [] [] (make_chan 1) (make_chan 64) false [].

Definition set_call (i : nat) (pc : execute_pc) (y : qmp_sys) : qmp_sys :=
  mkQmpSys (y_closed y) (y_cmdMu y) (<[i := pc]> (y_calls y)) (y_tx y) (y_rx y) (y_responseCh y) (y_eventsCh y)
    (y_done y) (y_answered y).

Definition set_cmdMu (h : option nat) (y : qmp_sys) : qmp_sys :=
  mkQmpSys (y_closed y) h (y_calls y) (y_tx y) (y_rx y) (y_responseCh y) (y_eventsCh y) (y_done y) (y_answered y).

Definition set_tx (tx : list nat) (y : qmp_sys) : qmp_sys :=
  mkQmpSys (y_closed y) (y_cmdMu y) (y_calls y) tx (y_rx y) (y_responseCh y) (y_eventsCh y) (y_done y) (y_answered y).

Definition set_rx (rx : list (option nat * json)) (y : qmp_sys) : qmp_sys :=
  mkQmpSys (y_closed y) (y_cmdMu y) (y_calls y) (y_tx y) rx (y_responseCh y) (y_eventsCh y) (y_done y) (y_answered y).

Definition set_responseCh (ch : chan (nat * QMPResponse)) (y : qmp_sys) : qmp_sys :=
  mkQmpSys (y_closed y) (y_cmdMu y) (y_calls y) (y_tx y) (y_rx y) ch (y_eventsCh y) (y_done y) (y_answered y).

Definition set_eventsCh (ch : chan QMPEvent) (y : qmp_sys) : qmp_sys :=
  mkQmpSys (y_closed y) (y_cmdMu y) (y_calls y) (y_tx y) (y_rx y) (y_responseCh y) ch (y_done y) (y_answered y).

Definition set_done (y : qmp_sys) : qmp_sys :=
  mkQmpSys (y_closed y) (y_cmdMu y) (y_calls y) (y_tx y) (y_rx y) (y_responseCh y) (y_eventsCh y) true (y_answered y).

(** [Close]: the flag; the socket is closed with it. *)
Definition Close (y : qmp_sys) : qmp_sys :=
  mkQmpSys true (y_cmdMu y) (y_calls y) (y_tx y) (y_rx y) (y_responseCh y) (y_eventsCh y) (y_done y) (y_answered y).

(** What [Execute] makes of a response. *)
Definition reply (resp : QMPResponse) : result json :=
  match qr_Error resp with
  | Some e => Err (QMPError_Error e)
  | None => Ok (default JNull (qr_Return resp))
  end.

(** [QueryStatus], given what [Execute] returned. *)
Definition QueryStatus_of (o : outcome) : result QueryStatusResult :=
  match o with
  | Replied (Ok raw) =>
    match dec_QueryStatusResult at_top raw (mkQueryStatusResult false "") with
    | Ok s => Ok s
    | Err e => Err ("parsing query-status response: " +:+ e)
    end
  | Replied (Err e) | Refused e | GaveUp e => Err e
  end.

(** What the reader does with a message. *)
Definition route (i : option nat) (m : qmpMessage) (y : qmp_sys) : go qmp_sys :=
  if isResponse m then
    let? ch := chan_offer (y_responseCh y) (default 0%nat i, mkQMPResponse (qm_Return m) (qm_Error m)) in
    Done (set_responseCh ch y)
  else if isEvent m then
    let? ch := chan_offer (y_eventsCh y)
      (mkQMPEvent (qm_Event m) (qm_Data m) (default timestamp_zero (qm_Timestamp m))) in
    Done (set_eventsCh ch y)
  else Done y.

(** The response a message is, if it is one. *)
Definition response_of (v : json) : option QMPResponse :=
  match dec_qmpMessage at_top v message_zero with
  | Ok m => if isResponse m then Some (mkQMPResponse (qm_Return m) (qm_Error m)) else None
  | Err _ => None
  end.

(** What can happen: a call of [Execute] is made or moves on, the reader
    reads a message or finds the stream broken, the client is closed, an
    event is taken; and QEMU answers its oldest command or sends something
    that is not an answer. *)
Inductive qmp_move : Type :=
| MCall (command : string)
| MCheck (i : nat)
| MLock (i : nat)
| MSend (i : nat)
| MSendFails (i : nat) (err : string)
| MReceive (i : nat)
| MDone (i : nat)
| MCtx (i : nat) (err : string)
| MUnlock (i : nat)
| MRead
| MHangup
| MClose
| MTakeEvent
| MAnswer (v : json)
| MOther (v : json).

Definition execute_move (mv : qmp_move) (y : qmp_sys) : option qmp_sys :=
  match mv with
  | MCheck i =>
    match y_calls y !! i with
    | Some (XStart command) =>
      Some (set_call i (if y_closed y then XReturn (Refused "qmp client is closed") else XLock command) y)
    | _ => None
    end
  | MLock i =>
    match y_calls y !! i, y_cmdMu y with
    | Some (XLock command), None => Some (set_cmdMu (Some i) (set_call i (XSend command) y))
    | _, _ => None
    end
  | MSend i =>
    match y_calls y !! i, y_closed y with
    | Some (XSend command), false => Some (set_tx (y_tx y ++ [i]) (set_call i XWait y))
    | _, _ => None
    end
  | MSendFails i err =>
    match y_calls y !! i with
    | Some (XSend command) =>
      Some (set_call i (XUnlock (Refused ("sending command " +:+ fmt_q command +:+ ": " +:+ err))) y)
    | _ => None
    end
  | MReceive i =>
    match y_calls y !! i, chan_recv (y_responseCh y) with
    | Some XWait, Received (_, resp) ch => Some (set_responseCh ch (set_call i (XUnlock (Replied (reply resp))) y))
    | _, _ => None
    end
  | MDone i =>
    match y_calls y !! i, y_done y with
    | Some XWait, true => Some (set_call i (XUnlock (GaveUp "QMP connection closed while waiting for response")) y)
    | _, _ => None
    end
  | MCtx i err =>
    match y_calls y !! i with
    | Some XWait => Some (set_call i (XUnlock (GaveUp err)) y)
    | _ => None
    end
  | MUnlock i =>
    match y_calls y !! i with
    | Some (XUnlock o) => Some (set_cmdMu None (set_call i (XReturn o) y))
    | _ => None
    end
  | _ => None
  end.

(** A turn of the reader. *)
Definition reader_turn (y : qmp_sys) : go (option qmp_sys) :=
  match y_done y, y_rx y with
  | false, (i, v) :: rx =>
    let y := set_rx rx y in
    match dec_qmpMessage at_top v message_zero with
    | Err _ => Done (Some (set_done y))
    | Ok m => let? y' := route i m y in Done (Some y')
    end
  | _, _ => Done None
  end.

(** QEMU answers its commands in order, one response each. *)
Definition qemu_answers (v : json) (y : qmp_sys) : option qmp_sys :=
  match y_tx y, response_of v with
  | i :: tx, Some _ =>
    Some (mkQmpSys (y_closed y) (y_cmdMu y) (y_calls y) tx (y_rx y ++ [(Some i, v)]) (y_responseCh y) (y_eventsCh y)
      (y_done y) (y_answered y ++ [(i, v)]))
  | _, _ => None
  end.

Definition qmp_exec (mv : qmp_move) (y : qmp_sys) : go (option qmp_sys) :=
  match mv with
  | MCall command => Done (Some (mkQmpSys (y_closed y) (y_cmdMu y) (y_calls y ++ [XStart command]) (y_tx y) (y_rx y)
      (y_responseCh y) (y_eventsCh y) (y_done y) (y_answered y)))
  | MRead => reader_turn y
  | MHangup => Done (if y_done y then None else Some (set_done y))
  | MClose => Done (Some (Close y))
  | MTakeEvent =>
    Done (match chan_recv (y_eventsCh y) with Received _ ch => Some (set_eventsCh ch y) | _ => None end)
  | MAnswer v => Done (qemu_answers v y)
  | MOther v => Done (match response_of v with None => Some (set_rx (y_rx y ++ [(None, v)]) y) | Some _ => None end)
  | _ => Done (execute_move mv y)
  end.

Definition qmp_step (y y' : qmp_sys) : Prop := ∃ mv, qmp_exec mv y = Done (Some y').

Definition qmp_reachable : qmp_sys → Prop := rtc qmp_step qmp_init.

(** ** Invariants *)

(** The call holds [cmdMu]. *)
Definition in_flight (pc : execute_pc) : bool :=
  match pc with XSend _ | XWait | XUnlock _ => true | _ => false end.

Definition gave_up (pc : execute_pc) : bool :=
  match pc with XUnlock (GaveUp _) | XReturn (GaveUp _) => true | _ => false end.

(** No call has given up waiting. *)
Definition calm (y : qmp_sys) : Prop := ∀ i pc, y_calls y !! i = Some pc → gave_up pc = false.

(** The command of the call has been written. *)
Definition was_sent (pc : execute_pc) : bool :=
  match pc with XWait | XUnlock _ | XReturn _ => true | _ => false end.

Definition mutex_inv (y : qmp_sys) : Prop :=
  (∀ i pc, y_calls y !! i = Some pc → in_flight pc = true → y_cmdMu y = Some i) ∧
  (∀ i, y_cmdMu y = Some i → ∃ pc, y_calls y !! i = Some pc ∧ in_flight pc = true).

(** A response is QEMU's answer to the call [i]. *)
Definition answers (y : qmp_sys) (i : nat) (resp : QMPResponse) : Prop :=
  ∃ v, (i, v) ∈ y_answered y ∧ response_of v = Some resp.

Record wire_inv (y : qmp_sys) : Prop := mkWireInv {
  wi_resp_open : ch_closed (y_responseCh y) = false;
  wi_resp_cap : ch_cap (y_responseCh y) = 1%nat;
  wi_events_open : ch_closed (y_eventsCh y) = false;
  wi_resp : ∀ i resp, (i, resp) ∈ ch_buf (y_responseCh y) → answers y i resp;
  wi_rx : ∀ i v, (Some i, v) ∈ y_rx y → (i, v) ∈ y_answered y ∧ is_Some (response_of v);
  wi_other : ∀ v, (None, v) ∈ y_rx y → response_of v = None;
  wi_sent : ∀ i, i ∈ (y_answered y).*1 ++ y_tx y → ∃ pc, y_calls y !! i = Some pc ∧ was_sent pc = true;
  wi_once : NoDup ((y_answered y).*1 ++ y_tx y);
}.

(** The calls whose responses are on their way. *)
Definition pipeline (y : qmp_sys) : list nat :=
  (ch_buf (y_responseCh y)).*1 ++ omap fst (y_rx y) ++ y_tx y.

(** The call that waits. *)
Definition waiting (y : qmp_sys) : list nat :=
  match y_cmdMu y with
  | Some i => match y_calls y !! i with Some XWait => [i] | _ => [] end
  | None => []
  end.

Definition replied (pc : execute_pc) : option (result json) :=
  match pc with XUnlock (Replied r) | XReturn (Replied r) => Some r | _ => None end.

Definition own_inv (y : qmp_sys) : Prop :=
  pipeline y = waiting y ∧
  ∀ i pc r, y_calls y !! i = Some pc → replied pc = Some r → ∃ resp, answers y i resp ∧ r = reply resp.

(** A call moves on. *)
Lemma calls_insert (cs : list execute_pc) i pc j pc' old :
  cs !! i = Some old → <[i := pc]> cs !! j = Some pc' → j = i ∧ pc' = pc ∨ j ≠ i ∧ cs !! j = Some pc'.
Proof. intros Hi [(-> & <- & _)|[? ?]]%list_lookup_insert_Some; auto. Qed.

Lemma calls_insert_eq (cs : list execute_pc) i pc old :
  cs !! i = Some old → <[i := pc]> cs !! i = Some pc.
Proof. intros Hi. apply list_lookup_insert_eq. by eapply lookup_lt_Some. Qed.

(** The cases of a move. *)
Ltac move_cases H :=
  unfold qmp_exec, execute_move, reader_turn, route, qemu_answers, go_bind in H;
  simplify_eq/=; repeat (case_match; simplify_eq/=; try done).

(** What a step does to the calls and to the mutex. *)
Lemma call_effect y y' :
  qmp_step y y' →
  y_calls y' = y_calls y ∧ y_cmdMu y' = y_cmdMu y ∨
  (∃ command, y_calls y' = y_calls y ++ [XStart command] ∧ y_cmdMu y' = y_cmdMu y) ∨
  ∃ i old pc, y_calls y !! i = Some old ∧ y_calls y' = <[i := pc]> (y_calls y) ∧
    (gave_up old = true → gave_up pc = true) ∧
    (in_flight old = in_flight pc ∧ y_cmdMu y' = y_cmdMu y ∨
     in_flight old = false ∧ in_flight pc = true ∧ y_cmdMu y = None ∧ y_cmdMu y' = Some i ∨
     in_flight old = true ∧ in_flight pc = false ∧ y_cmdMu y' = None).
Proof.
  intros [mv Hs]. move_cases Hs; try (by left); try (by right; left; eexists).
  all: right; right; do 3 eexists; (split; [eassumption|split; [done|split; [done|]]]); simpl.
  all: try (by left); try (by right; left); try (by right; right).
Qed.

Lemma mutex_step y y' : mutex_inv y → qmp_step y y' → mutex_inv y'.
Proof.
  intros [H1 H2] [[Hc Hm]|[(cmd & Hc & Hm)|(i & old & pc & Hi & Hc & _ & Hm)]]%call_effect; unfold mutex_inv; rewrite Hc.
  - rewrite Hm. by split.
  - rewrite Hm. split.
    + intros j pc [Hj|[_ [_ <-]%list_lookup_singleton_Some]]%lookup_app_Some; [eauto|done].
    + intros j (pc & Hj & ?)%H2. exists pc. by rewrite (lookup_app_l_Some _ _ _ _ Hj).
  - destruct Hm as [[Hf Hm]|[(Hf & Hp & Hn & Hm)|(Hf & Hp & Hm)]]; rewrite Hm; split.
    + intros j pc' [[-> ->]|[? ?]]%(calls_insert _ _ _ _ _ _ Hi) ?; [apply (H1 _ _ Hi); congruence|eauto].
    + intros j (pc' & Hj & Hf')%H2. destruct (decide (j = i)) as [->|Hne].
      * exists pc. rewrite (calls_insert_eq _ _ _ _ Hi). split; [done|congruence].
      * exists pc'. by rewrite list_lookup_insert_ne.
    + intros j pc' [[-> ->]|[? Hj]]%(calls_insert _ _ _ _ _ _ Hi) Hf'; [done|].
      pose proof (H1 _ _ Hj Hf'). congruence.
    + intros j [= <-]. exists pc. by rewrite (calls_insert_eq _ _ _ _ Hi).
    + intros j pc' [[-> ->]|[? Hj]]%(calls_insert _ _ _ _ _ _ Hi) Hf'; [congruence|].
      pose proof (H1 _ _ Hj Hf'). pose proof (H1 _ _ Hi Hf). congruence.
    + done.
Qed.

(** *** The responses and their calls *)

Lemma wire_calls y y' :
  wire_inv y → y_responseCh y' = y_responseCh y → ch_closed (y_eventsCh y') = ch_closed (y_eventsCh y) →
  y_rx y' = y_rx y → y_tx y' = y_tx y → y_answered y' = y_answered y →
  (∀ i pc, y_calls y !! i = Some pc → was_sent pc = true → ∃ pc', y_calls y' !! i = Some pc' ∧ was_sent pc' = true) →
  wire_inv y'.
Proof.
  intros [] Hr He Hx Ht Ha Hc. split; unfold answers in *; rewrite ?Hr, ?He, ?Hx, ?Ht, ?Ha; try done.
  intros i (pc & Hi & Hs)%wi_sent0. eauto.
Qed.

Lemma wire_set_call y i old pc :
  y_calls y !! i = Some old → (was_sent old = true → was_sent pc = true) → wire_inv y → wire_inv (set_call i pc y).
Proof.
  intros Hi Hp Hw. apply (wire_calls _ _ Hw); try done. intros j pc' Hj Hs. simpl. destruct (decide (i = j)) as [->|Hne].
  - exists pc. rewrite (calls_insert_eq _ _ _ _ Hi). split; [done|]. simplify_eq. by apply Hp.
  - exists pc'. by rewrite list_lookup_insert_ne.
Qed.

Lemma wire_send y i command :
  y_calls y !! i = Some (XSend command) → wire_inv y → wire_inv (set_tx (y_tx y ++ [i]) (set_call i XWait y)).
Proof.
  intros Hi Hw. assert (Hf : i ∉ (y_answered y).*1 ++ y_tx y).
  { intros (pc & Hpc & Hs)%(wi_sent _ Hw). by simplify_eq. }
  destruct (wire_set_call _ _ _ XWait Hi (λ _, eq_refl) Hw). split; simpl; try done; rewrite app_assoc.
  - intros j [Hj| ->%list_elem_of_singleton]%elem_of_app; [by apply wi_sent0|].
    exists XWait. by rewrite (calls_insert_eq _ _ _ _ Hi).
  - apply NoDup_app. split_and!; [apply wi_once0| |apply NoDup_singleton].
    intros j Hj ->%list_elem_of_singleton. by destruct Hf.
Qed.

Lemma wire_answer y v i tx resp :
  y_tx y = i :: tx → response_of v = Some resp → wire_inv y →
  wire_inv (mkQmpSys (y_closed y) (y_cmdMu y) (y_calls y) tx (y_rx y ++ [(Some i, v)]) (y_responseCh y) (y_eventsCh y)
    (y_done y) (y_answered y ++ [(i, v)])).
Proof.
  intros Ht Hv []. rewrite Ht in *. split; simpl; try done.
  - intros j r (v' & ? & ?)%wi_resp0. exists v'. split; [|done]. apply elem_of_app. by left.
  - intros j v' [Hj|[= -> ->]%list_elem_of_singleton]%elem_of_app.
    + destruct (wi_rx0 _ _ Hj). rewrite elem_of_app. auto.
    + rewrite elem_of_app, list_elem_of_singleton. eauto.
  - intros v' [Hj|[=]%list_elem_of_singleton]%elem_of_app. eauto.
  - rewrite fmap_app, <- app_assoc. exact wi_sent0.
  - rewrite fmap_app, <- app_assoc. exact wi_once0.
Qed.

(** A response that arrives goes into the channel or is dropped. *)
Lemma wire_offer y i v rx resp ch :
  y_rx y = (i, v) :: rx → response_of v = Some resp → wire_inv y →
  chan_offer (y_responseCh y) (default 0%nat i, resp) = Done ch → wire_inv (set_responseCh ch (set_rx rx y)).
Proof.
  intros Hx Hv [] (_ & Ho & Hcap & Hb)%chan_offer_inv. rewrite Hx in *. split; simpl; try done; try congruence.
  - intros j r Hj. destruct i as [i|]; [|by rewrite (wi_other0 v) in Hv by left].
    destruct Hb as [[-> _]|[Hb _]]; [eauto|]. rewrite Hb in Hj.
    apply elem_of_app in Hj as [Hj|[= -> ->]%list_elem_of_singleton]; [eauto|].
    exists v. split; [|done]. apply (wi_rx0 i v). by left.
  - intros j v' Hj. apply wi_rx0. by right.
  - intros v' Hj. apply wi_other0. by right.
Qed.

(** Reading a message takes it off the wire. *)
Lemma wire_read y m rx : y_rx y = m :: rx → wire_inv y → wire_inv (set_rx rx y).
Proof.
  intros Hx []. rewrite Hx in *. split; simpl; try done.
  - intros j v' Hj. apply wi_rx0. by right.
  - intros v' Hj. apply wi_other0. by right.
Qed.

Lemma wire_other y v : response_of v = None → wire_inv y → wire_inv (set_rx (y_rx y ++ [(None, v)]) y).
Proof.
  intros Hv []. split; simpl; try done.
  - intros i v' [?|[=]%list_elem_of_singleton]%elem_of_app. eauto.
  - intros v' [?|[= ->]%list_elem_of_singleton]%elem_of_app; eauto.
Qed.

Lemma wire_receive y x ch : chan_recv (y_responseCh y) = Received x ch → wire_inv y → wire_inv (set_responseCh ch y).
Proof.
  unfold chan_recv. destruct (ch_buf (y_responseCh y)) as [|z b] eqn:E; [by case_match|]. intros [= -> <-] [].
  split; simpl; try done. intros i r Hi. apply wi_resp0. rewrite E. by right.
Qed.

Lemma response_of_message v m :
  dec_qmpMessage at_top v message_zero = Ok m → isResponse m = true →
  response_of v = Some (mkQMPResponse (qm_Return m) (qm_Error m)).
Proof. unfold response_of. by intros -> ->. Qed.

Lemma reader_wire y y' : wire_inv y → reader_turn y = Done (Some y') → wire_inv y'.
Proof.
  intros Hw. unfold reader_turn, route, go_bind. destruct (y_done y), (y_rx y) as [|[i v] rx] eqn:Hx; try done.
  pose proof (wire_read _ _ _ Hx Hw) as Hw'. destruct (dec_qmpMessage _ _ _) as [m|] eqn:Hm; [|intros [= <-]; by apply (wire_calls _ _ Hw'); eauto].
  destruct (isResponse m) eqn:Hr; [|destruct (isEvent m); [|by intros [= <-]]].
  - destruct (chan_offer _ _) as [ch|] eqn:Ho; [|done]. intros [= <-]. eapply wire_offer; eauto using response_of_message.
  - destruct (chan_offer _ _) as [ch|] eqn:Ho; [|done]. intros [= <-]. apply chan_offer_inv in Ho as (? & ? & _).
    apply (wire_calls _ _ Hw'); eauto; simpl in *; congruence.
Qed.

Lemma wire_step y y' : wire_inv y → qmp_step y y' → wire_inv y'.
Proof.
  intros Hw [mv Hs]. destruct mv; try (by eapply reader_wire); move_cases Hs.
  all: try (by apply (wire_calls _ _ Hw); eauto); try (by eapply wire_set_call; [eassumption|by simpl|]).
  - apply (wire_calls _ _ Hw); try done. intros i pc Hi ?. exists pc. simpl. by rewrite (lookup_app_l_Some _ _ _ _ Hi).
  - by eapply (wire_calls (set_call i (XSend command) y)); eauto; eapply wire_set_call.
  - by eapply wire_send.
  - by eapply wire_receive, wire_set_call.
  - by eapply (wire_calls (set_call i (XReturn o) y)); eauto; eapply wire_set_call.
  - apply (wire_calls _ _ Hw); eauto. simpl. unfold chan_recv in *. repeat case_match; by simplify_eq/=.
  - by eapply wire_answer.
  - by apply wire_other.
Qed.

(** *** Without a call that gave up *)

Lemma calm_back y y' : qmp_step y y' → calm y' → calm y.
Proof.
  intros [[Hc _]|[(cmd & Hc & _)|(i & old & pc & Hi & Hc & Hg & _)]]%call_effect Hy j pcj Hj; unfold calm in Hy; rewrite Hc in Hy.
  - eauto.
  - apply (Hy j). by rewrite (lookup_app_l_Some _ _ _ _ Hj).
  - destruct (decide (i = j)) as [->|Hne]; [|apply (Hy j); by rewrite list_lookup_insert_ne].
    simplify_eq. specialize (Hy j pc (calls_insert_eq _ _ _ _ Hi)). destruct (gave_up old); naive_solver.
Qed.

Lemma waiting_at y i pc :
  y_cmdMu y = Some i → y_calls y !! i = Some pc → waiting y = match pc with XWait => [i] | _ => [] end.
Proof. unfold waiting. intros -> ->. by destruct pc. Qed.

Lemma waiting_other y i pc : y_cmdMu y ≠ Some i → waiting (set_call i pc y) = waiting y.
Proof.
  unfold waiting. simpl. intros Hne. destruct (y_cmdMu y) as [j|]; [|done].
  rewrite list_lookup_insert_ne; [done|]. by intros ->.
Qed.

(** A call that is not in flight does not hold the mutex. *)
Lemma not_holder y i pc : mutex_inv y → y_calls y !! i = Some pc → in_flight pc = false → y_cmdMu y ≠ Some i.
Proof. intros [_ H2] Hi Hf (pc' & Hi' & Hf')%H2. congruence. Qed.

Lemma set_call_at y i old pc : y_calls y !! i = Some old → y_calls (set_call i pc y) !! i = Some pc.
Proof. apply calls_insert_eq. Qed.

Definition replied_inv (y : qmp_sys) : Prop :=
  ∀ i pc r, y_calls y !! i = Some pc → replied pc = Some r → ∃ resp, answers y i resp ∧ r = reply resp.

Lemma replied_frame y y' :
  replied_inv y → y_calls y' = y_calls y → (∀ x, x ∈ y_answered y → x ∈ y_answered y') → replied_inv y'.
Proof.
  intros Hr Hc Ha i pc r. rewrite Hc. intros Hi Hp. destruct (Hr _ _ _ Hi Hp) as (resp & (v & Hv & ?) & ?).
  exists resp. split; [|done]. exists v. auto.
Qed.

Lemma replied_set_call y i old pc :
  y_calls y !! i = Some old → (∀ r, replied pc = Some r → replied old = Some r ∨ ∃ resp, answers y i resp ∧ r = reply resp) →
  replied_inv y → replied_inv (set_call i pc y).
Proof.
  intros Hi Hp Hr j pc' r [[-> ->]|[_ Hj]]%(calls_insert _ _ _ _ _ _ Hi) Hpc; [|by eapply Hr].
  destruct (Hp _ Hpc) as [Hold|H]; [by eapply Hr|done].
Qed.

(** At most one response is on its way. *)
Lemma own_reads y i v rx :
  pipeline y = waiting y → wire_inv y → y_rx y = (Some i, v) :: rx → ch_buf (y_responseCh y) = [].
Proof.
  intros Hp _ Hx. assert (Hl : (length (pipeline y) ≤ 1)%nat).
  { rewrite Hp. unfold waiting. repeat case_match; simpl; lia. }
  unfold pipeline in Hl. rewrite Hx in Hl. rewrite !length_app in Hl. simpl in Hl.
  destruct (ch_buf (y_responseCh y)); [done|]. simpl in Hl. lia.
Qed.

Lemma own_reader y y' :
  wire_inv y → pipeline y = waiting y → reader_turn y = Done (Some y') →
  pipeline y' = waiting y' ∧ y_calls y' = y_calls y ∧ y_answered y' = y_answered y.
Proof.
  intros Hw Hp. unfold reader_turn, route, go_bind. destruct (y_done y), (y_rx y) as [|[[i|] v] rx] eqn:Hx; try done.
  - destruct (wi_rx _ Hw i v) as [_ [resp Hresp]]; [rewrite Hx; by left|]. pose proof (own_reads _ _ _ _ Hp Hw Hx) as Hb.
    unfold response_of in Hresp. destruct (dec_qmpMessage _ _ _) as [m|]; [|done]. destruct (isResponse m); [|done].
    destruct (chan_offer _ _) as [ch|] eqn:Ho; [|done]. intros [= <-]. split_and!; try done.
    apply chan_offer_inv in Ho as (_ & _ & Hcap & Ho). trans (waiting y); [|done]. rewrite <- Hp. unfold pipeline. simpl in *. rewrite Hx, Hb in *.
    rewrite (wi_resp_cap _ Hw) in Ho. simpl in Ho. destruct Ho as [[_ ?]|[-> _]]; [lia|done].
  - assert (Hpx : omap fst rx = omap fst (y_rx y)) by (by rewrite Hx).
    pose proof (wi_other _ Hw v) as Hn. rewrite Hx in Hn. specialize (Hn ltac:(by left)). unfold response_of in Hn.
    destruct (dec_qmpMessage _ _ _) as [m|]; [destruct (isResponse m); [done|]; destruct (isEvent m)|].
    all: try (destruct (chan_offer _ _) as [ch|]; [|done]); intros [= <-]; (split_and!; [|done|done]);
      (trans (waiting y); [|done]); rewrite <- Hp; unfold pipeline; simpl; by rewrite Hpx.
Qed.

(** The call that holds the mutex moves on. *)
Lemma waiting_holder y i pc :
  y_cmdMu y = Some i → is_Some (y_calls y !! i) → waiting (set_call i pc y) = match pc with XWait => [i] | _ => [] end.
Proof. intros Hm [old Hi]. apply waiting_at; [done|]. by eapply set_call_at. Qed.

Lemma receive_own y i j resp ch :
  mutex_inv y → pipeline y = waiting y → y_calls y !! i = Some XWait →
  chan_recv (y_responseCh y) = Received (j, resp) ch →
  j = i ∧ ch_buf ch = [] ∧ omap fst (y_rx y) = [] ∧ y_tx y = [] ∧ (j, resp) ∈ ch_buf (y_responseCh y).
Proof.
  intros [H1 _] Hp Hi Hr. rewrite (waiting_at _ _ _ (H1 _ _ Hi eq_refl) Hi) in Hp. unfold pipeline in Hp.
  unfold chan_recv in Hr. destruct (ch_buf (y_responseCh y)) as [|z b]; [by case_match|]. injection Hr as -> <-.
  injection Hp as -> [Hb [Hx Ht]%app_eq_nil]%app_eq_nil. apply fmap_nil_inv in Hb. split_and!; try done. by left.
Qed.

Lemma holds_idle y i pc :
  mutex_inv y → pipeline y = waiting y → y_calls y !! i = Some pc → in_flight pc = true → pc ≠ XWait →
  y_cmdMu y = Some i ∧ pipeline y = [].
Proof.
  intros [H1 _] Hp Hi Hf Hne. pose proof (H1 _ _ Hi Hf) as Hm. split; [done|].
  rewrite Hp, (waiting_at _ _ _ Hm Hi). by destruct pc.
Qed.

Lemma pipeline_step y y' :
  mutex_inv y → wire_inv y → qmp_step y y' → calm y' → pipeline y = waiting y → pipeline y' = waiting y'.
Proof.
  intros Hm Hw [mv Hs] Hcalm Hp. destruct mv; try (by eapply own_reader); move_cases Hs.
  all: try (specialize (Hcalm i _ (calls_insert_eq _ _ _ _ ltac:(eassumption))); done).
  - unfold pipeline, waiting in *. simpl. destruct (y_cmdMu y) as [j|] eqn:Hj; [|done].
    destruct (proj2 Hm j Hj) as (pc & Hpc & _). by rewrite (lookup_app_l_Some _ _ _ _ Hpc), Hpc in *.
  - rewrite waiting_other by (by eapply not_holder). exact Hp.
  - rewrite waiting_other by (by eapply not_holder). exact Hp.
  - trans (waiting y); [exact Hp|]. unfold waiting. simpl. rewrite (calls_insert_eq _ _ _ _ ltac:(eassumption)). by case_match.
  - destruct (holds_idle y i (XSend command)) as [Hi Hn]; try done. trans [i].
    + unfold pipeline in *. simpl. by rewrite !app_assoc, <- (app_assoc _ _ (y_tx y)), Hn.
    + symmetry. by eapply (waiting_at _ i XWait), calls_insert_eq.
  - destruct (holds_idle y i (XSend command)) as [Hi Hn]; try done. rewrite waiting_holder by done. exact Hn.
  - destruct (receive_own y i n q c) as (_ & Hb & Hx & Ht & _); try done. trans (@nil nat).
    + unfold pipeline. simpl. by rewrite Hb, Hx, Ht.
    + symmetry. apply (waiting_holder y); [by eapply (proj1 Hm)|done].
  - destruct (holds_idle y i (XUnlock o)) as [Hi Hn]; try done.
  - exact Hp.
  - trans (waiting y); [|done]. rewrite <- Hp. unfold pipeline. simpl. rewrite omap_app. simpl.
    rewrite <- (app_assoc (omap _ _)). by match goal with H : y_tx y = _ |- _ => rewrite H end.
  - trans (waiting y); [|done]. rewrite <- Hp. unfold pipeline. simpl. rewrite omap_app. simpl. by rewrite app_nil_r.
Qed.

Lemma replied_step y y' :
  mutex_inv y → wire_inv y → qmp_step y y' → pipeline y = waiting y → replied_inv y → replied_inv y'.
Proof.
  intros Hm Hw [mv Hs] Hp Hr. destruct mv.
  all: try (destruct (own_reader _ _ Hw Hp Hs) as (? & ? & Ha); apply (replied_frame _ _ Hr); [done|by rewrite Ha]).
  all: move_cases Hs; try (by apply (replied_frame _ _ Hr)).
  all: try (by eapply replied_set_call; [eassumption|by auto|done]).
  - intros i pc r [Hi|[_ [_ <-]%list_lookup_singleton_Some]]%lookup_app_Some Hpc; [by eapply Hr|done].
  - destruct (receive_own y i n q c) as (-> & _ & _ & _ & Hin); try done.
    eapply (replied_frame (set_call i (XUnlock (Replied (reply q))) y)); [|done|done].
    eapply replied_set_call; [eassumption| |done]. intros r [= <-]. right. exists q. split; [|done]. by apply (wi_resp _ Hw).
  - apply (replied_frame _ _ Hr); [done|]. intros x Hx. apply elem_of_app. by left.
Qed.

Definition qmp_inv (y : qmp_sys) : Prop :=
  mutex_inv y ∧ wire_inv y ∧ (calm y → pipeline y = waiting y ∧ replied_inv y).

Lemma qmp_reachable_inv y : qmp_reachable y → qmp_inv y.
Proof.
  unfold qmp_reachable. revert y. apply (rtc_ind_r qmp_inv).
  - split_and!; [by split| |by split].
    split; try done; try (intros *; by intros ?%not_elem_of_nil). apply NoDup_nil_2.
  - intros y y' _ Hs (Hm & Hw & Hc). split_and!; [by eapply mutex_step|by eapply wire_step|].
    intros Hcalm. destruct (Hc (calm_back _ _ Hs Hcalm)). eauto using pipeline_step, replied_step.
Qed.

(** The reader offers only to open channels. *)
Lemma reader_never_panics y why : wire_inv y → reader_turn y ≠ Panics why.
Proof.
  intros Hw Hs. unfold reader_turn, route, go_bind in Hs. repeat case_match; try done.
  all: match goal with H : chan_offer ?ch ?x = Panics _ |- _ =>
    destruct (chan_offer_open ch x) as [? Ho]; [apply Hw|by rewrite H in Ho] end.
Qed.

(** ** Properties *)

(** C21: as long as no call of [Execute] has given up waiting (its context
    ended, or the connection broke, while its command was in flight), a call
    that returns a response returns QEMU's answer to its own command, and
    QEMU gave that call no other answer.  This holds for any number of
    concurrent calls, with events arriving at any time and with [Close] at
    any point. *)
Theorem execute_own_response y i r :
  qmp_reachable y → calm y → y_calls y !! i = Some (XReturn (Replied r)) →
  ∃ v resp, (i, v) ∈ y_answered y ∧ response_of v = Some resp ∧ r = reply resp ∧
            ∀ v', (i, v') ∈ y_answered y → v' = v.
Proof.
  intros (_ & Hw & Hc)%qmp_reachable_inv Hcalm Hi.
  destruct (proj2 (Hc Hcalm) i _ r Hi eq_refl) as (resp & (v & Hv & Hresp) & ->).
  exists v, resp. split_and!; try done. intros v' Hv'.
  pose proof (wi_once _ Hw) as [Hnd _]%NoDup_app. 
  apply (elem_of_list_to_map_1 (M := gmap nat)) in Hv, Hv'; [congruence|done..].
Qed.

(** Commands are executed one at a time: at any moment at most one call
    of [Execute] is between taking and releasing the mutex, no more than one
    response is on its way as long as no call gave up, and no step of the
    client ever panics. *)
Theorem execute_serialised y :
  qmp_reachable y →
  (∀ i j pc pc', y_calls y !! i = Some pc → y_calls y !! j = Some pc' →
     in_flight pc = true → in_flight pc' = true → i = j) ∧
  (calm y → (length (pipeline y) ≤ 1)%nat) ∧
  ∀ mv why, qmp_exec mv y ≠ Panics why.
Proof.
  intros (Hm & Hw & Hc)%qmp_reachable_inv. split_and!.
  - intros i j pc pc' Hi Hj Hfi Hfj. pose proof (proj1 Hm _ _ Hi Hfi). pose proof (proj1 Hm _ _ Hj Hfj). congruence.
  - intros [-> _]%Hc. unfold waiting. repeat case_match; simpl; lia.
  - intros mv why Hs. destruct mv; try done. by eapply reader_never_panics.
Qed.

(** A call that waits, when no call gave up, is not stuck: it can take
    its response, or the reader can read on, or the connection is gone and
    the call can return; otherwise its command is the one QEMU has to answer
    next, and any answer of QEMU is accepted. *)
Theorem execute_progress y i :
  qmp_reachable y → calm y → y_calls y !! i = Some XWait →
  (∃ y', qmp_exec (MReceive i) y = Done (Some y')) ∨
  (∃ y', qmp_exec MRead y = Done (Some y')) ∨
  (∃ y', qmp_exec (MDone i) y = Done (Some y')) ∨
  (y_tx y = [i] ∧ ∀ v resp, response_of v = Some resp → ∃ y', qmp_exec (MAnswer v) y = Done (Some y')).
Proof.
  intros (Hm & Hw & Hc)%qmp_reachable_inv [Hp _]%Hc Hi. rewrite (waiting_at _ _ _ (proj1 Hm _ _ Hi eq_refl) Hi) in Hp.
  destruct (y_done y) eqn:Hd; [right; right; left; simpl; rewrite Hi, Hd; by eexists|].
  unfold pipeline in Hp. destruct (ch_buf (y_responseCh y)) as [|[j resp] b] eqn:Hb.
  - destruct (y_rx y) as [|m rx] eqn:Hx.
    + right. right. right. simpl in Hp. split; [done|]. intros v resp Hv. simpl. unfold qemu_answers. rewrite Hp, Hv. by eexists.
    + right. left. destruct (qmp_exec MRead y) as [[y'|]|why] eqn:Hs; [by eexists| |].
      * simpl in Hs. unfold reader_turn, go_bind in Hs. rewrite Hd, Hx in Hs. destruct m. by repeat case_match.
      * exfalso. simpl in Hs. by eapply reader_never_panics.
  - left. simpl. unfold chan_recv. rewrite Hi, Hb. by eexists.
Qed.

(** A sequence of moves. *)
Fixpoint qmp_run (mvs : list qmp_move) (y : qmp_sys) : option qmp_sys :=
  match mvs with
  | [] => Some y
  | mv :: mvs' => match qmp_exec mv y with Done (Some y') => qmp_run mvs' y' | _ => None end
  end.

Lemma qmp_run_reachable mvs y y' : qmp_reachable y → qmp_run mvs y = Some y' → qmp_reachable y'.
Proof.
  revert y. induction mvs as [|mv mvs IH]; intros y Hy; simpl; [by intros [= <-]|].
  destruct (qmp_exec mv y) as [[y1|]|] eqn:E; [|done..]. apply IH. eapply rtc_r; [exact Hy|by exists mv].
Qed.

Definition status_answer : json := JObj [("running", JBool true); ("status", JStr "running")].
Definition returning (v : json) : json := JObj [("return", v)].

Definition late_response : list qmp_move :=
  [MCall "query-status"; MCheck 0; MLock 0; MSend 0; MCtx 0 "context deadline exceeded"; MUnlock 0;
   MAnswer (returning status_answer); MRead;
   MCall "system_powerdown"; MCheck 1; MLock 1; MSend 1; MReceive 1; MUnlock 1; MAnswer (returning (JObj []))].

(** A call that gives up leaves its response behind for the next one: in
    a run of the client the second call returns QEMU's answer to the first
    one, whose context ended, instead of the answer to its own command. *)
Theorem late_response_misdelivered :
  ∃ y a b, qmp_reachable y ∧ a ≠ b ∧
    y_calls y = [XReturn (GaveUp "context deadline exceeded"); XReturn (Replied (Ok a))] ∧
    y_answered y = [(0%nat, returning a); (1%nat, returning b)].
Proof.
  destruct (qmp_run late_response qmp_init) as [y|] eqn:E; [|by vm_compute in E].
  exists y, status_answer, (JObj []). split; [by eapply qmp_run_reachable; [apply rtc_refl|]|].
  vm_compute in E. injection E as <-. by split_and!.
Qed.

(** ** The handshake *)

(** What a socket and a goroutine do: whether the connection is open, and
    whether the reader was started. *)
Class SocketLaws (W : Type) `{!QmpSocket W} := {
  sock_open : W → bool;
  reading : W → bool;
  dial_law c path w : ∃ r w', qsock_Dial c path w = Done (r, w') ∧ sock_open w' = is_ok r ∧ reading w' = reading w;
  next_law w : ∃ r w', qsock_Next w = Done (r, w') ∧ sock_open w' = sock_open w ∧ reading w' = reading w;
  encode_law v w : ∃ r w', qsock_Encode v w = Done (r, w') ∧ sock_open w' = sock_open w ∧ reading w' = reading w;
  sock_close_law w : ∃ w', qsock_Close w = Done (tt, w') ∧ sock_open w' = false ∧ reading w' = reading w;
  reader_law w : ∃ w', go_reader w = Done (tt, w') ∧ sock_open w' = sock_open w ∧ reading w' = true;
}.

Section handshake.
Context {W : Type} `{!QmpSocket W, !SocketLaws W}.

Lemma decode_law {A} (d : decoder A) zero w :
  ∃ r w', Decode d zero w = Done (r, w') ∧ sock_open w' = sock_open w ∧ reading w' = reading w.
Proof.
  destruct (next_law w) as (r & w' & Hn & Ho & Hr). do 2 eexists. split; [|done].
  unfold Decode. by rewrite (M_bind_done _ _ _ _ _ Hn).
Qed.

Lemma hang_up_law {A} (x : A) w :
  ∃ w', hang_up x w = Done (x, w') ∧ sock_open w' = false ∧ reading w' = reading w.
Proof.
  destruct (sock_close_law w) as (w' & Hc & Ho & Hr). exists w'. split; [|done].
  unfold hang_up. by rewrite (M_bind_done _ _ _ _ _ Hc).
Qed.

(** One more call of the handshake. *)
Ltac call law :=
  let r := fresh "r" in let w := fresh "w" in let H := fresh "Hcall" in
  destruct law as (r & w & H & ? & ?); erewrite (M_bind_done _ _ _ _ _ H); destruct r.
Ltac refused :=
  match goal with |- context [hang_up ?x ?w] =>
    let w' := fresh "w" in let H := fresh "Hup" in
    destruct (hang_up_law x w) as (w' & H & ? & ?); rewrite H; do 3 eexists; split; [reflexivity|]; simpl in *; split; congruence end.

(** [Connect] always returns, given a peer that answers; it leaves the
    connection open, with the reader running, exactly when it succeeds.  On
    every error after the dialling the socket is closed again and no reader
    is left behind, so that the retries of [StartVM] leak nothing. *)
Theorem Connect_leaves_nothing_behind (c : ctx) (cl : QMPClient) (w : W) :
  reading w = false →
  ∃ r cl' w', Connect c cl w = Done ((r, cl'), w') ∧ sock_open w' = is_ok r ∧ reading w' = is_ok r.
Proof.
  intros Hw. unfold Connect. call (dial_law c (qc_socketPath cl) w); [|do 3 eexists; split; [reflexivity|]; simpl in *; split; congruence].
  call (decode_law dec_QMPGreeting greeting_zero w0); [|refused].
  call (encode_law (QMPCommand "qmp_capabilities" None) w1); [|refused].
  call (decode_law dec_QMPResponse (mkQMPResponse None None) w2); [|refused].
  destruct (qr_Error _); [refused|].
  destruct (reader_law w3) as (w4 & Hr & ? & ?). rewrite (M_bind_done _ _ _ _ _ Hr). do 3 eexists. split; [reflexivity|].
  simpl in *. split; congruence.
Qed.

End handshake.

(** ** Witnesses *)

Definition one_query : list qmp_move :=
  [MCall "query-status"; MCheck 0; MLock 0; MSend 0; MOther (JObj [("event", JStr "RESUME")]);
   MAnswer (returning status_answer); MRead; MRead; MReceive 0; MUnlock 0].

Definition after (mvs : list qmp_move) : qmp_sys := default qmp_init (qmp_run mvs qmp_init).

Lemma after_reachable mvs :
  match qmp_run mvs qmp_init with Some _ => true | None => false end = true → qmp_reachable (after mvs).
Proof. unfold after. destruct (qmp_run mvs qmp_init) as [y|] eqn:Hy; [intros _; simpl|done]. by eapply qmp_run_reachable; [apply rtc_refl|]. Qed.

Lemma after_calm mvs : forallb (λ pc, negb (gave_up pc)) (y_calls (after mvs)) = true → calm (after mvs).
Proof.
  intros Hf i pc Hi. apply negb_true_iff. rewrite forallb_forall in Hf. apply Hf, list_elem_of_In.
  by eapply list_elem_of_lookup_2.
Qed.

Lemma execute_own_response_witness :
  ∃ v resp, (0%nat, v) ∈ y_answered (after one_query) ∧ response_of v = Some resp ∧ Ok status_answer = reply resp.
Proof.
  destruct (execute_own_response (after one_query) 0 (Ok status_answer)) as (v & resp & H1 & H2 & H3 & _).
  - apply after_reachable. vm_compute. reflexivity.
  - apply after_calm. vm_compute. reflexivity.
  - vm_compute. reflexivity.
  - exists v, resp. exact (conj H1 (conj H2 H3)).
Defined.

Lemma execute_serialised_witness : ∀ mv why, qmp_exec mv (after one_query) ≠ Panics why.
Proof. apply execute_serialised, after_reachable. by eexists. Defined.

Lemma execute_progress_witness :
  (∃ y', qmp_exec (MReceive 0) (after (take 6 one_query)) = Done (Some y')) ∨
  (∃ y', qmp_exec MRead (after (take 6 one_query)) = Done (Some y')) ∨
  (∃ y', qmp_exec (MDone 0) (after (take 6 one_query)) = Done (Some y')) ∨
  y_tx (after (take 6 one_query)) = [0%nat].
Proof.
  destruct (execute_progress (after (take 6 one_query)) 0) as [H|[H|[H|[H _]]]].
  - apply after_reachable. vm_compute. reflexivity.
  - apply after_calm. vm_compute. reflexivity.
  - vm_compute. reflexivity.
  - left. exact H.
  - right. left. exact H.
  - right. right. left. exact H.
  - right. right. right. exact H.
Defined.

(** A peer that greets and rejects the capabilities. *)
Record peer : Type := mkPeer { pr_open : bool; pr_reading : bool; pr_script : list json }.

Definition peer_next : M peer (result json) := λ w,
  match pr_script w with
  | v :: vs => Done (Ok v, mkPeer (pr_open w) (pr_reading w) vs)
  | [] => Done (Err "EOF", w)
  end.

Local Instance peer_socket : QmpSocket peer := {|
  qsock_Dial _ _ := λ w, Done (Ok tt, mkPeer true (pr_reading w) (pr_script w));
  qsock_Next := peer_next;
  qsock_Encode _ := λ w, Done (Ok tt, w);
  qsock_Close := λ w, Done (tt, mkPeer false (pr_reading w) (pr_script w));
  go_reader := λ w, Done (tt, mkPeer (pr_open w) true (pr_script w));
|}.

Local Instance peer_laws : SocketLaws peer.
Proof.
  refine {| sock_open := pr_open; reading := pr_reading |}.
  - intros c path w. by do 2 eexists.
  - intros w. simpl. unfold peer_next. destruct (pr_script w); by do 2 eexists.
  - intros v w. by do 2 eexists.
  - intros w. by eexists.
  - intros w. by eexists.
Defined.

Definition rejecting_peer : peer := mkPeer false false
  [JObj [("QMP", JObj [("version", JObj []); ("capabilities", JArr [])])];
   JObj [("error", JObj [("class", JStr "GenericError"); ("desc", JStr "no")])]].

Lemma Connect_leaves_nothing_behind_witness :
  ∃ r cl w', Connect Background (NewQMPClient "/tmp/vm-1.sock") rejecting_peer = Done ((r, cl), w') ∧
             r = Err "qmp_capabilities rejected: QMP error [GenericError]: no" ∧ pr_open w' = false ∧ pr_reading w' = false.
Proof.
  destruct (Connect_leaves_nothing_behind (SocketLaws0 := peer_laws) Background (NewQMPClient "/tmp/vm-1.sock") rejecting_peer eq_refl)
    as (r & cl & w' & Hc & Ho & Hr).
  exists r, cl, w'. split; [exact Hc|]. vm_compute in Hc. injection Hc as <- <- <-. split_and!; reflexivity.
Defined.
