(* ===== verification/Memory.v ===== *)
(** * Bytes, words and the host's memory

    Byte-addressed memories with little-endian words, for the C parts of the
    project, and [HostMemory], the interface to the guest's physical memory:
    the CPU's stores, the DMA of a PCI device and the kernel's allocator of
    coherent DMA memory.  Their implementations are the kernel's and QEMU's;
    the laws are what those document. *)
From stdpp Require Import options.
From S2P Require Import Prelude.
Open Scope Z_scope.

(** C's [uint32_t] and [uint64_t]. *)
Definition u32 (z : Z) : Z := z mod 2 ^ 32.
Definition u64 (z : Z) : Z := z mod 2 ^ 64.
Global Arguments u32 : simpl never.
Global Arguments u64 : simpl never.

Lemma u32_id z : 0 ≤ z < 2 ^ 32 → u32 z = z.
Proof. intros. by apply Z.mod_small. Qed.
Lemma u64_id z : 0 ≤ z < 2 ^ 64 → u64 z = z.
Proof. intros. by apply Z.mod_small. Qed.
Lemma u32_range z : 0 ≤ u32 z < 2 ^ 32.
Proof. by apply Z.mod_pos_bound. Qed.
Lemma u64_range z : 0 ≤ u64 z < 2 ^ 64.
Proof. by apply Z.mod_pos_bound. Qed.

(** ** Memories *)

Definition mem : Type := Z → Z.

Definition is_bytes (m : mem) : Prop := ∀ a, 0 ≤ m a < 256.

Fixpoint load (n : nat) (m : mem) (a : Z) : Z :=
  match n with
  | O => 0
  | S n' => m a + 256 * load n' m (a + 1)
  end.

Definition byte_at (v i : Z) : Z := (v / 256 ^ i) mod 256.

Definition store (n : Z) (m : mem) (a v : Z) : mem := λ x,
  if decide (a ≤ x < a + n) then byte_at v (x - a) else m x.

(** The bytes of [src] from [b] on, over [n] bytes of [dst] from [a] on. *)
Definition copy (dst : mem) (a : Z) (src : mem) (b n : Z) : mem := λ x,
  if decide (a ≤ x < a + n) then src (x - a + b) else dst x.

Lemma load_ext n m m' a b :
  (∀ i, 0 ≤ i < Z.of_nat n → m (a + i) = m' (b + i)) → load n m a = load n m' b.
Proof.
  revert a b. induction n as [|n IH]; intros a b H; simpl; [done|].
  rewrite (IH _ (b + 1)); [pose proof (H 0 ltac:(lia)) as H0; rewrite !Z.add_0_r in H0; by rewrite H0|].
  intros i Hi. replace (a + 1 + i) with (a + (i + 1)) by lia. replace (b + 1 + i) with (b + (i + 1)) by lia.
  apply H. lia.
Qed.

Lemma byte_at_range v i : 0 ≤ byte_at v i < 256.
Proof. by apply Z.mod_pos_bound. Qed.

Lemma store_bytes n m a v : is_bytes m → is_bytes (store n m a v).
Proof. intros Hm x. unfold store. case_decide; [apply byte_at_range|apply Hm]. Qed.

Lemma copy_bytes m a m' b n : is_bytes m → is_bytes m' → is_bytes (copy m a m' b n).
Proof. intros Hm Hm' x. unfold copy. case_decide; [apply Hm'|apply Hm]. Qed.

(** The bytes of a number make up the number. *)
Lemma load_byte_at n v a m :
  0 ≤ v < 256 ^ Z.of_nat n → (∀ i, 0 ≤ i < Z.of_nat n → m (a + i) = byte_at v i) → load n m a = v.
Proof.
  revert v a. induction n as [|n IH]; intros v a Hv Hm; [simpl in *; lia|]. cbn [load].
  rewrite Nat2Z.inj_succ, Z.pow_succ_r in Hv by lia.
  rewrite (IH (v / 256)).
  - pose proof (Hm 0 ltac:(lia)) as H0. rewrite Z.add_0_r in H0. rewrite H0. unfold byte_at.
    rewrite Z.pow_0_r, Z.div_1_r. pose proof (Z.div_mod v 256). lia.
  - split; [apply Z.div_pos; lia|]. apply Z.div_lt_upper_bound; lia.
  - intros i Hi. replace (a + 1 + i) with (a + (i + 1)) by lia. rewrite Hm by lia. unfold byte_at.
    rewrite Z.pow_add_r, Z.mul_comm, Z.pow_1_r, <- Z.div_div by lia. done.
Qed.

Lemma load_store n m a v :
  0 ≤ v < 256 ^ Z.of_nat n → load n (store (Z.of_nat n) m a v) a = v.
Proof.
  intros Hv. apply load_byte_at; [done|]. intros i Hi. unfold store.
  rewrite decide_True by lia. f_equal. lia.
Qed.

Lemma load_store_other n m a v b k :
  b + Z.of_nat n ≤ a ∨ a + k ≤ b → load n (store k m a v) b = load n m b.
Proof. intros H. apply load_ext. intros i Hi. unfold store. rewrite decide_False; [done|lia]. Qed.

Lemma load_copy n dst a src b k x :
  a ≤ x → x + Z.of_nat n ≤ a + k → load n (copy dst a src b k) x = load n src (x - a + b).
Proof.
  intros H1 H2. apply load_ext. intros i Hi. unfold copy. rewrite decide_True by lia. f_equal. lia.
Qed.

Lemma load_copy_other n dst a src b k x :
  x + Z.of_nat n ≤ a ∨ a + k ≤ x → load n (copy dst a src b k) x = load n dst x.
Proof. intros H. apply load_ext. intros i Hi. unfold copy. rewrite decide_False; [done|lia]. Qed.

Lemma load_range n m a : is_bytes m → 0 ≤ load n m a < 256 ^ Z.of_nat n.
Proof.
  intros Hm. revert a. induction n as [|n IH]; intros a; cbn [load]; [simpl; lia|].
  rewrite Nat2Z.inj_succ, Z.pow_succ_r by lia. pose proof (Hm a). pose proof (IH (a + 1)). lia.
Qed.

Global Arguments load : simpl never.

(** ** The host's memory *)

(** [live h a n]: the bytes from [a] on are within memory that was handed
    out and not given back. *)
Class HostMemory (H : Type) := {
  host_bytes : H → mem;
  host_write : Z → Z → mem → H → H;         (* address, length, the bytes from 0 on *)
  dma_alloc_coherent : Z → H → option (Z * H);
  dma_free_coherent : Z → H → H;
  live : H → Z → Z → bool;
}.

(** A store by the CPU. *)
Definition host_store `{HostMemory H} (n a v : Z) (h : H) : H := host_write a n (byte_at v) h.

Class HostMemoryLaws (H : Type) `{!HostMemory H} : Prop := {
  host_write_bytes h a n f : host_bytes (host_write a n f h) = copy (host_bytes h) a f 0 n;
  host_write_live h a n f b k : live (host_write a n f h) b k = live h b k;
  dma_alloc_live n h a h' : dma_alloc_coherent n h = Some (a, h') → live h' a n = true ∧ 0 < a ∧ a + n ≤ 2 ^ 64;
  dma_alloc_zero n h a h' i : dma_alloc_coherent n h = Some (a, h') → 0 ≤ i < n → host_bytes h' (a + i) = 0;
  dma_alloc_other n h a h' b k : dma_alloc_coherent n h = Some (a, h') → live h b k = true → 0 < k →
    (b + k ≤ a ∨ a + n ≤ b) ∧ live h' b k = true ∧
    ∀ i, 0 ≤ i < k → host_bytes h' (b + i) = host_bytes h (b + i);
  dma_alloc_free n h a h' b k : dma_alloc_coherent n h = Some (a, h') → live h b k = true → 0 < k →
    live (dma_free_coherent a h') b k = true ∧
    ∀ i, 0 ≤ i < k → host_bytes (dma_free_coherent a h') (b + i) = host_bytes h (b + i);
  live_sub h a n b k : live h a n = true → a ≤ b → 0 < k → b + k ≤ a + n → live h b k = true;
}.

(** ** A host with a bump allocator *)

Record flat_host : Type := mkHost {
  fh_bytes : mem;
  fh_next : Z;
  fh_regions : list (Z * Z);
}.

Definition within (a n : Z) (r : Z * Z) : bool := bool_decide (r.1 ≤ a ∧ a + n ≤ r.1 + r.2).

Global Instance flat_memory : HostMemory flat_host := {|
  host_bytes := fh_bytes;
  host_write a n f h := mkHost (copy (fh_bytes h) a f 0 n) (fh_next h) (fh_regions h);
  dma_alloc_coherent n h :=
    if decide (0 < fh_next h ∧ 0 ≤ n ∧ fh_next h + n ≤ 2 ^ 64)
    then Some (fh_next h, mkHost (copy (fh_bytes h) (fh_next h) (λ _, 0) 0 n) (fh_next h + n)
                            ((fh_next h, n) :: fh_regions h))
    else None;
  dma_free_coherent a h := mkHost (fh_bytes h) (fh_next h) (filter (λ r, r.1 ≠ a) (fh_regions h));
  live h a n := existsb (within a n) (fh_regions h) && bool_decide (a + n ≤ fh_next h);
|}.

Global Instance flat_laws : HostMemoryLaws flat_host.
Proof.
  split; simpl.
  - done.
  - done.
  - intros n h a h' E. case_decide as Hc; [|done]. injection E as <- <-. simpl. split; [|lia].
    unfold within at 1. simpl. rewrite !bool_decide_eq_true_2 by lia. done.
  - intros n h a h' i E Hi. case_decide as Hc; [|done]. injection E as <- <-. simpl.
    unfold copy. by rewrite decide_True by lia.
  - intros n h a h' b k E [Hl Hb%bool_decide_eq_true]%andb_prop Hk. case_decide as Hc; [|done].
    injection E as <- <-. split; [lia|]. simpl. split.
    + rewrite Hl, orb_true_r, bool_decide_eq_true_2 by lia. done.
    + intros i Hi. unfold copy. by rewrite decide_False by lia.
  - intros n h a h' b k E [Hl Hb%bool_decide_eq_true]%andb_prop Hk. case_decide as Hc; [|done].
    injection E as <- <-. simpl. split; [|intros i Hi; unfold copy; by rewrite decide_False by lia].
    rewrite (bool_decide_eq_true_2 (_ ≤ _)) by lia. rewrite andb_true_r.
    apply existsb_exists in Hl as (r & Hr & Hw). apply existsb_exists. exists r. split; [|done].
    apply list_elem_of_In, list_elem_of_filter. split; [|right; by apply list_elem_of_In].
    apply bool_decide_eq_true in Hw. lia.
  - intros h a n b k [Hl Hb%bool_decide_eq_true]%andb_prop H1 H2 H3. rewrite bool_decide_eq_true_2 by lia.
    rewrite andb_true_r. apply existsb_exists in Hl as (r & Hr & Hw%bool_decide_eq_true).
    apply existsb_exists. exists r. split; [done|]. apply bool_decide_eq_true. lia.
Qed.
