(* ===== verification/GpuDevice.v ===== *)
(** * The simulated GPGPU ([qemu-accelerator-models/hw/misc/gp_gpu.c])

    The QEMU model of the accelerator: its registers, its local memory, the
    DMA engine, the page-table walk and the one kernel it computes, the
    addition of two vectors.  A pointer into [device_mem] is its offset; an
    access outside the allocated 128 MB is undefined in C and is [Panics].
    The scratch globals of the DMA engine are assigned before every use and
    are local here. *)
From stdpp Require Import options.
From S2P Require Import Prelude Memory.
Open Scope Z_scope.

(** ** Registers *)

Definition KERNEL_SM_CTRL : Z := 0x201c.
Definition DMA_SRC_LO : Z := 0x100c.
Definition DMA_SRC_HI : Z := 0x1010.
Definition DMA_DST_LO : Z := 0x1014.
Definition DMA_DST_HI : Z := 0x1018.
Definition DMA_SIZE : Z := 0x1008.
Definition DMA_CH0_CTRL : Z := 0x1000.
Definition DMA_DOORBELL : Z := 0x1100.
Definition DMA_STATUS : Z := 0x1104.
Definition REG_MMU_PT : Z := 0x508.
Definition REG_SM_START : Z := 0x24.
Definition REG_SM_ARG_LO : Z := 0x08.
Definition REG_SM_ARG_HI : Z := 0x0C.

Definition ddr_base : Z := 0x80000000.
Definition device_size : Z := 128 * 1024 * 1024.
Definition UINT64_MAX : Z := 2 ^ 64 - 1.

(** [regs] by index; BAR 0 has 0x4000 bytes, so an index is below 4096. *)
Record GPGPU : Type := mkGPGPU {
  g_regs : Z → Z;
  g_mem : mem;
  g_msix_enabled : bool;
  g_irqs : nat;             (* messages sent on vector 0 *)
}.

Definition reg (addr : Z) (d : GPGPU) : Z := g_regs d (Z.shiftr addr 2).

Definition set_reg (addr val : Z) (d : GPGPU) : GPGPU :=
  mkGPGPU (λ i, if decide (i = Z.shiftr addr 2) then u32 val else g_regs d i)
    (g_mem d) (g_msix_enabled d) (g_irqs d).

Definition set_mem (m : mem) (d : GPGPU) : GPGPU :=
  mkGPGPU (g_regs d) m (g_msix_enabled d) (g_irqs d).

Definition notify (d : GPGPU) : GPGPU :=
  if g_msix_enabled d then mkGPGPU (g_regs d) (g_mem d) true (S (g_irqs d)) else d.

Definition gpgpu_read (addr : Z) (d : GPGPU) : Z := reg addr d.

(** ** Local memory *)

Definition out_of_bounds : string := "access outside device_mem".

Definition in_device (off n : Z) : bool := bool_decide (n = 0 ∨ 0 ≤ off ∧ off + n ≤ device_size).

Definition dev_load (n : nat) (off : Z) (d : GPGPU) : go Z :=
  if in_device off (Z.of_nat n) then Done (load n (g_mem d) off) else Panics out_of_bounds.

Definition dev_store (n : Z) (off v : Z) (d : GPGPU) : go GPGPU :=
  if in_device off n then Done (set_mem (store n (g_mem d) off v) d) else Panics out_of_bounds.

(** The offset is an [int]. *)
Definition gpu_local_ddr_address (va : Z) : Z := int32 (u64 (va - ddr_base)).

(** The page-table walk; [UINT64_MAX] for a page that is not mapped. *)
Definition gpu_translate_va (va : Z) (d : GPGPU) : go Z :=
  let vpage := Z.land (Z.shiftr va 12) 0xFFFFFFFFF in
  let offset := Z.land va 0xFFF in
  let pt := gpu_local_ddr_address (reg REG_MMU_PT d) in
  let? entry := dev_load 8 (pt + vpage * 8) d in
  if Z.testbit entry 0
  then Done (u64 (Z.ldiff entry 0xFFF + offset))
  else Done UINT64_MAX.

(** ** The kernel *)

(** The loop of [process_vector_addition] from element [i] on, [n] of them. *)
Fixpoint add_loop (n : nat) (i a b dst : Z) (d : GPGPU) : go GPGPU :=
  match n with
  | O => Done d
  | S n' =>
    let? x := dev_load 4 (a + 4 * i) d in
    let? y := dev_load 4 (b + 4 * i) d in
    let? d' := dev_store 4 (dst + 4 * i) (u32 (x + y)) d in
    add_loop n' (i + 1) a b dst d'
  end.

Definition process_vector_addition (kernel_args_addr : Z) (d : GPGPU) : go GPGPU :=
  let? patrans := gpu_translate_va kernel_args_addr d in
  let data := gpu_local_ddr_address patrans in
  let? srcA := dev_load 8 data d in
  let? srcB := dev_load 8 (data + 8) d in
  let? dest := dev_load 8 (data + 16) d in
  let? pa := gpu_translate_va srcA d in
  let? pb := gpu_translate_va srcB d in
  let? pd := gpu_translate_va dest d in
  add_loop 1024 0 (gpu_local_ddr_address pa) (gpu_local_ddr_address pb) (gpu_local_ddr_address pd) d.

(** ** Writes to BAR 0 *)

Section write.
Context {H : Type} `{!HostMemory H}.

(** The transfer the doorbell starts; [device_mem] is allocated. *)
Definition dma_transfer (d : GPGPU) (h : H) : go (GPGPU * H) :=
  let src := Z.lor (reg DMA_SRC_LO d) (Z.shiftl (reg DMA_SRC_HI d) 32) in
  let dst := Z.lor (reg DMA_DST_LO d) (Z.shiftl (reg DMA_DST_HI d) 32) in
  let size := reg DMA_SIZE d in
  if decide (reg DMA_CH0_CTRL d = 0) then
    let ddr_index := u32 (dst - ddr_base) in
    if in_device ddr_index size
    then Done (set_mem (copy (g_mem d) ddr_index (host_bytes h) src size) d, h)
    else Panics out_of_bounds
  else
    let ddr_index := u32 (src - ddr_base) in
    if in_device ddr_index size
    then Done (d, host_write dst size (λ i, g_mem d (ddr_index + i)) h)
    else Panics out_of_bounds.

Definition gpgpu_write (addr val : Z) (d : GPGPU) (h : H) : go (GPGPU * H) :=
  let d := set_reg addr val d in
  if decide (addr = DMA_DOORBELL) then
    let? r := dma_transfer (set_reg DMA_STATUS 0 d) h in
    Done (set_reg DMA_STATUS 1 r.1, r.2)
  else if decide (addr = KERNEL_SM_CTRL ∨ addr = REG_SM_START) then
    let kernel_args_addr := Z.lor (reg REG_SM_ARG_LO d) (Z.shiftl (reg REG_SM_ARG_HI d) 32) in
    let? d' := process_vector_addition kernel_args_addr d in
    Done (notify d', h)
  else Done (d, h).

End write.

(** ** The sum of two vectors *)

Lemma dev_load_done n off d :
  0 ≤ off → off + Z.of_nat n ≤ device_size → dev_load n off d = Done (load n (g_mem d) off).
Proof. intros H1 H2. unfold dev_load, in_device. by rewrite bool_decide_eq_true_2 by lia. Qed.

Lemma dev_store_done n off v d :
  0 ≤ off → off + n ≤ device_size → dev_store n off v d = Done (set_mem (store n (g_mem d) off v) d).
Proof. intros H1 H2. unfold dev_store, in_device. by rewrite bool_decide_eq_true_2 by lia. Qed.

(** What is the same after work on [n] bytes of local memory from [a] on. *)
Definition only_changes (a n : Z) (d d' : GPGPU) : Prop :=
  g_regs d' = g_regs d ∧ g_msix_enabled d' = g_msix_enabled d ∧ g_irqs d' = g_irqs d ∧
  ∀ x, ¬ (a ≤ x < a + n) → g_mem d' x = g_mem d x.

Lemma only_changes_load a n d d' k x :
  only_changes a n d d' → x + Z.of_nat k ≤ a ∨ a + n ≤ x → load k (g_mem d') x = load k (g_mem d) x.
Proof. intros (_ & _ & _ & H) Hx. apply load_ext. intros i Hi. apply H. lia. Qed.

Lemma add_loop_spec n i a b dst d k :
  0 ≤ i → i + Z.of_nat n = k → 0 ≤ a → a + 4 * k ≤ device_size → 0 ≤ b → b + 4 * k ≤ device_size →
  0 ≤ dst → dst + 4 * k ≤ device_size →
  dst + 4 * k ≤ a ∨ a + 4 * k ≤ dst → dst + 4 * k ≤ b ∨ b + 4 * k ≤ dst →
  ∃ d', add_loop n i a b dst d = Done d' ∧ only_changes (dst + 4 * i) (4 * Z.of_nat n) d d' ∧
    ∀ j, i ≤ j < k → load 4 (g_mem d') (dst + 4 * j) =
      u32 (load 4 (g_mem d) (a + 4 * j) + load 4 (g_mem d) (b + 4 * j)).
Proof.
  revert i d. induction n as [|n IH]; intros i d Hi Hk Ha1 Ha2 Hb1 Hb2 Hd1 Hd2 Ha Hb.
  { exists d. split; [done|]. split; [by repeat split|]. intros j Hj. lia. }
  cbn [add_loop go_bind]. rewrite !dev_load_done by lia. cbn [go_bind]. rewrite dev_store_done by lia. cbn [go_bind].
  set (v := u32 _). set (d1 := set_mem _ d).
  destruct (IH (i + 1) d1) as (d' & E & Hch & Hsum); [lia..|].
  assert (H1 : only_changes (dst + 4 * i) 4 d d1).
  { repeat split. intros x Hx. simpl. unfold store. by rewrite decide_False. }
  exists d'. split; [done|]. split.
  - destruct Hch as (Hr & Hm & Hq & Hx), H1 as (Hr1 & Hm1 & Hq1 & Hx1).
    repeat split; [congruence..|]. intros x Hnx. rewrite Hx, Hx1 by lia. done.
  - intros j Hj. destruct (decide (j = i)) as [->|Hne].
    + rewrite (only_changes_load _ _ _ _ _ _ Hch) by lia. apply load_store. apply u32_range.
    + rewrite Hsum by lia. f_equal. f_equal; apply (only_changes_load _ _ _ _ _ _ H1); lia.
Qed.

(** The translation of an address, by the entry of its page. *)
Lemma translate_entry va d pa :
  let pt := gpu_local_ddr_address (reg REG_MMU_PT d) in
  let vpage := Z.land (Z.shiftr va 12) 0xFFFFFFFFF in
  0 ≤ pt → pt + vpage * 8 + 8 ≤ device_size →
  0 ≤ pa → pa mod 4096 = 0 → pa + 4096 ≤ 2 ^ 64 →
  load 8 (g_mem d) (pt + vpage * 8) = Z.lor pa 1 →
  gpu_translate_va va d = Done (pa + va mod 4096).
Proof.
  intros pt vpage Hp1 Hp2 Hpa Hal Hmax Hl. unfold gpu_translate_va. fold pt vpage.
  assert (Hv : 0 ≤ vpage) by (unfold vpage; apply Z.land_nonneg; right; lia).
  rewrite dev_load_done by lia. cbn [go_bind]. rewrite Hl.
  assert (Hbit : Z.testbit (Z.lor pa 1) 0 = true) by (by rewrite Z.lor_spec, orb_true_r).
  rewrite Hbit. f_equal.
  assert (Hlow : Z.land va 0xFFF = va mod 4096) by (change 0xFFF with (Z.ones 12); by rewrite Z.land_ones).
  rewrite Hlow. pose proof (Z.mod_pos_bound va 4096 ltac:(lia)).
  assert (Hd : Z.ldiff (Z.lor pa 1) 0xFFF = pa).
  { change 0xFFF with (Z.ones 12). rewrite Z.ldiff_ones_r by lia.
    rewrite Z.shiftr_lor. change (Z.shiftr 1 12) with 0. rewrite Z.lor_0_r, Z.shiftr_div_pow2, Z.shiftl_mul_pow2 by lia.
    change (2 ^ 12) with 4096. pose proof (Z.div_mod pa 4096). lia. }
  rewrite Hd. apply u64_id. lia.
Qed.

Lemma local_address x : 0 ≤ x < 2 ^ 31 → gpu_local_ddr_address (ddr_base + x) = x.
Proof.
  intros Hx. unfold gpu_local_ddr_address. replace (ddr_base + x - ddr_base) with x by lia.
  rewrite u64_id by lia. apply int32_id. lia.
Qed.

(** ** Properties *)

(** A vector of 1024 words in local memory. *)
Definition fits (off n : Z) : Prop := 0 ≤ off ∧ off + n ≤ device_size.

(** C39: the kernel adds vectors: when the arguments' page and the three
    vectors' pages are mapped into local memory and the result does not
    overlap an operand, every word of the result is the sum of the operands'
    words modulo 2^32, and no other byte of local memory and no register
    changes. *)
Theorem vector_addition_correct args d o a b dst :
  gpu_translate_va args d = Done (ddr_base + o) → fits o 24 →
  gpu_translate_va (load 8 (g_mem d) o) d = Done (ddr_base + a) → fits a 4096 →
  gpu_translate_va (load 8 (g_mem d) (o + 8)) d = Done (ddr_base + b) → fits b 4096 →
  gpu_translate_va (load 8 (g_mem d) (o + 16)) d = Done (ddr_base + dst) → fits dst 4096 →
  (dst + 4096 ≤ a ∨ a + 4096 ≤ dst) → (dst + 4096 ≤ b ∨ b + 4096 ≤ dst) →
  ∃ d', process_vector_addition args d = Done d' ∧ only_changes dst 4096 d d' ∧
    ∀ i, 0 ≤ i < 1024 → load 4 (g_mem d') (dst + 4 * i) =
      u32 (load 4 (g_mem d) (a + 4 * i) + load 4 (g_mem d) (b + 4 * i)).
Proof.
  intros To Ho Ta Ha Tb Hb Td Hd Da Db. unfold fits, device_size in *.
  destruct (add_loop_spec 1024 0 a b dst d 1024) as (d' & E & Hch & Hsum); unfold device_size; try lia.
  exists d'. unfold process_vector_addition. rewrite To. cbn [go_bind]. rewrite local_address by lia.
  rewrite !dev_load_done by (unfold device_size; lia). cbn [go_bind]. rewrite Ta, Tb, Td. cbn [go_bind].
  rewrite !local_address by lia. split; [exact E|]. rewrite Z.mul_0_r, Z.add_0_r in Hch.
  split; [exact Hch|]. intros i Hi. exact (Hsum i Hi).
Qed.

(** An address whose page is not mapped is not caught: the walk answers
    with the all-ones word, and the kernel uses it as an address, which lies
    outside the memory of the device. *)
Theorem unmapped_argument_out_of_bounds args d :
  gpu_translate_va args d = Done UINT64_MAX → process_vector_addition args d = Panics out_of_bounds.
Proof. intros T. unfold process_vector_addition. rewrite T. done. Qed.

(** ** Witnesses *)

(** A device whose page table, at the start of its memory, maps the first
    five virtual pages to pages 1 to 5, with the arguments in page 1 and the
    vectors in pages 2 to 4. *)
Definition page_entry (k : Z) : Z := Z.lor (ddr_base + (k + 1) * 4096) 1.

Definition sample_memory : mem :=
  let m := λ x, (x / 7) mod 256 in
  let m := store 8 m 0 (page_entry 0) in
  let m := store 8 m 8 (page_entry 1) in
  let m := store 8 m 16 (page_entry 2) in
  let m := store 8 m 24 (page_entry 3) in
  let m := store 8 m 4096 4096 in
  let m := store 8 m 4104 8192 in
  store 8 m 4112 12288.

Definition sample_gpu : GPGPU :=
  set_reg REG_MMU_PT ddr_base (mkGPGPU (λ _, 0) sample_memory true 0).

Lemma vector_addition_correct_witness : ∃ d',
  process_vector_addition 0 sample_gpu = Done d' ∧ only_changes 16384 4096 sample_gpu d' ∧
  load 4 (g_mem d') 16384 = u32 (load 4 (g_mem sample_gpu) 8192 + load 4 (g_mem sample_gpu) 12288).
Proof.
  destruct (vector_addition_correct 0 sample_gpu 4096 8192 12288 16384) as (d' & E & Hc & Hs);
    [vm_compute; reflexivity|unfold fits, device_size; lia|vm_compute; reflexivity|unfold fits, device_size; lia
    |vm_compute; reflexivity|unfold fits, device_size; lia|vm_compute; reflexivity|unfold fits, device_size; lia
    |lia|lia|].
  exists d'. split; [exact E|]. split; [exact Hc|]. exact (Hs 0 ltac:(lia)).
Defined.

Lemma unmapped_argument_out_of_bounds_witness :
  process_vector_addition 0 (mkGPGPU (λ _, 0x80000000) (λ _, 0) true 0) = Panics out_of_bounds.
Proof. apply unmapped_argument_out_of_bounds. vm_compute. reflexivity. Defined.
