(* ===== verification/GpuDriver.v ===== *)
(** * The GPGPU's kernel driver: DMA and memory management
      ([driver-source/gpgpu_driver])

    [gp_gpu_dma] of [gpgpu_dma.c] and the memory manager of
    [gpgpu_memory_manager.c], against the simulated device of
    [GpuDevice] and any host memory: a store to a register is
    [gpgpu_write].  The CPU's pointer to coherent memory and its DMA handle
    name the same bytes and are one number here.  A store through a pointer
    that is not live, and an index outside an array, are undefined in C and
    are [Panics].

    A function is modelled as the sequence of its accesses, run without
    another call of the driver in between.  The locks do not ensure that:
    [gpu_alloc] and [gpu_free] hold the lock of the context they work on,
    [gpu_ctx_create] that of the device and [gpu_bind_context] none, while
    [ddr_next], the DMA registers and those of the MMU are shared by all
    contexts.  The two halves of [gpu_ddr_alloc] and what [gpu_alloc] does
    after it are definitions of their own, so that calls on two contexts can
    be interleaved ([GpuMemory.racing_allocs]). *)
From stdpp Require Import options.
From S2P Require Import Prelude Types Effects Memory GpuDevice.
Open Scope Z_scope.

Definition ENOMEM : Z := 12.
Definition EINVAL : Z := 22.
Definition ETIMEDOUT : Z := 110.

(** [0] with what was written to the request, or [-e]. *)
Inductive kres (A : Type) : Type :=
| KOk (a : A)
| KErr (e : Z).
Arguments KOk {A}.
Arguments KErr {A}.

Definition MAX_CONTEXTS : Z := 16.
Definition PAGE_SIZE_4K : Z := 4096.

Record gpu_context : Set := mkContext {
  cx_id : Z;
  cx_num_entries : Z;
  cx_cpu_ptr : Z;         (* of the page table; also its DMA handle *)
  cx_gpu_phys : Z;
  cx_vpage_next : Z;
}.

Record gpu_device : Set := mkDevice {
  gd_ctx : list gpu_context;
  gd_ddr_base : Z;
  gd_ddr_size : Z;
  gd_ddr_next : Z;
  gd_init_status : Z;
}.

Definition set_ctx (i : nat) (c : gpu_context) (g : gpu_device) : gpu_device :=
  mkDevice (<[i := c]> (gd_ctx g)) (gd_ddr_base g) (gd_ddr_size g) (gd_ddr_next g) (gd_init_status g).

Record gpu_sys (H : Type) : Type := mkGpu {
  sys_host : H;
  sys_dev : GPGPU;
  sys_drv : gpu_device;
}.
Arguments mkGpu {H}.
Arguments sys_host {H}.
Arguments sys_dev {H}.
Arguments sys_drv {H}.

(** [PAGE_ALIGN] on 64 and on 32 bits. *)
Definition PAGE_ALIGN (size : Z) : Z := Z.ldiff (u64 (size + 4095)) 4095.
Definition PAGE_ALIGN32 (size : Z) : Z := Z.ldiff (u32 (size + 4095)) 4095.

Definition lower_32_bits (x : Z) : Z := u32 x.
Definition upper_32_bits (x : Z) : Z := u32 (Z.shiftr x 32).

Definition GPU_REG_MMU_ENABLE : Z := 0x500.
Definition GPU_REG_PT_BASE_LO : Z := 0x508.
Definition GPU_REG_PT_BASE_HI : Z := 0x50C.
Definition GPU_REG_CTX_ID : Z := 0x510.
Definition EDMA_DOORBELL_START : Z := 1.
Definition DMA_H2D : Z := 0.
Definition DMA_D2H : Z := 1.

Section driver.
Context {H : Type} `{!HostMemory H}.

Definition get_drv : M (gpu_sys H) gpu_device := λ s, Done (sys_drv s, s).
Definition put_drv (g : gpu_device) : M (gpu_sys H) unit := λ s, Done (tt, mkGpu (sys_host s) (sys_dev s) g).

Definition writel (val addr : Z) : M (gpu_sys H) unit := λ s,
  match gpgpu_write addr val (sys_dev s) (sys_host s) with
  | Done (d, h) => Done (tt, mkGpu h d (sys_drv s))
  | Panics why => Panics why
  end.

Definition readl (addr : Z) : M (gpu_sys H) Z := λ s, Done (gpgpu_read addr (sys_dev s), s).

(** The wait for the DMA, [timeout] turns of it. *)
Fixpoint poll (timeout : nat) : M (gpu_sys H) (kres unit) :=
  match timeout with
  | O => mret (KErr ETIMEDOUT)
  | S t =>
    st ← readl DMA_STATUS;
    if Z.testbit st 0 then mret (KOk tt)
    else match t with O => mret (KErr ETIMEDOUT) | S _ => poll t end
  end.

Definition gp_gpu_dma (srcaddr destaddr size direction : Z) : M (gpu_sys H) (kres unit) :=
  _ ← writel (lower_32_bits srcaddr) DMA_SRC_LO;
  _ ← writel (upper_32_bits srcaddr) DMA_SRC_HI;
  _ ← writel (lower_32_bits destaddr) DMA_DST_LO;
  _ ← writel (upper_32_bits destaddr) DMA_DST_HI;
  _ ← writel (u32 size) DMA_SIZE;
  _ ← writel direction DMA_CH0_CTRL;
  _ ← writel EDMA_DOORBELL_START DMA_DOORBELL;
  poll (Z.to_nat 1000000).

(** [gpu_initialize_memory_manager]; nothing ever sets [init_status]. *)
Definition gpu_initialize_memory_manager (base size : Z) : M (gpu_sys H) (kres unit) :=
  g ← get_drv;
  if decide (gd_init_status g = 0) then
    _ ← put_drv (mkDevice (gd_ctx g) base size base (gd_init_status g));
    mret (KOk tt)
  else mret (KErr 1).

(** The check for room and [addr = gdev.ddr_next]. *)
Definition ddr_claim (size : Z) : M (gpu_sys H) (option Z) :=
  g ← get_drv;
  if decide (u64 (gd_ddr_next g + size) > u64 (gd_ddr_base g + gd_ddr_size g)) then mret None
  else mret (Some (gd_ddr_next g)).

(** [gdev.ddr_next += size] *)
Definition ddr_advance (size : Z) : M (gpu_sys H) unit :=
  g ← get_drv;
  put_drv (mkDevice (gd_ctx g) (gd_ddr_base g) (gd_ddr_size g) (u64 (gd_ddr_next g + size)) (gd_init_status g)).

(** [0] when there is no room. *)
Definition gpu_ddr_alloc (size : Z) : M (gpu_sys H) Z :=
  let size := PAGE_ALIGN size in
  addr ← ddr_claim size;
  match addr with
  | None => mret 0
  | Some addr => _ ← ddr_advance size; mret addr
  end.

Definition put_ctx (i : nat) (c : gpu_context) : M (gpu_sys H) unit :=
  g ← get_drv; put_drv (set_ctx i c g).

Definition alloc_coherent (n : Z) : M (gpu_sys H) (option Z) := λ s,
  match dma_alloc_coherent n (sys_host s) with
  | Some (a, h) => Done (Some a, mkGpu h (sys_dev s) (sys_drv s))
  | None => Done (None, s)
  end.

Definition free_coherent (a : Z) : M (gpu_sys H) unit := λ s,
  Done (tt, mkGpu (dma_free_coherent a (sys_host s)) (sys_dev s) (sys_drv s)).

(** The slot is taken before the allocations, and stays taken when one
    fails. *)
Definition gpu_ctx_create : M (gpu_sys H) (kres Z) :=
  g ← get_drv;
  match list_find (λ c, cx_id c = 0) (gd_ctx g) with
  | None => mret (KErr ENOMEM)
  | Some (i, c) =>
    let id := Z.of_nat i + 1 in
    let n := gd_ddr_size g / PAGE_SIZE_4K in
    a ← alloc_coherent (8 * n);
    match a with
    | None => _ ← put_ctx i (mkContext id n 0 (cx_gpu_phys c) 0); mret (KErr ENOMEM)
    | Some ptr =>
      phys ← gpu_ddr_alloc (8 * n);
      _ ← put_ctx i (mkContext id n ptr phys 0);
      if decide (phys = 0) then _ ← free_coherent ptr; mret (KErr ENOMEM)
      else mret (KOk id)
    end
  end.

(** [pte = &ctx->pt.cpu_ptr[vpage]], read and written. *)
Definition pte_load (ptr vpage : Z) : M (gpu_sys H) Z := λ s,
  if live (sys_host s) (ptr + 8 * vpage) 8 then Done (load 8 (host_bytes (sys_host s)) (ptr + 8 * vpage), s)
  else Panics "invalid kernel memory access".

Definition pte_store (ptr vpage entry : Z) : M (gpu_sys H) unit := λ s,
  if live (sys_host s) (ptr + 8 * vpage) 8
  then Done (tt, mkGpu (host_store 8 (ptr + 8 * vpage) entry (sys_host s)) (sys_dev s) (sys_drv s))
  else Panics "invalid kernel memory access".

(** [((pa + i * PAGE_SIZE_4K) & ~0xFFFULL) | GPU_PTE_VALID] *)
Definition pte_entry (pa i : Z) : Z := Z.lor (Z.ldiff (u64 (pa + i * PAGE_SIZE_4K)) 0xFFF) 1.

Fixpoint map_pages (n : nat) (i ptr base pa : Z) : M (gpu_sys H) unit :=
  match n with
  | O => mret tt
  | S n' => _ ← pte_store ptr (base + i) (pte_entry pa i); map_pages n' (i + 1) ptr base pa
  end.

(** [&gdev.ctx[ctx_id - 1]], with [ctx_id] from user space. *)
Definition get_ctx (ctx_id : Z) : M (gpu_sys H) gpu_context := λ s,
  match (if decide (1 ≤ ctx_id ≤ MAX_CONTEXTS) then gd_ctx (sys_drv s) !! Z.to_nat (ctx_id - 1) else None) with
  | Some c => Done (c, s)
  | None => Panics "context index out of bounds"
  end.

(** [gpu_alloc] once it has the physical address. *)
Definition alloc_at (ctx_id size : Z) (c : gpu_context) (pa : Z) : M (gpu_sys H) (kres (Z * Z)) :=
  let pages := size / PAGE_SIZE_4K in
  let base_vpage := cx_vpage_next c in
  let va := Z.lor (Z.shiftl (cx_id c) 48) (Z.shiftl base_vpage 12) in
  if decide (pa = 0) then mret (KErr ENOMEM)
  else
    _ ← map_pages (Z.to_nat pages) 0 (cx_cpu_ptr c) base_vpage pa;
    _ ← put_ctx (Z.to_nat (ctx_id - 1)) (mkContext (cx_id c) (cx_num_entries c) (cx_cpu_ptr c)
          (cx_gpu_phys c) (u64 (base_vpage + pages)));
    _ ← gp_gpu_dma (cx_cpu_ptr c) (cx_gpu_phys c) (8 * cx_num_entries c) DMA_H2D;
    mret (KOk (va, pa)).

Definition gpu_alloc (ctx_id req_size : Z) : M (gpu_sys H) (kres (Z * Z)) :=
  c ← get_ctx ctx_id;
  let size := PAGE_ALIGN req_size in
  pa ← gpu_ddr_alloc size;
  alloc_at ctx_id size c pa.

Definition gpu_va_to_ctx (va : Z) : Z := Z.land (Z.shiftr va 48) 0xFFFF.
Definition gpu_va_to_vpage (va : Z) : Z := Z.land (Z.shiftr va 12) 0xFFFFFFFFF.

(** The loop of [gpu_free]: it stops at the first page that is not mapped,
    and leaves the pages before it unmapped. *)
Fixpoint unmap_pages (n : nat) (vpage : Z) (c : gpu_context) : M (gpu_sys H) (kres unit) :=
  match n with
  | O => mret (KOk tt)
  | S n' =>
    if decide (cx_num_entries c ≤ vpage) then mret (KErr EINVAL)
    else
      e ← pte_load (cx_cpu_ptr c) vpage;
      if Z.testbit e 0 then
        _ ← pte_store (cx_cpu_ptr c) vpage 0;
        unmap_pages n' (vpage + 1) c
      else mret (KErr EINVAL)
  end.

Definition gpu_free (va size : Z) : M (gpu_sys H) (kres unit) :=
  let ctx_id := gpu_va_to_ctx va in
  if decide (ctx_id = 0 ∨ ctx_id > MAX_CONTEXTS) then mret (KErr EINVAL)
  else
    c ← get_ctx ctx_id;
    unmap_pages (Z.to_nat (PAGE_ALIGN32 size / 4096)) (gpu_va_to_vpage va) c.

Definition gpu_program_context (c : gpu_context) : M (gpu_sys H) unit :=
  _ ← writel (lower_32_bits (cx_gpu_phys c)) GPU_REG_PT_BASE_LO;
  _ ← writel (upper_32_bits (cx_gpu_phys c)) GPU_REG_PT_BASE_HI;
  _ ← writel (cx_id c) GPU_REG_CTX_ID;
  writel 1 GPU_REG_MMU_ENABLE.

Definition gpu_bind_context (ctx_id : Z) : M (gpu_sys H) (kres unit) :=
  if decide (ctx_id = 0 ∨ ctx_id > MAX_CONTEXTS) then mret (KErr EINVAL)
  else c ← get_ctx ctx_id; _ ← gpu_program_context c; mret (KOk tt).

End driver.
