(* ===== verification/GpuMemory.v ===== *)
(** * The GPGPU's memory management is safe

    The invariant of the driver's memory manager over the simulated device
    (page tables within bounds, in live memory and apart from each other, no
    physical page mapped twice), that its functions keep it and never touch
    memory they do not own, and that the device translates an address the
    driver handed out to the memory the driver allocated for it.  This is
    about requests that are served one after another, which the driver's
    locks do not ensure: two allocations that overlap break the invariant
    ([overlapping_allocs_share_memory]). *)
From stdpp Require Import options.
From S2P Require Import Prelude Types Effects Memory GpuDevice GpuDriver.
Open Scope Z_scope.
Set Default Proof Using "Type*".

(** ** Arithmetic *)

Lemma ldiff_page x : Z.ldiff x 4095 = x / 4096 * 4096.
Proof.
  change 4095 with (Z.ones 12). rewrite Z.ldiff_ones_r, Z.shiftl_mul_pow2, Z.shiftr_div_pow2 by lia. done.
Qed.

Lemma PAGE_ALIGN_spec size :
  0 ≤ size < 2 ^ 63 →
  PAGE_ALIGN size mod 4096 = 0 ∧ size ≤ PAGE_ALIGN size < size + 4096.
Proof.
  intros Hs. unfold PAGE_ALIGN. rewrite ldiff_page, u64_id by lia. rewrite Z.mod_mul by lia.
  pose proof (Z.div_mod (size + 4095) 4096). pose proof (Z.mod_pos_bound (size + 4095) 4096). lia.
Qed.

Lemma PAGE_ALIGN_id size : 0 ≤ size < 2 ^ 63 → size mod 4096 = 0 → PAGE_ALIGN size = size.
Proof.
  intros Hs Hm. destruct (PAGE_ALIGN_spec size Hs) as [H1 H2].
  pose proof (Z.div_mod size 4096). pose proof (Z.div_mod (PAGE_ALIGN size) 4096).
  assert (PAGE_ALIGN size / 4096 = size / 4096) by lia. lia.
Qed.

(** A 64-bit number from its halves. *)
Lemma halves x : 0 ≤ x < 2 ^ 64 → Z.lor (lower_32_bits x) (Z.shiftl (upper_32_bits x) 32) = x.
Proof.
  intros Hx. unfold lower_32_bits, upper_32_bits, u32.
  rewrite Z.shiftr_div_pow2 by lia. rewrite (Z.mod_small (x / 2 ^ 32)) by
    (split; [by apply Z.div_pos; lia|by apply Z.div_lt_upper_bound; lia]).
  apply Z.bits_inj'. intros n Hn. rewrite Z.lor_spec, Z.shiftl_spec by lia.
  destruct (decide (n < 32)).
  - rewrite Z.mod_pow2_bits_low, (Z.testbit_neg_r _ (n - 32)), orb_false_r by lia. done.
  - rewrite Z.mod_pow2_bits_high, <- Z.shiftr_div_pow2, Z.shiftr_spec by lia. simpl. f_equal. lia.
Qed.

(** Bits that do not overlap. *)
Lemma lor_high a b n : 0 ≤ n → 0 ≤ b < 2 ^ n → Z.lor (a * 2 ^ n) b = a * 2 ^ n + b.
Proof.
  intros Hn Hb. assert (Hz : Z.land (a * 2 ^ n) b = 0).
  { apply Z.bits_inj'. intros i Hi. rewrite Z.land_spec, Z.bits_0. destruct (decide (i < n)).
    - by rewrite Z.mul_pow2_bits_low by lia.
    - rewrite <- (Z.mod_small b (2 ^ n)), Z.mod_pow2_bits_high by lia. apply andb_false_r. }
  by rewrite <- Z.lxor_lor, Z.add_nocarry_lxor.
Qed.

Lemma u32_idem x : u32 (u32 x) = u32 x.
Proof. apply u32_id, u32_range. Qed.

(** ** Registers and DMA *)

Lemma reg_set_reg a b v d :
  reg a (set_reg b v d) = if decide (Z.shiftr a 2 = Z.shiftr b 2) then u32 v else reg a d.
Proof. done. Qed.

Section dma.
Context {H : Type} `{!HostMemory H}.
Implicit Types (s : gpu_sys H).

Definition with_dev (d : GPGPU) s : gpu_sys H := mkGpu (sys_host s) d (sys_drv s).

Lemma writel_plain v a s :
  a ≠ DMA_DOORBELL → a ≠ KERNEL_SM_CTRL → a ≠ REG_SM_START →
  writel v a s = Done (tt, with_dev (set_reg a v (sys_dev s)) s).
Proof.
  intros H1 H2 H3. unfold writel, gpgpu_write. rewrite decide_False by done.
  rewrite decide_False by tauto. done.
Qed.

(** The registers the DMA engine does not use keep their values. *)
Definition keeps_registers (d d' : GPGPU) : Prop :=
  reg REG_MMU_PT d' = reg REG_MMU_PT d ∧ g_msix_enabled d' = g_msix_enabled d ∧ g_irqs d' = g_irqs d.

Lemma dma_h2d src off size s :
  0 ≤ src < 2 ^ 64 → 0 ≤ off → 0 ≤ size → off + size ≤ device_size →
  ∃ d', gp_gpu_dma src (ddr_base + off) size DMA_H2D s = Done (KOk tt, with_dev d' s) ∧
    g_mem d' = copy (g_mem (sys_dev s)) off (host_bytes (sys_host s)) src size ∧
    keeps_registers (sys_dev s) d'.
Proof.
  intros Hs Ho Hz Hle. unfold device_size in Hle. unfold gp_gpu_dma.
  do 6 (erewrite M_bind_done by (by apply writel_plain)).
  set (s6 := with_dev _ (with_dev _ (with_dev _ (with_dev _ (with_dev _ (with_dev _ s)))))).
  set (d7 := set_reg DMA_STATUS 0 (set_reg DMA_DOORBELL EDMA_DOORBELL_START (sys_dev s6))).
  assert (Ht : dma_transfer d7 (sys_host s) =
    Done (set_mem (copy (g_mem (sys_dev s)) off (host_bytes (sys_host s)) src size) d7, sys_host s)).
  { unfold dma_transfer.
    change (reg DMA_SRC_LO d7) with (u32 (lower_32_bits src)). change (reg DMA_SRC_HI d7) with (u32 (upper_32_bits src)).
    change (reg DMA_DST_LO d7) with (u32 (lower_32_bits (ddr_base + off))).
    change (reg DMA_DST_HI d7) with (u32 (upper_32_bits (ddr_base + off))).
    change (reg DMA_SIZE d7) with (u32 (u32 size)). change (reg DMA_CH0_CTRL d7) with (u32 DMA_H2D).
    unfold lower_32_bits, upper_32_bits. rewrite !u32_idem. fold (lower_32_bits src) (upper_32_bits src).
    fold (lower_32_bits (ddr_base + off)) (upper_32_bits (ddr_base + off)).
    rewrite !halves by (unfold ddr_base; lia). rewrite decide_True by done.
    replace (ddr_base + off - ddr_base) with off by lia. rewrite !u32_id by lia.
    unfold in_device. by rewrite bool_decide_eq_true_2 by (unfold device_size; lia). }
  erewrite M_bind_done.
  2: { unfold writel, gpgpu_write. rewrite decide_True by done. fold d7. change (sys_host s6) with (sys_host s).
       rewrite Ht. reflexivity. }
  destruct (Z.to_nat 1000000) as [|t] eqn:Et; [lia|]. cbn [poll].
  unfold mbind, M_bind, readl. eexists (set_reg _ _ (set_mem _ _)). split; [reflexivity|].
  split; [reflexivity|by repeat split].
Qed.

End dma.

(** ** The invariant *)

Definition pt_entries : Z := 32768.
Definition pt_bytes : Z := 262144.

Section invariant.
Context {H : Type} `{!HostMemory H}.
Implicit Types (s : gpu_sys H) (h : H) (c : gpu_context).

(** The entry of a virtual page in the table of a context. *)
Definition pte h c (v : Z) : Z := load 8 (host_bytes h) (cx_cpu_ptr c + 8 * v).

(** The virtual page is mapped to the physical one. *)
Definition maps h c (v page : Z) : Prop := pte h c v = page + 1 ∧ page mod 4096 = 0.

(** A context whose creation succeeded. *)
Definition is_ready c : Prop := cx_gpu_phys c ≠ 0.

Record ctx_ok h (next : Z) c : Prop := mkCtxOk {
  co_entries : cx_num_entries c = pt_entries;
  co_live : live h (cx_cpu_ptr c) pt_bytes = true;
  co_ptr : 0 < cx_cpu_ptr c ∧ cx_cpu_ptr c + pt_bytes ≤ 2 ^ 64;
  co_phys : ddr_base ≤ cx_gpu_phys c ∧ cx_gpu_phys c + pt_bytes ≤ next;
  co_next : 0 ≤ cx_vpage_next c ∧ cx_vpage_next c * 4096 + pt_bytes ≤ next - ddr_base;
  co_pages : ∀ v, 0 ≤ v < pt_entries →
    pte h c v = 0 ∨ v < cx_vpage_next c ∧ ∃ page, maps h c v page ∧ ddr_base ≤ page ∧ page + 4096 ≤ next;
}.

Definition apart (a b n : Z) : Prop := a + n ≤ b ∨ b + n ≤ a.

Record mm_inv s : Prop := mkMmInv {
  mi_base : gd_ddr_base (sys_drv s) = ddr_base;
  mi_size : gd_ddr_size (sys_drv s) = device_size;
  mi_next : ddr_base ≤ gd_ddr_next (sys_drv s) ≤ ddr_base + device_size;
  mi_align : gd_ddr_next (sys_drv s) mod 4096 = 0;
  mi_len : length (gd_ctx (sys_drv s)) = 16%nat;
  mi_ids : ∀ i c, gd_ctx (sys_drv s) !! i = Some c →
    cx_id c = 0 ∧ cx_gpu_phys c = 0 ∨ cx_id c = Z.of_nat i + 1;
  mi_ok : ∀ i c, gd_ctx (sys_drv s) !! i = Some c → is_ready c →
    ctx_ok (sys_host s) (gd_ddr_next (sys_drv s)) c;
  mi_apart : ∀ i j c c', gd_ctx (sys_drv s) !! i = Some c → gd_ctx (sys_drv s) !! j = Some c' →
    is_ready c → is_ready c' → i ≠ j →
    apart (cx_cpu_ptr c) (cx_cpu_ptr c') pt_bytes ∧ apart (cx_gpu_phys c) (cx_gpu_phys c') pt_bytes;
  mi_inj : ∀ i j c c' v w page, gd_ctx (sys_drv s) !! i = Some c → gd_ctx (sys_drv s) !! j = Some c' →
    is_ready c → is_ready c' → 0 ≤ v < pt_entries → 0 ≤ w < pt_entries →
    maps (sys_host s) c v page → maps (sys_host s) c' w page → i = j ∧ v = w;
  mi_tables : ∀ i j c c' v page, gd_ctx (sys_drv s) !! i = Some c → gd_ctx (sys_drv s) !! j = Some c' →
    is_ready c → is_ready c' → 0 ≤ v < pt_entries → maps (sys_host s) c v page →
    page + 4096 ≤ cx_gpu_phys c' ∨ cx_gpu_phys c' + pt_bytes ≤ page;
}.

End invariant.

(** ** Stores to page tables *)

Section stores.
Context {H : Type} `{!HostMemory H, !HostMemoryLaws H}.
Implicit Types (s : gpu_sys H) (h : H) (c : gpu_context).

Definition with_host h s : gpu_sys H := mkGpu h (sys_dev s) (sys_drv s).

Lemma host_store_byte n a v h x :
  host_bytes (host_store n a v h) x = if decide (a ≤ x < a + n) then byte_at v (x - a) else host_bytes h x.
Proof.
  unfold host_store. rewrite host_write_bytes. unfold copy. case_decide; [|done]. by rewrite Z.add_0_r.
Qed.

Lemma host_store_load a v h : 0 ≤ v < 2 ^ 64 → load 8 (host_bytes (host_store 8 a v h)) a = v.
Proof.
  intros Hv. apply load_byte_at; [exact Hv|].
  intros i Hi. rewrite host_store_byte, decide_True by lia. f_equal. lia.
Qed.

Lemma lor_one page : page mod 4096 = 0 → Z.lor page 1 = page + 1.
Proof.
  intros Hm. assert (E : page = 2 * (page / 4096 * 2048)) by (pose proof (Z.div_mod page 4096); lia).
  rewrite E. generalize (page / 4096 * 2048). intros k. apply Z.bits_inj'. intros n Hn. rewrite Z.lor_spec.
  destruct (decide (n = 0)) as [->|Hne].
  - by rewrite orb_true_r, Z.testbit_odd_0.
  - replace n with (Z.succ (n - 1)) by lia. rewrite Z.testbit_odd_succ, Z.testbit_even_succ by lia.
    rewrite (Z.testbit_odd_succ 0) by lia. by rewrite Z.bits_0, orb_false_r.
Qed.

Lemma pte_entry_eq pa i :
  pa mod 4096 = 0 → 0 ≤ pa + i * 4096 < 2 ^ 64 → pte_entry pa i = pa + i * 4096 + 1.
Proof.
  intros Hm Hr. unfold pte_entry, PAGE_SIZE_4K. rewrite u64_id by done. change 0xFFF with 4095.
  rewrite ldiff_page. assert (Hd : (pa + i * 4096) / 4096 * 4096 = pa + i * 4096).
  { rewrite Z.div_add by lia. pose proof (Z.div_mod pa 4096). lia. }
  rewrite Hd. apply lor_one. by rewrite Z.mod_add by lia.
Qed.

(** The entries the loop of [gpu_alloc] writes; everything else is as it was. *)
Lemma map_pages_spec n i ptr base pa s :
  live (sys_host s) ptr pt_bytes = true → 0 ≤ i → 0 ≤ base → base + i + Z.of_nat n ≤ pt_entries →
  pa mod 4096 = 0 → 0 ≤ pa → pa + (i + Z.of_nat n) * 4096 < 2 ^ 64 →
  ∃ h', map_pages n i ptr base pa s = Done (tt, with_host h' s) ∧
    (∀ a k, live h' a k = live (sys_host s) a k) ∧
    (∀ v, base + i ≤ v < base + i + Z.of_nat n →
       load 8 (host_bytes h') (ptr + 8 * v) = pa + (v - base) * 4096 + 1) ∧
    (∀ x, ¬ (ptr + 8 * (base + i) ≤ x < ptr + 8 * (base + i + Z.of_nat n)) →
       host_bytes h' x = host_bytes (sys_host s) x).
Proof.
  revert i s. induction n as [|n IH]; intros i s Hl Hi Hb Hle Hal Hpa Hmax.
  { exists (sys_host s). split; [by destruct s|]. split_and!; [done|intros v Hv; lia|done]. }
  assert (Hone : live (sys_host s) (ptr + 8 * (base + i)) 8 = true).
  { apply (live_sub _ ptr pt_bytes); unfold pt_bytes, pt_entries in *; (done || lia). }
  assert (He : pte_entry pa i = pa + i * 4096 + 1) by (apply pte_entry_eq; [done|lia]).
  cbn [map_pages]. set (h1 := host_store 8 (ptr + 8 * (base + i)) (pte_entry pa i) (sys_host s)).
  rewrite (M_bind_done _ _ _ tt (with_host h1 s)) by (unfold pte_store; by rewrite Hone).
  destruct (IH (i + 1) (with_host h1 s)) as (h' & E & Hlive & Hin & Hout); simpl; try lia.
  { unfold h1, host_store. by rewrite host_write_live. }
  exists h'. split; [done|]. split_and!.
  - intros a k. rewrite Hlive. simpl. unfold h1, host_store. by rewrite host_write_live.
  - intros v Hv. destruct (decide (v = base + i)) as [->|Hne].
    + rewrite (load_ext _ _ (host_bytes h1) _ (ptr + 8 * (base + i))).
      * unfold h1. rewrite host_store_load by lia. lia.
      * intros j Hj. apply Hout. lia.
    + apply Hin. lia.
  - intros x Hx. rewrite Hout by lia. simpl. unfold h1. rewrite host_store_byte, decide_False by lia. done.
Qed.

End stores.

(** ** The bump allocator of device memory *)

Section allocation.
Context {H : Type} `{!HostMemory H, !HostMemoryLaws H}.
Implicit Types (s : gpu_sys H) (h : H) (c : gpu_context).

Definition set_next (n : Z) (g : gpu_device) : gpu_device :=
  mkDevice (gd_ctx g) (gd_ddr_base g) (gd_ddr_size g) n (gd_init_status g).

Definition with_drv (g : gpu_device) s : gpu_sys H := mkGpu (sys_host s) (sys_dev s) g.

Lemma ddr_alloc_spec size s :
  mm_inv s → 0 ≤ size < 2 ^ 33 →
  gpu_ddr_alloc size s =
    if decide (gd_ddr_next (sys_drv s) + PAGE_ALIGN size ≤ ddr_base + device_size)
    then Done (gd_ddr_next (sys_drv s),
               with_drv (set_next (gd_ddr_next (sys_drv s) + PAGE_ALIGN size) (sys_drv s)) s)
    else Done (0, s).
Proof.
  intros Hinv Hs. destruct (PAGE_ALIGN_spec size ltac:(lia)) as [_ Hal]. pose proof (mi_next _ Hinv) as Hn.
  assert (Hnew : u64 (gd_ddr_next (sys_drv s) + PAGE_ALIGN size) = gd_ddr_next (sys_drv s) + PAGE_ALIGN size)
    by (unfold ddr_base, device_size in *; apply u64_id; lia).
  unfold gpu_ddr_alloc, ddr_claim, ddr_advance, mbind, M_bind, get_drv.
  rewrite (mi_base _ Hinv), (mi_size _ Hinv), Hnew, (u64_id (ddr_base + device_size)) by done.
  case_decide; case_decide; try lia; [done|]. unfold mret, M_ret, put_drv, set_next, with_drv.
  by rewrite (mi_base _ Hinv), (mi_size _ Hinv), Hnew.
Qed.

(** What [gpu_alloc] does when there is room: the new entries in the table of
    the context, in host memory, and the whole table in the device. *)
Record allocated (cid size : Z) c s s' (va pa : Z) : Prop := mkAllocated {
  al_va : va = Z.lor (Z.shiftl (cx_id c) 48) (Z.shiftl (cx_vpage_next c) 12);
  al_pa : pa = gd_ddr_next (sys_drv s);
  al_drv : sys_drv s' = set_ctx (Z.to_nat (cid - 1))
    (mkContext (cx_id c) (cx_num_entries c) (cx_cpu_ptr c) (cx_gpu_phys c) (cx_vpage_next c + size / 4096))
    (set_next (pa + size) (sys_drv s));
  al_live : ∀ a k, live (sys_host s') a k = live (sys_host s) a k;
  al_new : ∀ v, cx_vpage_next c ≤ v < cx_vpage_next c + size / 4096 →
    pte (sys_host s') c v = pa + (v - cx_vpage_next c) * 4096 + 1;
  al_old : ∀ x, ¬ (cx_cpu_ptr c + 8 * cx_vpage_next c ≤ x < cx_cpu_ptr c + 8 * (cx_vpage_next c + size / 4096)) →
    host_bytes (sys_host s') x = host_bytes (sys_host s) x;
  al_mem : g_mem (sys_dev s') = copy (g_mem (sys_dev s)) (cx_gpu_phys c - ddr_base)
    (host_bytes (sys_host s')) (cx_cpu_ptr c) pt_bytes;
  al_regs : keeps_registers (sys_dev s) (sys_dev s');
}.

Lemma gpu_alloc_spec cid req c s :
  mm_inv s → 1 ≤ cid ≤ 16 → gd_ctx (sys_drv s) !! Z.to_nat (cid - 1) = Some c → is_ready c →
  0 ≤ req < 2 ^ 32 →
  if decide (gd_ddr_next (sys_drv s) + PAGE_ALIGN req ≤ ddr_base + device_size)
  then ∃ va pa s', gpu_alloc cid req s = Done (KOk (va, pa), s') ∧ allocated cid (PAGE_ALIGN req) c s s' va pa
  else gpu_alloc cid req s = Done (KErr ENOMEM, s).
Proof.
  intros Hinv Hcid Hc Hr Hreq. pose proof (mi_ok _ Hinv _ _ Hc Hr) as Hok.
  destruct (PAGE_ALIGN_spec req ltac:(lia)) as [Hmod Hal]. pose proof (mi_next _ Hinv) as Hn.
  assert (Hget : get_ctx cid s = Done (c, s)).
  { unfold get_ctx. rewrite decide_True by done. by rewrite Hc. }
  assert (Hidem : PAGE_ALIGN (PAGE_ALIGN req) = PAGE_ALIGN req) by (apply PAGE_ALIGN_id; [lia|done]).
  pose proof (ddr_alloc_spec (PAGE_ALIGN req) s Hinv ltac:(lia)) as Hd. rewrite Hidem in Hd.
  unfold gpu_alloc. rewrite (M_bind_done _ _ _ _ _ Hget). case_decide as Hroom.
  2: { rewrite (M_bind_done _ _ _ _ _ Hd). unfold alloc_at. by rewrite decide_True. }
  rewrite (M_bind_done _ _ _ _ _ Hd). clear Hd. unfold alloc_at. unfold ddr_base in *. rewrite decide_False by lia.
  set (A := PAGE_ALIGN req) in *. set (s1 := with_drv _ s).
  destruct Hok as [Hent Hlive Hptr Hphys Hvn _]. unfold ddr_base, device_size, pt_bytes, pt_entries in *.
  pose proof (Z.div_mod A 4096 ltac:(lia)) as Hdiv.
  destruct (map_pages_spec (Z.to_nat (A / PAGE_SIZE_4K)) 0 (cx_cpu_ptr c) (cx_vpage_next c)
    (gd_ddr_next (sys_drv s)) s1) as (h2 & E2 & Hl2 & Hin2 & Hout2);
    unfold PAGE_SIZE_4K, pt_entries, pt_bytes in *; try lia; [done|apply Hinv|].
  rewrite (M_bind_done _ _ _ _ _ E2).
  rewrite Z2Nat.id in Hin2, Hout2 by lia.
  set (c' := mkContext _ _ _ _ _).
  rewrite (M_bind_done _ _ _ tt (with_drv (set_ctx (Z.to_nat (cid - 1)) c' (sys_drv s1)) (with_host h2 s1))) by done.
  set (s3 := with_drv _ (with_host h2 s1)).
  destruct (dma_h2d (cx_cpu_ptr c) (cx_gpu_phys c - 0x80000000) (8 * cx_num_entries c) s3)
    as (d' & E3 & Hm & Hk); unfold device_size; try lia.
  replace (ddr_base + (cx_gpu_phys c - 0x80000000)) with (cx_gpu_phys c) in E3 by (unfold ddr_base; lia).
  rewrite (M_bind_done _ _ _ _ _ E3). eexists _, _, _. split; [reflexivity|].
  rewrite Z.add_0_r in Hin2, Hout2. rewrite Hent in Hm.
  split; try done; simpl.
  unfold c', set_ctx, set_next. simpl. do 3 f_equal. f_equal. apply u64_id. lia.
Qed.

(** *** The invariant is kept *)

(** An entry of a table, seen from another table or from a page that was not
    written. *)
Lemma pte_same h h' c v :
  (∀ i, 0 ≤ i < 8 → host_bytes h' (cx_cpu_ptr c + 8 * v + i) = host_bytes h (cx_cpu_ptr c + 8 * v + i)) →
  pte h' c v = pte h c v.
Proof. intros Hb. apply load_ext. intros i Hi. apply Hb. lia. Qed.

(** The entries after an allocation: those of the new pages, and the others
    as they were. *)
Lemma allocated_pte cid size c s s' va pa j c' v :
  mm_inv s → 1 ≤ cid ≤ 16 → gd_ctx (sys_drv s) !! Z.to_nat (cid - 1) = Some c → is_ready c →
  0 ≤ size → size mod 4096 = 0 → gd_ddr_next (sys_drv s) + size ≤ ddr_base + device_size →
  allocated cid size c s s' va pa →
  gd_ctx (sys_drv s) !! j = Some c' → is_ready c' → 0 ≤ v < pt_entries →
  if decide (j = Z.to_nat (cid - 1) ∧ cx_vpage_next c ≤ v < cx_vpage_next c + size / 4096)
  then pte (sys_host s') c' v = pa + (v - cx_vpage_next c) * 4096 + 1
  else pte (sys_host s') c' v = pte (sys_host s) c' v.
Proof.
  intros Hinv Hcid Hc Hr Hs Hm Hroom [] Hj Hr' Hv. pose proof (mi_ok _ Hinv _ _ Hc Hr) as Hok.
  pose proof (co_next _ _ _ Hok) as Hn. pose proof (Z.div_mod size 4096 ltac:(lia)) as Hd.
  case_decide as Hd'.
  - destruct Hd' as [-> Hv']. rewrite Hc in Hj. injection Hj as <-. by apply al_new0.
  - apply pte_same. intros i Hi. apply al_old0. destruct (decide (j = Z.to_nat (cid - 1))) as [->|Hne].
    + rewrite Hc in Hj. injection Hj as <-. lia.
    + destruct (mi_apart _ Hinv _ _ _ _ Hj Hc Hr' Hr Hne) as [Ha _].
      unfold apart, pt_bytes, pt_entries, ddr_base, device_size in *. lia.
Qed.

(** The context at an index after an allocation. *)
Lemma allocated_ctx cid size c s s' va pa j c' :
  1 ≤ cid ≤ 16 → gd_ctx (sys_drv s) !! Z.to_nat (cid - 1) = Some c →
  allocated cid size c s s' va pa → gd_ctx (sys_drv s') !! j = Some c' →
  ∃ c0, gd_ctx (sys_drv s) !! j = Some c0 ∧ cx_id c' = cx_id c0 ∧ cx_num_entries c' = cx_num_entries c0 ∧
    cx_cpu_ptr c' = cx_cpu_ptr c0 ∧ cx_gpu_phys c' = cx_gpu_phys c0 ∧
    cx_vpage_next c' = if decide (j = Z.to_nat (cid - 1)) then cx_vpage_next c + size / 4096 else cx_vpage_next c0.
Proof.
  intros Hcid Hc Ha Hj. rewrite (al_drv _ _ _ _ _ _ _ Ha) in Hj. simpl in Hj.
  destruct (decide (j = Z.to_nat (cid - 1))) as [->|Hne].
  - rewrite list_lookup_insert_eq in Hj by (by eapply lookup_lt_Some). injection Hj as <-. by exists c.
  - rewrite list_lookup_insert_ne in Hj by done. by exists c'.
Qed.
Lemma maps_bound s j c v page :
  mm_inv s → gd_ctx (sys_drv s) !! j = Some c → is_ready c → 0 ≤ v < pt_entries →
  maps (sys_host s) c v page →
  ddr_base ≤ page ∧ page + 4096 ≤ gd_ddr_next (sys_drv s) ∧ v < cx_vpage_next c.
Proof.
  intros Hinv Hj Hr Hv [Hp Hm]. destruct (co_pages _ _ _ (mi_ok _ Hinv _ _ Hj Hr) v Hv)
    as [H0|(Hlt & page' & [Hp' _] & Hb & Hn)].
  - assert (page = -1) by lia. subst. discriminate.
  - assert (page = page') as -> by lia. done.
Qed.

(** Where a mapping after an allocation comes from. *)
Lemma allocated_maps cid size c s s' va pa j c' v page :
  mm_inv s → 1 ≤ cid ≤ 16 → gd_ctx (sys_drv s) !! Z.to_nat (cid - 1) = Some c → is_ready c →
  0 ≤ size → size mod 4096 = 0 → gd_ddr_next (sys_drv s) + size ≤ ddr_base + device_size →
  allocated cid size c s s' va pa →
  gd_ctx (sys_drv s') !! j = Some c' → is_ready c' → 0 ≤ v < pt_entries → maps (sys_host s') c' v page →
  ∃ c0, gd_ctx (sys_drv s) !! j = Some c0 ∧ is_ready c0 ∧ cx_gpu_phys c' = cx_gpu_phys c0 ∧
    (maps (sys_host s) c0 v page ∨
     j = Z.to_nat (cid - 1) ∧ cx_vpage_next c ≤ v < cx_vpage_next c + size / 4096 ∧
     page = pa + (v - cx_vpage_next c) * 4096).
Proof.
  intros Hinv Hcid Hc Hr Hs Hm Hroom Ha Hj Hr' Hv [Hp Hpm].
  destruct (allocated_ctx _ _ _ _ _ _ _ _ _ Hcid Hc Ha Hj) as (c0 & Hj0 & _ & _ & Hptr & Hphys & _).
  assert (Hr0 : is_ready c0) by (unfold is_ready in *; by rewrite <- Hphys).
  exists c0. split_and!; [done..|].
  pose proof (allocated_pte _ _ _ _ _ _ _ _ _ v Hinv Hcid Hc Hr Hs Hm Hroom Ha Hj0 Hr0 Hv) as He.
  assert (Hpte : pte (sys_host s') c' v = pte (sys_host s') c0 v) by (unfold pte; by rewrite Hptr).
  rewrite Hpte in Hp. case_decide as Hd; rewrite He in Hp.
  - right. split_and!; [tauto..|lia].
  - left. split; [done|exact Hpm].
Qed.

(** A table after an allocation, in this context or in another one. *)
Lemma alloc_ctx_ok cid size c s s' va pa j c' :
  mm_inv s → 1 ≤ cid ≤ 16 → gd_ctx (sys_drv s) !! Z.to_nat (cid - 1) = Some c → is_ready c →
  0 ≤ size → size mod 4096 = 0 → gd_ddr_next (sys_drv s) + size ≤ ddr_base + device_size →
  allocated cid size c s s' va pa →
  gd_ctx (sys_drv s') !! j = Some c' → is_ready c' →
  ctx_ok (sys_host s') (gd_ddr_next (sys_drv s) + size) c'.
Proof.
  intros Hinv Hcid Hc Hr Hs Hm Hroom Ha Hj Hr'.
  pose proof (Z.div_mod size 4096 ltac:(lia)) as Hdiv. pose proof (al_pa _ _ _ _ _ _ _ Ha) as Hpa.
  pose proof (mi_next _ Hinv) as Hn. pose proof (co_next _ _ _ (mi_ok _ Hinv _ _ Hc Hr)) as Hvn.
  destruct (allocated_ctx _ _ _ _ _ _ _ _ _ Hcid Hc Ha Hj)
    as (c0 & Hj0 & _ & Hen & Hptr & Hphys & Hvp).
  assert (Hr0 : is_ready c0) by (unfold is_ready in *; by rewrite <- Hphys).
  destruct (mi_ok _ Hinv _ _ Hj0 Hr0) as [O1 O2 O3 O4 O5 O6].
  assert (Hvp' : cx_vpage_next c0 ≤ cx_vpage_next c').
  { rewrite Hvp. case_decide; [|lia]. subst. assert (c0 = c) as -> by congruence. lia. }
  split; rewrite ?Hen, ?Hptr, ?Hphys, ?(al_live _ _ _ _ _ _ _ Ha); try done; try lia.
  - rewrite Hvp. case_decide; [|lia]. subst. assert (c0 = c) as -> by congruence. lia.
  - intros v Hv. pose proof (allocated_pte _ _ _ _ _ _ _ _ _ v Hinv Hcid Hc Hr Hs Hm Hroom Ha Hj0 Hr0 Hv) as He.
    assert (Hpte : pte (sys_host s') c' v = pte (sys_host s') c0 v) by (unfold pte; by rewrite Hptr).
    unfold maps. rewrite Hpte. case_decide as Hd; rewrite He.
    * right. destruct Hd as [-> Hd]. rewrite Hvp, decide_True by done. split; [lia|].
      exists (pa + (v - cx_vpage_next c) * 4096). split_and!; [done| |lia..].
      rewrite Z.mod_add by lia. rewrite Hpa. apply Hinv.
    * destruct (O6 v Hv) as [H0|(Hlt & page & Hpg & Hb1 & Hb2)]; [by left|right].
      split; [lia|]. exists page. split; [exact Hpg|]. lia.
Qed.

Lemma alloc_inv cid size c s s' va pa :
  mm_inv s → 1 ≤ cid ≤ 16 → gd_ctx (sys_drv s) !! Z.to_nat (cid - 1) = Some c → is_ready c →
  0 ≤ size → size mod 4096 = 0 → gd_ddr_next (sys_drv s) + size ≤ ddr_base + device_size →
  allocated cid size c s s' va pa → mm_inv s'.
Proof.
  intros Hinv Hcid Hc Hr Hs Hm Hroom Ha.
  pose proof (Z.div_mod size 4096 ltac:(lia)) as Hdiv.
  pose proof (al_drv _ _ _ _ _ _ _ Ha) as Hdrv. pose proof (al_pa _ _ _ _ _ _ _ Ha) as Hpa.
  assert (Hnext : gd_ddr_next (sys_drv s') = gd_ddr_next (sys_drv s) + size) by (rewrite Hdrv; simpl; lia).
  pose proof (λ j c' v page Hj Hr' Hv, allocated_maps _ _ _ _ _ _ _ j c' v page Hinv Hcid Hc Hr Hs Hm Hroom Ha Hj Hr' Hv)
    as Hmaps.
  pose proof (mi_next _ Hinv) as Hn. pose proof (co_next _ _ _ (mi_ok _ Hinv _ _ Hc Hr)) as Hvn.
  split.
  - rewrite Hdrv. apply Hinv.
  - rewrite Hdrv. apply Hinv.
  - lia.
  - rewrite Hnext, Z.add_mod, (mi_align _ Hinv), Hm by lia. done.
  - rewrite Hdrv. simpl. rewrite length_insert. apply Hinv.
  - intros j c' Hj. destruct (allocated_ctx _ _ _ _ _ _ _ _ _ Hcid Hc Ha Hj) as (c0 & Hj0 & -> & _ & _ & -> & _).
    by apply (mi_ids _ Hinv).
  - intros j c' Hj Hr'. rewrite Hnext. by eapply alloc_ctx_ok.
  - intros i j c1 c2 H1 H2 R1 R2 Hne.
    destruct (allocated_ctx _ _ _ _ _ _ _ _ _ Hcid Hc Ha H1) as (c10 & H10 & _ & _ & -> & P1 & _).
    destruct (allocated_ctx _ _ _ _ _ _ _ _ _ Hcid Hc Ha H2) as (c20 & H20 & _ & _ & -> & P2 & _).
    unfold is_ready in *. rewrite P1, P2 in *. by eapply (mi_apart _ Hinv).
  - intros i j c1 c2 v w page H1 H2 R1 R2 Hv Hw M1 M2.
    destruct (Hmaps _ _ _ _ H1 R1 Hv M1) as (c10 & H10 & R10 & _ & [N1|(-> & V1 & E1)]),
      (Hmaps _ _ _ _ H2 R2 Hw M2) as (c20 & H20 & R20 & _ & [N2|(-> & V2 & E2)]).
    + by eapply (mi_inj _ Hinv).
    + destruct (maps_bound _ _ _ _ _ Hinv H10 R10 Hv N1). lia.
    + destruct (maps_bound _ _ _ _ _ Hinv H20 R20 Hw N2). lia.
    + split; [done|lia].
  - intros i j c1 c2 v page H1 H2 R1 R2 Hv M1.
    destruct (allocated_ctx _ _ _ _ _ _ _ _ _ Hcid Hc Ha H2) as (c20 & H20 & _ & _ & _ & P2 & _).
    assert (R20 : is_ready c20) by (unfold is_ready in *; by rewrite <- P2). rewrite P2.
    destruct (Hmaps _ _ _ _ H1 R1 Hv M1) as (c10 & H10 & R10 & _ & [N1|(-> & V1 & E1)]);
      [by eapply (mi_tables _ Hinv i j)|].
    pose proof (co_phys _ _ _ (mi_ok _ Hinv _ _ H20 R20)). lia.
Qed.
End allocation.

(** ** Freeing and creating contexts *)

Section operations.
Context {H : Type} `{!HostMemory H, !HostMemoryLaws H}.
Implicit Types (s : gpu_sys H) (h : H) (c : gpu_context).

(** The tables of the contexts are still there, and every entry is as it was
    or cleared. *)
Definition shrinks s h' : Prop :=
  ∀ j c, gd_ctx (sys_drv s) !! j = Some c → is_ready c →
    live h' (cx_cpu_ptr c) pt_bytes = true ∧
    ∀ v, 0 ≤ v < pt_entries → pte h' c v = 0 ∨ pte h' c v = pte (sys_host s) c v.

Lemma shrinks_maps s h' j c v page :
  shrinks s h' → gd_ctx (sys_drv s) !! j = Some c → is_ready c → 0 ≤ v < pt_entries →
  maps h' c v page → maps (sys_host s) c v page.
Proof.
  intros Hs Hj Hr Hv [Hp Hm]. destruct (Hs j c Hj Hr) as [_ He]. destruct (He v Hv) as [H0|H0].
  - rewrite H0 in Hp. assert (page = -1) by lia. subst. discriminate.
  - split; [congruence|done].
Qed.

Lemma shrink_inv s h' : mm_inv s → shrinks s h' → mm_inv (with_host h' s).
Proof.
  intros Hinv Hs. pose proof (λ j c v page, shrinks_maps s h' j c v page Hs) as Hm.
  destruct Hinv as [B1 B2 B3 B4 B5 B6 B7 B8 B9 B10]. split; simpl; try done.
  - intros i c Hi Hr. destruct (Hs i c Hi Hr) as [Hl He]. destruct (B7 i c Hi Hr) as [O1 O2 O3 O4 O5 O6].
    split; try done. intros v Hv. destruct (He v Hv) as [->|Heq]; [by left|].
    unfold maps. rewrite Heq. by apply O6.
  - intros i j c c' v w page Hi Hj Hr Hr' Hv Hw M1 M2. eapply (B9 i j); eauto.
  - intros i j c c' v page Hi Hj Hr Hr' Hv M1. eapply (B10 i j); eauto.
Qed.

Lemma shrinks_refl s : mm_inv s → shrinks s (sys_host s).
Proof. intros Hinv j c Hj Hr. split; [by apply (mi_ok _ Hinv j)|by right]. Qed.

Lemma clear_shrinks s j c v :
  mm_inv s → gd_ctx (sys_drv s) !! j = Some c → is_ready c → 0 ≤ v < pt_entries →
  shrinks s (host_store 8 (cx_cpu_ptr c + 8 * v) 0 (sys_host s)) ∧
  pte (host_store 8 (cx_cpu_ptr c + 8 * v) 0 (sys_host s)) c v = 0.
Proof.
  intros Hinv Hj Hr Hv. set (h' := host_store _ _ _ _).
  assert (Hz : pte h' c v = 0) by (apply host_store_load; lia). split; [|done].
  intros i c' Hi Hr'. split; [unfold h', host_store; rewrite host_write_live; by apply (mi_ok _ Hinv i)|].
  intros w Hw. destruct (decide (i = j ∧ w = v)) as [[-> ->]|Hne].
  { left. assert (c' = c) as -> by congruence. done. }
  right. apply pte_same. intros k Hk. unfold h'. rewrite host_store_byte, decide_False; [done|].
  destruct (decide (i = j)) as [->|Hij].
  - assert (c' = c) as -> by congruence. lia.
  - destruct (mi_apart _ Hinv _ _ _ _ Hi Hj Hr' Hr Hij) as [Ha _].
    unfold apart, pt_bytes, pt_entries in *. lia.
Qed.

Lemma unmap_spec n v c j s :
  mm_inv s → gd_ctx (sys_drv s) !! j = Some c → is_ready c → 0 ≤ v →
  ∃ r h', unmap_pages n v c s = Done (r, with_host h' s) ∧ shrinks s h' ∧
    (r = KOk tt → ∀ w, v ≤ w < v + Z.of_nat n → pte h' c w = 0).
Proof.
  revert v s. induction n as [|n IH]; intros v s Hinv Hj Hr Hv; cbn [unmap_pages].
  { exists (KOk tt), (sys_host s). split; [by destruct s|]. split; [by apply shrinks_refl|]. intros _ w Hw. lia. }
  pose proof (mi_ok _ Hinv _ _ Hj Hr) as Hok. rewrite (co_entries _ _ _ Hok).
  case_decide as Hle.
  { exists (KErr EINVAL), (sys_host s). split; [by destruct s|]. split; [by apply shrinks_refl|done]. }
  assert (Hl : live (sys_host s) (cx_cpu_ptr c + 8 * v) 8 = true).
  { apply (live_sub _ (cx_cpu_ptr c) pt_bytes); [apply Hok|unfold pt_bytes, pt_entries in *; lia..]. }
  rewrite (M_bind_done _ _ _ (pte (sys_host s) c v) s) by (unfold pte_load; by rewrite Hl).
  destruct (Z.testbit _ 0).
  2: { exists (KErr EINVAL), (sys_host s). split; [by destruct s|]. split; [by apply shrinks_refl|done]. }
  destruct (clear_shrinks s j c v Hinv Hj Hr ltac:(lia)) as [Hs1 Hz]. set (h1 := host_store _ _ _ _) in *.
  rewrite (M_bind_done _ _ _ tt (with_host h1 s)) by (unfold pte_store; by rewrite Hl).
  destruct (IH (v + 1) (with_host h1 s)) as (r & h' & E & Hs2 & Hzero); [by apply shrink_inv|done..|lia|].
  assert (Hs : shrinks s h').
  { intros i c' Hi Hr'. destruct (Hs1 i c' Hi Hr') as [_ H1], (Hs2 i c' Hi Hr') as [Hl2 H2]. split; [done|].
    intros w Hw. destruct (H2 w Hw) as [?|Heq]; [by left|]. simpl in Heq. rewrite Heq. by apply H1. }
  exists r, h'. split; [done|]. split; [done|]. intros Hok' w Hw.
  destruct (decide (w = v)) as [->|Hne]; [|apply Hzero; [done|lia]].
  destruct (Hs2 j c Hj Hr) as [_ H2]. destruct (H2 v ltac:(lia)) as [?|Heq]; [done|]. simpl in Heq. congruence.
Qed.

(** Room is taken from the device's memory. *)
Lemma next_inv s n :
  mm_inv s → gd_ddr_next (sys_drv s) ≤ n ≤ ddr_base + device_size → n mod 4096 = 0 →
  mm_inv (with_drv (set_next n (sys_drv s)) s).
Proof.
  intros [B1 B2 B3 B4 B5 B6 B7 B8 B9 B10] Hn Hm. split; simpl; try done; [lia|].
  intros i c Hi Hr. destruct (B7 i c Hi Hr) as [O1 O2 O3 O4 O5 O6]. split; try done; [lia..|].
  intros v Hv. destruct (O6 v Hv) as [?|(? & page & ? & ? & ?)]; [by left|right].
  split; [done|]. exists page. split_and!; [done..|lia].
Qed.

(** A slot is given to a context: one that is not ready, or one with an empty
    table of its own. *)
Lemma slot_inv s i c0 c :
  mm_inv s → gd_ctx (sys_drv s) !! i = Some c0 → cx_id c = Z.of_nat i + 1 →
  (is_ready c → ctx_ok (sys_host s) (gd_ddr_next (sys_drv s)) c ∧
     (∀ v, 0 ≤ v < pt_entries → pte (sys_host s) c v = 0) ∧
     ∀ j c', gd_ctx (sys_drv s) !! j = Some c' → is_ready c' →
       apart (cx_cpu_ptr c) (cx_cpu_ptr c') pt_bytes ∧ apart (cx_gpu_phys c) (cx_gpu_phys c') pt_bytes ∧
       ∀ v page, 0 ≤ v < pt_entries → maps (sys_host s) c' v page → page + 4096 ≤ cx_gpu_phys c) →
  mm_inv (with_drv (set_ctx i c (sys_drv s)) s).
Proof.
  intros [B1 B2 B3 B4 B5 B6 B7 B8 B9 B10] Hi Hid Hnew.
  assert (Hlk : ∀ j c', <[i := c]> (gd_ctx (sys_drv s)) !! j = Some c' →
    j = i ∧ c' = c ∨ j ≠ i ∧ gd_ctx (sys_drv s) !! j = Some c').
  { intros j c' [(-> & -> & _)|[Hne Hj]]%list_lookup_insert_Some; auto. }
  assert (Hempty : ∀ v page, is_ready c → 0 ≤ v < pt_entries → ¬ maps (sys_host s) c v page).
  { intros v page Hr Hv [Hp Hm]. destruct (Hnew Hr) as (_ & Hz & _). rewrite Hz in Hp by done.
    assert (page = -1) by lia. subst. discriminate. }
  split; simpl; try done; [by rewrite length_insert|..].
  - intros j c' [[-> ->]|[_ Hj]]%Hlk; [by right|by apply B6].
  - intros j c' [[-> ->]|[_ Hj]]%Hlk Hr; [by apply Hnew|by eapply B7].
  - intros j k c1 c2 [[-> ->]|[N1 H1]]%Hlk [[-> ->]|[N2 H2]]%Hlk R1 R2 Hne; [done|..|by eapply B8].
    + destruct (Hnew R1) as (_ & _ & Hap). destruct (Hap _ _ H2 R2) as (? & ? & _). done.
    + destruct (Hnew R2) as (_ & _ & Hap). destruct (Hap _ _ H1 R1) as (? & ? & _). unfold apart in *. lia.
  - intros j k c1 c2 v w page [[-> ->]|[N1 H1]]%Hlk [[-> ->]|[N2 H2]]%Hlk R1 R2 Hv Hw M1 M2;
      [by eapply Hempty in M1..|by eapply Hempty in M2|by eapply (B9 j k)].
  - intros j k c1 c2 v page [[-> ->]|[N1 H1]]%Hlk [[-> ->]|[N2 H2]]%Hlk R1 R2 Hv M1;
      [by eapply Hempty in M1..| |by eapply (B10 j k)].
    left. destruct (Hnew R2) as (_ & _ & Hap). destruct (Hap _ _ H1 R1) as (_ & _ & Hp). by eapply Hp.
Qed.

Lemma list_find_free (l : list gpu_context) i c :
  list_find (λ c, cx_id c = 0) l = Some (i, c) → l !! i = Some c ∧ cx_id c = 0.
Proof. intros (? & ? & _)%list_find_Some. done. Qed.

(** The host's side of a creation: the tables that are there stay. *)
Lemma alloc_shrinks s n a h' :
  mm_inv s → dma_alloc_coherent n (sys_host s) = Some (a, h') →
  shrinks s h' ∧ shrinks s (dma_free_coherent a h').
Proof.
  intros Hinv E. split; intros j c Hj Hr; pose proof (co_live _ _ _ (mi_ok _ Hinv _ _ Hj Hr)) as Hl;
    [destruct (dma_alloc_other _ _ _ _ _ _ E Hl) as (_ & Hl' & Hb)
    |destruct (dma_alloc_free _ _ _ _ _ _ E Hl) as (Hl' & Hb)]; try (unfold pt_bytes; lia);
    (split; [done|]; intros v Hv; right; apply pte_same; intros i Hi;
     rewrite <- Z.add_assoc; apply Hb; unfold pt_bytes, pt_entries in *; lia).
Qed.
(** The new table: in fresh host memory, and in the device behind everything
    else. *)
Lemma new_table_ok s a h' i :
  mm_inv s → dma_alloc_coherent pt_bytes (sys_host s) = Some (a, h') →
  gd_ddr_next (sys_drv s) + pt_bytes ≤ ddr_base + device_size →
  let c := mkContext (Z.of_nat i + 1) pt_entries a (gd_ddr_next (sys_drv s)) 0 in
  ctx_ok h' (gd_ddr_next (sys_drv s) + pt_bytes) c ∧ (∀ v, 0 ≤ v < pt_entries → pte h' c v = 0) ∧
  ∀ j c', gd_ctx (sys_drv s) !! j = Some c' → is_ready c' →
    apart a (cx_cpu_ptr c') pt_bytes ∧ apart (gd_ddr_next (sys_drv s)) (cx_gpu_phys c') pt_bytes ∧
    ∀ v page, 0 ≤ v < pt_entries → maps h' c' v page → page + 4096 ≤ gd_ddr_next (sys_drv s).
Proof.
  intros Hinv E Hroom c. pose proof (mi_next _ Hinv) as Hn. destruct (dma_alloc_live _ _ _ _ E) as (Hl & Ha & Hmax).
  assert (Hz : ∀ v, 0 ≤ v < pt_entries → pte h' c v = 0).
  { intros v Hv. unfold pte. rewrite (load_ext _ _ (λ _, 0) _ 0); [done|]. intros k Hk. simpl.
    rewrite <- Z.add_assoc. apply (dma_alloc_zero _ _ _ _ _ E). unfold pt_bytes, pt_entries in *. lia. }
  split_and!; [|done|].
  - split; simpl; try done; [unfold pt_bytes in *; lia..|]. intros v Hv. left. by apply Hz.
  - intros j c' Hj Hr. destruct (mi_ok _ Hinv _ _ Hj Hr) as [_ O2 _ O4 _ _].
    destruct (dma_alloc_other _ _ _ _ _ _ E O2) as (Hd & _); [by unfold pt_bytes|].
    split_and!; [unfold apart; lia..|]. intros v page Hv Hm.
    destruct (alloc_shrinks _ _ _ _ Hinv E) as [Hs _]. pose proof (shrinks_maps _ _ _ _ _ _ Hs Hj Hr Hv Hm) as Hm'.
    destruct (maps_bound _ _ _ _ _ Hinv Hj Hr Hv Hm'). lia.
Qed.

Lemma create_spec s :
  mm_inv s → ∃ r s', gpu_ctx_create s = Done (r, s') ∧ mm_inv s' ∧
    ∀ id, r = KOk id → 1 ≤ id ≤ 16 ∧
      ∃ c, gd_ctx (sys_drv s') !! Z.to_nat (id - 1) = Some c ∧ is_ready c ∧ cx_id c = id ∧ cx_vpage_next c = 0.
Proof.
  intros Hinv. unfold gpu_ctx_create. rewrite (M_bind_done _ _ _ (sys_drv s) s) by done.
  destruct (list_find _ _) as [[i c0]|] eqn:Ef; [|by exists (KErr ENOMEM), s].
  apply list_find_free in Ef as [Hi Hid]. rewrite (mi_size _ Hinv).
  change (device_size / PAGE_SIZE_4K) with pt_entries. change (8 * pt_entries) with pt_bytes.
  assert (Hphys : cx_gpu_phys c0 = 0) by (destruct (mi_ids _ Hinv _ _ Hi) as [[_ ?]|?]; [done|lia]).
  assert (Hlen : (i < 16)%nat) by (rewrite <- (mi_len _ Hinv); by eapply lookup_lt_Some).
  destruct (dma_alloc_coherent pt_bytes (sys_host s)) as [[a h']|] eqn:Ea; last first.
  { rewrite (M_bind_done _ _ _ None s) by (unfold alloc_coherent; by rewrite Ea).
    rewrite (M_bind_done _ _ _ tt (with_drv (set_ctx i (mkContext (Z.of_nat i + 1) pt_entries 0 (cx_gpu_phys c0) 0)
      (sys_drv s)) s)) by done.
    eexists _, _. split; [reflexivity|]. split; [|done]. apply (slot_inv _ _ c0); [done..|]. intros Hr. by destruct Hr. }
  rewrite (M_bind_done _ _ _ (Some a) (with_host h' s)) by (unfold alloc_coherent; by rewrite Ea).
  destruct (alloc_shrinks _ _ _ _ Hinv Ea) as [Hs1 Hs2]. pose proof (shrink_inv _ _ Hinv Hs1) as Hinv1.
  pose proof (ddr_alloc_spec pt_bytes (with_host h' s) Hinv1 ltac:(done)) as Hd.
  change (PAGE_ALIGN pt_bytes) with pt_bytes in Hd. simpl in Hd. pose proof (mi_next _ Hinv) as Hn.
  case_decide as Hroom; rewrite (M_bind_done _ _ _ _ _ Hd); clear Hd.
  - set (s2 := with_drv _ (with_host h' s)). set (c := mkContext _ _ _ _ _).
    rewrite (M_bind_done _ _ _ tt (with_drv (set_ctx i c (sys_drv s2)) s2)) by done.
    rewrite decide_False by (unfold ddr_base in *; lia). eexists _, _. split; [reflexivity|].
    destruct (new_table_ok s a h' i Hinv Ea Hroom) as (N1 & N2 & N3).
    split.
    + apply (slot_inv s2 i c0); [|done..]. apply (next_inv (with_host h' s)); [done|simpl; unfold pt_bytes in *; lia|].
      rewrite Z.add_mod, (mi_align _ Hinv) by lia. done.
    + intros id [= <-]. split; [lia|]. exists c. replace (Z.to_nat (Z.of_nat i + 1 - 1)) with i by lia.
      split_and!; [|unfold is_ready, c; simpl; unfold ddr_base in *; lia|done..].
      apply list_lookup_insert_eq. simpl. by eapply lookup_lt_Some.
  - set (c := mkContext _ _ _ _ _).
    rewrite (M_bind_done _ _ _ tt (with_drv (set_ctx i c (sys_drv s)) (with_host h' s))) by done.
    rewrite decide_True by done.
    eexists _, _. split; [reflexivity|]. split; [|done].
    apply (slot_inv (with_host (dma_free_coherent a h') s) i c0); [by apply shrink_inv|done..|].
    intros Hr. by destruct Hr.
Qed.
End operations.

(** ** The operations of user space *)

Section system.
Context {H : Type} `{!HostMemory H, !HostMemoryLaws H}.
Implicit Types (s : gpu_sys H) (h : H) (c : gpu_context).

Inductive gpu_op : Set :=
| OpCreateCtx
| OpAlloc (ctx_id size : Z)
| OpFree (va size : Z)
| OpBind (ctx_id : Z).

Definition ignore {W A : Type} (m : M W A) : M W unit := _ ← m; mret tt.

Definition gpu_exec (op : gpu_op) : M (gpu_sys H) unit :=
  match op with
  | OpCreateCtx => ignore gpu_ctx_create
  | OpAlloc cid size => ignore (gpu_alloc cid size)
  | OpFree va size => ignore (gpu_free va size)
  | OpBind cid => ignore (gpu_bind_context cid)
  end.

(** The context at [ctx_id], and that its creation succeeded. *)
Definition ready_ctx s (cid : Z) c : Prop :=
  1 ≤ cid ≤ 16 ∧ gd_ctx (sys_drv s) !! Z.to_nat (cid - 1) = Some c ∧ is_ready c.

(** Requests that name contexts whose creation succeeded; sizes are 32 bits
    wide in the requests. *)
Definition op_ok s (op : gpu_op) : Prop :=
  match op with
  | OpCreateCtx => True
  | OpAlloc cid size => 0 ≤ size < 2 ^ 32 ∧ ∃ c, ready_ctx s cid c
  | OpFree va size => 0 ≤ va ∧ (gpu_va_to_ctx va = 0 ∨ gpu_va_to_ctx va > 16 ∨ ∃ c, ready_ctx s (gpu_va_to_ctx va) c)
  | OpBind cid => 0 ≤ cid
  end.

(** A request served from its start to its end. *)
Definition gpu_step s s' : Prop := ∃ op, op_ok s op ∧ gpu_exec op s = Done (tt, s').

(** The state after the probe of the device. *)
Definition no_context : gpu_context := mkContext 0 0 0 0 0.
Definition gpu_start h (d : GPGPU) : gpu_sys H :=
  mkGpu h d (mkDevice (replicate 16 no_context) ddr_base device_size ddr_base 0).

Lemma start_inv h d : mm_inv (gpu_start h d).
Proof.
  assert (Hno : ∀ i c, replicate 16 no_context !! i = Some c → c = no_context).
  { intros i c [-> _]%lookup_replicate. done. }
  split; simpl; try done.
  - intros i c ->%Hno. by left.
  - intros i c ->%Hno Hr. by destruct Hr.
  - intros i j c c' ->%Hno _ Hr. by destruct Hr.
  - intros i j c c' v w page ->%Hno _ Hr. by destruct Hr.
  - intros i j c c' v page ->%Hno _ Hr. by destruct Hr.
Qed.

(** Only registers change. *)
Lemma dev_inv s d : mm_inv s → mm_inv (with_dev d s).
Proof. by intros []. Qed.

Lemma bind_spec cid c s :
  1 ≤ cid ≤ 16 → gd_ctx (sys_drv s) !! Z.to_nat (cid - 1) = Some c →
  ∃ d, gpu_bind_context cid s = Done (KOk tt, with_dev d s) ∧ g_mem d = g_mem (sys_dev s) ∧
    reg REG_MMU_PT d = lower_32_bits (cx_gpu_phys c).
Proof.
  intros Hcid Hc. unfold gpu_bind_context, MAX_CONTEXTS. rewrite decide_False by lia.
  rewrite (M_bind_done _ _ _ c s) by (unfold get_ctx, MAX_CONTEXTS; rewrite decide_True by done; by rewrite Hc).
  unfold gpu_program_context, mbind, M_bind. rewrite !writel_plain by done. unfold mret, M_ret.
  eexists. split; [reflexivity|]. split; [done|]. simpl.
  change (u32 (u32 (cx_gpu_phys c)) = u32 (cx_gpu_phys c)). apply u32_idem.
Qed.

Lemma exec_safe s op : mm_inv s → op_ok s op → ∃ s', gpu_exec op s = Done (tt, s') ∧ mm_inv s'.
Proof.
  intros Hinv Hop. destruct op as [|cid size|va size|cid]; simpl in *; unfold ignore.
  - destruct (create_spec s Hinv) as (r & s' & E & Hi & _). exists s'. by rewrite (M_bind_done _ _ _ _ _ E).
  - destruct Hop as (Hs & c & Hcid & Hc & Hr). pose proof (gpu_alloc_spec cid size c s Hinv Hcid Hc Hr Hs) as Ha.
    destruct (PAGE_ALIGN_spec size ltac:(lia)) as [Hm Hal].
    case_decide; [destruct Ha as (va & pa & s' & E & Ha)|]; last by rewrite (M_bind_done _ _ _ _ _ Ha); exists s.
    exists s'. rewrite (M_bind_done _ _ _ _ _ E). split; [done|].
    by eapply (alloc_inv cid (PAGE_ALIGN size) c s); try done; lia.
  - destruct Hop as [Hva Hop]. unfold gpu_free, MAX_CONTEXTS. case_decide as Hd; [by exists s|].
    destruct Hop as [?|[?|(c & Hcid & Hc & Hr)]]; [lia..|].
    set (body := unmap_pages _ _).
    assert (Hg : get_ctx (gpu_va_to_ctx va) s = Done (c, s))
      by (unfold get_ctx, MAX_CONTEXTS; rewrite decide_True by done; by rewrite Hc).
    destruct (unmap_spec (Z.to_nat (PAGE_ALIGN32 size / 4096)) (gpu_va_to_vpage va) c _ s Hinv Hc Hr)
      as (r & h' & E & Hsh & _).
    { unfold gpu_va_to_vpage. apply Z.land_nonneg. right. lia. }
    exists (with_host h' s). split; [|by apply shrink_inv].
    erewrite M_bind_done; [reflexivity|]. by rewrite (M_bind_done _ _ _ _ _ Hg).
  - destruct (decide (cid = 0 ∨ cid > 16)) as [Hd|Hd].
    + exists s. unfold gpu_bind_context, MAX_CONTEXTS. by rewrite decide_True.
    + destruct (lookup_lt_is_Some_2 (gd_ctx (sys_drv s)) (Z.to_nat (cid - 1))) as [c Hc];
        [rewrite (mi_len _ Hinv); lia|].
      destruct (bind_spec cid c s ltac:(lia) Hc) as (d & E & _). rewrite (M_bind_done _ _ _ _ _ E).
      exists (with_dev d s). split; [done|by apply dev_inv].
Qed.

Lemma reach_inv h d s : rtc gpu_step (gpu_start h d) s → mm_inv s.
Proof.
  intros Hr. refine (rtc_invariant _ mm_inv _ _ _ Hr (start_inv h d)).
  intros s1 s2 Hi (op & Hop & E). destruct (exec_safe s1 op Hi Hop) as (s' & E' & Hi').
  rewrite E in E'. by injection E' as <-.
Qed.

(** The device's translation of an address of the allocation. *)
Lemma allocated_translates cid size c s s' s2 va pa off :
  mm_inv s → ready_ctx s cid c → 0 ≤ size → size mod 4096 = 0 →
  gd_ddr_next (sys_drv s) + size ≤ ddr_base + device_size →
  allocated cid size c s s' va pa → 0 ≤ off < size →
  g_mem (sys_dev s2) = g_mem (sys_dev s') → reg REG_MMU_PT (sys_dev s2) = lower_32_bits (cx_gpu_phys c) →
  gpu_translate_va (va + off) (sys_dev s2) = Done (pa + off).
Proof.
  intros Hinv (Hcid & Hc & Hr) Hs Hm Hroom Ha Hoff Hmem Hreg.
  destruct (mi_ok _ Hinv _ _ Hc Hr) as [O1 O2 O3 O4 O5 _]. pose proof (mi_next _ Hinv) as Hn.
  pose proof (Z.div_mod size 4096 ltac:(lia)) as Hdiv. pose proof (Z.div_mod off 4096 ltac:(lia)) as Hdo.
  pose proof (Z.mod_pos_bound off 4096 ltac:(lia)) as Hmo.
  assert (Hid : cx_id c = cid) by (destruct (mi_ids _ Hinv _ _ Hc) as [[_ ?]| ->]; [by destruct Hr|lia]).
  set (k := off / 4096) in *. unfold ddr_base, device_size, pt_bytes, pt_entries in *.
  assert (Hva : va = cid * 2 ^ 48 + cx_vpage_next c * 4096).
  { rewrite (al_va _ _ _ _ _ _ _ Ha), Hid, !Z.shiftl_mul_pow2 by lia. change (2 ^ 12) with 4096.
    apply lor_high; lia. }
  assert (Hvpage : Z.land (Z.shiftr (va + off) 12) 0xFFFFFFFFF = cx_vpage_next c + k).
  { change 0xFFFFFFFFF with (Z.ones 36). rewrite Z.land_ones, Z.shiftr_div_pow2 by lia.
    change (2 ^ 12) with 4096. replace ((va + off) / 4096) with (cx_vpage_next c + k + cid * 2 ^ 36).
    - rewrite Z.mod_add by lia. apply Z.mod_small. lia.
    - rewrite Hva. replace (cid * 2 ^ 48 + cx_vpage_next c * 4096 + off) with (off + (cid * 2 ^ 36 + cx_vpage_next c) * 4096) by lia.
      rewrite Z.div_add by lia. fold k. lia. }
  assert (Hpt : gpu_local_ddr_address (reg REG_MMU_PT (sys_dev s2)) = cx_gpu_phys c - 0x80000000).
  { rewrite Hreg. unfold gpu_local_ddr_address, lower_32_bits, ddr_base. rewrite u32_id by lia.
    rewrite u64_id by lia. apply int32_id. lia. }
  pose proof (al_pa _ _ _ _ _ _ _ Ha) as Hpa. pose proof (mi_align _ Hinv) as Hal.
  replace (pa + off) with (pa + k * 4096 + (va + off) mod 4096).
  2: { rewrite Hva. replace (cid * 2 ^ 48 + cx_vpage_next c * 4096 + off) with (off + (cid * 2 ^ 36 + cx_vpage_next c) * 4096) by lia.
       rewrite Z.mod_add by lia. lia. }
  apply translate_entry; rewrite ?Hpt, ?Hvpage; unfold device_size; try lia.
  - rewrite Z.mod_add by lia. by rewrite Hpa.
  - rewrite lor_one by (rewrite Z.mod_add by lia; by rewrite Hpa).
    rewrite Hmem, (al_mem _ _ _ _ _ _ _ Ha), load_copy by (unfold ddr_base, pt_bytes; lia).
    pose proof (al_new _ _ _ _ _ _ _ Ha (cx_vpage_next c + k) ltac:(lia)) as He. unfold pte in He.
    replace (cx_gpu_phys c - 0x80000000 + (cx_vpage_next c + k) * 8 - (cx_gpu_phys c - ddr_base) + cx_cpu_ptr c)
      with (cx_cpu_ptr c + 8 * (cx_vpage_next c + k)) by (unfold ddr_base; lia).
    rewrite He. lia.
Qed.

End system.

(** ** Properties *)

Section properties.
Context {H : Type} `{!HostMemory H, !HostMemoryLaws H}.
Implicit Types (s : gpu_sys H) (h : H) (c : gpu_context).

(** C32: served one at a time, requests leave the memory manager safe: in
    every state user space can reach by creating contexts, allocating, freeing
    and binding, each request completed before the next begins and naming a
    context whose creation succeeded, the page tables lie in live host memory,
    every mapped page is page aligned and inside the part of the device's
    memory that was handed out, no page is mapped twice, by one context or by
    two, no page is part of a page table, and the tables are apart; a further
    request of this kind returns, without an invalid access of the kernel or
    of the device; and an allocation that names no slot of the array of
    contexts, which the driver does not check, is an access outside it. *)
Theorem gpu_memory_safe h d s :
  rtc gpu_step (gpu_start h d) s →
  mm_inv s ∧ (∀ op, op_ok s op → ∃ s', gpu_exec op s = Done (tt, s') ∧ mm_inv s') ∧
  ∀ cid size, ¬ 1 ≤ cid ≤ 16 → gpu_alloc cid size s = Panics "context index out of bounds".
Proof.
  intros Hr%reach_inv. split_and!; [done|intros op Hop; by apply exec_safe|]. intros cid size Hcid.
  unfold gpu_alloc, mbind, M_bind, get_ctx, MAX_CONTEXTS. by rewrite decide_False.
Qed.

(** C33: memory a context allocates is the memory its kernels see: in every
    state reachable by requests served one at a time in which the device has
    room for the request, [gpu_alloc] answers with an address, binding the
    context succeeds, and the device then translates every byte of the
    allocation to the corresponding byte of the physical range it was
    given. *)
Theorem alloc_bind_translate h d s cid req c :
  rtc gpu_step (gpu_start h d) s → ready_ctx s cid c → 0 ≤ req < 2 ^ 32 →
  gd_ddr_next (sys_drv s) + PAGE_ALIGN req ≤ ddr_base + device_size →
  ∃ va pa s1 s2, gpu_alloc cid req s = Done (KOk (va, pa), s1) ∧
    gpu_bind_context cid s1 = Done (KOk tt, s2) ∧ pa = gd_ddr_next (sys_drv s) ∧
    ∀ off, 0 ≤ off < PAGE_ALIGN req → gpu_translate_va (va + off) (sys_dev s2) = Done (pa + off).
Proof.
  intros Hinv%reach_inv (Hcid & Hc & Hr) Hreq Hroom.
  pose proof (gpu_alloc_spec cid req c s Hinv Hcid Hc Hr Hreq) as Ha. rewrite decide_True in Ha by done.
  destruct Ha as (va & pa & s1 & E & Ha). destruct (PAGE_ALIGN_spec req ltac:(lia)) as [Hm Hal].
  assert (Hc1 : gd_ctx (sys_drv s1) !! Z.to_nat (cid - 1) = Some (mkContext (cx_id c) (cx_num_entries c)
    (cx_cpu_ptr c) (cx_gpu_phys c) (cx_vpage_next c + PAGE_ALIGN req / 4096))).
  { rewrite (al_drv _ _ _ _ _ _ _ Ha). apply list_lookup_insert_eq. simpl. by eapply lookup_lt_Some. }
  destruct (bind_spec cid _ s1 Hcid Hc1) as (dv & Eb & Hmem & Hreg).
  exists va, pa, s1, (with_dev dv s1). split_and!; [done..|by apply (al_pa _ _ _ _ _ _ _ Ha)|].
  intros off Hoff. apply (allocated_translates cid (PAGE_ALIGN req) c s s1); try done; lia.
Qed.

(** Freeing unmaps in the host's copy of the table only: [gpu_free] of an
    address of a created context returns, on success every page of the range
    is unmapped in the table the driver keeps, and the device, whose copy of
    the table is not refreshed, translates every address as before. *)
Theorem gpu_free_leaves_device h d s va size c :
  rtc gpu_step (gpu_start h d) s → 0 ≤ va → ready_ctx s (gpu_va_to_ctx va) c →
  ∃ r s', gpu_free va size s = Done (r, s') ∧ sys_drv s' = sys_drv s ∧
    (r = KOk tt → ∀ w, gpu_va_to_vpage va ≤ w < gpu_va_to_vpage va + PAGE_ALIGN32 size / 4096 →
       pte (sys_host s') c w = 0) ∧
    ∀ x, gpu_translate_va x (sys_dev s') = gpu_translate_va x (sys_dev s).
Proof.
  intros Hinv%reach_inv Hva (Hcid & Hc & Hr). unfold gpu_free, MAX_CONTEXTS. rewrite decide_False by lia.
  assert (Hg : get_ctx (gpu_va_to_ctx va) s = Done (c, s))
    by (unfold get_ctx, MAX_CONTEXTS; rewrite decide_True by done; by rewrite Hc).
  destruct (unmap_spec (Z.to_nat (PAGE_ALIGN32 size / 4096)) (gpu_va_to_vpage va) c _ s Hinv Hc Hr)
    as (r & h' & E & _ & Hz).
  { unfold gpu_va_to_vpage. apply Z.land_nonneg. right. lia. }
  exists r, (with_host h' s). rewrite (M_bind_done _ _ _ _ _ Hg). split; [done|]. split; [done|].
  split; [|done]. intros Hr' w Hw. apply Hz; [done|]. lia.
Qed.
End properties.

(** ** Overlapping allocations *)

(** Two calls of [gpu_alloc] on two contexts, each under the lock of its own
    context, that overlap: both read [ddr_next] before either advances it. *)
Definition racing_allocs {H : Type} `{!HostMemory H} (cid1 cid2 size1 size2 : Z) :
    M (gpu_sys H) (kres (Z * Z) * kres (Z * Z)) :=
  c1 ← get_ctx cid1; c2 ← get_ctx cid2;
  let size1 := PAGE_ALIGN (PAGE_ALIGN size1) in
  let size2 := PAGE_ALIGN (PAGE_ALIGN size2) in
  a1 ← ddr_claim size1; a2 ← ddr_claim size2;
  match a1, a2 with
  | Some pa1, Some pa2 =>
    _ ← ddr_advance size1; _ ← ddr_advance size2;
    r1 ← alloc_at cid1 size1 c1 pa1; r2 ← alloc_at cid2 size2 c2 pa2; mret (r1, r2)
  | _, _ => mret (KErr ENOMEM, KErr ENOMEM)
  end.

(** ** Witnesses *)

Definition host0 : flat_host := mkHost (λ _, 0) 4096 [].
Definition gpu0 : GPGPU := mkGPGPU (λ _, 0) (λ _, 0) true 0.

(** The state after one context was created. *)
Definition one_context : gpu_sys flat_host :=
  match gpu_exec OpCreateCtx (gpu_start host0 gpu0) with Done (_, s) => s | Panics _ => gpu_start host0 gpu0 end.

Lemma one_context_reachable : rtc gpu_step (gpu_start host0 gpu0) one_context.
Proof. apply rtc_once. exists OpCreateCtx. split; [done|]. reflexivity. Qed.

Lemma one_context_ready : ∃ c, ready_ctx one_context 1 c.
Proof. eexists. split; [lia|]. split; [reflexivity|]. done. Qed.

Lemma gpu_memory_safe_witness : mm_inv one_context ∧ ∃ s', gpu_exec (OpAlloc 1 5000) one_context = Done (tt, s').
Proof.
  destruct (gpu_memory_safe host0 gpu0 one_context one_context_reachable) as (Hi & Ho & _). split; [exact Hi|].
  destruct (Ho (OpAlloc 1 5000)) as (s' & E & _); [split; [lia|exact one_context_ready]|]. exists s'. exact E.
Defined.

Lemma alloc_bind_translate_witness : ∃ va pa s1 s2,
  gpu_alloc 1 5000 one_context = Done (KOk (va, pa), s1) ∧ gpu_bind_context 1 s1 = Done (KOk tt, s2) ∧
  gpu_translate_va (va + 5000) (sys_dev s2) = Done (pa + 5000).
Proof.
  destruct one_context_ready as [c Hc].
  destruct (alloc_bind_translate host0 gpu0 one_context 1 5000 c one_context_reachable Hc) as (va & pa & s1 & s2 & E1 & E2 & _ & Ht);
    [lia|vm_compute; discriminate|].
  exists va, pa, s1, s2. split; [exact E1|]. split; [exact E2|]. apply Ht. vm_compute. split; [discriminate|reflexivity].
Defined.

Lemma gpu_free_leaves_device_witness : ∃ r s', gpu_free (2 ^ 48) 4096 one_context = Done (r, s') ∧
  sys_drv s' = sys_drv one_context.
Proof.
  destruct one_context_ready as [c Hc].
  destruct (gpu_free_leaves_device host0 gpu0 one_context (2 ^ 48) 4096 c one_context_reachable) as (r & s' & E & Hd & _);
    [lia|exact Hc|].
  exists r, s'. split; [exact E|exact Hd].
Defined.

(** The state after a second context was created. *)
Definition two_contexts : gpu_sys flat_host :=
  match gpu_exec OpCreateCtx one_context with Done (_, s) => s | Panics _ => one_context end.

Definition reply_of {W A : Type} (m : M W A) (w : W) : option A :=
  match m w with Done (x, _) => Some x | Panics _ => None end.
Definition state_after {W A : Type} (m : M W A) (w : W) : W :=
  match m w with Done (_, w') => w' | Panics _ => w end.

Lemma reply_of_done {W A : Type} (m : M W A) (w : W) x : reply_of m w = Some x → m w = Done (x, state_after m w).
Proof. unfold reply_of, state_after. destruct (m w) as [[y w']|]; [by intros [= ->]|done]. Qed.

(** Two allocations on two contexts that overlap both succeed, with the same
    physical address, and the device translates the two virtual addresses to
    the same memory: each context reads and writes what the other stores. *)
Theorem overlapping_allocs_share_memory : ∃ va1 va2 pa s1 s2 s3,
  racing_allocs 1 2 4096 4096 two_contexts = Done ((KOk (va1, pa), KOk (va2, pa)), s1) ∧
  gpu_bind_context 1 s1 = Done (KOk tt, s2) ∧ gpu_translate_va va1 (sys_dev s2) = Done pa ∧
  gpu_bind_context 2 s2 = Done (KOk tt, s3) ∧ gpu_translate_va va2 (sys_dev s3) = Done pa.
Proof.
  set (s1 := state_after (racing_allocs 1 2 4096 4096) two_contexts).
  set (s2 := state_after (gpu_bind_context 1) s1). set (s3 := state_after (gpu_bind_context 2) s2).
  exists (2 ^ 48), (2 ^ 49), 0x80080000, s1, s2, s3.
  split; [refine (reply_of_done _ _ _ _); vm_compute; reflexivity|].
  split; [refine (reply_of_done _ _ _ _); vm_compute; reflexivity|].
  split; [vm_compute; reflexivity|].
  split; [refine (reply_of_done _ _ _ _); vm_compute; reflexivity|vm_compute; reflexivity].
Qed.
